(** * zconvo.lv2: the partitioned convolver, the time-domain tail and the
      hot-swap protocol of the plugin, embedded and checked against the
      specification.

    Sources embedded here:
    - [zeta-convolver.cc] (classes [Convproc] and [Convlevel]),
    - [convolver.cc] ([TimeDomainConvolver], [DelayLine], [Convolver]),
    - [audiosrc.h], [audiosrc.cc] (the readers of an impulse response),
    - [lv2.cc] (the plugin facade: [instantiate], [activate], [run],
      [run_cfg], [work], [work_response], [load_ir_worker], [opts_set],
      [save], [restore]).

    Conventions.  A [uint32_t] is a [Z] in [0, 2^32) and every arithmetic
    result is reduced with [wrap32].  A [float] is an IEEE binary32 number,
    represented by [spec_float] with precision 24 and maximal exponent 128,
    so that sums, products and comparisons round as the C code does.  A C
    array is a list; a read outside the array has no defined value in C and
    yields the default element here, a write outside the array is dropped. *)

From Stdlib Require Import ZArith Lia Bool.
From Stdlib Require Import Floats.SpecFloat.
From stdpp Require Import base option list strings.

Local Open Scope Z_scope.

(** ** Machine integers *)

Definition wrap32 (z : Z) : Z := z mod 2 ^ 32.

(** Conversion of an unsigned 32 bit value to [int] (two's complement). *)
Definition to_int32 (z : Z) : Z := (z + 2 ^ 31) mod 2 ^ 32 - 2 ^ 31.

(** ** Single precision floats *)

Definition float32 : Type := spec_float.

Definition f32_of_Z (z : Z) : float32 := binary_normalize 24 128 z 0 false.
Definition f32_zero : float32 := S754_zero false.
Definition f32_one : float32 := f32_of_Z 1.
(** The literal [0.5f]. *)
Definition f32_half : float32 := binary_normalize 24 128 1 (-1) false.
Definition f32_add : float32 -> float32 -> float32 := SFadd 24 128.
Definition f32_sub : float32 -> float32 -> float32 := SFsub 24 128.
Definition f32_mul : float32 -> float32 -> float32 := SFmul 24 128.
Definition f32_div : float32 -> float32 -> float32 := SFdiv 24 128.
Definition f32_ltb : float32 -> float32 -> bool := SFltb.
Definition f32_leb : float32 -> float32 -> bool := SFleb.
Definition f32_eqb : float32 -> float32 -> bool := SFeqb.

(** ** Double precision floats *)

Definition float64 : Type := spec_float.

(** The conversion of an integer to [double]. *)
Definition f64_of_Z (z : Z) : float64 := binary_normalize 53 1024 z 0 false.

(** [ceil]. *)
Definition f64_ceil (x : float64) : float64 :=
  match x with
  | S754_finite s m e =>
      if 0 <=? e then x
      else binary_normalize 53 1024 (- ((- cond_Zopp s (Zpos m)) / 2 ^ (- e))) 0 s
  | _ => x
  end.

(** The conversion of a [double] to [uint64_t]: the fraction is dropped.
    C++ defines it for the values whose integral part is in the range of
    the type; elsewhere (a negative value, an infinity, a NaN) the model
    wraps or answers 0. *)
Definition u64_of_f64 (x : float64) : Z :=
  match x with
  | S754_finite s m e =>
      (cond_Zopp s (if 0 <=? e then Zpos m * 2 ^ e else Zpos m / 2 ^ (- e))) mod 2 ^ 64
  | _ => 0
  end.

(** [fftwf_complex] is [float[2]]. *)
Definition fftwf_complex : Type := float32 * float32.
Definition c32_zero : fftwf_complex := (f32_zero, f32_zero).

(** ** Arrays *)

(** [a[i]] for reading. *)
Definition rd {A} (d : A) (a : list A) (i : Z) : A :=
  if i <? 0 then d else default d (a !! Z.to_nat i).

(** [a[i] = x]. *)
Definition wr {A} (a : list A) (i : Z) (x : A) : list A :=
  if i <? 0 then a else <[Z.to_nat i := x]> a.

(** [memcpy (dst + off, src, n)] with [src] holding the [n] elements. *)
Definition blit {A} (dst : list A) (off : Z) (src : list A) : list A :=
  let o := Z.to_nat off in
  take (length dst) (take o dst ++ src ++ drop (o + length src) dst).

(** The [n] elements of [a] starting at [off]. *)
Definition slice {A} (a : list A) (off n : Z) : list A :=
  take (Z.to_nat n) (drop (Z.to_nat off) a).

(** [calloc_real (k)] and [calloc_complex (k)]: zero filled blocks. *)
Definition calloc_real (k : Z) : list float32 := replicate (Z.to_nat k) f32_zero.
Definition calloc_complex (k : Z) : list fftwf_complex :=
  replicate (Z.to_nat k) c32_zero.

(** ** The constants of zeta-convolver.h

    The header that declares the classes is not part of the sources at
    hand; its enumerators are taken as parameters of the development. *)

Class ZetaHeader := {
  MAXINP : Z;
  MAXOUT : Z;
  MAXLEV : Z;
  MINPART : Z;
  MAXPART : Z;
  MAXDIVIS : Z;
  MINQUANT : Z;
  MAXQUANT : Z;
  OPT_LATE_CONTIN : Z;
  FL_LOAD : Z
}.

(** What the code relies on: the limits are positive 32 bit values, and
    eight times the largest partition still fits. *)
Class ZetaHeaderOk (H : ZetaHeader) : Prop := {
  minquant_pos : 0 < MINQUANT;
  minpart_pos : 0 < MINPART;
  maxquant_fits : MAXQUANT < 2 ^ 32;
  maxpart_fits : 8 * MAXPART <= 2 ^ 32;
  maxdivis_fits : 0 <= MAXDIVIS /\ MAXDIVIS * MAXQUANT < 2 ^ 32;
  maxinp_fits : 0 <= MAXINP < 2 ^ 31;
  maxout_fits : 0 <= MAXOUT < 2 ^ 31;
  opt_late_fits : 0 <= OPT_LATE_CONTIN < 2 ^ 32;
  fl_load_fits : 0 <= FL_LOAD < 2 ^ 31
}.

(** The values of libzita-convolver 4, from which the class is derived;
    used for the concrete examples only. *)
Definition zita4 : ZetaHeader := {|
  MAXINP := 64;
  MAXOUT := 64;
  MAXLEV := 8;
  MINPART := 64;
  MAXPART := 8192;
  MAXDIVIS := 16;
  MINQUANT := 16;
  MAXQUANT := 8192;
  OPT_LATE_CONTIN := 4;
  FL_LOAD := 16777216
|}.

(** ** FFTW

    [fftwf_execute_dft_r2c] and [fftwf_execute_dft_c2r] for a plan of [n]
    real points ([n / 2 + 1] complex bins).  The transforms are those of
    the library; the development is parametric in them. *)

Class FFTW := {
  dft_r2c : Z -> list float32 -> list fftwf_complex;
  dft_c2r : Z -> list fftwf_complex -> list float32
}.

(** A transform that returns zeros, for the concrete examples. *)
Definition fftw_null : FFTW := {|
  dft_r2c := fun n _ => calloc_complex (n / 2 + 1);
  dft_c2r := fun n _ => calloc_real n
|}.

(** [for (k = 0; k < n; k++) body], threading the state [s]. *)
Definition for_upto {S} (n : Z) (body : Z -> S -> S) (s : S) : S :=
  fold_left (fun s k => body k s) (seqZ 0 n) s.

(** [q[i] += p[off + i]] for [i < n]. *)
Definition mix_into (q p : list float32) (off n : Z) : list float32 :=
  for_upto n (fun i q => wr q i (f32_add (rd f32_zero q i) (rd f32_zero p (off + i)))) q.

(** ** The nodes of a level (zeta-convolver.cc)

    The nodes are linked lists in the source; a list of nodes stands for
    the chain from its head.  A [Macnode] points to its [Inpnode] with
    [_inpn]; [findmacnode] keeps one [Inpnode] per input number, and the
    pointer is represented by that number. *)

Module Inpnode.
Record t := mk {
  _ffta : list (list fftwf_complex);
  _npar : Z;
  _inp : Z
}.

(** [Inpnode::Inpnode (uint16_t inp)]. *)
Definition new (inp : Z) : t := mk [] 0 (inp mod 2 ^ 16).

(** [Inpnode::alloc_ffta (uint16_t npar, int32_t size)]. *)
Definition alloc_ffta (npar size : Z) (X : t) : t :=
  let npar := npar mod 2 ^ 16 in
  mk (replicate (Z.to_nat npar) (calloc_complex (size + 1))) npar (_inp X).
End Inpnode.

Module Macnode.
Record t := mk {
  _inpn : Z;
  (** [_link->_fftb] when [_link] is not null; nothing in this source
      sets [_link]. *)
  _link : option (list (option (list fftwf_complex)));
  _fftb : option (list (option (list fftwf_complex)));
  _npar : Z
}.

(** [Macnode::Macnode (Inpnode* inpn)]. *)
Definition new (inpn : Z) : t := mk inpn None None 0.

(** [Macnode::alloc_fftb (uint16_t npar)]. *)
Definition alloc_fftb (npar : Z) (M : t) : t :=
  let npar := npar mod 2 ^ 16 in
  mk (_inpn M) (_link M) (Some (replicate (Z.to_nat npar) None)) npar.

(** [M->_link ? M->_link->_fftb[j] : M->_fftb[j]]. *)
Definition partition (M : t) (j : Z) : option (list fftwf_complex) :=
  match _link M with
  | Some lk => rd None lk j
  | None => rd None (default [] (_fftb M)) j
  end.

Definition set_fftb (v : option (list (option (list fftwf_complex)))) (M : t) : t :=
  mk (_inpn M) (_link M) v (_npar M).
End Macnode.

Module Outnode.
Record t := mk {
  _list : list Macnode.t;
  _buff : list (list float32);
  _out : Z
}.

(** [Outnode::Outnode (uint16_t out, int32_t size)]. *)
Definition new (out size : Z) : t :=
  mk [] [calloc_real size; calloc_real size; calloc_real size] (out mod 2 ^ 16).

Definition set_list (v : list Macnode.t) (Y : t) : t := mk v (_buff Y) (_out Y).
Definition set_buff (v : list (list float32)) (Y : t) : t := mk (_list Y) v (_out Y).
End Outnode.

(** ** Convlevel *)

Module Convlevel.
Inductive stat := ST_IDLE | ST_TERM | ST_PROC.

#[global] Instance stat_eq_dec : EqDecision stat.
Proof. solve_decision. Defined.

(** [_trig] and [_done] are the counts of the two semaphores.  The
    pointers [_inpbuff] and [_outbuff] to the buffers of the owning
    [Convproc] are not fields here: the buffers are passed to the
    operations that read or write them.  The members that the
    constructor leaves unset start at 0. *)
Record t := mk {
  _stat : stat;
  _prio : Z;
  _offs : Z;
  _npar : Z;
  _parsize : Z;
  _options : Z;
  _inpsize : Z;
  _outsize : Z;
  _inpoffs : Z;
  _outoffs : Z;
  _bits : Z;
  _wait : Z;
  _ptind : Z;
  _opind : Z;
  _trig : Z;
  _done : Z;
  _inp_list : list Inpnode.t;
  _out_list : list Outnode.t;
  _time_data : list float32;
  _prep_data : list float32;
  _freq_data : list fftwf_complex
}.

(** [Convlevel::Convlevel ()]. *)
Definition new : t :=
  mk ST_IDLE 0 0 0 0 0 0 0 0 0 0 0 0 0 0 0 [] [] [] [] [].

Definition set_stat v L := mk v (_prio L) (_offs L) (_npar L) (_parsize L) (_options L) (_inpsize L) (_outsize L) (_inpoffs L) (_outoffs L) (_bits L) (_wait L) (_ptind L) (_opind L) (_trig L) (_done L) (_inp_list L) (_out_list L) (_time_data L) (_prep_data L) (_freq_data L).
Definition set_inpoffs v L := mk (_stat L) (_prio L) (_offs L) (_npar L) (_parsize L) (_options L) (_inpsize L) (_outsize L) v (_outoffs L) (_bits L) (_wait L) (_ptind L) (_opind L) (_trig L) (_done L) (_inp_list L) (_out_list L) (_time_data L) (_prep_data L) (_freq_data L).
Definition set_outoffs v L := mk (_stat L) (_prio L) (_offs L) (_npar L) (_parsize L) (_options L) (_inpsize L) (_outsize L) (_inpoffs L) v (_bits L) (_wait L) (_ptind L) (_opind L) (_trig L) (_done L) (_inp_list L) (_out_list L) (_time_data L) (_prep_data L) (_freq_data L).
Definition set_wait v L := mk (_stat L) (_prio L) (_offs L) (_npar L) (_parsize L) (_options L) (_inpsize L) (_outsize L) (_inpoffs L) (_outoffs L) (_bits L) v (_ptind L) (_opind L) (_trig L) (_done L) (_inp_list L) (_out_list L) (_time_data L) (_prep_data L) (_freq_data L).
Definition set_ptind v L := mk (_stat L) (_prio L) (_offs L) (_npar L) (_parsize L) (_options L) (_inpsize L) (_outsize L) (_inpoffs L) (_outoffs L) (_bits L) (_wait L) v (_opind L) (_trig L) (_done L) (_inp_list L) (_out_list L) (_time_data L) (_prep_data L) (_freq_data L).
Definition set_opind v L := mk (_stat L) (_prio L) (_offs L) (_npar L) (_parsize L) (_options L) (_inpsize L) (_outsize L) (_inpoffs L) (_outoffs L) (_bits L) (_wait L) (_ptind L) v (_trig L) (_done L) (_inp_list L) (_out_list L) (_time_data L) (_prep_data L) (_freq_data L).
Definition set_trig v L := mk (_stat L) (_prio L) (_offs L) (_npar L) (_parsize L) (_options L) (_inpsize L) (_outsize L) (_inpoffs L) (_outoffs L) (_bits L) (_wait L) (_ptind L) (_opind L) v (_done L) (_inp_list L) (_out_list L) (_time_data L) (_prep_data L) (_freq_data L).
Definition set_done v L := mk (_stat L) (_prio L) (_offs L) (_npar L) (_parsize L) (_options L) (_inpsize L) (_outsize L) (_inpoffs L) (_outoffs L) (_bits L) (_wait L) (_ptind L) (_opind L) (_trig L) v (_inp_list L) (_out_list L) (_time_data L) (_prep_data L) (_freq_data L).
Definition set_inp_list v L := mk (_stat L) (_prio L) (_offs L) (_npar L) (_parsize L) (_options L) (_inpsize L) (_outsize L) (_inpoffs L) (_outoffs L) (_bits L) (_wait L) (_ptind L) (_opind L) (_trig L) (_done L) v (_out_list L) (_time_data L) (_prep_data L) (_freq_data L).
Definition set_out_list v L := mk (_stat L) (_prio L) (_offs L) (_npar L) (_parsize L) (_options L) (_inpsize L) (_outsize L) (_inpoffs L) (_outoffs L) (_bits L) (_wait L) (_ptind L) (_opind L) (_trig L) (_done L) (_inp_list L) v (_time_data L) (_prep_data L) (_freq_data L).
Definition set_time_data v L := mk (_stat L) (_prio L) (_offs L) (_npar L) (_parsize L) (_options L) (_inpsize L) (_outsize L) (_inpoffs L) (_outoffs L) (_bits L) (_wait L) (_ptind L) (_opind L) (_trig L) (_done L) (_inp_list L) (_out_list L) v (_prep_data L) (_freq_data L).
Definition set_prep_data v L := mk (_stat L) (_prio L) (_offs L) (_npar L) (_parsize L) (_options L) (_inpsize L) (_outsize L) (_inpoffs L) (_outoffs L) (_bits L) (_wait L) (_ptind L) (_opind L) (_trig L) (_done L) (_inp_list L) (_out_list L) (_time_data L) v (_freq_data L).
Definition set_freq_data v L := mk (_stat L) (_prio L) (_offs L) (_npar L) (_parsize L) (_options L) (_inpsize L) (_outsize L) (_inpoffs L) (_outoffs L) (_bits L) (_wait L) (_ptind L) (_opind L) (_trig L) (_done L) (_inp_list L) (_out_list L) (_time_data L) (_prep_data L) v.

(** [Convlevel::configure].  The scratch arrays are allocated zero filled;
    the case where an allocation or a plan fails (the source throws
    [MEM_ALLOC]) is decided by the caller's allocation outcome. *)
Definition configure (prio offs npar parsize options : Z) (L : t) : t :=
  mk (_stat L) prio offs npar parsize options (_inpsize L) (_outsize L)
     (_inpoffs L) (_outoffs L) (_bits L) (_wait L) (_ptind L) (_opind L)
     (_trig L) (_done L) (_inp_list L) (_out_list L)
     (calloc_real (wrap32 (2 * parsize))) (calloc_real (wrap32 (2 * parsize)))
     (calloc_complex (wrap32 (parsize + 1))).

(** [memset (a[i], 0, ...)] for [i < n], each [a[i]] holding [k] cells. *)
Definition clear_rows {A} (zero : list A) (n : Z) (a : list (list A)) : list (list A) :=
  for_upto n (fun i a => wr a i (blit (rd [] a i) 0 zero)) a.

(** [Convlevel::reset]. *)
Definition reset (inpsize outsize : Z) (L : t) : t :=
  let parsize := _parsize L in
  let inps :=
    map (fun X => Inpnode.mk
                    (clear_rows (calloc_complex (wrap32 (parsize + 1))) (_npar L) (Inpnode._ffta X))
                    (Inpnode._npar X) (Inpnode._inp X))
        (_inp_list L) in
  let outs :=
    map (fun Y => Outnode.set_buff (clear_rows (calloc_real parsize) 3 (Outnode._buff Y)) Y)
        (_out_list L) in
  let outoffs := if parsize =? outsize then 0 else parsize / 2 in
  let inpoffs := if parsize =? outsize then 0 else wrap32 (inpsize - outoffs) in
  mk (_stat L) (_prio L) (_offs L) (_npar L) parsize (_options L) inpsize outsize
     inpoffs outoffs (parsize / outsize) 0 0 0 0 0 inps outs
     (_time_data L) (_prep_data L) (_freq_data L).

(** [Convlevel::stop]. *)
Definition stop (L : t) : t :=
  if decide (_stat L = ST_IDLE) then L
  else set_trig (_trig L + 1) (set_stat ST_TERM L).

(** [Convlevel::cleanup]. *)
Definition cleanup (L : t) : t :=
  set_freq_data [] (set_prep_data [] (set_time_data []
    (set_out_list [] (set_inp_list [] L)))).

(** The node of input [inp] in the chain, as [M->_inpn] finds it. *)
Definition find_inp (inp : Z) (l : list Inpnode.t) : option Inpnode.t :=
  List.find (fun X => Inpnode._inp X =? inp) l.

(** One pass of the innermost loop of [process]:
    [_freq_data[k] += ffta[k] * fftb[k]] for [k <= _parsize]. *)
Definition cmac (parsize : Z) (ffta fftb : list fftwf_complex)
    (freq_data : list fftwf_complex) : list fftwf_complex :=
  for_upto (parsize + 1)
    (fun k fd =>
       let a := rd c32_zero ffta k in
       let b := rd c32_zero fftb k in
       let c := rd c32_zero fd k in
       wr fd k (f32_add c.1 (f32_sub (f32_mul a.1 b.1) (f32_mul a.2 b.2)),
                f32_add c.2 (f32_add (f32_mul a.1 b.2) (f32_mul a.2 b.1))))
    freq_data.

(** The loop over the partitions [j] of one [Macnode]: the state is the
    ring index [i] and [_freq_data]. *)
Definition mac_partitions (npar parsize ptind : Z) (ffta : list (list fftwf_complex))
    (M : Macnode.t) (freq_data : list fftwf_complex) : Z * list fftwf_complex :=
  for_upto npar
    (fun j '(i, fd) =>
       let fd' := match Macnode.partition M j with
                  | Some fftb => cmac parsize (rd [] ffta i) fftb fd
                  | None => fd
                  end in
       let i := if i =? 0 then npar else i in
       (wrap32 (i - 1), fd'))
    (ptind, freq_data).

(** The loop over the [Macnode]s of one output. *)
Definition mac_nodes (npar parsize ptind : Z) (inps : list Inpnode.t)
    (Ms : list Macnode.t) (freq_data : list fftwf_complex) : list fftwf_complex :=
  fold_left
    (fun fd M =>
       let ffta := default [] (Inpnode._ffta <$> find_inp (Macnode._inpn M) inps) in
       (mac_partitions npar parsize ptind ffta M fd).2)
    Ms freq_data.

(** The first loop of [process]: the newest [_parsize] input samples of
    every input node go, zero padded, through the forward transform into
    slot [_ptind] of the node's ring.  Returns the nodes and [_time_data]. *)
Definition fft_inputs `{FFTW} (parsize ptind i1 n1 n2 : Z) (inpbuff : list (list float32))
    (inps : list Inpnode.t) (time_data : list float32)
    : list Inpnode.t * list float32 :=
  fold_left
    (fun '(done, td) X =>
       let inpd := rd [] inpbuff (Inpnode._inp X) in
       let td := if n1 =? 0 then td else blit td 0 (slice inpd i1 n1) in
       let td := if n2 =? 0 then td else blit td n1 (slice inpd 0 n2) in
       let td := blit td parsize (calloc_real parsize) in
       let X' := Inpnode.mk (wr (Inpnode._ffta X) ptind (dft_r2c (wrap32 (2 * parsize)) td))
                            (Inpnode._npar X) (Inpnode._inp X) in
       (done ++ [X'], td))
    inps ([], time_data).

(** The second loop of [process], for one output node: accumulate, go
    back to the time domain, overlap and add.  [_freq_data] is left as the
    accumulation; FFTW may overwrite it, and nothing reads it before it is
    cleared again. *)
Definition process_output `{FFTW} (npar parsize ptind opi1 opi2 : Z)
    (inps : list Inpnode.t) (Y : Outnode.t) (scratch : list float32 * list fftwf_complex)
    : Outnode.t * (list float32 * list fftwf_complex) :=
  let fd := blit scratch.2 0 (calloc_complex (wrap32 (parsize + 1))) in
  let fd := mac_nodes npar parsize ptind inps (Outnode._list Y) fd in
  let td := blit scratch.1 0 (dft_c2r (wrap32 (2 * parsize)) fd) in
  let buff := Outnode._buff Y in
  let buff := wr buff opi1 (mix_into (rd [] buff opi1) td 0 parsize) in
  let buff := wr buff opi2 (blit (rd [] buff opi2) 0 (slice td parsize parsize)) in
  (Outnode.set_buff buff Y, (td, fd)).

Definition process_outputs `{FFTW} (npar parsize ptind opi1 opi2 : Z)
    (inps : list Inpnode.t) (outs : list Outnode.t)
    (scratch : list float32 * list fftwf_complex)
    : list Outnode.t * (list float32 * list fftwf_complex) :=
  fold_left
    (fun '(done, sc) Y =>
       let '(Y', sc') := process_output npar parsize ptind opi1 opi2 inps Y sc in
       (done ++ [Y'], sc'))
    outs ([], scratch).

(** [Convlevel::process]. *)
Definition process `{FFTW} (inpbuff : list (list float32)) (L : t) : t :=
  let i1 := _inpoffs L in
  let n1 := _parsize L in
  let inpoffs := wrap32 (i1 + n1) in
  let over := _inpsize L <=? inpoffs in
  let inpoffs := if over then wrap32 (inpoffs - _inpsize L) else inpoffs in
  let n2 := if over then inpoffs else 0 in
  let n1 := if over then wrap32 (n1 - n2) else n1 in
  let opi1 := wrap32 (_opind L + 1) mod 3 in
  let opi2 := wrap32 (_opind L + 2) mod 3 in
  let '(inps, td) :=
    fft_inputs (_parsize L) (_ptind L) i1 n1 n2 inpbuff (_inp_list L) (_time_data L) in
  let '(outs, (td, fd)) :=
    process_outputs (_npar L) (_parsize L) (_ptind L) opi1 opi2 inps (_out_list L)
                    (td, _freq_data L) in
  let ptind := wrap32 (_ptind L + 1) in
  let ptind := if ptind =? _npar L then 0 else ptind in
  set_ptind ptind (set_freq_data fd (set_time_data td
    (set_out_list outs (set_inp_list inps (set_inpoffs inpoffs L))))).

(** [while (_wait) { _done.wait (); _wait--; }].  A wait on a semaphore
    whose count is 0 blocks the caller until the worker posts; the model
    follows the executions in which the caller resumes and leaves the count
    at 0 in that case. *)
Definition drain_wait (L : t) : t :=
  set_wait 0 (set_done (Z.max 0 (_done L - _wait L)) L).

(** [if (++_opind == 3) _opind = 0]. *)
Definition next_opind (opind : Z) : Z :=
  let o := wrap32 (opind + 1) in if o =? 3 then 0 else o.

(** The last loop of [readout] and of [readtail]: every output node adds
    [n] samples of its buffer [opind], from [outoffs] on, to the buffer of
    its output. *)
Definition mix_outputs (opind outoffs n : Z) (outs : list Outnode.t)
    (outbuff : list (list float32)) : list (list float32) :=
  fold_left
    (fun ob Y =>
       let q := rd [] ob (Outnode._out Y) in
       let p := rd [] (Outnode._buff Y) opind in
       wr ob (Outnode._out Y) (mix_into q p outoffs n))
    outs outbuff.

(** [Convlevel::readout]: the returned flags, the level and [_outbuff]. *)
Definition readout `{FFTW} (inpbuff outbuff : list (list float32)) (L : t)
    : Z * t * list (list float32) :=
  let L := set_outoffs (wrap32 (_outoffs L + _outsize L)) L in
  let L :=
    if _outoffs L =? _parsize L then
      let L := set_outoffs 0 L in
      if decide (_stat L = ST_PROC) then
        let L := drain_wait L in
        let L := set_opind (next_opind (_opind L)) L in
        let L := set_trig (_trig L + 1) L in
        set_wait (wrap32 (_wait L + 1)) L
      else
        let L := process inpbuff L in
        set_opind (next_opind (_opind L)) L
    else L in
  let outbuff := mix_outputs (_opind L) (_outoffs L) (_outsize L) (_out_list L) outbuff in
  (if 1 <? _wait L then to_int32 (_bits L) else 0, L, outbuff).

(** [Convlevel::readtail]. *)
Definition readtail (n_samples : Z) (outbuff : list (list float32)) (L : t)
    : Z * t * list (list float32) :=
  let opind := _opind L in
  let outoffs := wrap32 (_outoffs L + _outsize L) in
  let at_end := outoffs =? _parsize L in
  let L := if at_end then drain_wait L else L in
  let outoffs := if at_end then 0 else outoffs in
  let opind := if at_end then next_opind opind else opind in
  (0, L, mix_outputs opind outoffs n_samples (_out_list L) outbuff).

(** The worker thread, [Convlevel::main]: the entry, and one turn of the
    loop once [_trig.wait ()] has returned. *)
Definition main_enter (L : t) : t := set_stat ST_PROC L.

Definition main_turn `{FFTW} (inpbuff : list (list float32)) (L : t) : t :=
  let L := set_trig (Z.max 0 (_trig L - 1)) L in
  if decide (_stat L = ST_TERM) then set_stat ST_IDLE L
  else
    let L := process inpbuff L in
    set_done (_done L + 1) L.

Definition find_out (out : Z) (l : list Outnode.t) : option Outnode.t :=
  List.find (fun Y => Outnode._out Y =? out) l.

Definition find_mac (inpn : Z) (l : list Macnode.t) : option Macnode.t :=
  List.find (fun M => Macnode._inpn M =? inpn) l.

(** [findmacnode (inp, out, false)]. *)
Definition findmacnode (inp out : Z) (L : t) : option Macnode.t :=
  X ← find_inp inp (_inp_list L);
  Y ← find_out out (_out_list L);
  find_mac (Inpnode._inp X) (Outnode._list Y).

(** Apply [f] to the first element that satisfies [p]: an update through
    the pointer that a search of the chain returned. *)
Fixpoint alter_first {A} (p : A -> bool) (f : A -> A) (l : list A) : list A :=
  match l with
  | [] => []
  | x :: l => if p x then f x :: l else x :: alter_first p f l
  end.

(** [findmacnode (inp, out, true)]: the level with the missing nodes put
    in front of their chains; the node is the one [findmacnode] finds in
    the result. *)
Definition findmacnode_create (inp out : Z) (L : t) : t :=
  let '(inps, xid) :=
    match find_inp inp (_inp_list L) with
    | Some X => (_inp_list L, Inpnode._inp X)
    | None =>
        let X := Inpnode.alloc_ffta (_npar L) (_parsize L) (Inpnode.new inp) in
        (X :: _inp_list L, Inpnode._inp X)
    end in
  let outs :=
    match find_out out (_out_list L) with
    | Some _ => _out_list L
    | None => Outnode.new out (_parsize L) :: _out_list L
    end in
  let add_mac Y :=
    match find_mac xid (Outnode._list Y) with
    | Some _ => Y
    | None => Outnode.set_list (Macnode.new xid :: Outnode._list Y) Y
    end in
  let outs :=
    match find_out out outs with
    | Some _ => alter_first (fun Y => Outnode._out Y =? out) add_mac outs
    | None => outs
    end in
  set_out_list outs (set_inp_list inps L).

(** Update, in place, the [Macnode] that [findmacnode (inp, out)] returns. *)
Definition alter_macnode (inp out : Z) (f : Macnode.t -> Macnode.t) (L : t) : t :=
  match find_inp inp (_inp_list L) with
  | None => L
  | Some X =>
      set_out_list
        (alter_first (fun Y => Outnode._out Y =? out)
           (fun Y => Outnode.set_list
                       (alter_first (fun M => Macnode._inpn M =? Inpnode._inp X) f
                                    (Outnode._list Y)) Y)
           (_out_list L)) L
  end.

(** [Convlevel::impdata_clear]. *)
Definition impdata_clear (inp out : Z) (L : t) : t :=
  match findmacnode inp out L with
  | None => L
  | Some M =>
      match Macnode._link M, Macnode._fftb M with
      | None, Some fftb =>
          let fftb :=
            for_upto (_npar L)
              (fun i a => match rd None a i with
                          | Some b => wr a i (Some (blit b 0 (calloc_complex (wrap32 (_parsize L + 1)))))
                          | None => a
                          end) fftb in
          alter_macnode inp out (Macnode.set_fftb (Some fftb)) L
      | _, _ => L
      end
  end.

(** The body of the loop over the partitions [k] in [impdata_write]; the
    state is [i0], the array [M->_fftb] and the scratch arrays
    [_prep_data] and [_freq_data]. *)
Definition impdata_part `{FFTW} (parsize step n : Z) (data : option (list float32))
    (create : bool) (k : Z)
    (s : Z * list (option (list fftwf_complex)) * list float32 * list fftwf_complex)
    : Z * list (option (list fftwf_complex)) * list float32 * list fftwf_complex :=
  let '(i0, fftbs, prep, freq) := s in
  let i1 := to_int32 (i0 + parsize) in
  if (i0 <? n) && (0 <? i1) then
    let fresh := match rd None fftbs k with None => create | Some _ => false end in
    let fftbs := if fresh then wr fftbs k (Some (calloc_complex (wrap32 (parsize + 1))))
                 else fftbs in
    match rd None fftbs k, data with
    | Some fftb, Some data =>
        let prep := blit prep 0 (calloc_real (wrap32 (2 * parsize))) in
        let j0 := if i0 <? 0 then 0 else i0 in
        let j1 := if n <? i1 then n else i1 in
        let norm := f32_div f32_half (f32_of_Z parsize) in
        let prep :=
          for_upto (j1 - j0)
            (fun t p => let j := j0 + t in
                        wr p (j - i0) (f32_mul norm (rd f32_zero data (j * step))))
            prep in
        let freq := blit freq 0 (dft_r2c (wrap32 (2 * parsize)) prep) in
        let fftb :=
          for_upto (to_int32 parsize + 1)
            (fun j b => let c := rd c32_zero b j in
                        let f := rd c32_zero freq j in
                        wr b j (f32_add c.1 f.1, f32_add c.2 f.2))
            fftb in
        (i1, wr fftbs k (Some fftb), prep, freq)
    | _, _ => (i1, fftbs, prep, freq)
    end
  else (i1, fftbs, prep, freq).

(** [Convlevel::impdata_write], for input and output numbers below
    [2^16] (the node constructors keep 16 bits of them). *)
Definition impdata_write `{FFTW} (inp out step : Z) (data : option (list float32))
    (i0 i1 : Z) (create : bool) (L : t) : t :=
  let n := to_int32 (i1 - i0) in
  let i0 := to_int32 (_offs L - i0) in
  let i1 := to_int32 (i0 + _npar L * _parsize L) in
  if (n <=? i0) || (i1 <=? 0) then L
  else
    let L := if create then findmacnode_create inp out L else L in
    match findmacnode inp out L with
    | None => L
    | Some M =>
        match Macnode._link M with
        | Some _ => L
        | None =>
            let L := if create && bool_decide (Macnode._fftb M = None)
                     then alter_macnode inp out (Macnode.alloc_fftb (_npar L)) L
                     else L in
            match findmacnode inp out L ≫= Macnode._fftb with
            | None => L
            | Some fftbs =>
                let '(_, fftbs, prep, freq) :=
                  for_upto (_npar L)
                    (impdata_part (_parsize L) step n data create)
                    (i0, fftbs, _prep_data L, _freq_data L) in
                set_freq_data freq (set_prep_data prep
                  (alter_macnode inp out (Macnode.set_fftb (Some fftbs)) L))
            end
        end
    end.

(** [Convlevel::start]: the thread is created and runs [main]; no member
    that is modelled changes.  [created] is the outcome of
    [pthread_create]. *)
Definition start (created : bool) (L : t) : bool * t := (created, L).

End Convlevel.

(** ** Convproc *)

Module Convproc.
Inductive state := ST_IDLE | ST_STOP | ST_WAIT | ST_PROC.

#[global] Instance state_eq_dec : EqDecision state.
Proof. solve_decision. Defined.

(** The [int] that the configuration calls return: 0 or one of the codes
    of [Converror]. *)
Inductive status := OK | BAD_STATE | BAD_PARAM | MEM_ALLOC.

#[global] Instance status_eq_dec : EqDecision status.
Proof. solve_decision. Defined.

(** [_inpbuff], [_outbuff] and [_convlev] hold the entries that are not
    null, in index order.  [_inpoffs], [_outoffs] and [_inpsize], which the
    constructor leaves unset, start at 0. *)
Record t := mk {
  _state : state;
  _options : Z;
  _ninp : Z;
  _nout : Z;
  _quantum : Z;
  _minpart : Z;
  _maxpart : Z;
  _nlevels : Z;
  _latecnt : Z;
  _inpsize : Z;
  _inpoffs : Z;
  _outoffs : Z;
  _inpbuff : list (list float32);
  _outbuff : list (list float32);
  _convlev : list Convlevel.t
}.

(** [Convproc::Convproc ()]. *)
Definition new : t := mk ST_IDLE 0 0 0 0 0 0 0 0 0 0 0 [] [] [].

Definition set_state v P := mk v (_options P) (_ninp P) (_nout P) (_quantum P) (_minpart P) (_maxpart P) (_nlevels P) (_latecnt P) (_inpsize P) (_inpoffs P) (_outoffs P) (_inpbuff P) (_outbuff P) (_convlev P).
Definition set_latecnt v P := mk (_state P) (_options P) (_ninp P) (_nout P) (_quantum P) (_minpart P) (_maxpart P) (_nlevels P) v (_inpsize P) (_inpoffs P) (_outoffs P) (_inpbuff P) (_outbuff P) (_convlev P).
Definition set_inpoffs v P := mk (_state P) (_options P) (_ninp P) (_nout P) (_quantum P) (_minpart P) (_maxpart P) (_nlevels P) (_latecnt P) (_inpsize P) v (_outoffs P) (_inpbuff P) (_outbuff P) (_convlev P).
Definition set_outoffs v P := mk (_state P) (_options P) (_ninp P) (_nout P) (_quantum P) (_minpart P) (_maxpart P) (_nlevels P) (_latecnt P) (_inpsize P) (_inpoffs P) v (_inpbuff P) (_outbuff P) (_convlev P).
Definition set_outbuff v P := mk (_state P) (_options P) (_ninp P) (_nout P) (_quantum P) (_minpart P) (_maxpart P) (_nlevels P) (_latecnt P) (_inpsize P) (_inpoffs P) (_outoffs P) (_inpbuff P) v (_convlev P).
Definition set_convlev v P := mk (_state P) (_options P) (_ninp P) (_nout P) (_quantum P) (_minpart P) (_maxpart P) (_nlevels P) (_latecnt P) (_inpsize P) (_inpoffs P) (_outoffs P) (_inpbuff P) (_outbuff P) v.

(** [Convproc::set_options]. *)
Definition set_options (options : Z) (P : t) : t :=
  mk (_state P) options (_ninp P) (_nout P) (_quantum P) (_minpart P) (_maxpart P) (_nlevels P) (_latecnt P) (_inpsize P) (_inpoffs P) (_outoffs P) (_inpbuff P) (_outbuff P) (_convlev P).

(** [Convproc::cleanup].  The loop on [check_stop] at its head waits until
    the worker threads have left; the model resumes after it. *)
Definition cleanup (P : t) : t :=
  mk ST_IDLE 0 0 0 0 0 0 0 0 (_inpsize P) (_inpoffs P) (_outoffs P) [] [] [].

(** Whether [new], [calloc] and the FFTW planner succeed: for the level
    with a given index, and for the sample buffers of the convolver. *)
Record Alloc := {
  level_ok : Z -> bool;
  buffers_ok : bool
}.

Definition alloc_all : Alloc := {| level_ok := fun _ => true; buffers_ok := true |}.

(** [while (size < minpart) { prio -= 1; size <<= 1; }]; [None] when the
    loop is still running after [fuel] turns. *)
Fixpoint grow_to_minpart (fuel : nat) (minpart prio size : Z) : option (Z * Z) :=
  match fuel with
  | O => if size <? minpart then None else Some (prio, size)
  | S fuel =>
      if size <? minpart
      then grow_to_minpart fuel minpart (to_int32 (prio - 1)) (wrap32 (Z.shiftl size 1))
      else Some (prio, size)
  end.

(** The number of partitions of the level at [offs]. *)
Definition level_npar (maxsize maxpart : Z) (cfft cmac : float32) (offs size s nmin : Z) : Z :=
  let npar := wrap32 (maxsize - offs + size - 1) / size in
  if (size <? maxpart) && (nmin <? npar) then
    let r := to_int32 (Z.shiftl 1 s) in
    let d := to_int32 (npar - nmin) in
    let d := to_int32 (d - Z.quot (d + r - 1) r) in
    if f32_ltb cfft (f32_mul (f32_of_Z d) cmac) then nmin else npar
  else npar.

(** The [for] loop of [configure] that creates the levels.  [None]: out
    of fuel; [Some None]: an allocation threw; [Some (Some (levels, size))]
    otherwise.  The index [pind] is the length of [levs]. *)
Fixpoint plan_levels (fuel : nat) (alloc : Alloc) (maxsize maxpart options step : Z)
    (cfft cmac : float32) (offs size prio s nmin : Z) (levs : list Convlevel.t)
    : option (option (list Convlevel.t * Z)) :=
  if offs <? maxsize then
    match fuel with
    | O => None
    | S fuel =>
        let npar := level_npar maxsize maxpart cfft cmac offs size s nmin in
        if level_ok alloc (Z.of_nat (length levs)) then
          let L := Convlevel.configure prio offs npar size options Convlevel.new in
          let offs := wrap32 (offs + size * npar) in
          if offs <? maxsize then
            plan_levels fuel alloc maxsize maxpart options step cfft cmac offs
              (wrap32 (Z.shiftl size s)) (to_int32 (prio - s)) step
              (if step =? 1 then 2 else 6) (levs ++ [L])
          else
            plan_levels fuel alloc maxsize maxpart options step cfft cmac offs
              size prio s nmin (levs ++ [L])
        else Some None
    end
  else Some (Some (levs, size)).

(** The static members [_mac_cost] and [_fft_cost]. *)
Definition _mac_cost : float32 := f32_of_Z 1.
Definition _fft_cost : float32 := f32_of_Z 5.

(** The test of [configure] that answers [BAD_PARAM]. *)
Definition bad_param `{ZetaHeader} (ninp nout quantum minpart maxpart : Z) : bool :=
  (ninp <? 1) || (MAXINP <? ninp)
  || (nout <? 1) || (MAXOUT <? nout)
  || negb (Z.land quantum (wrap32 (quantum - 1)) =? 0)
  || (quantum <? MINQUANT)
  || (MAXQUANT <? quantum)
  || negb (Z.land minpart (wrap32 (minpart - 1)) =? 0)
  || (minpart <? MINPART)
  || (minpart <? quantum)
  || (wrap32 (MAXDIVIS * quantum) <? minpart)
  || negb (Z.land maxpart (wrap32 (maxpart - 1)) =? 0)
  || (MAXPART <? maxpart)
  || (maxpart <? minpart).

(** [Convproc::configure].  [None] stands for a loop that has not come to
    its end within the fuel.  When an allocation throws, the levels made so
    far stay behind in [_convlev] above [_nlevels], where nothing reads
    them; they are not represented.  The sample buffers come from
    [new float[]] with unspecified contents, zeros here; [reset] clears them
    before they are read. *)
Definition configure `{ZetaHeader} (alloc : Alloc)
    (ninp nout maxsize quantum minpart maxpart : Z) (density : float32) (P : t)
    : option (status * t) :=
  if negb (bool_decide (_state P = ST_IDLE)) then Some (BAD_STATE, P)
  else if bad_param ninp nout quantum minpart maxpart then Some (BAD_PARAM, P)
  else
    let nmin := if ninp <? nout then ninp else nout in
    let density := if f32_leb density f32_zero
                   then f32_div f32_one (f32_of_Z nmin) else density in
    let density := if f32_ltb f32_one density then f32_one else density in
    let cfft := f32_mul _fft_cost (f32_of_Z (wrap32 (ninp + nout))) in
    let cmac := f32_mul (f32_mul (f32_mul _mac_cost (f32_of_Z ninp)) (f32_of_Z nout))
                        density in
    let step := if f32_ltb cfft (f32_mul (f32_of_Z 4) cmac) then 1 else 2 in
    let s := if step =? 2
             then (if Z.land (to_int32 (maxpart / minpart)) 43690 =? 0 then 2 else 1)
             else 1 in
    let nmin := if s =? 1 then 2 else 6 in
    let nmin := if minpart =? quantum then nmin + 1 else nmin in
    '(prio, size) ← grow_to_minpart 32 minpart 0 quantum;
    r ← plan_levels (Z.to_nat maxsize) alloc maxsize maxpart (_options P) step
          cfft cmac 0 size prio s nmin [];
    match r with
    | None => Some (MEM_ALLOC, cleanup P)
    | Some (levs, size) =>
        let inpsize := wrap32 (2 * size) in
        let P1 := mk (_state P) (_options P) ninp nout quantum minpart size
                     (Z.of_nat (length levs)) 0 inpsize (_inpoffs P) (_outoffs P)
                     (_inpbuff P) (_outbuff P) levs in
        if buffers_ok alloc then
          Some (OK, mk ST_STOP (_options P) ninp nout quantum minpart size
                       (Z.of_nat (length levs)) 0 inpsize (_inpoffs P) (_outoffs P)
                       (replicate (Z.to_nat ninp) (calloc_real inpsize))
                       (replicate (Z.to_nat nout) (calloc_real minpart))
                       levs)
        else Some (MEM_ALLOC, cleanup P1)
    end.

(** [memset (buf[k], 0, n * sizeof (float))] for [k < cnt]. *)
Definition zero_heads (cnt n : Z) (bufs : list (list float32)) : list (list float32) :=
  Convlevel.clear_rows (calloc_real n) cnt bufs.

(** Apply an operation to [_convlev[k]] for [k < _nlevels]. *)
Definition each_level (f : Convlevel.t -> Convlevel.t) (P : t) : list Convlevel.t :=
  for_upto (_nlevels P) (fun k levs => wr levs k (f (rd Convlevel.new levs k))) (_convlev P).

(** [Convproc::reset]. *)
Definition reset (P : t) : status * t :=
  if bool_decide (_state P = ST_IDLE) then (BAD_STATE, P)
  else
    let inpbuff := zero_heads (_ninp P) (_inpsize P) (_inpbuff P) in
    let outbuff := zero_heads (_nout P) (_minpart P) (_outbuff P) in
    let levs := each_level (Convlevel.reset (_inpsize P) (_minpart P)) P in
    (OK, mk (_state P) (_options P) (_ninp P) (_nout P) (_quantum P) (_minpart P)
            (_maxpart P) (_nlevels P) (_latecnt P) (_inpsize P) (_inpoffs P) (_outoffs P)
            inpbuff outbuff levs).

(** [Convproc::stop_process (force)]. *)
Definition stop_process (force : bool) (P : t) : status * t :=
  if negb (bool_decide (_state P = ST_PROC)) && negb force then (BAD_STATE, P)
  else (OK, set_state ST_WAIT (set_convlev (each_level Convlevel.stop P) P)).

(** [for (k = 0; k < _nlevels; k++) f |= _convlev[k]->op ()], where [op]
    works on the level and on [_outbuff]: the flags, the levels and
    [_outbuff] afterwards. *)
Definition over_levels
    (op : list (list float32) -> Convlevel.t -> Z * Convlevel.t * list (list float32))
    (P : t) : Z * list Convlevel.t * list (list float32) :=
  for_upto (_nlevels P)
    (fun k '(f, levs, ob) =>
       let '(r, L, ob) := op ob (rd Convlevel.new levs k) in
       (Z.lor f r, wr levs k L, ob))
    (0, _convlev P, _outbuff P).

(** The loop [f |= _convlev[k]->readout ()] of [process]. *)
Definition readouts `{FFTW} (P : t) : Z * list Convlevel.t * list (list float32) :=
  over_levels (Convlevel.readout (_inpbuff P)) P.

(** [Convproc::process]: the returned flags and the convolver. *)
Definition process `{ZetaHeader} `{FFTW} (P : t) : Z * t :=
  if negb (bool_decide (_state P = ST_PROC)) then (0, P)
  else
    let inpoffs := wrap32 (_inpoffs P + _quantum P) in
    let P := set_inpoffs (if inpoffs =? _inpsize P then 0 else inpoffs) P in
    let P := set_outoffs (wrap32 (_outoffs P + _quantum P)) P in
    if _outoffs P =? _minpart P then
      let P := set_outoffs 0 P in
      let P := set_outbuff (zero_heads (_nout P) (_minpart P) (_outbuff P)) P in
      let '(f, levs, ob) := readouts P in
      let P := set_outbuff ob (set_convlev levs P) in
      if negb (f =? 0) then
        let P := set_latecnt (wrap32 (_latecnt P + 1)) P in
        if 5 <=? _latecnt P then
          let P := if negb (Z.land (wrap32 (Z.lnot (_options P))) OPT_LATE_CONTIN =? 0)
                   then (stop_process false P).2 else P in
          (Z.lor f FL_LOAD, P)
        else (f, P)
      else (f, set_latecnt 0 P)
    else (0, P).

(** The loop [f |= _convlev[k]->readtail (n_samples)] of [tailonly]. *)
Definition readtails (n_samples : Z) (P : t) : Z * list Convlevel.t * list (list float32) :=
  over_levels (Convlevel.readtail n_samples) P.

(** [Convproc::tailonly]. *)
Definition tailonly (n_samples : Z) (P : t) : Z * t :=
  if negb (bool_decide (_state P = ST_PROC)) then (0, P)
  else
    let outoffs := wrap32 (_outoffs P + _quantum P) in
    if outoffs =? _minpart P then
      let P := set_outbuff (zero_heads (_nout P) n_samples (_outbuff P)) P in
      let '(f, levs, ob) := readtails n_samples P in
      (f, set_outbuff ob (set_convlev levs P))
    else (0, P).

(** [Convproc::check_stop]: the answer and the convolver. *)
Definition check_stop (P : t) : bool * t :=
  if forallb (fun k => bool_decide (Convlevel._stat (rd Convlevel.new (_convlev P) k)
                                    = Convlevel.ST_IDLE))
             (seqZ 0 (_nlevels P))
  then (true, set_state ST_STOP P)
  else (false, P).

(** [Convproc::check_started (k)]. *)
Definition check_started (k : Z) (P : t) : bool :=
  ((k <=? _nlevels P)
   && forallb (fun k => bool_decide (Convlevel._stat (rd Convlevel.new (_convlev P) k)
                                     = Convlevel.ST_PROC))
              (seqZ k (_nlevels P - k)))
  || (_nlevels P =? 0).

(** The loop [while (!check_stop ()) { usleep (40000); sched_yield (); }]:
    the caller sleeps until the workers that were told to terminate have
    left [main]; the model lets each of them take its turn and resumes with
    the [check_stop] that follows. *)
Definition await_stop `{FFTW} (P : t) : t :=
  let leave L :=
    if decide (Convlevel._stat L = Convlevel.ST_TERM)
    then Convlevel.main_turn (_inpbuff P) L else L in
  (check_stop (set_convlev (each_level leave P) P)).2.

(** The level that does not get a thread: [(_minpart == _quantum) ? 1 : 0]. *)
Definition first_worker (P : t) : Z := if _minpart P =? _quantum P then 1 else 0.

(** [Convproc::restart_process].  [created k] tells whether
    [pthread_create] succeeds for level [k].  The loop on [check_started]
    waits until the new threads have entered [main]; the model resumes after
    it. *)
Definition restart_process `{FFTW} (created : Z -> bool) (P : t) : status * t :=
  if bool_decide (_state P = ST_IDLE) then (BAD_STATE, P)
  else
    let P := if bool_decide (_state P = ST_PROC)
             then await_stop (stop_process false P).2 else P in
    let P := set_outoffs 0 (set_inpoffs 0 (set_latecnt 0 P)) in
    let P := (reset P).2 in
    let k0 := first_worker P in
    if forallb (fun k => (Convlevel.start (created k) (rd Convlevel.new (_convlev P) k)).1)
               (seqZ k0 (_nlevels P - k0))
    then
      let levs :=
        for_upto (_nlevels P - k0)
          (fun i levs => wr levs (k0 + i)
                            (Convlevel.main_enter (rd Convlevel.new levs (k0 + i))))
          (_convlev P) in
      (OK, set_state ST_PROC (set_convlev levs P))
    else (BAD_STATE, cleanup (stop_process true P).2).

(** [Convproc::start_process]. *)
Definition start_process `{FFTW} (created : Z -> bool) (P : t) : status * t :=
  if negb (bool_decide (_state P = ST_STOP)) then (BAD_STATE, P)
  else restart_process created P.

End Convproc.

(** ** Audio sources (readable.h, audiosrc.h, audiosrc.cc)

    [Readable] is the abstract class; an object is the record of its four
    methods.  [read pos cnt channel] is the list of samples stored to the
    destination, whose length is the value returned. *)

Record Readable := {
  read : Z -> Z -> Z -> list float32;
  readable_length : Z;
  n_channels : Z;
  sample_rate : Z
}.

(** [std::runtime_error] thrown by a constructor. *)
Inductive result (A : Type) :=
  | Ok (a : A)
  | Throw (what : string).
Arguments Ok {A} a.
Arguments Throw {A} what.

Definition result_bind {A B} (r : result A) (k : A -> result B) : result B :=
  match r with
  | Ok a => k a
  | Throw w => Throw w
  end.

(** What libsndfile reports for a path ([SF_INFO] after [sf_open], with
    the samples it would deliver), and whether [src_new] of libsamplerate
    returns a state.  [sf_open] is [None] when the file cannot be opened. *)
Record SF_INFO := {
  frames : Z;
  samplerate : Z;
  channels : Z;
  seekable : bool;
  sf_read : Z -> Z -> Z -> list float32
}.

Class AudioLibs := {
  sf_open : string -> option SF_INFO;
  src_new_ok : bool;
  (** [SrcSource::read], which runs the resampler on the wrapped source. *)
  src_read : Readable -> Z -> Z -> Z -> Z -> list float32
}.

(** [MemSource::MemSource] and [MemSource::read] for its four channels. *)
Definition MemSource_buf : list float32 :=
  [ f32_of_Z 1;
    binary_normalize 24 128 13421773 (-27) false;
    f32_half;
    binary_normalize 24 128 10066330 (-25) false ] ++ replicate 60 f32_zero.

Definition MemSource : Readable := {|
  read := fun pos cnt channel =>
    if 4 <=? channel then []
    else if 16 <=? pos then []
    else
      let cnt := if 16 <? pos + cnt then 16 - pos else cnt in
      map (fun i => rd f32_zero MemSource_buf (pos + channel + 4 * i)) (seqZ 0 cnt);
  readable_length := 16;
  n_channels := 4;
  sample_rate := 44100
|}.

(** [FileSource::FileSource]: [open] followed by [post_init]. *)
Definition FileSource `{AudioLibs} (path : string) : result Readable :=
  match sf_open path with
  | Some info =>
      if seekable info then
        Ok {| read := sf_read info;
              readable_length := frames info mod 2 ^ 64;
              n_channels := wrap32 (channels info);
              sample_rate := wrap32 (samplerate info) |}
      else Throw "Error: cannot open IR file"
  | None => Throw "Error: cannot open IR file"
  end.

(** [ChanWrap::ChanWrap]. *)
Definition ChanWrap (r : Readable) (chn : Z) : result Readable :=
  if n_channels r <? chn then Throw "ChanWrap: channel out of bounds"
  else Ok {| read := fun pos cnt _ => read r pos cnt chn;
             readable_length := readable_length r;
             n_channels := 1;
             sample_rate := sample_rate r |}.

(** [SrcSource::readable_length]:
    [ceil (_source->readable_length () * _ratio) - 1] in [double], where
    [_ratio = target_rate / (double)_source->sample_rate ()]. *)
Definition src_readable_length (len rate target_rate : Z) : Z :=
  let ratio := SFdiv 53 1024 (f64_of_Z target_rate) (f64_of_Z rate) in
  u64_of_f64 (SFsub 53 1024 (f64_ceil (SFmul 53 1024 (f64_of_Z len) ratio)) (f64_of_Z 1)).

(** [SrcSource::SrcSource]. *)
Definition SrcSource `{AudioLibs} (r : Readable) (target_rate : Z) : result Readable :=
  if negb (n_channels r =? 1)
  then Throw "Error: src_new failed, src channel count != 1"
  else if negb src_new_ok then Throw "Error: src_new failed. "
  else Ok {| read := src_read r target_rate;
             readable_length :=
               src_readable_length (readable_length r) (sample_rate r) target_rate;
             n_channels := n_channels r;
             sample_rate := target_rate |}.

(** ** TimeDomainConvolver (convolver.cc) *)

Module TimeDomainConvolver.
Record t := mk {
  _enabled : bool;
  _ir : list float32
}.

(** [TimeDomainConvolver::reset]. *)
Definition reset (T : t) : t := mk false (calloc_real 64).

(** The constructor calls [reset] on the fresh object. *)
Definition new : t := reset (mk false []).

(** [TimeDomainConvolver::configure]. *)
Definition configure (r : Readable) (gain : float32) (delay : Z) (T : t) : t :=
  if 64 <=? delay then T
  else
    let to_read := Z.min 64 delay in
    let max_len := wrap32 (readable_length r) in
    let to_read := if delay <? max_len then Z.min to_read (wrap32 (max_len - delay))
                   else to_read in
    if to_read =? 0 then T
    else
      let ir := blit (_ir T) delay (read r 0 to_read 0) in
      let ir := if negb (f32_eqb gain f32_one)
                then for_upto (64 - delay)
                       (fun t ir => let i := delay + t in
                                    wr ir i (f32_mul (rd f32_zero ir i) gain)) ir
                else ir in
      mk (_enabled T) ir.

(** [TimeDomainConvolver::run]: the contents of [out] afterwards. *)
Definition run (T : t) (out inp : list float32) (n_samples : Z) : list float32 :=
  if negb (_enabled T) then out
  else
    for_upto n_samples
      (fun i out =>
         for_upto (wrap32 (n_samples - i))
           (fun j out =>
              wr out (i + j)
                 (f32_add (rd f32_zero out (i + j))
                          (f32_mul (rd f32_zero inp i) (rd f32_zero (_ir T) j))))
           out)
      out.
End TimeDomainConvolver.

(** ** DelayLine (convolver.cc) *)

Module DelayLine.
(** [_buf] is [None] for a null pointer. *)
Record t := mk {
  _buf : option (list float32);
  _written : bool;
  _delay : Z;
  _pos : Z
}.

(** [DelayLine::DelayLine ()]. *)
Definition new : t := mk None false 0 0.

(** [DelayLine::clear]: [memset] covers [_delay] of the [_delay + 1]
    cells. *)
Definition clear (D : t) : t :=
  match _buf D with
  | Some ring =>
      if negb (_written D) then D
      else mk (Some (blit ring 0 (calloc_real (_delay D)))) false (_delay D) (_pos D)
  | None => D
  end.

(** [DelayLine::reset]; [calloc_ok] tells whether [calloc] returns a
    block. *)
Definition reset (calloc_ok : bool) (delay : Z) (D : t) : t :=
  if calloc_ok
  then mk (Some (calloc_real (wrap32 (1 + delay)))) (_written D) delay 0
  else mk None (_written D) 0 0.

(** One turn of the loop of [run], for the sample [i] of [buf].  With a
    null [_buf] the source dereferences a null pointer; the model leaves the
    sample in place then. *)
Definition run_sample (i : Z) (s : t * list float32) : t * list float32 :=
  let '(D, buf) := s in
  match _buf D with
  | Some ring =>
      let ring := wr ring (_pos D) (rd f32_zero buf i) in
      let pos := wrap32 (_pos D + 1) in
      let pos := if _delay D <? pos then 0 else pos in
      (mk (Some ring) (_written D) (_delay D) pos, wr buf i (rd f32_zero ring pos))
  | None => (D, buf)
  end.

(** [DelayLine::run]: the line and the contents of [buf] afterwards. *)
Definition run (buf : list float32) (n_samples : Z) (D : t) : t * list float32 :=
  for_upto n_samples run_sample (mk (_buf D) (0 <? n_samples) (_delay D) (_pos D), buf).
End DelayLine.

(** ** Convolver (convolver.h, convolver.cc) *)

Module Convolver.
Inductive IRChannelConfig := Mono | MonoToStereo | Stereo.

#[global] Instance IRChannelConfig_eq_dec : EqDecision IRChannelConfig.
Proof. solve_decision. Defined.

(** Modelled from the spec: the member [artificial_latency] of
    [IRSettings] (an int, immutable per engine instance), which lv2.cc saves
    and restores as an [int32_t]; the revision of convolver.h at hand does
    not declare it. *)
Record IRSettings := {
  gain : float32;
  pre_delay : Z;
  channel_gain : list float32;
  channel_delay : list Z;
  sum_inputs : bool;
  artificial_latency : Z
}.

(** [IRSettings::IRSettings ()]. *)
Definition IRSettings_default : IRSettings := {|
  gain := f32_one;
  pre_delay := 0;
  channel_gain := [f32_one; f32_one; f32_one; f32_one];
  channel_delay := [0; 0; 0; 0];
  sum_inputs := false;
  artificial_latency := 0
|}.

Record t := mk {
  _fs : Readable;
  _readables : list Readable;
  _convproc : Convproc.t;
  _path : string;
  _irc : IRChannelConfig;
  _sched_policy : Z;
  _sched_priority : Z;
  _ir_settings : IRSettings;
  _n_samples : Z;
  _max_size : Z;
  _offset : Z;
  _configured : bool;
  _dry : float32;
  _wet : float32;
  _dry_target : float32;
  _wet_target : float32;
  _a : float32;
  _tdc : list TimeDomainConvolver.t
}.

(** The loop of the constructor over the channels [n] of the file. *)
Fixpoint wrap_channels `{AudioLibs} (fs : Readable) (target_rate : Z) (ns : list Z)
    (readables : list Readable) : result (list Readable) :=
  match ns with
  | [] => Ok readables
  | n :: ns =>
      result_bind (ChanWrap fs n) (fun r =>
        if negb (sample_rate r =? target_rate) then
          result_bind (SrcSource r target_rate) (fun sfs =>
            wrap_channels fs target_rate ns (readables ++ [sfs]))
        else wrap_channels fs target_rate ns (readables ++ [r]))
  end.

(** [Convolver::Convolver]: the object, or the exception that leaves the
    constructor. *)
Definition new `{AudioLibs} (path : string) (sample_rate sched_policy sched_priority : Z)
    (irc : IRChannelConfig) (irs : IRSettings) : result t :=
  result_bind
    (if String.eqb (String.substring 0 4 path) "mem:" then Ok MemSource else FileSource path)
    (fun fs =>
       if 16777216 <? readable_length fs then Throw "Convolver: IR file too long."
       else
         result_bind (wrap_channels fs sample_rate (seqZ 0 (n_channels fs)) [])
           (fun readables =>
              if bool_decide (readables = [])
              then Throw "Convolver: no usable audio-channels."
              else Ok (mk fs readables Convproc.new path irc sched_policy sched_priority
                          irs 0 0 0 false f32_zero f32_one f32_zero f32_one
                          (f32_div (f32_of_Z 2950) (f32_of_Z sample_rate))
                          (replicate 4 TimeDomainConvolver.new)))).

Definition latency (C : t) : Z := _n_samples C.
Definition n_inputs (C : t) : Z := if bool_decide (_irc C = Stereo) then 2 else 1.
Definition n_outputs (C : t) : Z := if bool_decide (_irc C = Mono) then 1 else 2.
Definition path (C : t) : string := _path C.
Definition settings (C : t) : IRSettings := _ir_settings C.
Definition get_sum_inputs (C : t) : bool := sum_inputs (_ir_settings C).

(** Modelled from the spec: the accessor [Convolver::artificial_latency ()]
    that lv2.cc calls, missing from the revision of convolver.h at hand; it
    returns the artificial latency of the settings, written here after
    [sum_inputs ()] and as a [uint32_t] like [latency ()]. *)
Definition get_artificial_latency (C : t) : Z := wrap32 (artificial_latency (_ir_settings C)).

(** [Convolver::ready]. *)
Definition ready (C : t) : bool :=
  _configured C && bool_decide (Convproc._state (_convproc C) = Convproc.ST_PROC).

(** [Convolver::set_output_gain]. *)
Definition set_output_gain (dry wet : float32) (interpolate : bool) (C : t) : t :=
  mk (_fs C) (_readables C) (_convproc C) (_path C) (_irc C) (_sched_policy C)
     (_sched_priority C) (_ir_settings C) (_n_samples C) (_max_size C) (_offset C)
     (_configured C)
     (if interpolate then _dry C else dry) (if interpolate then _wet C else wet)
     dry wet (_a C) (_tdc C).

(** [reconfigure] and the four audio paths set up and drive the threads
    of the partitioned convolver; the facade below uses them as given.  An
    audio path returns the convolver and the contents of the buffers it was
    handed. *)
Class Engine := {
  reconfigure : Z -> t -> t;
  run_buffered_mono : t -> list float32 -> Z -> t * list float32;
  run_buffered_stereo : t -> list float32 -> list float32 -> Z
                        -> t * (list float32 * list float32);
  run_mono : t -> list float32 -> Z -> t * list float32;
  run_stereo : t -> list float32 -> list float32 -> Z
               -> t * (list float32 * list float32)
}.
End Convolver.

(** ** The plugin (lv2.cc) *)

Module LV2.
Definition CMD_APPLY : Z := 0.
Definition CMD_FREE : Z := 1.

Inductive LV2_Worker_Status := LV2_WORKER_SUCCESS | LV2_WORKER_ERR_UNKNOWN.

(** The data handed to [schedule_work] and received by [work]: a command
    word ([size == sizeof (uint32_t)]) or a path atom with its body. *)
Inductive work_data :=
  | Command (cmd : Z)
  | PathAtom (body : string).

(** An event of the control port, as [run_cfg] classifies it: neither a
    blank nor an object or of another object type, a [patch:Get], or a
    [patch:Set] with what [parse_patch_msg] returns for it. *)
Inductive atom_event :=
  | EvOther
  | EvPatchGet
  | EvPatchSet (file_path : option string).

(** What [inform_ui] forges into the notify port. *)
Inductive ui_event :=
  | UiPatchSet (path : string)
  | UiStateChanged.

(** The messages of the log, one constructor per call in the worker. *)
Inductive log_entry :=
  | LogQueueing (ir : string)
  | LogOpening (ir : string)
  | LogConvolver (what : string)
  | LogLoadFailed
  | LogProcessQueue (ir : string)
  | LogRequestLoad (ir : string).

(** The instance.  A port is the cell or the buffer that the host has
    connected; an unconnected atom port is [None].  The last three members
    are the host's side of the features: the work scheduled with
    [schedule_work], the number of calls of [respond], and the log. *)
Record zeroConvolv := mk {
  input : list (list float32);
  output : list (list float32);
  p_latency : float32;
  p_ctrl : list float32;
  buffered : bool;
  db_dry : float32;
  db_wet : float32;
  dry_coeff : float32;
  dry_target : float32;
  control : option (list atom_event);
  notify : option (list ui_event);
  clv_online : option Convolver.t;
  clv_offline : option Convolver.t;
  pset_dirty : bool;
  chn_cfg : Convolver.IRChannelConfig;
  rate : Z;
  chn_in : Z;
  chn_out : Z;
  block_size : Z;
  rt_policy : Z;
  rt_priority : Z;
  tc64 : float32;
  next_queued_file : string;
  scheduled : list work_data;
  responded : Z;
  logged : list log_entry
}.

Definition set_output v self := mk (input self) v (p_latency self) (p_ctrl self) (buffered self) (db_dry self) (db_wet self) (dry_coeff self) (dry_target self) (control self) (notify self) (clv_online self) (clv_offline self) (pset_dirty self) (chn_cfg self) (rate self) (chn_in self) (chn_out self) (block_size self) (rt_policy self) (rt_priority self) (tc64 self) (next_queued_file self) (scheduled self) (responded self) (logged self).
Definition set_p_latency v self := mk (input self) (output self) v (p_ctrl self) (buffered self) (db_dry self) (db_wet self) (dry_coeff self) (dry_target self) (control self) (notify self) (clv_online self) (clv_offline self) (pset_dirty self) (chn_cfg self) (rate self) (chn_in self) (chn_out self) (block_size self) (rt_policy self) (rt_priority self) (tc64 self) (next_queued_file self) (scheduled self) (responded self) (logged self).
Definition set_buffered v self := mk (input self) (output self) (p_latency self) (p_ctrl self) v (db_dry self) (db_wet self) (dry_coeff self) (dry_target self) (control self) (notify self) (clv_online self) (clv_offline self) (pset_dirty self) (chn_cfg self) (rate self) (chn_in self) (chn_out self) (block_size self) (rt_policy self) (rt_priority self) (tc64 self) (next_queued_file self) (scheduled self) (responded self) (logged self).
Definition set_db_dry v self := mk (input self) (output self) (p_latency self) (p_ctrl self) (buffered self) v (db_wet self) (dry_coeff self) (dry_target self) (control self) (notify self) (clv_online self) (clv_offline self) (pset_dirty self) (chn_cfg self) (rate self) (chn_in self) (chn_out self) (block_size self) (rt_policy self) (rt_priority self) (tc64 self) (next_queued_file self) (scheduled self) (responded self) (logged self).
Definition set_db_wet v self := mk (input self) (output self) (p_latency self) (p_ctrl self) (buffered self) (db_dry self) v (dry_coeff self) (dry_target self) (control self) (notify self) (clv_online self) (clv_offline self) (pset_dirty self) (chn_cfg self) (rate self) (chn_in self) (chn_out self) (block_size self) (rt_policy self) (rt_priority self) (tc64 self) (next_queued_file self) (scheduled self) (responded self) (logged self).
Definition set_dry_coeff v self := mk (input self) (output self) (p_latency self) (p_ctrl self) (buffered self) (db_dry self) (db_wet self) v (dry_target self) (control self) (notify self) (clv_online self) (clv_offline self) (pset_dirty self) (chn_cfg self) (rate self) (chn_in self) (chn_out self) (block_size self) (rt_policy self) (rt_priority self) (tc64 self) (next_queued_file self) (scheduled self) (responded self) (logged self).
Definition set_dry_target v self := mk (input self) (output self) (p_latency self) (p_ctrl self) (buffered self) (db_dry self) (db_wet self) (dry_coeff self) v (control self) (notify self) (clv_online self) (clv_offline self) (pset_dirty self) (chn_cfg self) (rate self) (chn_in self) (chn_out self) (block_size self) (rt_policy self) (rt_priority self) (tc64 self) (next_queued_file self) (scheduled self) (responded self) (logged self).
Definition set_notify v self := mk (input self) (output self) (p_latency self) (p_ctrl self) (buffered self) (db_dry self) (db_wet self) (dry_coeff self) (dry_target self) (control self) v (clv_online self) (clv_offline self) (pset_dirty self) (chn_cfg self) (rate self) (chn_in self) (chn_out self) (block_size self) (rt_policy self) (rt_priority self) (tc64 self) (next_queued_file self) (scheduled self) (responded self) (logged self).
Definition set_clv_online v self := mk (input self) (output self) (p_latency self) (p_ctrl self) (buffered self) (db_dry self) (db_wet self) (dry_coeff self) (dry_target self) (control self) (notify self) v (clv_offline self) (pset_dirty self) (chn_cfg self) (rate self) (chn_in self) (chn_out self) (block_size self) (rt_policy self) (rt_priority self) (tc64 self) (next_queued_file self) (scheduled self) (responded self) (logged self).
Definition set_clv_offline v self := mk (input self) (output self) (p_latency self) (p_ctrl self) (buffered self) (db_dry self) (db_wet self) (dry_coeff self) (dry_target self) (control self) (notify self) (clv_online self) v (pset_dirty self) (chn_cfg self) (rate self) (chn_in self) (chn_out self) (block_size self) (rt_policy self) (rt_priority self) (tc64 self) (next_queued_file self) (scheduled self) (responded self) (logged self).
Definition set_pset_dirty v self := mk (input self) (output self) (p_latency self) (p_ctrl self) (buffered self) (db_dry self) (db_wet self) (dry_coeff self) (dry_target self) (control self) (notify self) (clv_online self) (clv_offline self) v (chn_cfg self) (rate self) (chn_in self) (chn_out self) (block_size self) (rt_policy self) (rt_priority self) (tc64 self) (next_queued_file self) (scheduled self) (responded self) (logged self).
Definition set_block_size v self := mk (input self) (output self) (p_latency self) (p_ctrl self) (buffered self) (db_dry self) (db_wet self) (dry_coeff self) (dry_target self) (control self) (notify self) (clv_online self) (clv_offline self) (pset_dirty self) (chn_cfg self) (rate self) (chn_in self) (chn_out self) v (rt_policy self) (rt_priority self) (tc64 self) (next_queued_file self) (scheduled self) (responded self) (logged self).
Definition set_next_queued_file v self := mk (input self) (output self) (p_latency self) (p_ctrl self) (buffered self) (db_dry self) (db_wet self) (dry_coeff self) (dry_target self) (control self) (notify self) (clv_online self) (clv_offline self) (pset_dirty self) (chn_cfg self) (rate self) (chn_in self) (chn_out self) (block_size self) (rt_policy self) (rt_priority self) (tc64 self) v (scheduled self) (responded self) (logged self).
Definition set_scheduled v self := mk (input self) (output self) (p_latency self) (p_ctrl self) (buffered self) (db_dry self) (db_wet self) (dry_coeff self) (dry_target self) (control self) (notify self) (clv_online self) (clv_offline self) (pset_dirty self) (chn_cfg self) (rate self) (chn_in self) (chn_out self) (block_size self) (rt_policy self) (rt_priority self) (tc64 self) (next_queued_file self) v (responded self) (logged self).
Definition set_responded v self := mk (input self) (output self) (p_latency self) (p_ctrl self) (buffered self) (db_dry self) (db_wet self) (dry_coeff self) (dry_target self) (control self) (notify self) (clv_online self) (clv_offline self) (pset_dirty self) (chn_cfg self) (rate self) (chn_in self) (chn_out self) (block_size self) (rt_policy self) (rt_priority self) (tc64 self) (next_queued_file self) (scheduled self) v (logged self).
Definition set_logged v self := mk (input self) (output self) (p_latency self) (p_ctrl self) (buffered self) (db_dry self) (db_wet self) (dry_coeff self) (dry_target self) (control self) (notify self) (clv_online self) (clv_offline self) (pset_dirty self) (chn_cfg self) (rate self) (chn_in self) (chn_out self) (block_size self) (rt_policy self) (rt_priority self) (tc64 self) (next_queued_file self) (scheduled self) (responded self) v.

(** [powf] of the C library. *)
Class Libm := { powf : float32 -> float32 -> float32 }.

(** [db_to_coeff], with the literals [-60.f], [6.02f], [10.f], [.05f]. *)
Definition db_to_coeff `{Libm} (db : float32) : float32 :=
  if f32_leb db (f32_of_Z (-60)) then f32_zero
  else if f32_ltb (binary_normalize 24 128 12624855 (-21) false) db then f32_of_Z 2
  else powf (f32_of_Z 10) (f32_mul (binary_normalize 24 128 13421773 (-28) false) db).

Definition schedule_work (d : work_data) (self : zeroConvolv) : zeroConvolv :=
  set_scheduled (scheduled self ++ [d]) self.

Definition lv2_log (e : log_entry) (self : zeroConvolv) : zeroConvolv :=
  set_logged (logged self ++ [e]) self.

(** [inform_ui]. *)
Definition inform_ui (mark_dirty : bool) (self : zeroConvolv) : zeroConvolv :=
  match control self, notify self, clv_online self with
  | Some _, Some evs, Some C =>
      if bool_decide (Convolver.path C = "") then self
      else if negb (bool_decide (next_queued_file self = "")) then self
      else
        set_notify
          (Some (evs ++ [UiPatchSet (Convolver.path C)]
                     ++ (if mark_dirty then [UiStateChanged] else []))) self
  | _, _, _ => self
  end.

(** [copy_no_inplace_buffers].  When [out == in] the source returns at
    once; the copy of an array onto itself leaves its contents, so the
    result is the same (see [copy_in_place]).  The record holds the arrays
    of the input ports and those of the output ports as two lists: a port
    pair that the host connects to one array is represented by equal
    contents, and a write to the output is not seen in [input].  What is
    stated about [input] after a call therefore holds for ports that are
    connected to arrays of their own. *)
Definition copy_no_inplace_buffers (out inp : list float32) (n_samples : Z) : list float32 :=
  blit out 0 (slice inp 0 n_samples).

(** [run]. *)
Definition run `{Convolver.Engine} (n_samples : Z) (self : zeroConvolv) : zeroConvolv :=
  match clv_online self with
  | None =>
      set_output (Convproc.zero_heads (chn_out self) n_samples (output self))
        (set_p_latency (f32_of_Z 0) self)
  | Some C =>
      let buffered := buffered self in
      let self :=
        set_p_latency
          (f32_of_Z (wrap32 (Convolver.get_artificial_latency C
                             + (if buffered then Convolver.latency C else 0)))) self in
      let out0 := copy_no_inplace_buffers (rd [] (output self) 0) (rd [] (input self) 0)
                                          n_samples in
      if chn_in self =? 2 then
        let in1 := rd [] (input self) 1 in
        let '(out0, out1) :=
          if Convolver.get_sum_inputs C then
            let out0 :=
              for_upto n_samples
                (fun i o => wr o i (f32_mul f32_half
                                      (f32_add (rd f32_zero o i) (rd f32_zero in1 i))))
                out0 in
            (out0, blit (rd [] (output self) 1) 0 (slice out0 0 n_samples))
          else (out0, copy_no_inplace_buffers (rd [] (output self) 1) in1 n_samples) in
        let '(C, (out0, out1)) :=
          if buffered then Convolver.run_buffered_stereo C out0 out1 n_samples
          else Convolver.run_stereo C out0 out1 n_samples in
        set_clv_online (Some C) (set_output (wr (wr (output self) 0 out0) 1 out1) self)
      else if chn_out self =? 2 then
        let '(C, (out0, out1)) :=
          if buffered
          then Convolver.run_buffered_stereo C out0 (rd [] (output self) 1) n_samples
          else Convolver.run_stereo C out0 (rd [] (output self) 1) n_samples in
        set_clv_online (Some C) (set_output (wr (wr (output self) 0 out0) 1 out1) self)
      else
        let '(C, out0) :=
          if buffered then Convolver.run_buffered_mono C out0 n_samples
          else Convolver.run_mono C out0 n_samples in
        set_clv_online (Some C) (set_output (wr (output self) 0 out0) self)
  end.

(** [work_response]. *)
Definition work_response `{Libm} (self : zeroConvolv) : LV2_Worker_Status * zeroConvolv :=
  match clv_offline self with
  | None =>
      if negb (bool_decide (next_queued_file self = ""))
      then (LV2_WORKER_SUCCESS, schedule_work (Command CMD_FREE) self)
      else (LV2_WORKER_SUCCESS, self)
  | Some offline =>
      let old := clv_online self in
      let self := set_clv_offline old (set_clv_online (Some offline) self) in
      let self :=
        set_clv_online
          (Some (Convolver.set_output_gain (db_to_coeff (db_dry self))
                   (db_to_coeff (db_wet self)) false offline)) self in
      let self := inform_ui (pset_dirty self) self in
      let self := set_pset_dirty true self in
      (LV2_WORKER_SUCCESS, schedule_work (Command CMD_FREE) self)
  end.

(** [load_ir_worker]: the status, the flag [ok] and the instance.
    [respond] tells whether the caller passed a response function. *)
Definition load_ir_worker `{AudioLibs} `{Convolver.Engine} (respond : bool)
    (ir_path : string) (self : zeroConvolv) : LV2_Worker_Status * bool * zeroConvolv :=
  match clv_offline self with
  | Some _ =>
      let self := set_next_queued_file ir_path self in
      (LV2_WORKER_SUCCESS, false, lv2_log (LogQueueing ir_path) self)
  | None =>
      let self := lv2_log (LogOpening ir_path) self in
      let '(ok, self) :=
        match Convolver.new ir_path (rate self) (rt_policy self) (rt_priority self)
                            (chn_cfg self) Convolver.IRSettings_default with
        | Ok C =>
            let C := Convolver.reconfigure (block_size self) C in
            if Convolver.ready C then (true, set_clv_offline (Some C) self)
            else (false, set_clv_offline None self)
        | Throw what =>
            (false, set_clv_offline None (lv2_log (LogConvolver what) self))
        end in
      if negb ok then (LV2_WORKER_ERR_UNKNOWN, ok, lv2_log LogLoadFailed self)
      else if respond
           then (LV2_WORKER_SUCCESS, ok, set_responded (responded self + 1) self)
           else (LV2_WORKER_SUCCESS, ok, self)
  end.

(** [work]. *)
Definition work `{AudioLibs} `{Convolver.Engine} (data : work_data) (self : zeroConvolv)
    : LV2_Worker_Status * zeroConvolv :=
  match data with
  | Command cmd =>
      if cmd =? CMD_APPLY
      then (LV2_WORKER_SUCCESS, set_responded (responded self + 1) self)
      else if cmd =? CMD_FREE then
        let self := set_clv_offline None self in
        let queue_file := next_queued_file self in
        let self := set_next_queued_file "" self in
        if negb (bool_decide (queue_file = "")) then
          let self := lv2_log (LogProcessQueue queue_file) self in
          let '(st, _, self) := load_ir_worker true queue_file self in
          (st, self)
        else (LV2_WORKER_SUCCESS, self)
      else (LV2_WORKER_ERR_UNKNOWN, self)
  | PathAtom body =>
      let self := lv2_log (LogRequestLoad body) self in
      let '(st, _, self) := load_ir_worker true body self in
      (st, self)
  end.

(** [buf[c][off + i] *= gain] for [c < cnt] and [i < n]. *)
Definition scale_block (cnt off n : Z) (gain : float32) (bufs : list (list float32))
    : list (list float32) :=
  for_upto cnt
    (fun c bufs =>
       wr bufs c (for_upto n
                    (fun i b => wr b (off + i) (f32_mul (rd f32_zero b (off + i)) gain))
                    (rd [] bufs c)))
    bufs.

(** The loop of [run_cfg] that interpolates the gain: it takes blocks of
    at most 64 samples until none remains; block [b] starts at
    [done = 64 b].  The literal is [1e-10f]. *)
Definition interpolate_dry (n_samples : Z) (alpha tgt : float32)
    (s : list (list float32) * float32) (chn_out : Z) : list (list float32) * float32 :=
  for_upto ((n_samples + 63) / 64)
    (fun b '(bufs, cur) =>
       let done := 64 * b in
       let ns := Z.min (n_samples - done) 64 in
       let cur := f32_add cur
                    (f32_add (f32_mul alpha (f32_sub tgt cur))
                             (binary_normalize 24 128 14411519 (-57) false)) in
       (scale_block chn_out done ns cur bufs, cur))
    s.

(** The loop of [run_cfg] over the events of the control port. *)
Definition handle_event (self : zeroConvolv) (ev : atom_event) : zeroConvolv :=
  match ev with
  | EvOther => self
  | EvPatchGet => inform_ui false self
  | EvPatchSet None => self
  | EvPatchSet (Some file_path) =>
      let size := Z.of_nat (String.length file_path) in
      if (size <? 1) || (1024 <? size) then self
      else schedule_work (PathAtom file_path) self
  end.

(** [run_cfg]. *)
Definition run_cfg `{Libm} `{Convolver.Engine} (n_samples : Z) (self : zeroConvolv)
    : zeroConvolv :=
  match control self, notify self with
  | Some evs, Some _ =>
      let self := set_notify (Some []) self in
      let self := fold_left handle_event evs self in
      let self := set_buffered (f32_ltb f32_zero (rd f32_zero (p_ctrl self) 0)) self in
      let db_dry' := rd f32_zero (p_ctrl self) 1 in
      let db_wet' := rd f32_zero (p_ctrl self) 2 in
      let self :=
        if negb (f32_eqb (db_dry self) db_dry') || negb (f32_eqb (db_wet self) db_wet')
        then
          let self := set_dry_target (db_to_coeff db_dry')
                        (set_db_wet db_wet' (set_db_dry db_dry' self)) in
          match clv_online self with
          | Some C =>
              set_dry_coeff (dry_target self)
                (set_clv_online
                   (Some (Convolver.set_output_gain (dry_target self) (db_to_coeff db_wet')
                            true C)) self)
          | None => self
          end
        else self in
      match clv_online self with
      | Some _ =>
          let self := run n_samples self in
          match clv_online self with
          | Some C => set_p_latency (f32_of_Z (Convolver.get_artificial_latency C)) self
          | None => self
          end
      | None =>
          let self := set_p_latency (f32_of_Z 0) self in
          let in0 := rd [] (input self) 0 in
          let outs := wr (output self) 0
                        (copy_no_inplace_buffers (rd [] (output self) 0) in0 n_samples) in
          let outs :=
            if chn_in self =? 2
            then wr outs 1 (copy_no_inplace_buffers (rd [] outs 1) (rd [] (input self) 1)
                                                    n_samples)
            else if chn_out self =? 2
            then wr outs 1 (copy_no_inplace_buffers (rd [] outs 1) in0 n_samples)
            else outs in
          if f32_eqb (dry_coeff self) (dry_target self) then
            if f32_eqb (dry_coeff self) f32_one then set_output outs self
            else if f32_eqb (dry_coeff self) f32_zero
            then set_output (Convproc.zero_heads (chn_out self) n_samples outs) self
            else set_output (scale_block (chn_out self) 0 n_samples (dry_coeff self) outs)
                            self
          else
            let '(outs, cur) :=
              interpolate_dry n_samples (tc64 self) (dry_target self)
                              (outs, dry_coeff self) (chn_out self) in
            let self := set_output outs self in
            if f32_ltb (SFabs (f32_sub cur (dry_target self)))
                       (binary_normalize 24 128 10995116 (-40) false)
            then set_dry_coeff (dry_target self) self
            else set_dry_coeff cur self
      end
  | _, _ => self
  end.

(** The host at work: it hands a scheduled item to [work], or delivers a
    response with [work_response]. *)
Inductive host_event :=
  | HostWork (d : work_data)
  | HostResponse.

Definition host_step `{AudioLibs} `{Libm} `{Convolver.Engine} (self : zeroConvolv)
    (ev : host_event) : zeroConvolv :=
  match ev with
  | HostWork d => (work d self).2
  | HostResponse => (work_response self).2
  end.

Definition host_run `{AudioLibs} `{Libm} `{Convolver.Engine} (evs : list host_event)
    (self : zeroConvolv) : zeroConvolv :=
  fold_left host_step evs self.

(** The paths for which the worker has started a construction. *)
Definition builds (self : zeroConvolv) : list string :=
  omap (fun e => match e with LogOpening ir => Some ir | _ => None end) (logged self).

(** *** instantiate, the options and the state *)

(** The conversions of the [double] that carries the sample rate to
    [float] and to [int] (which drops the fraction). *)
Definition f32_of_f64 (x : float64) : float32 :=
  match x with
  | S754_finite s m e => binary_normalize 24 128 (cond_Zopp s (Zpos m)) e s
  | _ => x
  end.

Definition int_of_f64 (x : float64) : Z :=
  match x with
  | S754_finite s m e =>
      to_int32 (wrap32 (cond_Zopp s (if 0 <=? e then Zpos m * 2 ^ e else Zpos m / 2 ^ (- e))))
  | _ => 0
  end.

(** What the headers of LV2 and of the system define and the sources at
    hand do not: the context of an option of the instance, the default
    scheduling policy and the range of its priorities. *)
Class Headers := {
  LV2_OPTIONS_INSTANCE : Z;
  SCHED_FIFO : Z;
  sched_get_priority_min : Z -> Z;
  sched_get_priority_max : Z -> Z
}.

(** The URIs that the plugin hands to the URID map of the host and whose
    URIDs the functions below compare. *)
Inductive uri :=
  | BUF_SIZE__maxBlockLength
  | BUF_SIZE__nominalBlockLength
  | threads_schedPolicy
  | threads_schedPriority
  | ATOM__Int
  | ATOM__Float
  | ATOM__Bool
  | ATOM__Path
  | ATOM__Vector
  | ZC_ir
  | ZC_gain
  | ZC_predelay
  | ZC_latency
  | ZC_chn_gain
  | ZC_chn_delay
  | ZC_sum_ins.

(** [LV2_Options_Option]; [o_value] is the [int32_t] behind the pointer
    [value]. *)
Record LV2_Options_Option := {
  o_context : Z;
  o_subject : Z;
  o_key : Z;
  o_size : Z;
  o_type : Z;
  o_value : Z
}.

(** A feature of the host: the constructor stands for the URI, its
    arguments for the data.  A scheduler is known by its address. *)
Inductive LV2_Feature :=
  | URID__map (map : uri -> Z)
  | WORKER__schedule (schedule : Z)
  | OPTIONS__options (options : list LV2_Options_Option)
  | LOG__log
  | STATE__mapPath (abstract_path absolute_path : string -> string)
  | STATE__freePath
  | Feature_other.

(** The loops over [features]: the last feature of a kind is the one
    kept. *)
Definition feature_map (features : list LV2_Feature) : option (uri -> Z) :=
  fold_left (fun acc f => match f with URID__map m => Some m | _ => acc end) features None.

Definition feature_schedule (features : list LV2_Feature) : option Z :=
  fold_left (fun acc f => match f with WORKER__schedule s => Some s | _ => acc end)
            features None.

Definition feature_options (features : list LV2_Feature)
    : option (list LV2_Options_Option) :=
  fold_left (fun acc f => match f with OPTIONS__options os => Some os | _ => acc end)
            features None.

Definition feature_map_path (features : list LV2_Feature)
    : option ((string -> string) * (string -> string)) :=
  fold_left (fun acc f => match f with STATE__mapPath ab rel => Some (ab, rel) | _ => acc end)
            features None.

(** The loop of [instantiate] over the options, which ends at the first
    key 0; the state is [block_size], [max_block], [rt_policy] and
    [rt_priority]. *)
Fixpoint scan_options `{Headers} (map : uri -> Z) (options : list LV2_Options_Option)
    (s : Z * Z * Z * Z) : Z * Z * Z * Z :=
  match options with
  | [] => s
  | o :: options =>
      if o_key o =? 0 then s
      else
        let '(block_size, max_block, rt_policy, rt_priority) := s in
        let hit key := (o_context o =? LV2_OPTIONS_INSTANCE) && (o_key o =? map key)
                      && (o_type o =? map ATOM__Int) in
        let block_size := if hit BUF_SIZE__nominalBlockLength then wrap32 (o_value o)
                          else block_size in
        let max_block := if hit BUF_SIZE__maxBlockLength then wrap32 (o_value o)
                         else max_block in
        let rt_policy := if hit threads_schedPolicy then wrap32 (o_value o) else rt_policy in
        let rt_priority := if hit threads_schedPriority then wrap32 (o_value o)
                           else rt_priority in
        scan_options map options (block_size, max_block, rt_policy, rt_priority)
  end.

(** The messages that [instantiate] logs. *)
Inductive instantiate_log :=
  | ErrMissingMap
  | ErrMissingSchedule
  | ErrMissingOptions
  | ErrNoBlockSize
  | WarnUsingMaxBlockSize
  | ErrBufferSizeOutOfRange (block_size : Z)
  | NoteBufferSizeTooSmall (block_size : Z)
  | NoteDefaultPriority (rt_priority : Z)
  | NotePriority (rt_priority : Z)
  | TraceBufferSize (block_size : Z)
  | ErrInvalidURI.

Definition ZC_PREFIX : string := "http://gareus.org/oss/lv2/zeroconvolv#".

(** The channels for the URI of the descriptor. *)
Definition descriptor_channels (URI : string)
    : option (Z * Z * Convolver.IRChannelConfig) :=
  if String.eqb URI (ZC_PREFIX ++ "Mono") then Some (1, 1, Convolver.Mono)
  else if String.eqb URI (ZC_PREFIX ++ "CfgMono") then Some (1, 1, Convolver.Mono)
  else if String.eqb URI (ZC_PREFIX ++ "Stereo") then Some (2, 2, Convolver.Stereo)
  else if String.eqb URI (ZC_PREFIX ++ "CfgStereo") then Some (2, 2, Convolver.Stereo)
  else if String.eqb URI (ZC_PREFIX ++ "MonoToStereo")
  then Some (1, 2, Convolver.MonoToStereo)
  else if String.eqb URI (ZC_PREFIX ++ "CfgMonoToStereo")
  then Some (1, 2, Convolver.MonoToStereo)
  else None.

(** [instantiate], as built where [_WIN32] is not defined: the instance,
    or nothing for [NULL], and the messages logged.  [calloc_ok] tells
    whether [calloc] returns a block.  No port is connected yet: the
    buffers are empty, the atom ports null, and the cells of the latency
    and control ports, which the record holds by value, read as 0. *)
Definition instantiate `{Headers} (calloc_ok : bool) (URI : string) (rate : float64)
    (features : list LV2_Feature) : option zeroConvolv * list instantiate_log :=
  match feature_map features with
  | None => (None, [ErrMissingMap])
  | Some map =>
      match feature_schedule features with
      | None => (None, [ErrMissingSchedule])
      | Some _ =>
          match feature_options features with
          | None => (None, [ErrMissingOptions])
          | Some options =>
              let '(block_size, max_block, rt_policy, rt_priority) :=
                scan_options map options (0, 0, wrap32 SCHED_FIFO, 0) in
              if (block_size =? 0) && (max_block =? 0) then (None, [ErrNoBlockSize])
              else
                let '(block_size, log) :=
                  if block_size =? 0 then (max_block, [WarnUsingMaxBlockSize])
                  else (block_size, []) in
                if 8192 <? block_size
                then (None, log ++ [ErrBufferSizeOutOfRange block_size])
                else
                  let '(block_size, log) :=
                    if block_size <? 64
                    then (64, log ++ [NoteBufferSizeTooSmall block_size])
                    else (block_size, log) in
                  let '(rt_priority, log) :=
                    if rt_priority =? 0 then
                      let p_min := sched_get_priority_min (to_int32 rt_policy) in
                      let p_max := sched_get_priority_max (to_int32 rt_policy) in
                      let p := wrap32 (Z.quot (to_int32 (wrap32 (p_min + p_max))) 2) in
                      (p, log ++ [NoteDefaultPriority p])
                    else (rt_priority, log ++ [NotePriority rt_priority]) in
                  let log := log ++ [TraceBufferSize block_size] in
                  if negb calloc_ok then (None, log)
                  else
                    match descriptor_channels URI with
                    | None => (None, log ++ [ErrInvalidURI])
                    | Some (chn_in, chn_out, chn_cfg) =>
                        (Some (mk [[]; []] [[]; []] f32_zero [] true (f32_of_Z (-60)) f32_zero
                                  f32_zero f32_zero None None None None true chn_cfg
                                  (int_of_f64 rate) chn_in chn_out block_size
                                  (to_int32 rt_policy) (to_int32 rt_priority)
                                  (f32_of_f64 (SFdiv 53 1024 (f64_of_Z 2950) rate))
                                  "" [] 0 []),
                         log)
                    end
          end
      end
  end.

(** [activate]. *)
Definition activate `{Convolver.Engine} (self : zeroConvolv) : zeroConvolv :=
  match clv_online self with
  | Some C => set_clv_online (Some (Convolver.reconfigure (block_size self) C)) self
  | None => self
  end.

Inductive LV2_Options_Status :=
  | LV2_OPTIONS_SUCCESS
  | LV2_OPTIONS_ERR_BAD_SUBJECT
  | LV2_OPTIONS_ERR_BAD_KEY
  | LV2_OPTIONS_ERR_BAD_VALUE.

(** [opts_set]; [map] is the URID map that [instantiate] was given, whose
    values the instance keeps. *)
Definition opts_set `{Headers} `{Convolver.Engine} (map : uri -> Z)
    (options : LV2_Options_Option) (self : zeroConvolv)
    : LV2_Options_Status * zeroConvolv :=
  if negb (o_context options =? LV2_OPTIONS_INSTANCE) || negb (o_subject options =? 0)
  then (LV2_OPTIONS_ERR_BAD_SUBJECT, self)
  else if negb (o_key options =? map BUF_SIZE__nominalBlockLength)
  then (LV2_OPTIONS_ERR_BAD_KEY, self)
  else if negb (o_size options =? 4) || negb (o_type options =? map ATOM__Int)
  then (LV2_OPTIONS_ERR_BAD_VALUE, self)
  else
    let self := set_block_size (wrap32 (o_value options)) self in
    match clv_online self with
    | Some C =>
        (LV2_OPTIONS_SUCCESS,
         set_clv_online (Some (Convolver.reconfigure (block_size self) C)) self)
    | None => (LV2_OPTIONS_SUCCESS, self)
    end.

Inductive LV2_State_Status :=
  | LV2_STATE_SUCCESS
  | LV2_STATE_ERR_NO_FEATURE
  | LV2_STATE_ERR_NO_PROPERTY.

(** A value of the state as [store] receives it and [retrieve] returns
    it: the body, with the size and the type declared for it.  A vector is
    a [stateVector]: the size and the type of its elements and the four
    elements.  The store is taken to hold bodies of the type declared. *)
Inductive state_body :=
  | BodyPath (path : string)
  | BodyInt (v : Z)
  | BodyFloat (f : float32)
  | BodyFloats (child_size child_type : Z) (f : list float32)
  | BodyInts (child_size child_type : Z) (i : list Z).

Record state_value := {
  s_body : state_body;
  s_size : Z;
  s_type : Z
}.

(** [save]: the status and the calls of [store], each with its key, in
    their order. *)
Definition save (map : uri -> Z) (features : list LV2_Feature) (self : zeroConvolv)
    : LV2_State_Status * list (Z * state_value) :=
  match feature_map_path features with
  | None => (LV2_STATE_ERR_NO_FEATURE, [])
  | Some (abstract_path, _) =>
      match clv_online self with
      | None => (LV2_STATE_SUCCESS, [])
      | Some C =>
          let apath := abstract_path (Convolver.path C) in
          let irs := Convolver.settings C in
          (LV2_STATE_SUCCESS,
           [ (map ZC_ir,
              {| s_body := BodyPath apath; s_size := Z.of_nat (String.length apath) + 1;
                 s_type := map ATOM__Path |});
             (map ZC_gain,
              {| s_body := BodyFloat (Convolver.gain irs); s_size := 4;
                 s_type := map ATOM__Float |});
             (map ZC_predelay,
              {| s_body := BodyInt (Convolver.pre_delay irs); s_size := 4;
                 s_type := map ATOM__Int |});
             (map ZC_latency,
              {| s_body := BodyInt (Convolver.artificial_latency irs); s_size := 4;
                 s_type := map ATOM__Int |});
             (map ZC_sum_ins,
              {| s_body := BodyInt (if Convolver.sum_inputs irs then 1 else 0); s_size := 4;
                 s_type := map ATOM__Bool |});
             (map ZC_chn_gain,
              {| s_body := BodyFloats 4 (map ATOM__Float) (Convolver.channel_gain irs);
                 s_size := 24; s_type := map ATOM__Vector |});
             (map ZC_chn_delay,
              {| s_body := BodyInts 4 (map ATOM__Int) (Convolver.channel_delay irs);
                 s_size := 24; s_type := map ATOM__Vector |}) ])
      end
  end.

(** The settings that [restore] reads into its local [irs]. *)
Definition restore_settings (map : uri -> Z) (retrieve : Z -> option state_value)
    : Convolver.IRSettings :=
  let irs := Convolver.IRSettings_default in
  let pre_delay :=
    match retrieve (map ZC_predelay) with
    | Some v => if (s_size v =? 4) && (s_type v =? map ATOM__Int)
                then match s_body v with BodyInt x => x | _ => Convolver.pre_delay irs end
                else Convolver.pre_delay irs
    | None => Convolver.pre_delay irs
    end in
  let artificial_latency :=
    match retrieve (map ZC_latency) with
    | Some v => if (s_size v =? 4) && (s_type v =? map ATOM__Int)
                then match s_body v with
                     | BodyInt x => x
                     | _ => Convolver.artificial_latency irs
                     end
                else Convolver.artificial_latency irs
    | None => Convolver.artificial_latency irs
    end in
  let gain :=
    match retrieve (map ZC_gain) with
    | Some v => if (s_size v =? 4) && (s_type v =? map ATOM__Float)
                then match s_body v with BodyFloat x => x | _ => Convolver.gain irs end
                else Convolver.gain irs
    | None => Convolver.gain irs
    end in
  let channel_delay :=
    match retrieve (map ZC_chn_delay) with
    | Some v => if (s_size v =? 24) && (s_type v =? map ATOM__Vector)
                then match s_body v with
                     | BodyInts _ child_type x =>
                         if child_type =? map ATOM__Int then x
                         else Convolver.channel_delay irs
                     | _ => Convolver.channel_delay irs
                     end
                else Convolver.channel_delay irs
    | None => Convolver.channel_delay irs
    end in
  let sum_inputs :=
    match retrieve (map ZC_sum_ins) with
    | Some v => if (s_size v =? 4) && (s_type v =? map ATOM__Bool)
                then match s_body v with
                     | BodyInt x => negb (x =? 0)
                     | _ => Convolver.sum_inputs irs
                     end
                else Convolver.sum_inputs irs
    | None => Convolver.sum_inputs irs
    end in
  let channel_gain :=
    match retrieve (map ZC_chn_gain) with
    | Some v => if (s_size v =? 24) && (s_type v =? map ATOM__Vector)
                then match s_body v with
                     | BodyFloats _ child_type x =>
                         if child_type =? map ATOM__Float then x
                         else Convolver.channel_gain irs
                     | _ => Convolver.channel_gain irs
                     end
                else Convolver.channel_gain irs
    | None => Convolver.channel_gain irs
    end in
  {| Convolver.gain := gain; Convolver.pre_delay := pre_delay;
     Convolver.channel_gain := channel_gain; Convolver.channel_delay := channel_delay;
     Convolver.sum_inputs := sum_inputs; Convolver.artificial_latency := artificial_latency |}.

(** The notes that [restore] logs before it calls the worker. *)
Inductive restore_log :=
  | NoteThreadSafeRestore
  | WarnRunScheduler
  | NoteStateIr (path : string).

(** [restore]: the status, the messages logged, the local [irs] when the
    function gets as far as reading it, and the instance.  [schedule] is
    the scheduler that [instantiate] kept; [retrieve] is the host's
    function, with the handle applied.  The work is scheduled with the
    scheduler of the features when there is one. *)
Definition restore `{AudioLibs} `{Convolver.Engine} (map : uri -> Z) (schedule : Z)
    (retrieve : Z -> option state_value) (features : list LV2_Feature)
    (self : zeroConvolv)
    : LV2_State_Status * list restore_log * option Convolver.IRSettings * zeroConvolv :=
  let log := omap (fun f => match f with
                            | WORKER__schedule _ => Some NoteThreadSafeRestore
                            | _ => None
                            end) features in
  let schedule' := default schedule (feature_schedule features) in
  match feature_map_path features with
  | None => (LV2_STATE_ERR_NO_FEATURE, log, None, self)
  | Some (_, absolute_path) =>
      let log := if schedule' =? schedule then log ++ [WarnRunScheduler] else log in
      let irs := restore_settings map retrieve in
      match retrieve (map ZC_ir) with
      | None => (LV2_STATE_ERR_NO_PROPERTY, log, Some irs, self)
      | Some value =>
          let path := absolute_path
                        (match s_body value with BodyPath p => p | _ => "" end) in
          let log := log ++ [NoteStateIr path] in
          let '(st, ok, self) := load_ir_worker false path self in
          let rv := match st with
                    | LV2_WORKER_ERR_UNKNOWN => LV2_STATE_ERR_NO_PROPERTY
                    | LV2_WORKER_SUCCESS => LV2_STATE_SUCCESS
                    end in
          if negb ok then (rv, log, Some irs, self)
          else
            (LV2_STATE_SUCCESS, log, Some irs,
             schedule_work (Command CMD_APPLY) (set_pset_dirty false self))
      end
  end.

(** The calls through which the host changes a running instance. *)
Inductive host_call :=
  | CallRun (n_samples : Z)
  | CallRunCfg (n_samples : Z)
  | CallWork (data : work_data)
  | CallWorkResponse
  | CallActivate
  | CallOptsSet (options : LV2_Options_Option)
  | CallRestore (retrieve : Z -> option state_value) (features : list LV2_Feature).

Definition host_call_exec `{Headers} `{AudioLibs} `{Libm} `{Convolver.Engine}
    (map : uri -> Z) (schedule : Z) (self : zeroConvolv) (c : host_call) : zeroConvolv :=
  match c with
  | CallRun n_samples => run n_samples self
  | CallRunCfg n_samples => run_cfg n_samples self
  | CallWork data => (work data self).2
  | CallWorkResponse => (work_response self).2
  | CallActivate => activate self
  | CallOptsSet options => (opts_set map options self).2
  | CallRestore retrieve features => (restore map schedule retrieve features self).2
  end.
End LV2.

(** * Properties *)

(** ** Vocabulary of the specification *)

Definition is_u32 (z : Z) : Prop := 0 <= z < 2 ^ 32.

Definition is_pow2 (x : Z) : Prop := exists k, 0 <= k /\ x = 2 ^ k.

(** Invariant I1: [quantum <= minpart <= maxpart <= MAXPART], all powers
    of two. *)
Definition invariant_I1 `{ZetaHeader} (quantum minpart maxpart : Z) : Prop :=
  quantum <= minpart /\ minpart <= maxpart /\ maxpart <= MAXPART
  /\ is_pow2 quantum /\ is_pow2 minpart /\ is_pow2 maxpart.

Definition channels_in_range `{ZetaHeader} (ninp nout : Z) : Prop :=
  1 <= ninp <= MAXINP /\ 1 <= nout <= MAXOUT.

(** The further limits that [configure] puts on the sizes. *)
Definition sizes_in_range `{ZetaHeader} (quantum minpart : Z) : Prop :=
  MINQUANT <= quantum <= MAXQUANT /\ MINPART <= minpart <= MAXDIVIS * quantum.

(** A partition plan: every level starts where the one before it ends,
    the first at [offs]. *)
Fixpoint chained (offs : Z) (levs : list Convlevel.t) : Prop :=
  match levs with
  | [] => True
  | L :: levs =>
      Convlevel._offs L = offs /\ 0 < Convlevel._npar L /\ 0 < Convlevel._parsize L
      /\ chained (offs + Convlevel._npar L * Convlevel._parsize L) levs
  end.

(** The number of samples of the impulse response that the levels cover. *)
Definition plan_span (levs : list Convlevel.t) : Z :=
  fold_right (fun L acc => Convlevel._npar L * Convlevel._parsize L + acc) 0 levs.

(** What [configure] leaves behind when it succeeds. *)
Definition configured `{ZetaHeader} (ninp nout maxsize quantum minpart : Z)
    (P : Convproc.t) : Prop :=
  Convproc._state P = Convproc.ST_STOP
  /\ Convproc._ninp P = ninp /\ Convproc._nout P = nout
  /\ Convproc._quantum P = quantum /\ Convproc._minpart P = minpart
  /\ Convproc._latecnt P = 0
  /\ Convproc._nlevels P = Z.of_nat (length (Convproc._convlev P))
  /\ chained 0 (Convproc._convlev P)
  /\ maxsize <= plan_span (Convproc._convlev P)
  /\ Convproc._inpsize P = 2 * Convproc._maxpart P
  /\ length (Convproc._inpbuff P) = Z.to_nat ninp
  /\ Forall (fun b => Z.of_nat (length b) = Convproc._inpsize P) (Convproc._inpbuff P)
  /\ length (Convproc._outbuff P) = Z.to_nat nout
  /\ Forall (fun b => Z.of_nat (length b) = minpart) (Convproc._outbuff P).

(** The claim about [configure] as the specification words it: a wrong
    state gives [BAD_STATE], channel counts out of range or a violation of
    I1 give [BAD_PARAM], both without any change, and every other call
    ends in [ST_STOP]. *)
Definition configure_as_specified `{ZetaHeader} (alloc : Convproc.Alloc)
    (ninp nout maxsize quantum minpart maxpart : Z) (density : float32)
    (P : Convproc.t) : Prop :=
  let r := Convproc.configure alloc ninp nout maxsize quantum minpart maxpart density P in
  (Convproc._state P <> Convproc.ST_IDLE -> r = Some (Convproc.BAD_STATE, P))
  /\ (Convproc._state P = Convproc.ST_IDLE ->
      ~ (channels_in_range ninp nout /\ invariant_I1 quantum minpart maxpart) ->
      r = Some (Convproc.BAD_PARAM, P))
  /\ (Convproc._state P = Convproc.ST_IDLE ->
      channels_in_range ninp nout -> invariant_I1 quantum minpart maxpart ->
      exists P', r = Some (Convproc.OK, P') /\ Convproc._state P' = Convproc.ST_STOP).

(** The flags that [Convlevel::readout] returns; they depend on the
    level alone.  A level reports lateness when the flags are not 0. *)
Definition late_flag (L : Convlevel.t) : Z :=
  let at_end := wrap32 (Convlevel._outoffs L + Convlevel._outsize L) =? Convlevel._parsize L in
  let wait := if at_end && bool_decide (Convlevel._stat L = Convlevel.ST_PROC)
              then wrap32 (0 + 1) else Convlevel._wait L in
  if 1 <? wait then to_int32 (Convlevel._bits L) else 0.

(** A cycle is late when the readout of some level reports lateness. *)
Definition late_cycle (P : Convproc.t) : Prop :=
  exists k, 0 <= k < Convproc._nlevels P
            /\ late_flag (rd Convlevel.new (Convproc._convlev P) k) <> 0.





(** The loop over the partitions of one [Macnode] with the ring slot
    written as [(ptind - j) mod n_partitions]: the arrays, with the
    innermost loop of the source.  [mac_bin_by_age] says what a bin
    receives. *)
Definition mac_by_age (npar parsize ptind : Z) (ffta : list (list fftwf_complex))
    (M : Macnode.t) (freq_data : list fftwf_complex) : list fftwf_complex :=
  fold_left
    (fun fd j =>
       match Macnode.partition M j with
       | Some fftb => Convlevel.cmac parsize (rd [] ffta ((ptind - j) mod npar)) fftb fd
       | None => fd
       end)
    (seqZ 0 npar) freq_data.


(** What the first loop of [process] does to an input node: slot [ptind]
    of its ring receives a forward transform, the other slots stay. *)
Definition slot_written `{FFTW} (parsize ptind : Z) (X X' : Inpnode.t) : Prop :=
  Inpnode._inp X' = Inpnode._inp X
  /\ exists td, Inpnode._ffta X'
                = wr (Inpnode._ffta X) ptind (dft_r2c (wrap32 (2 * parsize)) td).


(** The operations of a level: the member functions of [Convlevel] and
    the two stages of its worker thread. *)
Inductive level_op :=
  | OpConfigure (prio offs npar parsize options : Z)
  | OpImpdataWrite (inp out step : Z) (data : option (list float32)) (i0 i1 : Z)
                   (create : bool)
  | OpImpdataClear (inp out : Z)
  | OpReset (inpsize outsize : Z)
  | OpStart (created : bool)
  | OpStop
  | OpCleanup
  | OpMainEnter
  | OpMainTurn (inpbuff : list (list float32))
  | OpProcess (inpbuff : list (list float32))
  | OpReadout (inpbuff outbuff : list (list float32))
  | OpReadtail (n_samples : Z) (outbuff : list (list float32)).

Definition level_exec `{FFTW} (op : level_op) (L : Convlevel.t) : Convlevel.t :=
  match op with
  | OpConfigure prio offs npar parsize options =>
      Convlevel.configure prio offs npar parsize options L
  | OpImpdataWrite inp out step data i0 i1 create =>
      Convlevel.impdata_write inp out step data i0 i1 create L
  | OpImpdataClear inp out => Convlevel.impdata_clear inp out L
  | OpReset inpsize outsize => Convlevel.reset inpsize outsize L
  | OpStart created => (Convlevel.start created L).2
  | OpStop => Convlevel.stop L
  | OpCleanup => Convlevel.cleanup L
  | OpMainEnter => Convlevel.main_enter L
  | OpMainTurn inpbuff => Convlevel.main_turn inpbuff L
  | OpProcess inpbuff => Convlevel.process inpbuff L
  | OpReadout inpbuff outbuff => (Convlevel.readout inpbuff outbuff L).1.2
  | OpReadtail n_samples outbuff => (Convlevel.readtail n_samples outbuff L).1.2
  end.

(** Whether an operation goes through the per-cycle step [process]: the
    step itself, a turn of the worker that is not told to terminate, and a
    readout at the end of the period of a level without a worker. *)
Definition runs_process (op : level_op) (L : Convlevel.t) : bool :=
  match op with
  | OpProcess _ => true
  | OpMainTurn _ => negb (bool_decide (Convlevel._stat L = Convlevel.ST_TERM))
  | OpReadout _ _ =>
      (wrap32 (Convlevel._outoffs L + Convlevel._outsize L) =? Convlevel._parsize L)
      && negb (bool_decide (Convlevel._stat L = Convlevel.ST_PROC))
  | _ => false
  end.

Definition is_reset (op : level_op) : bool :=
  match op with OpReset _ _ => true | _ => false end.


(** A level with two partitions of one sample, ring index 1, one input
    node and one output node with a [Macnode] for the input. *)
Definition mac_example : Convlevel.t :=
  Convlevel.mk Convlevel.ST_IDLE 0 0 2 1 0 2 1 0 0 1 0 1 0 0 0
    [Inpnode.mk [[(f32_one, f32_zero); (f32_one, f32_zero)];
                 [(f32_half, f32_zero); (f32_half, f32_zero)]] 2 0]
    [Outnode.mk [Macnode.mk 0 None
                   (Some [Some [(f32_one, f32_zero); (f32_one, f32_zero)];
                          Some [(f32_half, f32_zero); (f32_half, f32_zero)]]) 2]
                [calloc_real 1; calloc_real 1; calloc_real 1] 0]
    (calloc_real 2) (calloc_real 2) (calloc_complex 2).

(** The calls that change a [TimeDomainConvolver]. *)
Inductive tdc_op :=
  | TdcReset
  | TdcConfigure (r : Readable) (gain : float32) (delay : Z).

Definition tdc_exec (T : TimeDomainConvolver.t) (op : tdc_op) : TimeDomainConvolver.t :=
  match op with
  | TdcReset => TimeDomainConvolver.reset T
  | TdcConfigure r gain delay => TimeDomainConvolver.configure r gain delay T
  end.

(** The object after its constructor and a sequence of calls. *)
Definition tdc_after (ops : list tdc_op) : TimeDomainConvolver.t :=
  fold_left tdc_exec ops TimeDomainConvolver.new.


(** The source that the constructor of [Convolver] opens for a path. *)
Definition ir_source `{AudioLibs} (path : string) : result Readable :=
  if String.eqb (String.substring 0 4 path) "mem:" then Ok MemSource else FileSource path.

(** Libraries for the examples: three files at 48 kHz, one of [2^24]
    frames, one longer by a frame and one without channels; the resampler
    is available. *)
Definition libs_example : AudioLibs := {|
  sf_open := fun path =>
    if String.eqb path "ir.wav"
    then Some {| frames := 16777216; samplerate := 48000; channels := 2;
                 seekable := true; sf_read := fun _ _ _ => [] |}
    else if String.eqb path "long.wav"
    then Some {| frames := 16777217; samplerate := 48000; channels := 2;
                 seekable := true; sf_read := fun _ _ _ => [] |}
    else if String.eqb path "none.wav"
    then Some {| frames := 1000; samplerate := 48000; channels := 0;
                 seekable := true; sf_read := fun _ _ _ => [] |}
    else None;
  src_new_ok := true;
  src_read := fun _ _ _ _ _ => []
|}.




(** An engine as [reconfigure] leaves it for the built-in source: ready,
    with a quantum of 64 samples and no artificial latency. *)
Definition engine0 : Convolver.t :=
  Convolver.mk MemSource [MemSource] (Convproc.set_state Convproc.ST_PROC Convproc.new)
    "mem:" Convolver.Mono 0 0 Convolver.IRSettings_default 64 16 0 true
    f32_zero f32_one f32_zero f32_one (f32_div (f32_of_Z 2950) (f32_of_Z 44100))
    (replicate 4 TimeDomainConvolver.new).

(** Stand-ins for the examples: a [reconfigure] that always brings the
    engine up with a quantum of 64 samples, audio paths that leave the
    samples alone, and a [powf] that is constant. *)
Definition engine_example : Convolver.Engine := {|
  Convolver.reconfigure := fun _ C =>
    Convolver.mk (Convolver._fs C) (Convolver._readables C)
      (Convproc.set_state Convproc.ST_PROC (Convolver._convproc C))
      (Convolver._path C) (Convolver._irc C) (Convolver._sched_policy C)
      (Convolver._sched_priority C) (Convolver._ir_settings C) 64
      (wrap32 (readable_length (Convolver._fs C))) 0 true
      (Convolver._dry C) (Convolver._wet C) (Convolver._dry_target C)
      (Convolver._wet_target C) (Convolver._a C) (Convolver._tdc C);
  Convolver.run_buffered_mono := fun C buf _ => (C, buf);
  Convolver.run_buffered_stereo := fun C l r _ => (C, (l, r));
  Convolver.run_mono := fun C buf _ => (C, buf);
  Convolver.run_stereo := fun C l r _ => (C, (l, r))
|}.

Definition libm_example : LV2.Libm := {| LV2.powf := fun _ _ => f32_one |}.

(** A configurable mono instance at 44.1 kHz right after [instantiate],
    with its ports connected: no engine yet, buffered mode requested, dry
    gain at -60 dB and wet gain at 0 dB. *)
Definition plugin_example : LV2.zeroConvolv :=
  LV2.mk [calloc_real 64; []] [calloc_real 64; []] f32_zero
    [f32_one; f32_of_Z (-60); f32_zero] true (f32_of_Z (-60)) f32_zero f32_zero f32_zero
    (Some []) (Some []) None None true Convolver.Mono 44100 1 1 1024 1 50
    (f32_div (f32_of_Z 2950) (f32_of_Z 44100)) "" [] 0 [].

(** The same instance with [engine0] online. *)
Definition cfg_example : LV2.zeroConvolv := LV2.set_clv_online (Some engine0) plugin_example.

(** The engine that the constructor makes for the built-in source at
    44.1 kHz. *)
Definition mem_engine : Convolver.t :=
  Eval vm_compute in
    match Convolver.new (H := libs_example) "mem:1" 44100 1 50 Convolver.Mono
                        Convolver.IRSettings_default with
    | Ok C => C
    | Throw _ => engine0
    end.

(** The partition sizes of a plan: powers of two between [lo] and [hi],
    each level larger than the one before. *)
Fixpoint sizes_ascend (lo hi : Z) (levs : list Convlevel.t) : Prop :=
  match levs with
  | [] => True
  | L :: levs =>
      is_pow2 (Convlevel._parsize L) /\ lo <= Convlevel._parsize L <= hi
      /\ sizes_ascend (2 * Convlevel._parsize L) hi levs
  end.

(** A delay line fed block after block: the line at the end and the
    blocks as [run] leaves them. *)
Fixpoint delay_stream (D : DelayLine.t) (blocks : list (list float32))
    : DelayLine.t * list (list float32) :=
  match blocks with
  | [] => (D, [])
  | b :: blocks =>
      let '(D, b') := DelayLine.run b (Z.of_nat (length b)) D in
      let '(D, outs) := delay_stream D blocks in
      (D, b' :: outs)
  end.

(** The cells of the ring in the order of their age, from the cell at
    [pos], the oldest one. *)
Definition ring_from (pos : Z) (ring : list float32) : list float32 :=
  drop (Z.to_nat pos) ring ++ take (Z.to_nat pos) ring.

(** A line of [d + 1] cells whose contents, oldest first, are [h]. *)
Definition delay_holds (d : nat) (h : list float32) (D : DelayLine.t) : Prop :=
  exists ring p,
    DelayLine._buf D = Some ring /\ length ring = S d
    /\ DelayLine._delay D = Z.of_nat d /\ DelayLine._pos D = Z.of_nat p /\ (p <= d)%nat
    /\ ring_from (Z.of_nat p) ring = h.

(** A convolver as [configure] leaves it for two inputs, two outputs, an
    impulse response of 2000 samples, a quantum of 64 and partitions of 64
    to 128 samples: a level of three partitions of 64 samples and a level of
    fifteen partitions of 128 samples. *)
Definition plan_example : Convproc.t :=
  Eval vm_compute in
    match Convproc.configure (H := zita4) Convproc.alloc_all 2 2 2000 64 64 128 f32_zero
                             Convproc.new with
    | Some (_, P) => P
    | None => Convproc.new
    end.

(** The same convolver started, with all threads created. *)
Definition running_example : Convproc.t :=
  Eval vm_compute in (Convproc.start_process (H := fftw_null) (fun _ => true) plan_example).2.

(** The node that [findmacnode (inp, out, true)] adds to an output node
    when none is there for the input. *)
Definition add_mac (xid : Z) (Y : Outnode.t) : Outnode.t :=
  match Convlevel.find_mac xid (Outnode._list Y) with
  | Some _ => Y
  | None => Outnode.set_list (Macnode.new xid :: Outnode._list Y) Y
  end.

(** The members that only the audio thread writes. *)
Definition audio_side (self : LV2.zeroConvolv) :=
  (LV2.input self, LV2.output self, LV2.p_latency self, LV2.p_ctrl self, LV2.buffered self,
   LV2.db_dry self, LV2.db_wet self, LV2.dry_coeff self, LV2.dry_target self,
   LV2.control self, LV2.notify self, LV2.clv_online self, LV2.pset_dirty self, LV2.scheduled self).

(** The work item that [run_cfg] schedules for an event of the control
    port, if any. *)
Definition load_request (ev : LV2.atom_event) : option LV2.work_data :=
  match ev with
  | LV2.EvPatchSet (Some file_path) =>
      let size := Z.of_nat (String.length file_path) in
      if (size <? 1) || (1024 <? size) then None else Some (LV2.PathAtom file_path)
  | _ => None
  end.

(** What the loop over the events leaves alone. *)
Definition event_frame (self : LV2.zeroConvolv) :=
  (LV2.input self, LV2.output self, LV2.p_latency self, LV2.p_ctrl self, LV2.buffered self,
   LV2.db_dry self, LV2.db_wet self, LV2.dry_coeff self, LV2.dry_target self, LV2.control self,
   LV2.clv_online self, LV2.clv_offline self, LV2.pset_dirty self, LV2.chn_in self, LV2.chn_out self,
   LV2.tc64 self, LV2.next_queued_file self, LV2.responded self, LV2.logged self).

(** The instance of [plugin_example] with four events at its control
    port: a [patch:Get], a [patch:Set] with a path, one without a path and
    one with an empty path. *)
Definition events_example : LV2.zeroConvolv :=
  LV2.mk [calloc_real 64; []] [calloc_real 64; []] f32_zero
    [f32_one; f32_of_Z (-60); f32_zero] true (f32_of_Z (-60)) f32_zero f32_zero f32_zero
    (Some [LV2.EvPatchGet; LV2.EvPatchSet (Some "ir.wav"); LV2.EvPatchSet None;
           LV2.EvPatchSet (Some "")])
    (Some []) None None true Convolver.Mono 44100 1 1 1024 1 50
    (f32_div (f32_of_Z 2950) (f32_of_Z 44100)) "" [] 0 [].

(** The gain of [run_cfg] after [k] blocks of the interpolation. *)
Definition dry_ramp (alpha tgt cur : float32) (k : nat) : float32 :=
  Nat.iter k
    (fun cur => f32_add cur (f32_add (f32_mul alpha (f32_sub tgt cur))
                                     (binary_normalize 24 128 14411519 (-57) false)))
    cur.

(** What [run_cfg] makes of the sample [x] at the index [i] when no
    engine is on line. *)
Definition dry_gain (alpha tgt cur : float32) (i : Z) (x : float32) : float32 :=
  if f32_eqb cur tgt then
    if f32_eqb cur f32_one then x
    else if f32_eqb cur f32_zero then f32_zero
    else f32_mul x cur
  else f32_mul x (dry_ramp alpha tgt cur (S (Z.to_nat (i / 64)))).

(** The reader that the constructor of [Convolver] keeps for the channel
    [n] of the source [fs]: the channel itself at the rate of the source,
    the resampler on top of it otherwise. *)
Definition channel_view `{AudioLibs} (fs : Readable) (rate n : Z) (r : Readable) : Prop :=
  n_channels r = 1 /\ sample_rate r = rate
  /\ if sample_rate fs =? rate
     then readable_length r = readable_length fs
          /\ forall pos cnt channel, read r pos cnt channel = read fs pos cnt n
     else exists w, ChanWrap fs n = Ok w
                    /\ read r = src_read w rate
                    /\ readable_length r
                       = src_readable_length (readable_length w) (sample_rate w) rate.

(** The nominal block size that [instantiate] settles on, before the
    range check: the nominal block length of the options, or the maximal
    one when there is none. *)
Definition requested_block_size `{LV2.Headers} (map : LV2.uri -> Z)
    (options : list LV2.LV2_Options_Option) : Z :=
  let '(block_size, max_block, _, _) :=
    LV2.scan_options map options (0, 0, wrap32 LV2.SCHED_FIFO, 0) in
  if block_size =? 0 then max_block else block_size.

(** The members that the declaration of the instance calls constant,
    with the scheduling parameters and the filter coefficient. *)
Definition instance_constants (self : LV2.zeroConvolv) :=
  (LV2.rate self, LV2.chn_in self, LV2.chn_out self, LV2.chn_cfg self, LV2.rt_policy self,
   LV2.rt_priority self, LV2.tc64 self).

(** Whether [opts_set] accepts an option. *)
Definition opts_set_accepts `{LV2.Headers} (map : LV2.uri -> Z) (o : LV2.LV2_Options_Option)
    : bool :=
  (LV2.o_context o =? LV2.LV2_OPTIONS_INSTANCE) && (LV2.o_subject o =? 0)
  && (LV2.o_key o =? map LV2.BUF_SIZE__nominalBlockLength)
  && (LV2.o_size o =? 4) && (LV2.o_type o =? map LV2.ATOM__Int).

(** The block size after a sequence of calls, as the accepted options
    dictate it. *)
Definition block_size_after `{LV2.Headers} (map : LV2.uri -> Z) (calls : list LV2.host_call)
    (block_size : Z) : Z :=
  fold_left (fun bs c => match c with
                         | LV2.CallOptsSet o =>
                             if opts_set_accepts map o then wrap32 (LV2.o_value o) else bs
                         | _ => bs
                         end) calls block_size.

(** A URID map for the examples. *)
Definition urid_example (u : LV2.uri) : Z :=
  match u with
  | LV2.BUF_SIZE__maxBlockLength => 1
  | LV2.BUF_SIZE__nominalBlockLength => 2
  | LV2.threads_schedPolicy => 3
  | LV2.threads_schedPriority => 4
  | LV2.ATOM__Int => 5
  | LV2.ATOM__Float => 6
  | LV2.ATOM__Bool => 7
  | LV2.ATOM__Path => 8
  | LV2.ATOM__Vector => 9
  | LV2.ZC_ir => 10
  | LV2.ZC_gain => 11
  | LV2.ZC_predelay => 12
  | LV2.ZC_latency => 13
  | LV2.ZC_chn_gain => 14
  | LV2.ZC_chn_delay => 15
  | LV2.ZC_sum_ins => 16
  end.

(** A host whose paths are left as they are. *)
Definition map_path_example : list LV2.LV2_Feature :=
  [LV2.STATE__mapPath (fun p => p) (fun p => p)].

(** The instance of [plugin_example] with the engine of the built-in
    source on line. *)
Definition saved_example : LV2.zeroConvolv :=
  LV2.set_clv_online (Some mem_engine) plugin_example.

(** A store that returns what [save] stored for [saved_example]. *)
Definition retrieve_example (key : Z) : option LV2.state_value :=
  snd <$> List.find (fun kv => fst kv =? key)
                    (LV2.save urid_example map_path_example saved_example).2.





(** The transform of two real points, [X0 = x0 + x1] and [X1 = x0 - x1],
    and its inverse without normalisation, as FFTW defines them; the
    examples need no other size, for which this gives zeros. *)
Definition fftw_two : FFTW := {|
  dft_r2c := fun n x =>
    if n =? 2
    then [(f32_add (rd f32_zero x 0) (rd f32_zero x 1), f32_zero);
          (f32_sub (rd f32_zero x 0) (rd f32_zero x 1), f32_zero)]
    else calloc_complex (n / 2 + 1);
  dft_c2r := fun n X =>
    if n =? 2
    then [f32_add (rd c32_zero X 0).1 (rd c32_zero X 1).1;
          f32_sub (rd c32_zero X 0).1 (rd c32_zero X 1).1]
    else calloc_real n
|}.

(** The complex multiply and accumulate of one bin: [c + a * b]. *)
Definition cmac_bin (a b c : fftwf_complex) : fftwf_complex :=
  (f32_add c.1 (f32_sub (f32_mul a.1 b.1) (f32_mul a.2 b.2)),
   f32_add c.2 (f32_add (f32_mul a.1 b.2) (f32_mul a.2 b.1))).

(** Bin [k] after the partitions of one [Macnode], as the specification
    words it: for [j = 0 .. n_partitions - 1], partition [j] of the impulse
    response times the input spectrum in the ring slot
    [(ptind - j) mod n_partitions], added to the bin one after the other. *)
Definition mac_bin_by_age (npar ptind : Z) (ffta : list (list fftwf_complex))
    (M : Macnode.t) (k : Z) (c : fftwf_complex) : fftwf_complex :=
  fold_left
    (fun c j =>
       match Macnode.partition M j with
       | Some fftb =>
           cmac_bin (rd c32_zero (rd [] ffta ((ptind - j) mod npar)) k) (rd c32_zero fftb k) c
       | None => c
       end)
    (seqZ 0 npar) c.

(** Bin [k] of the accumulation for the output node [Y]: the [Macnode]s
    of [Y] in the order of the chain, each with the ring of its input
    node, starting from [c]. *)
Definition accumulated_bin (npar ptind : Z) (inps : list Inpnode.t) (Y : Outnode.t)
    (k : Z) (c : fftwf_complex) : fftwf_complex :=
  fold_left
    (fun c M =>
       mac_bin_by_age npar ptind
         (default [] (Inpnode._ffta <$> Convlevel.find_inp (Macnode._inpn M) inps)) M k c)
    (Outnode._list Y) c.

(** What the second loop of [process] does to an output node.  The
    accumulation [fd] has the size of [_freq_data]; each of its bins
    [0 .. parsize] that the [memset] has cleared is [accumulated_bin] from
    zero.  Its inverse transform is added to the buffer after [opind] and
    the second half is stored in the buffer after that. *)
Definition output_written `{FFTW} (npar parsize ptind opind : Z) (nbins ntime : nat)
    (inps : list Inpnode.t) (Y Y' : Outnode.t) : Prop :=
  exists (fd : list fftwf_complex) (td0 : list float32),
    length fd = nbins /\ length td0 = ntime
    /\ (forall k, 0 <= k <= parsize -> k < wrap32 (parsize + 1) -> k < Z.of_nat nbins ->
          rd c32_zero fd k = accumulated_bin npar ptind inps Y k c32_zero)
    /\ Y' = (let td := blit td0 0 (dft_c2r (wrap32 (2 * parsize)) fd) in
             let opi1 := wrap32 (opind + 1) mod 3 in
             let opi2 := wrap32 (opind + 2) mod 3 in
             let buff := Outnode._buff Y in
             let buff := wr buff opi1 (mix_into (rd [] buff opi1) td 0 parsize) in
             let buff := wr buff opi2 (blit (rd [] buff opi2) 0 (slice td parsize parsize)) in
             Outnode.set_buff buff Y).

(** The worker of a level has not finished the cycle that was handed to
    it: the level runs a worker, and fewer posts of [_done] are pending
    than the audio thread has cycles to wait for. *)
Definition worker_behind (L : Convlevel.t) : Prop :=
  Convlevel._stat L = Convlevel.ST_PROC /\ Convlevel._done L < Convlevel._wait L.

(** Some level that ends its period in this cycle, so that [readout]
    waits for its worker, has a worker that has not finished. *)
Definition unfinished_cycle (P : Convproc.t) : Prop :=
  exists k, 0 <= k < Convproc._nlevels P
            /\ let L := rd Convlevel.new (Convproc._convlev P) k in
               wrap32 (Convlevel._outoffs L + Convlevel._outsize L) = Convlevel._parsize L
               /\ worker_behind L.

(** The late-cycle policy as the specification words it: in a boundary
    cycle in which the worker of some level did not finish its previous
    cycle, the late counter goes up by one. *)
Definition late_policy_as_specified `{ZetaHeader} `{FFTW} (P : Convproc.t) : Prop :=
  Convproc._state P = Convproc.ST_PROC ->
  wrap32 (Convproc._outoffs P + Convproc._quantum P) = Convproc._minpart P ->
  unfinished_cycle P ->
  Convproc._latecnt (Convproc.process P).2 = wrap32 (Convproc._latecnt P + 1).

(** The operations on a convolver: the member functions of [Convproc],
    and an operation on one of its levels: a step of the level's worker
    thread ([OpMainEnter], [OpMainTurn]) or a member function of the level
    that the convolver calls. *)
Inductive proc_op :=
  | PSetOptions (options : Z)
  | PConfigure (alloc : Convproc.Alloc) (ninp nout maxsize quantum minpart maxpart : Z)
               (density : float32)
  | PReset
  | PStartProcess (created : Z -> bool)
  | PRestartProcess (created : Z -> bool)
  | PProcess
  | PTailonly (n_samples : Z)
  | PStopProcess (force : bool)
  | PCheckStop
  | PCleanup
  | PLevel (k : Z) (op : level_op).

Definition proc_exec `{ZetaHeader} `{FFTW} (op : proc_op) (P : Convproc.t) : Convproc.t :=
  match op with
  | PSetOptions options => Convproc.set_options options P
  | PConfigure alloc ninp nout maxsize quantum minpart maxpart density =>
      match Convproc.configure alloc ninp nout maxsize quantum minpart maxpart density P with
      | Some (_, P') => P'
      | None => P
      end
  | PReset => (Convproc.reset P).2
  | PStartProcess created => (Convproc.start_process created P).2
  | PRestartProcess created => (Convproc.restart_process created P).2
  | PProcess => (Convproc.process P).2
  | PTailonly n_samples => (Convproc.tailonly n_samples P).2
  | PStopProcess force => (Convproc.stop_process force P).2
  | PCheckStop => (Convproc.check_stop P).2
  | PCleanup => Convproc.cleanup P
  | PLevel k op =>
      Convproc.set_convlev
        (wr (Convproc._convlev P) k (level_exec op (rd Convlevel.new (Convproc._convlev P) k)))
        P
  end.

(** The convolver after a sequence of operations, from its construction. *)
Definition proc_run `{ZetaHeader} `{FFTW} (ops : list proc_op) : Convproc.t :=
  fold_left (fun P op => proc_exec op P) ops Convproc.new.

(** A convolver with the limits of libzita-convolver, configured for two
    inputs and outputs and started, after two cycles: the worker of level 1
    has been handed the first cycle and has not taken a turn. *)
Definition behind_ops : list proc_op :=
  [PConfigure Convproc.alloc_all 2 2 2000 64 64 128 f32_zero;
   PStartProcess (fun _ => true); PProcess; PProcess].

Definition behind_example : Convproc.t :=
  Eval vm_compute in proc_run (H := zita4) (H0 := fftw_null) behind_ops.

(** What holds of a convolver from its construction on: no level has
    more than one cycle to wait for, and no late cycle has been counted. *)
Definition on_time (P : Convproc.t) : Prop :=
  Forall (fun L => Convlevel._wait L <= 1) (Convproc._convlev P) /\ Convproc._latecnt P = 0.

(** ** Arithmetic on machine words *)

Arguments wrap32 : simpl never.
Arguments to_int32 : simpl never.
Arguments Convproc.level_npar : simpl never.
Arguments f32_of_Z : simpl never.
Arguments f32_mul : simpl never.
Arguments f32_div : simpl never.
Arguments f32_ltb : simpl never.
Arguments f32_leb : simpl never.

Lemma wrap32_small z : 0 <= z < 2 ^ 32 -> wrap32 z = z.
Proof. intros Hz. unfold wrap32. apply Z.mod_small. exact Hz. Qed.

Lemma land_pred_zero_pow2 x : 0 < x -> Z.land x (x - 1) = 0 -> is_pow2 x.
Proof.
  intros Hx Hl.
  pose proof (Z.log2_spec x Hx) as [Hlo Hhi].
  pose proof (Z.log2_nonneg x) as Hk.
  exists (Z.log2 x). split; [exact Hk|].
  destruct (Z.eq_dec x (2 ^ Z.log2 x)) as [He|Hne]; [ exact He | exfalso ].
  assert (Hb1 : Z.testbit x (Z.log2 x) = true) by (apply Z.bit_log2; lia).
  assert (Hl2 : Z.log2 (x - 1) = Z.log2 x).
  { apply Z.log2_unique; [exact Hk | lia]. }
  assert (Hb2 : Z.testbit (x - 1) (Z.log2 x) = true).
  { rewrite <- Hl2. apply Z.bit_log2. lia. }
  assert (Hb : Z.testbit (Z.land x (x - 1)) (Z.log2 x) = true).
  { rewrite Z.land_spec, Hb1, Hb2. reflexivity. }
  rewrite Hl, Z.bits_0 in Hb. discriminate.
Qed.

Lemma pow2_land_pred x : is_pow2 x -> Z.land x (x - 1) = 0.
Proof.
  intros (k & Hk & ->).
  replace (2 ^ k - 1) with (Z.ones k) by (rewrite Z.ones_equiv; lia).
  rewrite Z.land_ones by exact Hk.
  apply Z.mod_same. apply Z.pow_nonzero; lia.
Qed.

Lemma pow2_pos x : is_pow2 x -> 0 < x.
Proof. intros (k & Hk & ->). apply Z.pow_pos_nonneg; lia. Qed.

(** The test [x & (x - 1)] of [configure] on a 32 bit value: it lets the
    powers of two and 0 pass. *)
Lemma pow2_test x :
  is_u32 x -> (Z.land x (wrap32 (x - 1)) =? 0) = true <-> (x = 0 \/ is_pow2 x).
Proof.
  intros Hx. unfold is_u32 in Hx. rewrite Z.eqb_eq. split.
  - intros Hl. destruct (Z.eq_dec x 0) as [->|Hne]; [left; reflexivity | right].
    rewrite wrap32_small in Hl by lia. apply land_pred_zero_pow2; [lia | exact Hl].
  - intros [-> | Hp]; [apply Z.land_0_l|].
    pose proof (pow2_pos x Hp). rewrite wrap32_small by lia. apply pow2_land_pred, Hp.
Qed.

Lemma bad_param_false `{H : ZetaHeader} {Hok : ZetaHeaderOk H} ninp nout quantum minpart maxpart :
  is_u32 ninp -> is_u32 nout -> is_u32 quantum -> is_u32 minpart -> is_u32 maxpart ->
  Convproc.bad_param ninp nout quantum minpart maxpart = false
  <-> (channels_in_range ninp nout /\ invariant_I1 quantum minpart maxpart
       /\ sizes_in_range quantum minpart).
Proof.
  intros Hi Ho Hq Hm HM.
  destruct Hok as [mq mp mqf mpf [md0 mdf] mi mo ol fl].
  unfold Convproc.bad_param, channels_in_range, invariant_I1, sizes_in_range.
  rewrite !orb_false_iff, !negb_false_iff, !Z.ltb_ge.
  rewrite (pow2_test quantum Hq), (pow2_test minpart Hm), (pow2_test maxpart HM).
  split.
  - intros (((((((((((((H1 & H2) & H3) & H4) & H5) & H6) & H7) & H8) & H9) & H10) & H11) & H12) & H13) & H14).
    assert (Hw : wrap32 (MAXDIVIS * quantum) = MAXDIVIS * quantum).
    { apply wrap32_small. split; [nia|]. nia. }
    rewrite Hw in H11.
    destruct H5 as [->|H5]; [lia|].
    destruct H8 as [->|H8]; [lia|].
    destruct H12 as [->|H12]; [lia|].
    repeat split; (assumption || lia).
  - intros ((H1 & H2) & (H3 & H4 & H5 & H6 & H7 & H8) & (H9 & H10)).
    assert (Hw : wrap32 (MAXDIVIS * quantum) = MAXDIVIS * quantum).
    { apply wrap32_small. split; [nia|]. nia. }
    rewrite Hw.
    repeat split; try lia; right; assumption.
Qed.

Lemma grow_to_minpart_pow2 fuel a b prio :
  0 <= a <= b -> 2 ^ b < 2 ^ 31 -> b - a <= Z.of_nat fuel ->
  exists prio', Convproc.grow_to_minpart fuel (2 ^ b) prio (2 ^ a) = Some (prio', 2 ^ b).
Proof.
  revert a prio. induction fuel as [|fuel IH]; intros a prio Hab Hb Hf.
  - assert (a = b) as -> by lia. cbn [Convproc.grow_to_minpart]. rewrite Z.ltb_irrefl. eauto.
  - cbn [Convproc.grow_to_minpart]. destruct (Z.ltb_spec (2 ^ a) (2 ^ b)) as [Hlt|Hge].
    + assert (Ha : a < b).
      { destruct (Z.lt_ge_cases a b) as [?|Hc]; [assumption|].
        assert (a = b) by lia. subst. lia. }
      rewrite Z.shiftl_mul_pow2 by lia.
      replace (2 ^ a * 2 ^ 1) with (2 ^ (a + 1)) by (rewrite Z.pow_add_r; lia).
      assert (H2 : 2 ^ (a + 1) <= 2 ^ b) by (apply Z.pow_le_mono_r; lia).
      rewrite wrap32_small by (split; [apply Z.pow_nonneg|]; lia).
      apply IH; lia.
    + assert (a = b) as ->.
      { destruct (Z.eq_dec a b) as [?|Hne]; [assumption|exfalso].
        assert (2 ^ a < 2 ^ b) by (apply Z.pow_lt_mono_r; lia). lia. }
      eauto.
Qed.

Lemma level_npar_bounds maxsize maxpart cfft cmac offs size s nmin :
  0 <= offs < maxsize -> 0 < size -> maxsize + size <= 2 ^ 32 -> 0 < nmin ->
  let npar := Convproc.level_npar maxsize maxpart cfft cmac offs size s nmin in
  1 <= npar /\ size * npar <= maxsize - offs + size - 1
  /\ (offs + size * npar < maxsize -> size < maxpart).
Proof.
  intros Ho Hs Hfit Hn. unfold Convproc.level_npar.
  rewrite wrap32_small by (unfold is_u32; lia).
  set (num := maxsize - offs + size - 1).
  pose proof (Z.div_mod num size ltac:(lia)) as Hdm.
  pose proof (Z.mod_pos_bound num size Hs) as Hmb.
  set (n0 := num / size) in *.
  assert (Hn0 : 1 <= n0) by (subst num; nia).
  assert (Hup : size * n0 <= num) by lia.
  assert (Hcov : maxsize - offs <= size * n0) by (subst num; lia).
  destruct (Z.ltb_spec size maxpart) as [Hsm|Hsm]; simpl.
  - destruct (Z.ltb_spec nmin n0) as [Hnm|Hnm]; simpl.
    + destruct (f32_ltb _ _); cbv zeta; repeat split; try lia; try nia.
    + repeat split; lia.
  - repeat split; lia.
Qed.

Lemma plan_span_app levs L :
  plan_span (levs ++ [L]) = plan_span levs + Convlevel._npar L * Convlevel._parsize L.
Proof.
  unfold plan_span. induction levs as [|L' levs IH]; simpl; [lia|].
  fold plan_span in *. rewrite IH. lia.
Qed.

Lemma chained_app o levs L :
  chained o levs -> Convlevel._offs L = o + plan_span levs ->
  0 < Convlevel._npar L -> 0 < Convlevel._parsize L ->
  chained o (levs ++ [L]).
Proof.
  revert o. induction levs as [|L' levs IH]; intros o Hc Ho Hn Hp; simpl in *.
  - repeat split; try assumption. unfold plan_span in Ho. simpl in Ho. lia.
  - destruct Hc as (H1 & H2 & H3 & H4). repeat split; try assumption.
    apply IH; try assumption. unfold plan_span in *. simpl in Ho. lia.
Qed.

Lemma plan_levels_ok fuel alloc maxsize maxpart options step cfft cmac :
  maxsize + 4 * maxpart <= 2 ^ 32 -> 1 <= step <= 2 ->
  forall offs size prio s nmin levs,
    0 <= offs -> maxsize - offs <= Z.of_nat fuel -> 0 < size < 4 * maxpart ->
    1 <= s <= 2 -> 0 < nmin -> chained 0 levs -> plan_span levs = offs ->
    exists r,
      Convproc.plan_levels fuel alloc maxsize maxpart options step cfft cmac
                           offs size prio s nmin levs = Some r
      /\ match r with
         | None => exists k, Convproc.level_ok alloc k = false
         | Some (levs', size') =>
             chained 0 levs' /\ maxsize <= plan_span levs' /\ 0 < size' < 4 * maxpart
         end.
Proof.
  intros Hfit Hstep. induction fuel as [|fuel IH];
    intros offs size prio s nmin levs Ho Hf Hs Hss Hn Hc Hsp.
  - cbn [Convproc.plan_levels]. destruct (Z.ltb_spec offs maxsize) as [Hlt|Hge]; [lia|].
    eexists. split; [reflexivity|]. cbv beta iota. repeat split; (assumption || lia).
  - cbn [Convproc.plan_levels]. destruct (Z.ltb_spec offs maxsize) as [Hlt|Hge].
    2:{ eexists. split; [reflexivity|]. cbv beta iota. repeat split; (assumption || lia). }
    pose proof (level_npar_bounds maxsize maxpart cfft cmac offs size s nmin
                  ltac:(lia) ltac:(lia) ltac:(lia) Hn) as Hb.
    cbv zeta in Hb.
    set (npar := Convproc.level_npar maxsize maxpart cfft cmac offs size s nmin) in *.
    destruct Hb as (Hn1 & Hn2 & Hn3).
    destruct (Convproc.level_ok alloc (Z.of_nat (length levs))) eqn:Hal.
    2:{ eexists. split; [reflexivity|]. cbv beta iota. eauto. }
    set (L := Convlevel.configure prio offs npar size options Convlevel.new).
    assert (Hw : wrap32 (offs + size * npar) = offs + size * npar).
    { apply wrap32_small. nia. }
    rewrite Hw.
    assert (HcL : chained 0 (levs ++ [L])).
    { apply chained_app; try assumption; subst L; simpl; lia. }
    assert (HsL : plan_span (levs ++ [L]) = offs + size * npar).
    { rewrite plan_span_app. subst L. cbn [Convlevel.configure Convlevel._npar Convlevel._parsize]. lia. }
    destruct (Z.ltb_spec (offs + size * npar) maxsize) as [Hmore|Hdone].
    + specialize (Hn3 Hmore).
      assert (Hsh : wrap32 (Z.shiftl size s) = size * 2 ^ s).
      { rewrite Z.shiftl_mul_pow2 by lia. apply wrap32_small.
        assert (2 ^ s <= 4) by (assert (s = 1 \/ s = 2) as [->| ->] by lia; simpl; lia).
        assert (0 < 2 ^ s) by (apply Z.pow_pos_nonneg; lia). nia. }
      rewrite Hsh.
      assert (H2s : 1 <= 2 ^ s <= 4).
      { assert (s = 1 \/ s = 2) as [->| ->] by lia; simpl; lia. }
      apply IH; try assumption; try nia.
      destruct (step =? 1); lia.
    + apply IH; try assumption; try nia.
Qed.

(** ** configure *)

Lemma zita4_ok : ZetaHeaderOk zita4.
Proof. split; simpl; lia. Qed.

Lemma pow2_le_exp a b : 0 <= a -> 0 <= b -> 2 ^ a <= 2 ^ b -> a <= b.
Proof. intros Ha Hb Hle. apply (Z.pow_le_mono_r_iff 2); lia. Qed.

Lemma pow2_lt_exp a b : 0 <= a -> 0 <= b -> 2 ^ a < 2 ^ b -> a < b.
Proof. intros Ha Hb Hle. apply (Z.pow_lt_mono_r_iff 2); lia. Qed.

Lemma calloc_real_length k : 0 <= k -> Z.of_nat (length (calloc_real k)) = k.
Proof. intros Hk. unfold calloc_real. rewrite length_replicate. lia. Qed.

(** Without the head room the planning loop need not end: at
    [maxsize = 2^32 - 1] the size arithmetic wraps, every level gets 0
    partitions and the offset stays at 0, whatever the fuel. *)
Lemma plan_levels_wraps fuel alloc maxsize maxpart options step cfft cmac size prio s nmin
    levs :
  maxsize = 2 ^ 32 - 1 ->
  (forall k, Convproc.level_ok alloc k = true) ->
  0 <= size < 2 ^ 32 -> size <> 1 -> 0 <= nmin -> 1 <= s -> 1 <= step ->
  Convproc.plan_levels fuel alloc maxsize maxpart options step cfft cmac
                       0 size prio s nmin levs = None.
Proof.
  intros Hm Hal. revert size prio s nmin levs.
  assert (Hlt : (0 <? maxsize) = true) by (apply Z.ltb_lt; lia).
  induction fuel as [|fuel IH]; intros size prio s nmin levs Hs H1 Hn Hs1 Hst;
    cbn [Convproc.plan_levels]; rewrite Hlt.
  - reflexivity.
  - rewrite Hal.
    assert (Hnp : Convproc.level_npar maxsize maxpart cfft cmac 0 size s nmin = 0).
    { unfold Convproc.level_npar.
      assert (H0 : wrap32 (maxsize - 0 + size - 1) / size = 0).
      { destruct (Z.eq_dec size 0) as [->|Hz]; [apply Z.div_0_r|].
        unfold wrap32.
        replace (maxsize - 0 + size - 1) with (size - 2 + 1 * 2 ^ 32) by lia.
        rewrite Z.mod_add by lia. rewrite Z.mod_small by lia.
        apply Z.div_small. lia. }
      rewrite H0. destruct (Z.ltb_spec nmin 0); [lia|].
      rewrite andb_false_r. reflexivity. }
    rewrite Hnp. rewrite Z.mul_0_r, Z.add_0_l.
    change (wrap32 0) with 0. rewrite Hlt.
    apply IH.
    + unfold wrap32. apply Z.mod_pos_bound. lia.
    + intros Hone. unfold wrap32 in Hone.
      rewrite Z.shiftl_mul_pow2 in Hone by lia.
      assert (He : (size * 2 ^ s) mod 2 = 0).
      { replace s with (1 + (s - 1)) by lia. rewrite Z.pow_add_r by lia.
        replace (size * (2 ^ 1 * 2 ^ (s - 1))) with (size * 2 ^ (s - 1) * 2) by lia.
        apply Z.mod_mul. lia. }
      assert (H2 : ((size * 2 ^ s) mod 2 ^ 32) mod 2 = (size * 2 ^ s) mod 2).
      { apply Z.mod_mod_divide. exists (2 ^ 31). reflexivity. }
      rewrite Hone, He in H2. discriminate H2.
    + destruct (step =? 1); lia.
    + exact Hst.
    + exact Hst.
Qed.

Lemma configure_wraps maxsize :
  maxsize = 2 ^ 32 - 1 ->
  Convproc.configure (H := zita4) Convproc.alloc_all 1 1 maxsize 64 64 8192 f32_zero
                     Convproc.new = None.
Proof.
  intros Hm. unfold Convproc.configure.
  change (negb (bool_decide (Convproc._state Convproc.new = Convproc.ST_IDLE))) with false.
  cbv iota.
  replace (Convproc.bad_param (H := zita4) 1 1 64 64 8192) with false by (vm_compute; reflexivity).
  cbv iota zeta.
  replace (Convproc.grow_to_minpart 32 64 0 64) with (Some (0, 64)) by (vm_compute; reflexivity).
  cbn [mbind option_bind].
  rewrite plan_levels_wraps; [reflexivity|exact Hm|..]; try (intros; reflexivity);
    vm_compute; repeat split; solve [reflexivity | intro; discriminate].
Qed.

(** With the constants of libzita-convolver, a call with
    [maxsize = 2^32 - 1] passes every guard and its planning loop does not
    end. *)
Lemma configure_wraps_example :
  Convproc.configure (H := zita4) Convproc.alloc_all 1 1 (2 ^ 32 - 1) 64 64 8192 f32_zero
                     Convproc.new = None.
Proof. exact (configure_wraps (2 ^ 32 - 1) eq_refl). Qed.

(** Claim C6, amended.  For arguments of the type [uint32_t]:
    [configure] answers [BAD_STATE] outside [ST_IDLE] and [BAD_PARAM] when
    the channel counts are out of range, when I1 is violated or when a size
    is outside the further limits of the header
    ([MINQUANT <= quantum <= MAXQUANT],
    [MINPART <= minpart <= MAXDIVIS * quantum]); in both cases the convolver
    is returned as it was.  Otherwise, when [maxsize + 4 * MAXPART <= 2^32],
    so that the sizes of the planning loop do not wrap, the loops come to
    their end, and the call either succeeds: the result is [ST_STOP] with
    the plan and the buffers in place ([configured]); or an allocation has
    failed and the answer is [MEM_ALLOC] with the convolver cleaned up to
    [ST_IDLE].  Beyond that bound the offsets wrap
    ([plan_levels_wraps]). *)
Theorem configure_outcomes `{H : ZetaHeader} {Hok : ZetaHeaderOk H}
    alloc ninp nout maxsize quantum minpart maxpart density P :
  is_u32 ninp -> is_u32 nout -> is_u32 maxsize ->
  is_u32 quantum -> is_u32 minpart -> is_u32 maxpart ->
  let r := Convproc.configure alloc ninp nout maxsize quantum minpart maxpart density P in
  (Convproc._state P <> Convproc.ST_IDLE -> r = Some (Convproc.BAD_STATE, P))
  /\ (Convproc._state P = Convproc.ST_IDLE ->
      ~ (channels_in_range ninp nout /\ invariant_I1 quantum minpart maxpart
         /\ sizes_in_range quantum minpart) ->
      r = Some (Convproc.BAD_PARAM, P))
  /\ (Convproc._state P = Convproc.ST_IDLE ->
      channels_in_range ninp nout -> invariant_I1 quantum minpart maxpart ->
      sizes_in_range quantum minpart ->
      maxsize + 4 * MAXPART <= 2 ^ 32 ->
      (exists P', r = Some (Convproc.OK, P')
                  /\ configured ninp nout maxsize quantum minpart P')
      \/ (exists P', r = Some (Convproc.MEM_ALLOC, P')
                     /\ Convproc._state P' = Convproc.ST_IDLE
                     /\ ((exists k, Convproc.level_ok alloc k = false)
                         \/ Convproc.buffers_ok alloc = false))).
Proof.
  intros Hi Ho Hms Hq Hm HM r. subst r.
  pose proof (bad_param_false ninp nout quantum minpart maxpart Hi Ho Hq Hm HM) as Hbp.
  unfold Convproc.configure. split; [|split].
  - intros Hst. rewrite bool_decide_eq_false_2 by exact Hst. reflexivity.
  - intros Hst Hbad. rewrite bool_decide_eq_true_2 by exact Hst. cbn [negb].
    destruct (Convproc.bad_param ninp nout quantum minpart maxpart) eqn:Hb; [reflexivity|].
    exfalso. apply Hbad. apply (proj1 Hbp). reflexivity.
  - intros Hst Hch HI1 Hsz Hfit. rewrite bool_decide_eq_true_2 by exact Hst. cbn [negb].
    rewrite (proj2 Hbp) by auto.
    destruct HI1 as (Hqm & HmM & HMM & (a & Ha & Hqa) & (b & Hb & Hmb) & HpM).
    pose proof (pow2_pos maxpart HpM) as HMpos.
    destruct Hok as [mq mp mqf mpf mdf mi mo ol fl].
    assert (Hab : a <= b) by (apply pow2_le_exp; try assumption; lia).
    assert (Hb31 : 2 ^ b < 2 ^ 31) by (change (2 ^ 31) with 2147483648; lia).
    assert (Hbl : b < 31) by (apply pow2_lt_exp; try assumption; lia).
    destruct (grow_to_minpart_pow2 32 a b 0 ltac:(lia) Hb31 ltac:(lia)) as (prio & Hg).
    subst quantum minpart.
    rewrite Hg. cbn [mbind option_bind].
    match goal with
    | |- context [Convproc.plan_levels ?f ?al ?ms ?mp ?op ?st ?cf ?cm 0 ?sz ?pr ?vs ?nm []] =>
        destruct (plan_levels_ok f al ms mp op st cf cm) with (offs := 0) (size := sz)
          (prio := pr) (s := vs) (nmin := nm) (levs := @nil Convlevel.t)
          as (r & Hr & Hprop)
    end.
    all: try lia.
    all: try (unfold is_u32 in Hms; lia).
    all: try (repeat match goal with
                     | |- context [if ?c then _ else _] => destruct c
                     end; lia).
    { exact I. }
    { reflexivity. }
    rewrite Hr. cbn [mbind option_bind].
    destruct r as [[levs size]|].
    + destruct Hprop as (Hc & Hcov & Hsize).
      destruct (Convproc.buffers_ok alloc) eqn:Hbuf.
      * left. eexists. split; [reflexivity|].
        assert (Hw : wrap32 (2 * size) = 2 * size) by (apply wrap32_small; lia).
        unfold configured. cbn [Convproc._state Convproc._ninp Convproc._nout Convproc._quantum Convproc._minpart Convproc._latecnt Convproc._nlevels Convproc._convlev Convproc._inpsize Convproc._maxpart Convproc._inpbuff Convproc._outbuff]. rewrite Hw.
        repeat split; try assumption; try reflexivity.
        -- apply length_replicate.
        -- apply Forall_replicate. apply calloc_real_length. lia.
        -- apply length_replicate.
        -- apply Forall_replicate. apply calloc_real_length. lia.
      * right. eexists. split; [reflexivity|]. split; [reflexivity|]. right. reflexivity.
    + right. eexists. split; [reflexivity|]. split; [reflexivity|]. left. exact Hprop.
Qed.

Lemma configure_outcomes_witness :
  exists P',
    Convproc.configure (H := zita4) Convproc.alloc_all 1 1 1000 64 64 8192 f32_zero
                       Convproc.new = Some (Convproc.OK, P')
    /\ configured (H := zita4) 1 1 1000 64 64 P'.
Proof.
  destruct (configure_outcomes (H := zita4) (Hok := zita4_ok) Convproc.alloc_all
              1 1 1000 64 64 8192 f32_zero Convproc.new) as (_ & _ & H3).
  1-6: unfold is_u32; lia.
  destruct H3 as [H3 | (P' & _ & _ & [[k Hk] | Hb])].
  - reflexivity.
  - unfold channels_in_range; simpl; lia.
  - unfold invariant_I1; simpl.
    repeat split; try lia; [exists 6 | exists 6 | exists 13]; split; (lia || reflexivity).
  - unfold sizes_in_range; simpl; lia.
  - simpl; lia.
  - exact H3.
  - discriminate Hk.
  - discriminate Hb.
Defined.

(** Claim C6 as stated fails: with the limits of libzita-convolver,
    [quantum = minpart = maxpart = 32] satisfies I1 and the channel counts
    are in range, yet the call in [ST_IDLE] is refused with [BAD_PARAM]
    ([minpart < MINPART]) instead of ending in [ST_STOP]. *)
Lemma configure_as_specified_counterexample :
  ~ configure_as_specified (H := zita4) Convproc.alloc_all 1 1 1000 32 32 32 f32_zero
      Convproc.new.
Proof.
  intros (_ & _ & H3). destruct H3 as (P' & Heq & _).
  - reflexivity.
  - unfold channels_in_range; simpl; lia.
  - unfold invariant_I1; simpl.
    repeat split; try lia; exists 5; split; (lia || reflexivity).
  - vm_compute in Heq. discriminate Heq.
Qed.

(** ** The loops over the levels *)

Lemma process_wait_bits `{FFTW} ib L :
  Convlevel._wait (Convlevel.process ib L) = Convlevel._wait L
  /\ Convlevel._bits (Convlevel.process ib L) = Convlevel._bits L.
Proof.
  unfold Convlevel.process.
  destruct (Convlevel.fft_inputs _ _ _ _ _ _ _ _) as [inps td].
  destruct (Convlevel.process_outputs _ _ _ _ _ _ _ _) as [outs [td' fd]].
  split; reflexivity.
Qed.

Lemma readout_flag `{FFTW} ib ob L : (Convlevel.readout ib ob L).1.1 = late_flag L.
Proof.
  unfold Convlevel.readout, late_flag. cbn [fst snd].
  cbn [Convlevel._outoffs Convlevel.set_outoffs Convlevel._parsize Convlevel._stat].
  destruct (_ =? Convlevel._parsize L); cbn [andb].
  - destruct (decide _) as [Hs|Hs].
    + rewrite bool_decide_eq_true_2 by exact Hs. reflexivity.
    + rewrite bool_decide_eq_false_2 by exact Hs.
      cbn [Convlevel._wait Convlevel._bits Convlevel.set_opind].
      destruct (process_wait_bits ib (Convlevel.set_outoffs 0
                  (Convlevel.set_outoffs (wrap32 (Convlevel._outoffs L + Convlevel._outsize L)) L)))
        as [-> ->]. reflexivity.
  - reflexivity.
Qed.

Lemma for_upto_S {S} (m : nat) (body : Z -> S -> S) (s : S) :
  for_upto (Z.of_nat (Datatypes.S m)) body s
  = body (Z.of_nat m) (for_upto (Z.of_nat m) body s).
Proof.
  unfold for_upto. rewrite seqZ_S, fold_left_app. simpl. reflexivity.
Qed.

Lemma for_upto_nonpos {S} n (body : Z -> S -> S) (s : S) : n <= 0 -> for_upto n body s = s.
Proof. intros Hn. unfold for_upto. rewrite seqZ_nil by exact Hn. reflexivity. Qed.

Lemma rd_wr_ne {A} (d : A) l i j x : i <> j -> rd d (wr l i x) j = rd d l j.
Proof.
  intros Hne. unfold rd, wr.
  destruct (Z.ltb_spec j 0) as [Hj|Hj]; [reflexivity|].
  destruct (Z.ltb_spec i 0) as [Hi|Hi]; [reflexivity|].
  rewrite list_lookup_insert_ne by lia. reflexivity.
Qed.

Lemma rd_wr_eq {A} (d : A) l i x :
  0 <= i < Z.of_nat (length l) -> rd d (wr l i x) i = x.
Proof.
  intros Hi. unfold rd, wr.
  destruct (Z.ltb_spec i 0) as [?|_]; [lia|].
  rewrite list_lookup_insert_eq by lia. reflexivity.
Qed.

Lemma wr_length {A} (l : list A) i x : length (wr l i x) = length l.
Proof. unfold wr. destruct (i <? 0); [reflexivity|apply length_insert]. Qed.

Section OverLevels.
Context (op : list (list float32) -> Convlevel.t -> Z * Convlevel.t * list (list float32)).
Context (levs : list Convlevel.t) (ob : list (list float32)).

Let body := fun (k : Z) '(f, levs, ob) =>
     let '(r, L, ob) := op ob (rd Convlevel.new levs k) in
     (Z.lor f r, wr levs k L, ob).

(** The levels above the counter are as they were; the buffers have gone
    through the operation once per level. *)
Lemma levels_loop_frame (m : nat) :
  let r := for_upto (Z.of_nat m) body (0, levs, ob) in
  (forall j, Z.of_nat m <= j -> rd Convlevel.new r.1.2 j = rd Convlevel.new levs j)
  /\ length r.1.2 = length levs
  /\ r.2 = fold_left (fun ob k => (op ob (rd Convlevel.new levs k)).2)
                     (seqZ 0 (Z.of_nat m)) ob.
Proof.
  induction m as [|m IH].
  - cbn zeta. rewrite for_upto_nonpos by lia. simpl. auto.
  - cbn zeta in *. rewrite for_upto_S.
    destruct (for_upto (Z.of_nat m) body (0, levs, ob)) as [[f levs'] ob'].
    cbn [fst snd] in IH. destruct IH as (IH1 & IH2 & IH3).
    unfold body. cbn beta iota. rewrite (IH1 (Z.of_nat m)) by lia.
    destruct (op ob' (rd Convlevel.new levs (Z.of_nat m))) as [[r L] ob''] eqn:Hop.
    cbn [fst snd]. split; [|split].
    + intros j Hj. rewrite rd_wr_ne by lia. apply IH1. lia.
    + rewrite wr_length. exact IH2.
    + rewrite seqZ_S, fold_left_app. cbn [fold_left]. rewrite <- IH3.
      rewrite Z.add_0_l, Hop. reflexivity.
Qed.

(** When the flags of the operation depend on the level alone, the loop
    returns their disjunction. *)
Lemma levels_loop_flags (flag : Convlevel.t -> Z) (m : nat) :
  (forall ob L, (op ob L).1.1 = flag L) ->
  (for_upto (Z.of_nat m) body (0, levs, ob)).1.1
  = fold_left (fun f k => Z.lor f (flag (rd Convlevel.new levs k)))
              (seqZ 0 (Z.of_nat m)) 0.
Proof.
  intros Hflag. induction m as [|m IH].
  - rewrite for_upto_nonpos by lia. reflexivity.
  - rewrite for_upto_S.
    pose proof (levels_loop_frame m) as (F1 & _ & _). cbn zeta in F1.
    destruct (for_upto (Z.of_nat m) body (0, levs, ob)) as [[f levs'] ob'].
    cbn [fst snd] in *. unfold body. cbn beta iota. rewrite (F1 (Z.of_nat m)) by lia.
    pose proof (Hflag ob' (rd Convlevel.new levs (Z.of_nat m))) as Hf.
    destruct (op ob' (rd Convlevel.new levs (Z.of_nat m))) as [[r L] ob''].
    cbn [fst snd] in *. rewrite seqZ_S, fold_left_app. cbn [fold_left].
    rewrite <- IH, Z.add_0_l, Hf. reflexivity.
Qed.

End OverLevels.

Lemma lor_fold_zero (l : list Z) (flag : Z -> Z) :
  fold_left (fun f k => Z.lor f (flag k)) l 0 = 0 <-> Forall (fun k => flag k = 0) l.
Proof.
  assert (G : forall a, fold_left (fun f k => Z.lor f (flag k)) l a = 0
                        <-> a = 0 /\ Forall (fun k => flag k = 0) l).
  { induction l as [|k l IH]; intros a; cbn [fold_left].
    - split; [intros ->; split; [reflexivity|constructor] | intros [-> _]; reflexivity].
    - rewrite IH, Z.lor_eq_0_iff, Forall_cons. tauto. }
  rewrite G. tauto.
Qed.

Lemma over_levels_flags op flag P :
  (forall ob L, (op ob L).1.1 = flag L) ->
  (Convproc.over_levels op P).1.1
  = fold_left (fun f k => Z.lor f (flag (rd Convlevel.new (Convproc._convlev P) k)))
              (seqZ 0 (Convproc._nlevels P)) 0.
Proof.
  intros Hflag. unfold Convproc.over_levels.
  destruct (Z.le_gt_cases (Convproc._nlevels P) 0) as [Hn|Hn].
  - rewrite for_upto_nonpos by exact Hn. rewrite seqZ_nil by exact Hn. reflexivity.
  - rewrite <- (Z2Nat.id (Convproc._nlevels P)) by lia.
    apply (levels_loop_flags op (Convproc._convlev P) (Convproc._outbuff P) flag _ Hflag).
Qed.

Lemma readouts_flags `{FFTW} P : (Convproc.readouts P).1.1 = 0 <-> ~ late_cycle P.
Proof.
  unfold Convproc.readouts.
  rewrite (over_levels_flags _ late_flag P) by (intros; apply readout_flag).
  rewrite (lor_fold_zero _ (fun k => late_flag (rd Convlevel.new (Convproc._convlev P) k))).
  rewrite Forall_seqZ. unfold late_cycle. split.
  - intros Hall (k & Hk & Hne). apply Hne, Hall. lia.
  - intros Hno k Hk. destruct (Z.eq_dec (late_flag (rd Convlevel.new (Convproc._convlev P) k)) 0)
      as [?|Hne]; [assumption|]. exfalso. apply Hno. exists k. split; [lia|exact Hne].
Qed.

Lemma land_lor_same a b : Z.land (Z.lor a b) b = b.
Proof.
  apply Z.bits_inj'. intros n Hn. rewrite Z.land_spec, Z.lor_spec.
  destruct (Z.testbit a n), (Z.testbit b n); reflexivity.
Qed.

(** [~o & c] on 32 bit words is 0 exactly when every bit of [c] is set
    in [o]. *)
Lemma lnot_land_zero o c :
  is_u32 c -> Z.land (wrap32 (Z.lnot o)) c = 0 <-> Z.land o c = c.
Proof.
  intros Hc. unfold wrap32, is_u32 in *.
  rewrite <- Z.land_ones by lia.
  assert (Hc' : Z.land (Z.ones 32) c = c).
  { rewrite Z.land_comm, Z.land_ones by lia. apply Z.mod_small. lia. }
  rewrite <- Z.land_assoc, Hc'.
  split; intros Hl; apply Z.bits_inj'; intros n Hn.
  - apply (f_equal (fun z => Z.testbit z n)) in Hl.
    rewrite Z.land_spec, Z.lnot_spec, Z.bits_0 in Hl by exact Hn.
    rewrite Z.land_spec. destruct (Z.testbit o n), (Z.testbit c n); (reflexivity || discriminate).
  - apply (f_equal (fun z => Z.testbit z n)) in Hl.
    rewrite Z.land_spec in Hl.
    rewrite Z.land_spec, Z.lnot_spec, Z.bits_0 by exact Hn.
    destruct (Z.testbit o n), (Z.testbit c n); (reflexivity || discriminate).
Qed.

(** ** The late-cycle policy *)

Lemma stop_process_running Q :
  Convproc._state Q = Convproc.ST_PROC ->
  Convproc.stop_process false Q
  = (Convproc.OK, Convproc.set_state Convproc.ST_WAIT
                    (Convproc.set_convlev (Convproc.each_level Convlevel.stop Q) Q)).
Proof.
  intros Hst. unfold Convproc.stop_process.
  rewrite bool_decide_eq_true_2 by exact Hst. reflexivity.
Qed.

(** The branch of [Convproc::process] that counts late cycles, for a
    convolver in any state: in a cycle that ends a period of [minpart]
    samples, when the readout of some level returns flags the late counter
    goes up by one, otherwise it goes back to 0; when the count reaches
    five the flag [FL_LOAD] is set in the value returned, and the
    convolver has called [stop_process] on itself unless [OPT_LATE_CONTIN]
    is set in its options.  No state that the operations reach has a level
    whose readout returns flags ([process_never_late]). *)
Lemma process_late_policy `{H : ZetaHeader} `{F : FFTW} {Hok : ZetaHeaderOk H} P :
  Convproc._state P = Convproc.ST_PROC ->
  wrap32 (Convproc._outoffs P + Convproc._quantum P) = Convproc._minpart P ->
  let r := Convproc.process P in
  (late_cycle P -> Convproc._latecnt r.2 = wrap32 (Convproc._latecnt P + 1))
  /\ (~ late_cycle P ->
      Convproc._latecnt r.2 = 0 /\ Convproc._state r.2 = Convproc.ST_PROC)
  /\ (late_cycle P -> wrap32 (Convproc._latecnt P + 1) < 5 ->
      Convproc._state r.2 = Convproc.ST_PROC)
  /\ (late_cycle P -> 5 <= wrap32 (Convproc._latecnt P + 1) ->
      Z.land r.1 FL_LOAD = FL_LOAD
      /\ (Z.land (Convproc._options P) OPT_LATE_CONTIN = OPT_LATE_CONTIN ->
          Convproc._state r.2 = Convproc.ST_PROC)
      /\ (Z.land (Convproc._options P) OPT_LATE_CONTIN <> OPT_LATE_CONTIN ->
          Convproc._state r.2 = Convproc.ST_WAIT
          /\ exists Q, Convproc._state Q = Convproc.ST_PROC
                       /\ Convproc.stop_process false Q = (Convproc.OK, r.2))).
Proof.
  intros Hst Hbound r. subst r. unfold Convproc.process.
  rewrite bool_decide_eq_true_2 by exact Hst. cbn [negb].
  cbn [Convproc._outoffs Convproc.set_outoffs Convproc.set_inpoffs Convproc._quantum
       Convproc._minpart Convproc._nout Convproc._outbuff Convproc.set_outbuff].
  rewrite Hbound, Z.eqb_refl.
  match goal with |- context [Convproc.readouts ?P0] => set (Q0 := P0) end.
  pose proof (readouts_flags Q0) as Hfl.
  assert (Hlate : late_cycle Q0 <-> late_cycle P) by reflexivity.
  rewrite Hlate in Hfl. clear Hlate.
  destruct (Convproc.readouts Q0) as [[f levs] ob]. cbn [fst snd] in Hfl.
  destruct (Z.eqb_spec f 0) as [Hf|Hf]; cbn [negb].
  - pose proof (proj1 Hfl Hf) as Hno. cbn [fst snd].
    split; [intros Hl; contradiction|].
    split; [intros _; split; [reflexivity|exact Hst]|].
    split; intros Hl; contradiction.
  - assert (Hyes : ~ ~ late_cycle P) by (intros Hn; apply Hf, Hfl, Hn).
    cbn [Convproc._latecnt Convproc.set_latecnt Convproc.set_outbuff Convproc.set_convlev
         Convproc._options].
    change (Convproc._latecnt Q0) with (Convproc._latecnt P).
    change (Convproc._options Q0) with (Convproc._options P).
    assert (HstQ : Convproc._state
                     (Convproc.set_latecnt (wrap32 (Convproc._latecnt P + 1))
                        (Convproc.set_outbuff ob (Convproc.set_convlev levs Q0)))
                   = Convproc.ST_PROC) by exact Hst.
    destruct (Z.leb_spec 5 (wrap32 (Convproc._latecnt P + 1))) as [H5|H5].
    + pose proof (lnot_land_zero (Convproc._options P) OPT_LATE_CONTIN
                    ltac:(destruct Hok; assumption)) as Hopt.
      destruct (Z.eqb_spec (Z.land (wrap32 (Z.lnot (Convproc._options P))) OPT_LATE_CONTIN) 0)
        as [Hz|Hz]; cbn [negb fst snd].
      * split; [intros _; reflexivity|].
        split; [intros Hn; contradiction|].
        split; [intros _ Hlt; lia|].
        intros _ _. split; [apply land_lor_same|].
        split; [intros _; exact HstQ|].
        intros Hns. exfalso. apply Hns, Hopt, Hz.
      * rewrite (stop_process_running _ HstQ). cbn [snd].
        split; [intros _; reflexivity|].
        split; [intros Hn; contradiction|].
        split; [intros _ Hlt; lia|].
        intros _ _. split; [apply land_lor_same|].
        split; [intros Hs; exfalso; apply Hz, Hopt, Hs|].
        intros _. split; [reflexivity|].
        eexists. split; [exact HstQ|].
        apply stop_process_running, HstQ.
    + cbn [fst snd].
      split; [intros _; reflexivity|].
      split; [intros Hn; contradiction|].
      split; [intros _ _; exact HstQ|].
      intros _ Hge. lia.
Qed.

(** From [reset] on, [readout] keeps [_wait] at 0 or 1, and a level in
    that range reports no lateness. *)
Lemma late_flag_small_wait L : Convlevel._wait L <= 1 -> late_flag L = 0.
Proof.
  intros Hw. unfold late_flag.
  destruct (_ && _).
  - reflexivity.
  - destruct (Z.ltb_spec 1 (Convlevel._wait L)); [lia | reflexivity].
Qed.

Lemma readout_small_wait `{FFTW} ib ob L :
  Convlevel._wait L <= 1 -> Convlevel._wait (Convlevel.readout ib ob L).1.2 <= 1.
Proof.
  intros Hw. unfold Convlevel.readout. cbn [fst snd].
  cbn [Convlevel._outoffs Convlevel.set_outoffs Convlevel._parsize Convlevel._stat].
  destruct (_ =? Convlevel._parsize L); [|exact Hw].
  destruct (decide _) as [Hs|Hs].
  - cbn [Convlevel.drain_wait Convlevel._wait Convlevel.set_wait Convlevel.set_trig
         Convlevel.set_opind Convlevel.set_done].
    change (wrap32 (0 + 1)) with 1. lia.
  - cbn [Convlevel._wait Convlevel.set_opind].
    destruct (process_wait_bits ib (Convlevel.set_outoffs 0
                (Convlevel.set_outoffs (wrap32 (Convlevel._outoffs L + Convlevel._outsize L)) L)))
      as [-> _]. exact Hw.
Qed.

(** ** tailonly *)






(** ** The per-cycle step of a level *)

Lemma mac_partitions_by_age npar parsize ptind ffta M fd :
  0 <= ptind < npar -> npar <= 2 ^ 32 ->
  (Convlevel.mac_partitions npar parsize ptind ffta M fd).2
  = mac_by_age npar parsize ptind ffta M fd.
Proof.
  intros Hp Hn. unfold Convlevel.mac_partitions, mac_by_age, for_upto.
  assert (G : forall (m : nat), Z.of_nat m <= npar ->
            fold_left
              (fun s k =>
                 (fun (j : Z) '(i, fd0) =>
                    let fd' := match Macnode.partition M j with
                               | Some fftb => Convlevel.cmac parsize (rd [] ffta i) fftb fd0
                               | None => fd0
                               end in
                    let i0 := if i =? 0 then npar else i in (wrap32 (i0 - 1), fd')) k s)
              (seqZ 0 (Z.of_nat m)) (ptind, fd)
            = ((ptind - Z.of_nat m) mod npar,
               fold_left
                 (fun fd0 j =>
                    match Macnode.partition M j with
                    | Some fftb =>
                        Convlevel.cmac parsize (rd [] ffta ((ptind - j) mod npar)) fftb fd0
                    | None => fd0
                    end)
                 (seqZ 0 (Z.of_nat m)) fd)).
  { induction m as [|m IH]; intros Hm.
    - simpl. rewrite Z.sub_0_r, Z.mod_small by lia. reflexivity.
    - rewrite !seqZ_S, !fold_left_app, IH by lia. cbn [fold_left]. rewrite Z.add_0_l.
      f_equal.
      pose proof (Z.mod_pos_bound (ptind - Z.of_nat m) npar ltac:(lia)) as Hb.
      set (i := (ptind - Z.of_nat m) mod npar) in *.
      replace (ptind - Z.of_nat (S m)) with (ptind - Z.of_nat m - 1) by lia.
      rewrite <- (Zminus_mod_idemp_l (ptind - Z.of_nat m) 1 npar). fold i.
      destruct (Z.eqb_spec i 0) as [Hi|Hi].
      + rewrite Hi. rewrite wrap32_small by lia.
        apply (Zmod_unique (0 - 1) npar (-1) (npar - 1)); lia.
      + rewrite wrap32_small by lia. symmetry. apply Z.mod_small. lia. }
  specialize (G (Z.to_nat npar)). rewrite Z2Nat.id in G by lia.
  specialize (G ltac:(lia)). apply (f_equal snd) in G. exact G.
Qed.

Lemma fft_inputs_slots `{FFTW} parsize ptind i1 n1 n2 ib inps td :
  Forall2 (slot_written parsize ptind) inps
          (Convlevel.fft_inputs parsize ptind i1 n1 n2 ib inps td).1.
Proof.
  unfold Convlevel.fft_inputs.
  match goal with |- context [fold_left ?f _ _] => set (step := f) end.
  assert (G : forall inps done td,
             exists rest, (fold_left step inps (done, td)).1 = done ++ rest
                          /\ Forall2 (slot_written parsize ptind) inps rest).
  { clear inps td. induction inps as [|X inps IH]; intros done td.
    - exists []. simpl. rewrite app_nil_r. split; [reflexivity|constructor].
    - cbn [fold_left]. unfold step at 2. cbv beta iota zeta.
      match goal with |- context [fold_left step inps (done ++ [?X'], ?td')] =>
        destruct (IH (done ++ [X']) td') as (rest & Hr & HF); exists (X' :: rest)
      end.
      split.
      + rewrite Hr, <- app_assoc. reflexivity.
      + constructor; [|exact HF]. split; [reflexivity|]. eexists. reflexivity. }
  destruct (G inps [] td) as (rest & Hr & HF). rewrite Hr. exact HF.
Qed.

Lemma mac_nodes_by_age npar parsize ptind inps Ms fd :
  0 <= ptind < npar -> npar <= 2 ^ 32 ->
  Convlevel.mac_nodes npar parsize ptind inps Ms fd
  = fold_left
      (fun fd M =>
         mac_by_age npar parsize ptind
           (default [] (Inpnode._ffta <$> Convlevel.find_inp (Macnode._inpn M) inps)) M fd)
      Ms fd.
Proof.
  intros Hp Hn. unfold Convlevel.mac_nodes. revert fd.
  induction Ms as [|M Ms IH]; intros fd; cbn [fold_left]; [reflexivity|].
  rewrite mac_partitions_by_age by assumption. apply IH.
Qed.

Lemma process_inp_list `{FFTW} ib L :
  exists i1 n1 n2,
    Convlevel._inp_list (Convlevel.process ib L)
    = (Convlevel.fft_inputs (Convlevel._parsize L) (Convlevel._ptind L) i1 n1 n2 ib
         (Convlevel._inp_list L) (Convlevel._time_data L)).1.
Proof.
  unfold Convlevel.process.
  match goal with |- context [Convlevel.fft_inputs ?a ?b ?c ?d ?e ?f ?g ?h] =>
    exists c, d, e; destruct (Convlevel.fft_inputs a b c d e f g h) as [inps td] end.
  destruct (Convlevel.process_outputs _ _ _ _ _ _ _ _) as [outs [td' fd]].
  reflexivity.
Qed.

Lemma process_out_list `{FFTW} ib L :
  exists sc,
    Convlevel._out_list (Convlevel.process ib L)
    = (Convlevel.process_outputs (Convlevel._npar L) (Convlevel._parsize L)
         (Convlevel._ptind L) (wrap32 (Convlevel._opind L + 1) mod 3)
         (wrap32 (Convlevel._opind L + 2) mod 3)
         (Convlevel._inp_list (Convlevel.process ib L)) (Convlevel._out_list L) sc).1.
Proof.
  unfold Convlevel.process.
  destruct (Convlevel.fft_inputs _ _ _ _ _ _ _ _) as [inps td].
  exists (td, Convlevel._freq_data L).
  destruct (Convlevel.process_outputs _ _ _ _ _ _ _ _) as [outs [td' fd]] eqn:Ho.
  cbn [Convlevel._out_list Convlevel._inp_list Convlevel.set_ptind Convlevel.set_freq_data
       Convlevel.set_time_data Convlevel.set_out_list Convlevel.set_inp_list
       Convlevel.set_inpoffs].
  rewrite Ho. reflexivity.
Qed.

Lemma process_ptind `{FFTW} ib L :
  Convlevel._ptind (Convlevel.process ib L)
  = if wrap32 (Convlevel._ptind L + 1) =? Convlevel._npar L then 0
    else wrap32 (Convlevel._ptind L + 1).
Proof.
  unfold Convlevel.process.
  destruct (Convlevel.fft_inputs _ _ _ _ _ _ _ _) as [inps td].
  destruct (Convlevel.process_outputs _ _ _ _ _ _ _ _) as [outs [td' fd]].
  reflexivity.
Qed.

Lemma process_ptind_mod `{FFTW} ib L :
  0 <= Convlevel._ptind L < Convlevel._npar L -> Convlevel._npar L <= 2 ^ 32 ->
  Convlevel._ptind (Convlevel.process ib L)
  = (Convlevel._ptind L + 1) mod Convlevel._npar L.
Proof.
  intros Hp Hn. rewrite process_ptind.
  destruct (Z.eq_dec (Convlevel._ptind L + 1) (Convlevel._npar L)) as [He|Hne].
  - rewrite He, Z.mod_same by lia.
    destruct (_ =? _) eqn:E; [reflexivity|].
    apply Z.eqb_neq in E. unfold wrap32 in *.
    destruct (Z.eq_dec (Convlevel._npar L) (2 ^ 32)) as [H32|H32].
    + rewrite H32. reflexivity.
    + rewrite Z.mod_small in E by lia. contradiction.
  - rewrite wrap32_small by lia.
    destruct (Z.eqb_spec (Convlevel._ptind L + 1) (Convlevel._npar L)); [contradiction|].
    symmetry. apply Z.mod_small. lia.
Qed.

Lemma alter_macnode_ptind inp out f L :
  Convlevel._ptind (Convlevel.alter_macnode inp out f L) = Convlevel._ptind L.
Proof. unfold Convlevel.alter_macnode. destruct (Convlevel.find_inp _ _); reflexivity. Qed.

Lemma findmacnode_create_ptind inp out L :
  Convlevel._ptind (Convlevel.findmacnode_create inp out L) = Convlevel._ptind L.
Proof.
  unfold Convlevel.findmacnode_create.
  destruct (Convlevel.find_inp _ _); reflexivity.
Qed.

Lemma impdata_write_ptind `{FFTW} inp out step data i0 i1 create L :
  Convlevel._ptind (Convlevel.impdata_write inp out step data i0 i1 create L)
  = Convlevel._ptind L.
Proof.
  unfold Convlevel.impdata_write.
  destruct (_ || _); [reflexivity|].
  set (L1 := if create then Convlevel.findmacnode_create inp out L else L).
  assert (H1 : Convlevel._ptind L1 = Convlevel._ptind L).
  { subst L1. destruct create; [apply findmacnode_create_ptind|reflexivity]. }
  destruct (Convlevel.findmacnode inp out L1) as [M|]; [|exact H1].
  destruct (Macnode._link M); [exact H1|].
  set (L2 := if _ && _ then _ else L1).
  assert (H2 : Convlevel._ptind L2 = Convlevel._ptind L).
  { subst L2. destruct (_ && _); [rewrite alter_macnode_ptind|]; exact H1. }
  destruct (_ ≫= _) as [fftbs|]; [|exact H2].
  destruct (for_upto _ _ _) as [[[i fs] prep] freq].
  cbn [Convlevel._ptind Convlevel.set_freq_data Convlevel.set_prep_data].
  rewrite alter_macnode_ptind. exact H2.
Qed.

Lemma impdata_clear_ptind inp out L :
  Convlevel._ptind (Convlevel.impdata_clear inp out L) = Convlevel._ptind L.
Proof.
  unfold Convlevel.impdata_clear.
  destruct (Convlevel.findmacnode inp out L) as [M|]; [|reflexivity].
  destruct (Macnode._link M); [reflexivity|].
  destruct (Macnode._fftb M); [|reflexivity].
  apply alter_macnode_ptind.
Qed.

(** Claim C9 (invariant I6).  The per-cycle step moves the ring index
    [_ptind] of the input transforms to [(_ptind + 1) mod _npar]; [reset]
    sets it to 0; no other operation of the level changes it, an operation
    that goes through the per-cycle step included only for that step. *)
Theorem ptind_advances `{FFTW} op L :
  0 <= Convlevel._ptind L < Convlevel._npar L -> Convlevel._npar L <= 2 ^ 32 ->
  Convlevel._ptind (level_exec op L)
  = if is_reset op then 0
    else if runs_process op L then (Convlevel._ptind L + 1) mod Convlevel._npar L
    else Convlevel._ptind L.
Proof.
  intros Hp Hn. destruct op; cbn [level_exec is_reset runs_process].
  - reflexivity.
  - apply impdata_write_ptind.
  - apply impdata_clear_ptind.
  - reflexivity.
  - reflexivity.
  - unfold Convlevel.stop. destruct (decide _); reflexivity.
  - reflexivity.
  - reflexivity.
  - unfold Convlevel.main_turn.
    cbn [Convlevel._stat Convlevel.set_trig].
    destruct (decide _) as [Hs|Hs].
    + rewrite bool_decide_eq_true_2 by exact Hs. reflexivity.
    + rewrite bool_decide_eq_false_2 by exact Hs. cbn [negb Convlevel._ptind Convlevel.set_done].
      rewrite process_ptind_mod by assumption. reflexivity.
  - apply process_ptind_mod; assumption.
  - unfold Convlevel.readout. cbn [fst snd].
    cbn [Convlevel._outoffs Convlevel.set_outoffs Convlevel._parsize Convlevel._stat].
    destruct (_ =? Convlevel._parsize L); cbn [andb]; [|reflexivity].
    destruct (decide _) as [Hs|Hs].
    + rewrite bool_decide_eq_true_2 by exact Hs. reflexivity.
    + rewrite bool_decide_eq_false_2 by exact Hs.
      cbn [negb Convlevel._ptind Convlevel.set_opind].
      rewrite process_ptind_mod by assumption. reflexivity.
  - unfold Convlevel.readtail. cbn [fst snd]. destruct (_ =? _); reflexivity.
Qed.

Lemma ptind_advances_witness :
  Convlevel._ptind (level_exec (H := fftw_null) (OpProcess [calloc_real 2]) mac_example) = 0.
Proof.
  rewrite (ptind_advances (H := fftw_null) (OpProcess [calloc_real 2]) mac_example).
  - reflexivity.
  - simpl. lia.
  - simpl. lia.
Defined.

Lemma process_npar `{FFTW} ib L :
  Convlevel._npar (Convlevel.process ib L) = Convlevel._npar L.
Proof.
  unfold Convlevel.process.
  destruct (Convlevel.fft_inputs _ _ _ _ _ _ _ _) as [inps td].
  destruct (Convlevel.process_outputs _ _ _ _ _ _ _ _) as [outs [td' fd]].
  reflexivity.
Qed.

(** The ring index stays in range: [reset] puts it there when the level
    has a partition, and the per-cycle step keeps it there. *)
Lemma ptind_in_range `{FFTW} ib inpsize outsize L :
  (0 < Convlevel._npar L ->
   0 <= Convlevel._ptind (Convlevel.reset inpsize outsize L)
     < Convlevel._npar (Convlevel.reset inpsize outsize L))
  /\ (0 <= Convlevel._ptind L < Convlevel._npar L -> Convlevel._npar L <= 2 ^ 32 ->
      0 <= Convlevel._ptind (Convlevel.process ib L)
        < Convlevel._npar (Convlevel.process ib L)).
Proof.
  split.
  - intros Hn. cbn. lia.
  - intros Hp Hn. rewrite process_npar, process_ptind_mod by assumption.
    apply Z.mod_pos_bound. lia.
Qed.

(** ** The time-domain convolver *)

Lemma tdc_configure_enabled r gain delay T :
  TimeDomainConvolver._enabled (TimeDomainConvolver.configure r gain delay T)
  = TimeDomainConvolver._enabled T.
Proof.
  unfold TimeDomainConvolver.configure.
  destruct (64 <=? delay); [reflexivity|].
  destruct (_ =? 0); reflexivity.
Qed.

Lemma tdc_configure_no_delay r gain T : TimeDomainConvolver.configure r gain 0 T = T.
Proof.
  unfold TimeDomainConvolver.configure.
  change (64 <=? 0) with false. change (Z.min 64 0) with 0. cbv iota.
  destruct (0 <? wrap32 (readable_length r)) eqn:E.
  - assert (Hm : Z.min 0 (wrap32 (wrap32 (readable_length r) - 0)) = 0).
    { apply Z.min_l. apply Z.mod_pos_bound. reflexivity. }
    rewrite Hm. reflexivity.
  - reflexivity.
Qed.

Lemma tdc_after_disabled ops : TimeDomainConvolver._enabled (tdc_after ops) = false.
Proof.
  unfold tdc_after.
  assert (G : forall T, TimeDomainConvolver._enabled T = false ->
                        TimeDomainConvolver._enabled (fold_left tdc_exec ops T) = false).
  { induction ops as [|op ops IH]; intros T HT; [exact HT|].
    cbn [fold_left]. apply IH. destruct op; cbn [tdc_exec].
    - reflexivity.
    - rewrite tdc_configure_enabled. exact HT. }
  apply G. reflexivity.
Qed.

(** Claim C5.  A [TimeDomainConvolver] is never enabled: the constructor
    and [reset] clear [_enabled], [configure] leaves it as it is (and with
    a delay of 0 it reads nothing and changes nothing), so that after any
    sequence of calls [run] returns [out] as it received it. *)
Theorem tdc_permanently_disabled ops out inp n_samples :
  TimeDomainConvolver._enabled (tdc_after ops) = false
  /\ TimeDomainConvolver.run (tdc_after ops) out inp n_samples = out
  /\ (forall r gain delay T,
        TimeDomainConvolver._enabled (TimeDomainConvolver.configure r gain delay T)
        = TimeDomainConvolver._enabled T)
  /\ (forall T, TimeDomainConvolver._enabled (TimeDomainConvolver.reset T) = false)
  /\ (forall r gain T, TimeDomainConvolver.configure r gain 0 T = T).
Proof.
  split; [apply tdc_after_disabled|].
  split.
  { unfold TimeDomainConvolver.run. rewrite tdc_after_disabled. reflexivity. }
  split; [apply tdc_configure_enabled|].
  split; [reflexivity|]. apply tdc_configure_no_delay.
Qed.

(** ** The worker and the hot swap *)

Import LV2.

Lemma builds_log e self :
  builds (lv2_log e self)
  = builds self ++ match e with LogOpening ir => [ir] | _ => [] end.
Proof.
  unfold builds, lv2_log. cbn [logged set_logged].
  rewrite omap_app. destruct e; cbn; rewrite ?app_nil_r; reflexivity.
Qed.

Ltac solve_builds :=
  unfold builds, lv2_log; cbn [logged set_logged set_clv_offline set_clv_online
    set_responded set_next_queued_file set_scheduled set_notify set_pset_dirty];
  rewrite ?omap_app; cbn [omap]; rewrite ?app_nil_r, <- ?app_assoc; reflexivity.

(** A request that finds an offline engine is put in the queue. *)
Lemma load_ir_worker_queues `{AudioLibs} `{Convolver.Engine} respond ir_path self E :
  clv_offline self = Some E ->
  load_ir_worker respond ir_path self
  = (LV2_WORKER_SUCCESS, false,
     lv2_log (LogQueueing ir_path) (set_next_queued_file ir_path self)).
Proof. intros Ho. unfold load_ir_worker. rewrite Ho. reflexivity. Qed.

(** Without an offline engine the worker starts a construction; this is
    the instance when the construction or the configuration fails. *)
Lemma load_ir_worker_fails `{AudioLibs} `{Convolver.Engine} respond ir_path self :
  clv_offline self = None ->
  (forall C, Convolver.new ir_path (rate self) (rt_policy self) (rt_priority self)
                           (chn_cfg self) Convolver.IRSettings_default = Ok C ->
             Convolver.ready (Convolver.reconfigure (block_size self) C) = false) ->
  let r := load_ir_worker respond ir_path self in
  r.1.1 = LV2_WORKER_ERR_UNKNOWN /\ r.1.2 = false
  /\ clv_online r.2 = clv_online self /\ clv_offline r.2 = None
  /\ next_queued_file r.2 = next_queued_file self
  /\ responded r.2 = responded self /\ scheduled r.2 = scheduled self
  /\ builds r.2 = builds self ++ [ir_path].
Proof.
  intros Ho Hfail r. subst r. unfold load_ir_worker. rewrite Ho.
  change (rate (lv2_log (LogOpening ir_path) self)) with (rate self).
  change (rt_policy (lv2_log (LogOpening ir_path) self)) with (rt_policy self).
  change (rt_priority (lv2_log (LogOpening ir_path) self)) with (rt_priority self).
  change (chn_cfg (lv2_log (LogOpening ir_path) self)) with (chn_cfg self).
  change (block_size (lv2_log (LogOpening ir_path) self)) with (block_size self).
  destruct (Convolver.new _ _ _ _ _ _) as [C|w].
  - rewrite (Hfail C eq_refl). cbn [negb fst snd].
    repeat split; try reflexivity. solve_builds.
  - cbn [negb fst snd]. repeat split; try reflexivity. solve_builds.
Qed.


(** ** The constructor of Convolver *)

Lemma ChanWrap_in_range fs n :
  n <= n_channels fs ->
  exists r, ChanWrap fs n = Ok r /\ sample_rate r = sample_rate fs /\ n_channels r = 1
            /\ readable_length r = readable_length fs.
Proof.
  intros Hn. unfold ChanWrap. destruct (Z.ltb_spec (n_channels fs) n) as [?|_]; [lia|].
  eexists. split; [reflexivity|]. repeat split; reflexivity.
Qed.

Lemma wrap_channels_ok `{AudioLibs} fs target_rate :
  (sample_rate fs = target_rate \/ src_new_ok = true) ->
  forall ns readables,
    Forall (fun n => n <= n_channels fs) ns ->
    exists rs, Convolver.wrap_channels fs target_rate ns readables = Ok (readables ++ rs)
               /\ length rs = length ns.
Proof.
  intros Hrate. induction ns as [|n ns IH]; intros readables Hns.
  - exists []. rewrite app_nil_r. split; reflexivity.
  - apply Forall_cons in Hns as [Hn Hns]. cbn [Convolver.wrap_channels].
    destruct (ChanWrap_in_range fs n Hn) as (r & -> & Hsr & Hnc & _).
    cbn [result_bind]. rewrite Hsr.
    destruct (Z.eqb_spec (sample_rate fs) target_rate) as [He|Hne]; cbn [negb].
    + destruct (IH (readables ++ [r]) Hns) as (rs & -> & Hl).
      exists (r :: rs). rewrite <- app_assoc. split; [reflexivity|]. simpl. lia.
    + destruct Hrate as [?|Hsrc]; [contradiction|].
      unfold SrcSource. rewrite Hnc, Hsrc. cbn [Z.eqb Pos.eqb negb result_bind].
      match goal with |- context [readables ++ [?x]] => set (sfs := x) end.
      destruct (IH (readables ++ [sfs]) Hns) as (rs & -> & Hl).
      exists (sfs :: rs). rewrite <- app_assoc. split; [reflexivity|]. simpl. lia.
Qed.

(** Claim C10.  The constructor of [Convolver] throws for every source
    of more than [2^24] frames and for a source without channels; a source
    of [2^24] frames or less with at least one channel, at the rate of the
    plugin or with the resampler available, is accepted.  A refusal leaves
    the plugin without an offline engine and with its online engine. *)
Theorem convolver_new_limits `{AudioLibs} path rate sched_policy sched_priority
    irc irs fs :
  ir_source path = Ok fs ->
  let r := Convolver.new path rate sched_policy sched_priority irc irs in
  (2 ^ 24 < readable_length fs -> r = Throw "Convolver: IR file too long.")
  /\ (readable_length fs <= 2 ^ 24 -> n_channels fs <= 0 ->
      r = Throw "Convolver: no usable audio-channels.")
  /\ (readable_length fs <= 2 ^ 24 -> 1 <= n_channels fs ->
      (sample_rate fs = rate \/ src_new_ok = true) ->
      exists C, r = Ok C /\ Convolver._fs C = fs
                /\ length (Convolver._readables C) = Z.to_nat (n_channels fs)
                /\ Convolver._configured C = false)
  /\ (forall (E : Convolver.Engine) respond self,
        clv_offline self = None ->
        2 ^ 24 < readable_length fs \/ n_channels fs <= 0 ->
        let w := load_ir_worker respond path self in
        w.1.1 = LV2_WORKER_ERR_UNKNOWN
        /\ clv_offline w.2 = None /\ clv_online w.2 = clv_online self).
Proof.
  intros Hsrc r. subst r.
  assert (Hthrow : forall rate sched_policy sched_priority irc irs,
             2 ^ 24 < readable_length fs \/ n_channels fs <= 0 ->
             exists what, Convolver.new path rate sched_policy sched_priority irc irs
                          = Throw what).
  { intros rt pol pri c i Hbad. unfold Convolver.new. unfold ir_source in Hsrc.
    rewrite Hsrc. cbn [result_bind]. change 16777216 with (2 ^ 24).
    destruct (Z.ltb_spec (2 ^ 24) (readable_length fs)); [eexists; reflexivity|].
    destruct Hbad as [?|Hch]; [lia|].
    rewrite seqZ_nil by exact Hch. cbn [Convolver.wrap_channels result_bind].
    eexists. reflexivity. }
  assert (Hlast : forall (E : Convolver.Engine) respond self,
        clv_offline self = None ->
        2 ^ 24 < readable_length fs \/ n_channels fs <= 0 ->
        let w := load_ir_worker respond path self in
        w.1.1 = LV2_WORKER_ERR_UNKNOWN
        /\ clv_offline w.2 = None /\ clv_online w.2 = clv_online self).
  { intros E respond self Ho Hbad.
    destruct (Hthrow (LV2.rate self) (rt_policy self) (rt_priority self) (chn_cfg self)
                Convolver.IRSettings_default Hbad) as (what & Hw).
    destruct (load_ir_worker_fails respond path self Ho) as (H1 & _ & H3 & H4 & _).
    - intros C HC. rewrite Hw in HC. discriminate HC.
    - cbv zeta. auto. }
  unfold Convolver.new. unfold ir_source in Hsrc.
  rewrite Hsrc. cbn [result_bind]. change 16777216 with (2 ^ 24).
  split; [|split; [|split; [|exact Hlast]]].
  - intros Hlong. destruct (Z.ltb_spec (2 ^ 24) (readable_length fs)); [reflexivity|lia].
  - intros Hlen Hch. destruct (Z.ltb_spec (2 ^ 24) (readable_length fs)); [lia|].
    rewrite seqZ_nil by exact Hch. cbn [Convolver.wrap_channels result_bind].
    reflexivity.
  - intros Hlen Hch Hrate. destruct (Z.ltb_spec (2 ^ 24) (readable_length fs)); [lia|].
    destruct (wrap_channels_ok fs rate Hrate (seqZ 0 (n_channels fs)) [])
      as (rs & -> & Hl).
    { apply Forall_seqZ. intros; lia. }
    cbn [result_bind app]. rewrite length_seqZ in Hl.
    destruct rs as [|r0 rs]; [simpl in Hl; lia|].
    rewrite bool_decide_eq_false_2 by discriminate.
    eexists. split; [reflexivity|]. repeat split. exact Hl.
Qed.

Lemma convolver_new_limits_witness :
  exists C,
    Convolver.new (H := libs_example) "ir.wav" 48000 1 50 Convolver.Stereo
                  Convolver.IRSettings_default = Ok C
    /\ length (Convolver._readables C) = 2%nat.
Proof.
  pose (fs := {| read := fun _ _ _ => []; readable_length := 16777216;
                 n_channels := 2; sample_rate := 48000 |}).
  destruct (convolver_new_limits (H := libs_example) "ir.wav" 48000 1 50 Convolver.Stereo
              Convolver.IRSettings_default fs) as (_ & _ & H3 & _); [reflexivity|].
  destruct H3 as (C & HC & _ & Hl & _).
  - simpl. lia.
  - simpl. lia.
  - left. reflexivity.
  - exists C. split; [exact HC | exact Hl].
Defined.

(** The two refusals at the files of the example. *)
Example convolver_new_too_long :
  Convolver.new (H := libs_example) "long.wav" 48000 1 50 Convolver.Stereo
                Convolver.IRSettings_default = Throw "Convolver: IR file too long.".
Proof. reflexivity. Qed.

Example convolver_new_no_channels :
  Convolver.new (H := libs_example) "none.wav" 48000 1 50 Convolver.Stereo
                Convolver.IRSettings_default = Throw "Convolver: no usable audio-channels.".
Proof. reflexivity. Qed.

Example convolver_new_unopened :
  Convolver.new (H := libs_example) "missing.wav" 48000 1 50 Convolver.Stereo
                Convolver.IRSettings_default = Throw "Error: cannot open IR file".
Proof. reflexivity. Qed.

Lemma inform_ui_keeps mark_dirty self :
  let s := inform_ui mark_dirty self in
  clv_online s = clv_online self /\ clv_offline s = clv_offline self
  /\ next_queued_file s = next_queued_file self /\ scheduled s = scheduled self
  /\ responded s = responded self /\ logged s = logged self
  /\ rate s = rate self /\ rt_policy s = rt_policy self /\ rt_priority s = rt_priority self
  /\ chn_cfg s = chn_cfg self /\ block_size s = block_size self.
Proof.
  unfold inform_ui.
  destruct (control self); [|repeat split; reflexivity].
  destruct (notify self); [|repeat split; reflexivity].
  destruct (clv_online self) as [C|] eqn:HC; [|cbn zeta; rewrite HC; repeat split; reflexivity].
  destruct (bool_decide _); [cbn zeta; rewrite HC; repeat split; reflexivity|].
  destruct (negb _); cbn zeta; cbn [clv_online set_notify]; rewrite HC;
    repeat split; reflexivity.
Qed.

(** Claim C1.  When [work_response] finds no offline engine it swaps
    nothing: the online engine, the one that [run] uses, stays, and a
    [FREE] command is scheduled whenever a path is queued.  A construction
    that throws leaves no offline engine, the online engine untouched and
    no response.  [FREE] then starts the construction of the queued
    path. *)
Theorem no_swap_without_offline {A : AudioLibs} {M : Libm} {E : Convolver.Engine} self :
  clv_offline self = None ->
  (let r := work_response self in
   r.1 = LV2_WORKER_SUCCESS
   /\ clv_online r.2 = clv_online self /\ clv_offline r.2 = None
   /\ (next_queued_file self <> "" ->
       scheduled r.2 = scheduled self ++ [Command CMD_FREE])
   /\ (next_queued_file self = "" -> r.2 = self))
  /\ (forall respond ir_path what,
        Convolver.new ir_path (rate self) (rt_policy self) (rt_priority self)
                      (chn_cfg self) Convolver.IRSettings_default = Throw what ->
        let r := load_ir_worker respond ir_path self in
        r.1.1 = LV2_WORKER_ERR_UNKNOWN
        /\ clv_online r.2 = clv_online self /\ clv_offline r.2 = None
        /\ responded r.2 = responded self)
  /\ (next_queued_file self <> "" ->
      let r := work (Command CMD_FREE) self in
      builds r.2 = builds self ++ [next_queued_file self]
      /\ next_queued_file r.2 = "" /\ clv_online r.2 = clv_online self).
Proof.
  intros Ho. split; [|split].
  - unfold work_response. rewrite Ho. cbn zeta.
    destruct (decide (next_queued_file self = "")) as [Hq|Hq].
    + rewrite bool_decide_eq_true_2 by exact Hq. cbn [negb fst snd].
      repeat split; try assumption; try reflexivity. intros Hne. contradiction.
    + rewrite bool_decide_eq_false_2 by exact Hq. cbn [negb fst snd].
      repeat split; try assumption; try reflexivity. intros He. contradiction.
  - intros respond ir_path what Hthrow.
    destruct (load_ir_worker_fails respond ir_path self Ho) as (H1 & _ & H3 & H4 & _ & H6 & _).
    + intros C HC. rewrite Hthrow in HC. discriminate HC.
    + cbn zeta. auto.
  - intros Hq. cbn zeta. unfold work. cbn [Z.eqb CMD_APPLY CMD_FREE Pos.eqb].
    cbn [next_queued_file set_clv_offline].
    rewrite bool_decide_eq_false_2 by exact Hq. cbn [negb].
    set (s1 := lv2_log _ _).
    assert (Hs1 : clv_offline s1 = None) by reflexivity.
    unfold load_ir_worker. rewrite Hs1.
    destruct (Convolver.new _ _ _ _ _ _) as [C|w].
    + destruct (Convolver.ready _); cbn [negb fst snd];
        (split; [subst s1; solve_builds | split; reflexivity]).
    + cbn [negb fst snd]. split; [subst s1; solve_builds | split; reflexivity].
Qed.

Lemma no_swap_without_offline_witness :
  let self := set_next_queued_file "mem:2" cfg_example in
  let r := work_response (H := libm_example) self in
  clv_online r.2 = Some engine0 /\ scheduled r.2 = [Command CMD_FREE].
Proof.
  destruct (no_swap_without_offline (A := libs_example) (M := libm_example)
              (E := engine_example) (set_next_queued_file "mem:2" cfg_example))
    as ((_ & H2 & _ & H4 & _) & _); [reflexivity|].
  cbv zeta in *. split; [exact H2|]. apply H4. discriminate.
Defined.






(** ** The latency port *)

Lemma run_online `{Convolver.Engine} n_samples self C :
  clv_online self = Some C ->
  (exists C', clv_online (run n_samples self) = Some C')
  /\ p_latency (run n_samples self)
     = f32_of_Z (wrap32 (Convolver.get_artificial_latency C
                         + (if buffered self then Convolver.latency C else 0))).
Proof.
  intros Hon. unfold run. rewrite Hon.
  cbn [buffered set_p_latency chn_in chn_out input output].
  destruct (chn_in self =? 2).
  - destruct (Convolver.get_sum_inputs C).
    + destruct (if buffered self then _ else _) as [C' [o0 o1]].
      split; [eexists|]; reflexivity.
    + destruct (if buffered self then _ else _) as [C' [o0 o1]].
      split; [eexists|]; reflexivity.
  - destruct (chn_out self =? 2).
    + destruct (if buffered self then _ else _) as [C' [o0 o1]].
      split; [eexists|]; reflexivity.
    + destruct (if buffered self then _ else _) as [C' o0].
      split; [eexists|]; reflexivity.
Qed.

Lemma handle_event_online self ev : clv_online (handle_event self ev) = clv_online self.
Proof.
  destruct ev as [| |[p|]]; cbn [handle_event]; try reflexivity.
  - apply inform_ui_keeps.
  - destruct (_ || _); reflexivity.
Qed.

Lemma handle_events_online evs self :
  clv_online (fold_left handle_event evs self) = clv_online self.
Proof.
  revert self. induction evs as [|ev evs IH]; intros self; cbn [fold_left]; [reflexivity|].
  rewrite IH. apply handle_event_online.
Qed.

(** What [run_cfg] leaves in the latency port when an engine is online:
    the artificial latency alone, whatever the buffered mode. *)
Lemma run_cfg_latency `{Libm} `{Convolver.Engine} n_samples self evs nf C :
  control self = Some evs -> notify self = Some nf -> clv_online self = Some C ->
  exists C', clv_online (run_cfg n_samples self) = Some C'
             /\ p_latency (run_cfg n_samples self)
                = f32_of_Z (Convolver.get_artificial_latency C').
Proof.
  intros Hc Hn Hon. unfold run_cfg. rewrite Hc, Hn.
  set (s1 := fold_left handle_event evs (set_notify (Some []) self)).
  assert (H1 : clv_online s1 = Some C).
  { subst s1. rewrite handle_events_online. exact Hon. }
  set (s2 := set_buffered _ s1).
  assert (H2 : clv_online s2 = Some C) by exact H1.
  cbv zeta.
  match goal with
  | |- context [match clv_online ?s3 with Some _ => _ | None => _ end] =>
      assert (H3 : exists C3, clv_online s3 = Some C3)
  end.
  { destruct (_ || _); [|eauto].
    cbn [clv_online set_dry_target set_db_wet set_db_dry]. rewrite H2.
    eexists. reflexivity. }
  destruct H3 as (C3 & H3). rewrite H3.
  match goal with |- context [run n_samples ?s3] =>
    destruct (run_online n_samples s3 C3 H3) as ((C' & HC') & _) end.
  rewrite HC'. exists C'. split; [exact HC'|reflexivity].
Qed.

(** Claim C3 at a configurable instance in buffered mode: with an engine
    of quantum 64 and no artificial latency online, [run] alone reports 64
    samples, and [run_cfg], which calls it, leaves 0 in the port. *)
Theorem run_cfg_latency_buffered_example :
  let s := LV2.run_cfg (H := libm_example) (H0 := engine_example) 64 cfg_example in
  LV2.buffered s = true
  /\ LV2.p_latency s = f32_of_Z 0
  /\ LV2.p_latency (LV2.run (H := engine_example) 64 cfg_example) = f32_of_Z 64
  /\ f32_of_Z 64 <> f32_of_Z 0.
Proof.
  cbv zeta. split; [vm_compute; reflexivity|].
  split; [vm_compute; reflexivity|].
  split; [vm_compute; reflexivity|]. vm_compute. discriminate.
Qed.

(** ** The sizes of the partition plan *)

Lemma sizes_ascend_app lo hi levs L :
  sizes_ascend lo hi levs ->
  is_pow2 (Convlevel._parsize L) -> lo <= Convlevel._parsize L <= hi ->
  Forall (fun L' => 2 * Convlevel._parsize L' <= Convlevel._parsize L) levs ->
  sizes_ascend lo hi (levs ++ [L]).
Proof.
  revert lo. induction levs as [|L' levs IH]; intros lo Hs Hp Hb Hall; simpl in *.
  - repeat split; try assumption; lia.
  - destruct Hs as (H1 & H2 & H3). apply Forall_cons in Hall as [Ha Hall].
    repeat split; try assumption; try lia.
    apply IH; try assumption. lia.
Qed.

(** The mask [0xAAAA] tells the parity of the exponent of a power of two
    below [2^16]. *)
Lemma land_aaaa k :
  0 <= k < 16 -> (Z.land (2 ^ k) 43690 =? 0) = Z.even k.
Proof.
  intros Hk.
  assert (k = 0 \/ k = 1 \/ k = 2 \/ k = 3 \/ k = 4 \/ k = 5 \/ k = 6 \/ k = 7 \/ k = 8
          \/ k = 9 \/ k = 10 \/ k = 11 \/ k = 12 \/ k = 13 \/ k = 14 \/ k = 15) as Hc by lia.
  repeat (destruct Hc as [-> | Hc]; [reflexivity|]). subst k. reflexivity.
Qed.

Lemma plan_levels_sizes alloc maxsize options step cfft cmac M :
  0 <= M -> maxsize + 4 * 2 ^ M <= 2 ^ 32 -> 1 <= step <= 2 ->
  forall fuel offs e prio s nmin levs levs' size',
    0 <= offs -> 0 <= e <= M ->
    1 <= s <= 2 -> (s = 2 -> Z.even (M - e) = true) ->
    (s = 1 -> step = 2 -> Z.odd (M - e) = true) -> (step = 1 -> s = 1) ->
    0 < nmin ->
    Forall (fun L' => 2 * Convlevel._parsize L' <= 2 ^ e) levs ->
    Convproc.plan_levels fuel alloc maxsize (2 ^ M) options step cfft cmac
                         offs (2 ^ e) prio s nmin levs = Some (Some (levs', size')) ->
    forall lo, sizes_ascend lo (2 ^ M) levs -> lo <= 2 ^ e ->
    sizes_ascend lo (2 ^ M) levs'
    /\ (exists e', e <= e' <= M /\ size' = 2 ^ e')
    /\ Z.of_nat (length levs') <= Z.of_nat (length levs) + (M - e) + 1.
Proof.
  intros HM Hfit Hstep. induction fuel as [|fuel IH];
    intros offs e prio s nmin levs levs' size' Ho He Hs Hev Hod Hst Hn Hall Hrun lo Hasc Hlo.
  - cbn [Convproc.plan_levels] in Hrun.
    destruct (offs <? maxsize); [discriminate|]. injection Hrun as <- <-.
    split; [assumption|]. split; [exists e; split; [lia|reflexivity]|]. lia.
  - cbn [Convproc.plan_levels] in Hrun.
    destruct (Z.ltb_spec offs maxsize) as [Hlt|Hge].
    2:{ injection Hrun as <- <-.
        split; [assumption|]. split; [exists e; split; [lia|reflexivity]|]. lia. }
    assert (Hpe : 0 < 2 ^ e) by (apply Z.pow_pos_nonneg; lia).
    assert (HeM : 2 ^ e <= 2 ^ M) by (apply Z.pow_le_mono_r; lia).
    pose proof (level_npar_bounds maxsize (2 ^ M) cfft cmac offs (2 ^ e) s nmin
                  ltac:(lia) ltac:(lia) ltac:(lia) Hn) as Hb.
    cbv zeta in Hb.
    set (npar := Convproc.level_npar maxsize (2 ^ M) cfft cmac offs (2 ^ e) s nmin) in *.
    destruct Hb as (Hn1 & Hn2 & Hn3).
    destruct (Convproc.level_ok alloc (Z.of_nat (length levs))); [|discriminate].
    set (L := Convlevel.configure prio offs npar (2 ^ e) options Convlevel.new) in *.
    assert (Hw : wrap32 (offs + 2 ^ e * npar) = offs + 2 ^ e * npar).
    { apply wrap32_small. nia. }
    rewrite Hw in Hrun.
    assert (HascL : sizes_ascend lo (2 ^ M) (levs ++ [L])).
    { apply sizes_ascend_app; try assumption.
      - exists e. split; [lia|reflexivity].
      - subst L. cbn [Convlevel.configure Convlevel._parsize]. lia. }
    assert (Hlen : Z.of_nat (length (levs ++ [L])) = Z.of_nat (length levs) + 1).
    { rewrite length_app. simpl. lia. }
    destruct (Z.ltb_spec (offs + 2 ^ e * npar) maxsize) as [Hmore|Hdone].
    + specialize (Hn3 Hmore).
      assert (HeltM : e < M).
      { destruct (Z.lt_ge_cases e M) as [?|Hc]; [assumption|].
        assert (e = M) by lia. subst. lia. }
      assert (HesM : e + s <= M).
      { assert (s = 1 \/ s = 2) as [->| ->] by lia; [lia|].
        specialize (Hev eq_refl).
        destruct (Z.eq_dec (M - e) 1) as [E1|E1]; [rewrite E1 in Hev; discriminate|lia]. }
      assert (Hsh : wrap32 (Z.shiftl (2 ^ e) s) = 2 ^ (e + s)).
      { rewrite Z.shiftl_mul_pow2 by lia. rewrite <- Z.pow_add_r by lia.
        apply wrap32_small.
        assert (2 ^ (e + s) <= 2 ^ M) by (apply Z.pow_le_mono_r; lia).
        assert (0 < 2 ^ (e + s)) by (apply Z.pow_pos_nonneg; lia). lia. }
      rewrite Hsh in Hrun.
      assert (H2e : 2 * 2 ^ e <= 2 ^ (e + s)).
      { replace (2 * 2 ^ e) with (2 ^ (e + 1)) by (rewrite Z.pow_add_r; lia).
        apply Z.pow_le_mono_r; lia. }
      destruct (IH (offs + 2 ^ e * npar) (e + s) (to_int32 (prio - s)) step
                  (if step =? 1 then 2 else 6) (levs ++ [L]) levs' size')
        with (lo := lo) as (R1 & (e' & He' & R2) & R3);
        [lia | lia | exact Hstep | | | | | | exact Hrun | exact HascL | lia | ].
      * intros Hs2.
        assert (s = 1 \/ s = 2) as [->| ->] by lia.
        -- specialize (Hod eq_refl Hs2).
           replace (M - (e + 1)) with (M - e - 1) by lia.
           rewrite <- Z.odd_succ. replace (Z.succ (M - e - 1)) with (M - e) by lia. exact Hod.
        -- specialize (Hev eq_refl).
           replace (M - (e + 2)) with (M - e - 2) by lia.
           replace (M - e) with (Z.succ (Z.succ (M - e - 2))) in Hev by lia.
           rewrite Z.even_succ_succ in Hev. exact Hev.
      * intros Hs1 Hs2. lia.
      * intros Hs1. exact Hs1.
      * destruct (step =? 1); lia.
      * rewrite Forall_app. split.
        -- eapply Forall_impl; [exact Hall|]. cbv beta. intros L' HL'. lia.
        -- constructor; [|constructor]. subst L.
           cbn [Convlevel.configure Convlevel._parsize]. exact H2e.
      * split; [exact R1|]. split; [exists e'; split; [lia|exact R2]|]. lia.
    + assert (Hend : Convproc.plan_levels fuel alloc maxsize (2 ^ M) options step cfft cmac
                       (offs + 2 ^ e * npar) (2 ^ e) prio s nmin (levs ++ [L])
                     = Some (Some (levs ++ [L], 2 ^ e))).
      { destruct fuel; cbn [Convproc.plan_levels];
          destruct (Z.ltb_spec (offs + 2 ^ e * npar) maxsize); try lia; reflexivity. }
      rewrite Hend in Hrun. injection Hrun as <- <-.
      split; [exact HascL|]. split; [exists e; split; [lia|reflexivity]|]. lia.
Qed.

Lemma plan_levels_prefix alloc maxsize maxpart options step cfft cmac :
  forall fuel offs size prio s nmin levs levs' size',
    Convproc.plan_levels fuel alloc maxsize maxpart options step cfft cmac
                         offs size prio s nmin levs = Some (Some (levs', size')) ->
    exists rest,
      levs' = levs ++ rest
      /\ (offs < maxsize ->
          exists L rest', rest = L :: rest' /\ Convlevel._parsize L = size
                          /\ Convlevel._offs L = offs /\ Convlevel._prio L = prio).
Proof.
  induction fuel as [|fuel IH]; intros offs size prio s nmin levs levs' size' Hrun;
    cbn [Convproc.plan_levels] in Hrun;
    destruct (Z.ltb_spec offs maxsize) as [Hlt|Hge]; try discriminate.
  - injection Hrun as <- <-. exists []. rewrite app_nil_r. split; [reflexivity|lia].
  - destruct (Convproc.level_ok alloc _); [|discriminate].
    match type of Hrun with
    | (if ?c then _ else _) = _ => destruct c
    end; apply IH in Hrun as (rest & -> & _);
      (exists (Convlevel.configure prio offs
                 (Convproc.level_npar maxsize maxpart cfft cmac offs size s nmin)
                 size options Convlevel.new :: rest);
       rewrite <- app_assoc; split; [reflexivity|];
       intros _; eexists _, rest; repeat split; reflexivity).
  - injection Hrun as <- <-. exists []. rewrite app_nil_r. split; [reflexivity|lia].
Qed.

Lemma sizes_ascend_weaken lo lo' hi levs :
  lo' <= lo -> sizes_ascend lo hi levs -> sizes_ascend lo' hi levs.
Proof. destruct levs; simpl; [tauto|]. intros ? (? & ? & ?). repeat split; try assumption; lia. Qed.

(** X1.  When [configure] succeeds for sizes with
    [maxpart < 2^16 * minpart], the partition sizes of the levels are powers
    of two between [minpart] and [maxpart], every level at least twice as
    large as the one before; the first level has the size [minpart] and
    starts at offset 0; [_maxpart] is the size reached at the end; and
    there are at most [log2 maxpart - log2 minpart + 1] levels. *)
Theorem configure_plan_sizes `{H : ZetaHeader} {Hok : ZetaHeaderOk H}
    alloc ninp nout maxsize quantum minpart maxpart density P P' :
  is_u32 ninp -> is_u32 nout -> is_u32 maxsize ->
  is_u32 quantum -> is_u32 minpart -> is_u32 maxpart ->
  maxsize + 4 * MAXPART <= 2 ^ 32 -> maxpart < 2 ^ 16 * minpart ->
  Convproc.configure alloc ninp nout maxsize quantum minpart maxpart density P
  = Some (Convproc.OK, P') ->
  sizes_ascend minpart maxpart (Convproc._convlev P')
  /\ (0 < maxsize ->
      exists L levs, Convproc._convlev P' = L :: levs
                     /\ Convlevel._parsize L = minpart /\ Convlevel._offs L = 0)
  /\ is_pow2 (Convproc._maxpart P') /\ minpart <= Convproc._maxpart P' <= maxpart
  /\ Convproc._nlevels P' = Z.of_nat (length (Convproc._convlev P'))
  /\ Convproc._nlevels P' <= Z.log2 maxpart - Z.log2 minpart + 1.
Proof.
  intros Hi Ho Hms Hq Hm HM Hfit Hratio Hcfg.
  pose proof (bad_param_false ninp nout quantum minpart maxpart Hi Ho Hq Hm HM) as Hbp.
  unfold Convproc.configure in Hcfg.
  destruct (bool_decide (Convproc._state P = Convproc.ST_IDLE)); cbn [negb] in Hcfg;
    [|discriminate].
  destruct (Convproc.bad_param ninp nout quantum minpart maxpart) eqn:Hb; [discriminate|].
  destruct (proj1 Hbp eq_refl) as (Hch & HI1 & Hsz).
  destruct HI1 as (Hqm & HmM & HMM & (a & Ha & Hqa) & (b & Hb0 & Hmb) & (M & HM0 & HMe)).
  destruct Hok as [mq mp mqf mpf mdf mi mo ol fl].
  assert (Hpb : 0 < 2 ^ b) by (apply Z.pow_pos_nonneg; lia).
  assert (HpM : 0 < 2 ^ M) by (apply Z.pow_pos_nonneg; lia).
  assert (Hab : a <= b) by (apply pow2_le_exp; try assumption; lia).
  assert (HbM : b <= M) by (apply pow2_le_exp; try assumption; lia).
  assert (Hb31 : 2 ^ b < 2 ^ 31) by (change (2 ^ 31) with 2147483648; lia).
  destruct (grow_to_minpart_pow2 32 a b 0 ltac:(lia) Hb31) as (prio & Hg).
  { assert (b < 31) by (apply pow2_lt_exp; try assumption; lia). lia. }
  subst quantum minpart maxpart.
  rewrite Hg in Hcfg. cbn [mbind option_bind] in Hcfg.
  assert (HMb16 : M - b < 16).
  { apply pow2_lt_exp; try lia.
    replace (2 ^ (M - b)) with (2 ^ M / 2 ^ b); [apply Z.div_lt_upper_bound; lia|].
    rewrite <- Z.pow_sub_r by lia. reflexivity. }
  assert (Hdiv : to_int32 (2 ^ M / 2 ^ b) = 2 ^ (M - b)).
  { rewrite <- Z.pow_sub_r by lia. unfold to_int32.
    assert (0 < 2 ^ (M - b) < 2 ^ 16).
    { split; [apply Z.pow_pos_nonneg; lia|apply Z.pow_lt_mono_r; lia]. }
    rewrite Z.mod_small; change (2 ^ 16) with 65536 in *;
      change (2 ^ 31) with 2147483648; change (2 ^ 32) with 4294967296; lia. }
  rewrite Hdiv, land_aaaa in Hcfg by lia.
  set (step := if f32_ltb _ (f32_mul (f32_of_Z 4) _) then 1 else 2) in Hcfg.
  assert (Hst : step = 1 \/ step = 2) by (subst step; destruct (f32_ltb _ _); auto).
  clearbody step.
  set (s := if step =? 2 then if Z.even (M - b) then 2 else 1 else 1) in Hcfg.
  assert (Hs : 1 <= s <= 2 /\ (s = 2 -> Z.even (M - b) = true)
               /\ (s = 1 -> step = 2 -> Z.odd (M - b) = true) /\ (step = 1 -> s = 1)).
  { subst s. destruct Hst as [-> | ->]; cbn [Z.eqb Pos.eqb].
    - repeat split; try lia.
    - rewrite <- Z.negb_even. destruct (Z.even (M - b)); repeat split; try lia; reflexivity. }
  clearbody s. destruct Hs as (Hs1 & Hs2 & Hs3 & Hs4).
  match type of Hcfg with
  | context [Convproc.plan_levels ?f ?al ?ms ?mp ?op ?st ?cf ?cm 0 ?sz ?pr ?vs ?nm []] =>
      destruct (Convproc.plan_levels f al ms mp op st cf cm 0 sz pr vs nm [])
        as [[[levs size]|]|] eqn:Hrun; cbn [mbind option_bind] in Hcfg; try discriminate;
      pose proof (plan_levels_prefix _ _ _ _ _ _ _ _ _ _ _ _ _ _ _ _ Hrun) as (rest & Hrest & Hfirst);
      destruct (plan_levels_sizes al ms op st cf cm M HM0 ltac:(lia) ltac:(lia)) with
        (fuel := f) (offs := 0) (e := b) (prio := pr) (s := vs) (nmin := nm)
        (levs := @nil Convlevel.t) (levs' := levs) (size' := size) (lo := 2 ^ b)
        as (R1 & (e' & He' & R2) & R3);
      [lia | lia | exact Hs1 | exact Hs2 | exact Hs3 | exact Hs4
       | repeat match goal with |- context [if ?c then _ else _] => destruct c end; lia
       | constructor | exact Hrun | exact I | lia | ]
  end.
  destruct (Convproc.buffers_ok alloc); [|discriminate].
    injection Hcfg as <-.
    cbn [Convproc._convlev Convproc._maxpart Convproc._nlevels].
    simpl in Hrest. subst rest.
    split; [exact R1|]. split.
    { intros Hpos. destruct (Hfirst Hpos) as (L & rest' & -> & HL1 & HL2 & _).
      exists L, rest'. repeat split; assumption. }
    split; [exists e'; split; [lia|exact R2]|].
    assert (2 ^ b <= 2 ^ e' <= 2 ^ M).
    { split; apply Z.pow_le_mono_r; lia. }
    split; [lia|]. split; [reflexivity|].
    rewrite !Z.log2_pow2 by lia. simpl in R3. lia.
Qed.

Lemma configure_plan_sizes_witness :
  exists P',
    Convproc.configure (H := zita4) Convproc.alloc_all 2 2 100000 64 64 8192 f32_zero
                       Convproc.new = Some (Convproc.OK, P')
    /\ sizes_ascend 64 8192 (Convproc._convlev P')
    /\ Convproc._nlevels P' <= 8.
Proof.
  assert (Hrun : exists P',
             Convproc.configure (H := zita4) Convproc.alloc_all 2 2 100000 64 64 8192
                                f32_zero Convproc.new = Some (Convproc.OK, P')).
  { eexists. vm_compute. reflexivity. }
  destruct Hrun as (P' & Hrun). exists P'. split; [exact Hrun|].
  destruct (configure_plan_sizes (H := zita4) (Hok := zita4_ok) Convproc.alloc_all
              2 2 100000 64 64 8192 f32_zero Convproc.new P')
    as (H1 & _ & _ & _ & _ & H6).
  1-6: unfold is_u32; lia.
  - simpl; lia.
  - lia.
  - exact Hrun.
  - split; [exact H1|]. change (Z.log2 8192) with 13 in H6. change (Z.log2 64) with 6 in H6.
    lia.
Defined.

(** ** The delay line *)

Lemma ring_step {A} (d pos : nat) (ring : list A) (x : A) :
  length ring = S d -> (pos <= d)%nat ->
  let ring' := <[pos := x]> ring in
  let pos' := if decide (d < S pos)%nat then O else S pos in
  drop pos' ring' ++ take pos' ring' = drop 1 (drop pos ring ++ take pos ring) ++ [x].
Proof.
  intros Hl Hp. cbv zeta.
  assert (Hsplit : ring = take pos ring ++ default x (ring !! pos) :: drop (S pos) ring).
  { destruct (ring !! pos) as [y|] eqn:Hy.
    - simpl. rewrite <- (take_drop_middle ring pos y Hy) at 1. reflexivity.
    - apply lookup_ge_None in Hy. lia. }
  assert (Hdrop : drop pos ring = default x (ring !! pos) :: drop (S pos) ring).
  { rewrite Hsplit at 1. rewrite drop_app_length'; [reflexivity|]. rewrite length_take. lia. }
  rewrite Hdrop. simpl.
  assert (Hins : <[pos := x]> ring = take pos ring ++ x :: drop (S pos) ring).
  { rewrite Hsplit at 1. rewrite insert_app_r_alt by (rewrite length_take; lia).
    rewrite length_take. replace (pos - pos `min` length ring)%nat with O by lia.
    reflexivity. }
  destruct (decide (d < S pos)%nat) as [Hd|Hd].
  - assert (pos = d) by lia. subst pos.
    rewrite !drop_0, take_0, app_nil_r. rewrite Hins.
    rewrite (drop_ge ring (S d)) by lia. reflexivity.
  - rewrite Hins. rewrite (cons_middle x), app_assoc.
    rewrite drop_app_length' by (rewrite length_app, length_take; simpl; lia).
    rewrite take_app_length' by (rewrite length_app, length_take; simpl; lia).
    rewrite drop_0, <- app_assoc. reflexivity.
Qed.

Lemma rd_lookup {A} (d : A) (l : list A) (i : nat) : rd d l (Z.of_nat i) = default d (l !! i).
Proof.
  unfold rd. destruct (Z.ltb_spec (Z.of_nat i) 0) as [?|_]; [lia|].
  rewrite Nat2Z.id. reflexivity.
Qed.

Lemma wr_insert {A} (l : list A) (i : nat) x : wr l (Z.of_nat i) x = <[i := x]> l.
Proof.
  unfold wr. destruct (Z.ltb_spec (Z.of_nat i) 0) as [?|_]; [lia|].
  rewrite Nat2Z.id. reflexivity.
Qed.

Lemma delay_run_steps (d p0 : nat) ring0 w xs :
  length ring0 = S d -> (p0 <= d)%nat -> Z.of_nat d + 1 < 2 ^ 32 ->
  let h0 := ring_from (Z.of_nat p0) ring0 in
  forall k, (k <= length xs)%nat ->
    exists ring p,
      for_upto (Z.of_nat k) DelayLine.run_sample
        (DelayLine.mk (Some ring0) w (Z.of_nat d) (Z.of_nat p0), xs)
      = (DelayLine.mk (Some ring) w (Z.of_nat d) (Z.of_nat p),
         take k (drop 1 h0 ++ xs) ++ drop k xs)
      /\ length ring = S d /\ (p <= d)%nat
      /\ ring_from (Z.of_nat p) ring = drop k (h0 ++ take k xs).
Proof.
  intros Hl Hp Hd h0.
  assert (Hh0 : length h0 = S d).
  { subst h0. unfold ring_from. rewrite length_app, length_drop, length_take. lia. }
  induction k as [|k IH]; intros Hk.
  - exists ring0, p0. rewrite for_upto_nonpos by lia.
    rewrite take_0, !drop_0. cbn [app]. rewrite app_nil_r.
    repeat split; try assumption; reflexivity.
  - destruct (IH ltac:(lia)) as (ring & p & Hrun & Hlr & Hpd & Hring).
    rewrite for_upto_S, Hrun. clear IH Hrun.
    assert (Hxk : exists x, xs !! k = Some x) by (apply lookup_lt_is_Some_2; lia).
    destruct Hxk as (x & Hx).
    assert (Htk : length (take k (drop 1 h0 ++ xs)) = k).
    { rewrite length_take, length_app, length_drop. lia. }
    unfold DelayLine.run_sample.
    cbn [DelayLine._buf DelayLine._pos DelayLine._delay DelayLine._written].
    assert (Hrdx : rd f32_zero (take k (drop 1 h0 ++ xs) ++ drop k xs) (Z.of_nat k) = x).
    { rewrite rd_lookup, lookup_app_r by lia. rewrite Htk, Nat.sub_diag.
      rewrite lookup_drop, Nat.add_0_r, Hx. reflexivity. }
    rewrite Hrdx.
    assert (Hw : wrap32 (Z.of_nat p + 1) = Z.of_nat (S p)) by (rewrite wrap32_small; lia).
    rewrite Hw, !wr_insert.
    pose proof (ring_step d p ring x Hlr Hpd) as Hstep. cbv zeta in Hstep.
    set (p' := if decide (d < S p)%nat then O else S p) in *.
    assert (Hp' : (if Z.of_nat d <? Z.of_nat (S p) then 0 else Z.of_nat (S p)) = Z.of_nat p').
    { subst p'. destruct (Z.ltb_spec (Z.of_nat d) (Z.of_nat (S p)));
        destruct (decide (d < S p)%nat); try lia; reflexivity. }
    rewrite Hp'.
    assert (Hp'd : (p' <= d)%nat) by (subst p'; destruct (decide _); lia).
    clearbody p'.
    assert (Hnew : ring_from (Z.of_nat p') (<[p:=x]> ring) = drop (S k) (h0 ++ take (S k) xs)).
    { unfold ring_from in *. rewrite !Nat2Z.id in *. rewrite Hstep, Hring.
      rewrite (take_S_r xs k x Hx), app_assoc.
      rewrite (drop_app_le _ [x]) by (rewrite length_app, length_take; lia).
      rewrite drop_drop. replace (k + 1)%nat with (S k) by lia. reflexivity. }
    exists (<[p:=x]> ring), p'.
    split; [|split; [rewrite length_insert; exact Hlr|split; [exact Hp'd|exact Hnew]]].
    f_equal.
    assert (Hout : rd f32_zero (<[p:=x]> ring) (Z.of_nat p')
                   = default f32_zero ((drop 1 h0 ++ xs) !! k)).
    { rewrite rd_lookup.
      assert (Hhd : (<[p:=x]> ring) !! p' = head (ring_from (Z.of_nat p') (<[p:=x]> ring))).
      { unfold ring_from. rewrite Nat2Z.id.
        rewrite head_lookup. rewrite lookup_app_l by (rewrite length_drop, length_insert; lia).
        rewrite lookup_drop, Nat.add_0_r. reflexivity. }
      rewrite Hhd, Hnew, head_lookup, lookup_drop, Nat.add_0_r.
      destruct h0 as [|y h0']; [simpl in Hh0; lia|]. cbn [drop app lookup list_lookup].
      simpl in Hh0.
      destruct (decide (k < length h0')%nat) as [Hin|Hin].
      - rewrite (lookup_app_l h0' (take (S k) xs)) by lia.
        rewrite (lookup_app_l h0' xs) by lia. reflexivity.
      - rewrite (lookup_app_r h0' (take (S k) xs)) by lia.
        rewrite (lookup_app_r h0' xs) by lia.
        rewrite lookup_take_lt by lia. reflexivity. }
    rewrite Hout.
    assert (Hyk : exists y, (drop 1 h0 ++ xs) !! k = Some y).
    { apply lookup_lt_is_Some_2. rewrite length_app, length_drop. lia. }
    destruct Hyk as (y & Hy). rewrite Hy. cbn [default from_option].
    rewrite (take_S_r _ k y Hy).
    rewrite insert_app_r_alt by lia. rewrite Htk, Nat.sub_diag.
    rewrite (drop_S xs x k Hx). cbn [insert list_insert]. rewrite <- app_assoc. reflexivity.
Qed.

Lemma delay_holds_length d h D : delay_holds d h D -> length h = S d.
Proof.
  intros (ring & p & _ & Hl & _ & _ & Hp & <-).
  unfold ring_from. rewrite length_app, length_drop, length_take. lia.
Qed.

Lemma delay_run d h D xs :
  Z.of_nat d + 1 < 2 ^ 32 -> delay_holds d h D ->
  let r := DelayLine.run xs (Z.of_nat (length xs)) D in
  r.2 = take (length xs) (drop 1 h ++ xs)
  /\ delay_holds d (drop (length xs) (h ++ xs)) r.1.
Proof.
  intros Hd (ring & p & Hb & Hl & Hdl & Hp & Hpd & Hh). cbv zeta.
  destruct D as [b w dl ps]. cbn in Hb, Hdl, Hp. subst b dl ps.
  unfold DelayLine.run. cbn [DelayLine._buf DelayLine._delay DelayLine._pos].
  destruct (delay_run_steps d p ring (0 <? Z.of_nat (length xs)) xs Hl Hpd Hd (length xs)
              ltac:(lia)) as (ring' & p' & Hrun & Hl' & Hp' & Hr').
  rewrite Hrun. cbn [fst snd]. rewrite Hh in *.
  rewrite drop_all, app_nil_r. split; [reflexivity|].
  exists ring', p'. rewrite firstn_all in Hr'. repeat split; try assumption; reflexivity.
Qed.

Lemma delay_stream_delays d blocks :
  Z.of_nat d + 1 < 2 ^ 32 ->
  forall h D, delay_holds d h D ->
    concat (delay_stream D blocks).2
    = take (length (concat blocks)) (drop 1 h ++ concat blocks).
Proof.
  intros Hd. induction blocks as [|b blocks IH]; intros h D HD.
  - reflexivity.
  - cbn [delay_stream concat].
    pose proof (delay_holds_length d h D HD) as Hlh.
    destruct (delay_run d h D b Hd HD) as (Hout & HD').
    destruct (DelayLine.run b (Z.of_nat (length b)) D) as [D1 b'].
    cbn [fst snd] in Hout, HD'.
    specialize (IH _ _ HD').
    destruct (delay_stream D1 blocks) as [D2 outs]. cbn [fst snd concat] in *.
    rewrite IH, Hout, length_app.
    set (rest := concat blocks).
    rewrite <- take_take_drop.
    f_equal.
    + symmetry. rewrite app_assoc. apply take_app_le. rewrite length_app, length_drop. lia.
    + f_equal. symmetry. transitivity (drop (S (length b)) (h ++ b ++ rest)).
      * rewrite <- (drop_app_le h (b ++ rest) 1) by lia.
        rewrite drop_drop. f_equal; lia.
      * rewrite (app_assoc h b rest).
        rewrite <- (drop_app_le (drop (length b) (h ++ b)) rest 1)
          by (rewrite length_drop, length_app; lia).
        rewrite <- (drop_app_le (h ++ b) rest) by (rewrite length_app; lia).
        rewrite drop_drop. f_equal; lia.
Qed.

(** X2.  A delay line that [reset] has given [delay] cells of delay
    delays the stream by exactly [delay] samples, across the calls of
    [run]: the output blocks, put end to end, are [delay] zeros followed by
    the input, cut to the length of the input. *)
Theorem delay_line_delays delay D blocks :
  0 <= delay -> delay + 1 < 2 ^ 32 ->
  concat (delay_stream (DelayLine.reset true delay D) blocks).2
  = take (length (concat blocks)) (calloc_real delay ++ concat blocks).
Proof.
  intros H0 Hd.
  assert (Hh : delay_holds (Z.to_nat delay) (replicate (S (Z.to_nat delay)) f32_zero)
                 (DelayLine.reset true delay D)).
  { exists (replicate (S (Z.to_nat delay)) f32_zero), O.
    unfold DelayLine.reset, calloc_real. cbn [DelayLine._buf DelayLine._delay DelayLine._pos].
    rewrite wrap32_small by lia.
    replace (Z.to_nat (1 + delay)) with (S (Z.to_nat delay)) by lia.
    repeat split; try lia.
    - apply length_replicate.
    - unfold ring_from. cbn [Z.of_nat Z.to_nat drop take]. apply app_nil_r. }
  rewrite (delay_stream_delays (Z.to_nat delay) blocks ltac:(lia) _ _ Hh).
  reflexivity.
Qed.

Lemma delay_line_delays_witness :
  concat (delay_stream (DelayLine.reset true 2 DelayLine.new)
            [[f32_one; f32_half]; [f32_one]]).2
  = [f32_zero; f32_zero; f32_one].
Proof.
  rewrite (delay_line_delays 2 DelayLine.new [[f32_one; f32_half]; [f32_one]]); [|lia|lia].
  reflexivity.
Defined.

(** Closed numeric side conditions, by evaluation. *)
Ltac by_compute := vm_compute; repeat split; solve [reflexivity | intro; discriminate].

(** ** The life cycle of the convolver *)

Lemma rd_out_of_range {A} (d : A) l k : Z.of_nat (length l) <= k -> rd d l k = d.
Proof.
  intros Hk. unfold rd. destruct (k <? 0); [reflexivity|].
  rewrite lookup_ge_None_2 by lia. reflexivity.
Qed.

Lemma wr_out_of_range {A} (l : list A) k x : Z.of_nat (length l) <= k -> wr l k x = l.
Proof.
  intros Hk. unfold wr. destruct (k <? 0); [reflexivity|].
  apply list_insert_ge. lia.
Qed.

(** A loop that replaces the cells [o, o + m) of an array one by one. *)
Lemma for_upto_wr_rd {A} (d : A) (f : A -> A) (l : list A) (o : Z) (m : nat) :
  let l' := for_upto (Z.of_nat m) (fun i l => wr l (o + i) (f (rd d l (o + i)))) l in
  length l' = length l
  /\ forall k, 0 <= k < Z.of_nat (length l) ->
       rd d l' k = if (o <=? k) && (k <? o + Z.of_nat m) then f (rd d l k) else rd d l k.
Proof.
  induction m as [|m IH]; cbv zeta.
  - rewrite for_upto_nonpos by lia. split; [reflexivity|].
    intros k Hk. destruct (Z.leb_spec o k), (Z.ltb_spec k (o + Z.of_nat 0)); try lia; reflexivity.
  - rewrite for_upto_S. cbv zeta in IH. destruct IH as (Hl & Hrd).
    set (l1 := for_upto (Z.of_nat m) _ l) in *.
    split; [rewrite wr_length; exact Hl|].
    intros k Hk.
    destruct (Z.eq_dec k (o + Z.of_nat m)) as [->|Hne].
    + rewrite rd_wr_eq by lia. rewrite Hrd by lia.
      destruct (Z.leb_spec o (o + Z.of_nat m)), (Z.ltb_spec (o + Z.of_nat m) (o + Z.of_nat m)),
        (Z.ltb_spec (o + Z.of_nat m) (o + Z.of_nat (S m))); try lia; reflexivity.
    + rewrite rd_wr_ne by lia. rewrite Hrd by lia.
      destruct (Z.leb_spec o k), (Z.ltb_spec k (o + Z.of_nat m)),
        (Z.ltb_spec k (o + Z.of_nat (S m))); try lia; reflexivity.
Qed.

Lemma each_level_rd f P :
  Convproc._nlevels P = Z.of_nat (length (Convproc._convlev P)) ->
  length (Convproc.each_level f P) = length (Convproc._convlev P)
  /\ forall k, 0 <= k < Convproc._nlevels P ->
       rd Convlevel.new (Convproc.each_level f P) k
       = f (rd Convlevel.new (Convproc._convlev P) k).
Proof.
  intros Hn. unfold Convproc.each_level. rewrite Hn.
  pose proof (for_upto_wr_rd Convlevel.new f (Convproc._convlev P) 0
                (length (Convproc._convlev P))) as Hloop.
  cbv zeta in Hloop. destruct Hloop as (Hl & Hrd).
  split; [exact Hl|]. intros k Hk. rewrite Hrd by lia.
  destruct (Z.leb_spec 0 k), (Z.ltb_spec k (0 + Z.of_nat (length (Convproc._convlev P))));
    try lia; reflexivity.
Qed.

Lemma forallb_seqZ (p : Z -> bool) a n :
  forallb p (seqZ a n) = true <-> forall k, a <= k < a + n -> p k = true.
Proof.
  rewrite forallb_forall. split.
  - intros Hall k Hk. apply Hall. apply list_elem_of_In. apply elem_of_seqZ. lia.
  - intros Hall k Hk. apply Hall. apply list_elem_of_In in Hk. apply elem_of_seqZ in Hk. lia.
Qed.

Lemma rd_ext {A} (d : A) (l1 l2 : list A) :
  length l1 = length l2 ->
  (forall k, 0 <= k < Z.of_nat (length l1) -> rd d l1 k = rd d l2 k) -> l1 = l2.
Proof.
  intros Hl Hrd. apply list_eq_same_length with (length l1); [lia|reflexivity|].
  intros i x y Hi Hx Hy. specialize (Hrd (Z.of_nat i) ltac:(lia)).
  rewrite !rd_lookup, Hx, Hy in Hrd. exact Hrd.
Qed.

Lemma blit_all {A} (b src : list A) : length b = length src -> blit b 0 src = src.
Proof.
  intros Hl. unfold blit. change (Z.to_nat 0) with O.
  rewrite take_0, Nat.add_0_l. cbn [app]. rewrite Hl. apply take_app_length.
Qed.

(** [memset] over whole rows leaves rows of zeros. *)
Lemma clear_rows_all {A} (zero : list A) (a : list (list A)) :
  Forall (fun b => length b = length zero) a ->
  Convlevel.clear_rows zero (Z.of_nat (length a)) a = replicate (length a) zero.
Proof.
  intros Hall. unfold Convlevel.clear_rows.
  set (a' := for_upto _ _ a).
  assert (Hloop : length a' = length a
                  /\ forall k, 0 <= k < Z.of_nat (length a) ->
                       rd [] a' k = if (0 <=? k) && (k <? 0 + Z.of_nat (length a))
                                    then blit (rd [] a k) 0 zero else rd [] a k)
    by exact (for_upto_wr_rd [] (fun b => blit b 0 zero) a 0 (length a)).
  clearbody a'. destruct Hloop as (Hl & Hrd).
  apply (rd_ext []).
  - rewrite length_replicate. exact Hl.
  - intros k Hk. rewrite Hl in Hk. rewrite Hrd by lia.
    destruct (Z.leb_spec 0 k), (Z.ltb_spec k (0 + Z.of_nat (length a))); try lia.
    cbn [andb].
    replace k with (Z.of_nat (Z.to_nat k)) by lia. rewrite !rd_lookup.
    rewrite lookup_replicate_2 by lia.
    destruct (a !! Z.to_nat k) as [b|] eqn:Hb.
    + cbn [default from_option]. apply blit_all.
      rewrite Forall_forall in Hall. apply Hall. eapply list_elem_of_lookup_2. exact Hb.
    + apply lookup_ge_None in Hb. lia.
Qed.

(** What [Convlevel::reset] leaves in the indices. *)
Lemma level_reset_fields inpsize outsize L :
  let L' := Convlevel.reset inpsize outsize L in
  Convlevel._stat L' = Convlevel._stat L /\ Convlevel._npar L' = Convlevel._npar L
  /\ Convlevel._parsize L' = Convlevel._parsize L
  /\ Convlevel._ptind L' = 0 /\ Convlevel._opind L' = 0 /\ Convlevel._wait L' = 0
  /\ Convlevel._inpsize L' = inpsize /\ Convlevel._outsize L' = outsize
  /\ Convlevel._bits L' = Convlevel._parsize L / outsize
  /\ Convlevel._outoffs L'
     = (if Convlevel._parsize L =? outsize then 0 else Convlevel._parsize L / 2).
Proof. cbv zeta. unfold Convlevel.reset. cbn. repeat split; reflexivity. Qed.

Lemma reset_fields P :
  Convproc._state P <> Convproc.ST_IDLE ->
  Convproc._nlevels P = Z.of_nat (length (Convproc._convlev P)) ->
  let P' := (Convproc.reset P).2 in
  (Convproc.reset P).1 = Convproc.OK
  /\ Convproc._state P' = Convproc._state P
  /\ Convproc._nlevels P' = Convproc._nlevels P
  /\ Convproc._minpart P' = Convproc._minpart P /\ Convproc._quantum P' = Convproc._quantum P
  /\ Convproc._latecnt P' = Convproc._latecnt P
  /\ Convproc._inpoffs P' = Convproc._inpoffs P /\ Convproc._outoffs P' = Convproc._outoffs P
  /\ length (Convproc._convlev P') = length (Convproc._convlev P)
  /\ forall k, 0 <= k < Convproc._nlevels P ->
       rd Convlevel.new (Convproc._convlev P') k
       = Convlevel.reset (Convproc._inpsize P) (Convproc._minpart P)
           (rd Convlevel.new (Convproc._convlev P) k).
Proof.
  intros Hs Hn. cbv zeta. unfold Convproc.reset.
  rewrite bool_decide_eq_false_2 by exact Hs.
  cbn [fst snd Convproc._state Convproc._nlevels Convproc._minpart Convproc._quantum
       Convproc._latecnt Convproc._inpoffs Convproc._outoffs Convproc._convlev].
  destruct (each_level_rd (Convlevel.reset (Convproc._inpsize P) (Convproc._minpart P)) P Hn)
    as (Hl & Hrd).
  repeat split; try reflexivity; assumption.
Qed.

(** X3.  [Convproc::reset] answers [BAD_STATE] in [ST_IDLE] and changes
    nothing; in any other state it keeps the state, leaves every input and
    output buffer filled with zeros and every level with its ring indices
    and its count of pending waits at 0, reading from offset 0 when its
    partition size is [_minpart] and from the middle of the partition
    otherwise. *)
Theorem reset_clears P :
  (Convproc._state P = Convproc.ST_IDLE -> Convproc.reset P = (Convproc.BAD_STATE, P))
  /\ (Convproc._state P <> Convproc.ST_IDLE ->
      Convproc._nlevels P = Z.of_nat (length (Convproc._convlev P)) ->
      Convproc._ninp P = Z.of_nat (length (Convproc._inpbuff P)) ->
      Convproc._nout P = Z.of_nat (length (Convproc._outbuff P)) ->
      Forall (fun b => Z.of_nat (length b) = Convproc._inpsize P) (Convproc._inpbuff P) ->
      Forall (fun b => Z.of_nat (length b) = Convproc._minpart P) (Convproc._outbuff P) ->
      let P' := (Convproc.reset P).2 in
      (Convproc.reset P).1 = Convproc.OK
      /\ Convproc._state P' = Convproc._state P
      /\ Convproc._inpbuff P'
         = replicate (length (Convproc._inpbuff P)) (calloc_real (Convproc._inpsize P))
      /\ Convproc._outbuff P'
         = replicate (length (Convproc._outbuff P)) (calloc_real (Convproc._minpart P))
      /\ length (Convproc._convlev P') = length (Convproc._convlev P)
      /\ forall k, 0 <= k < Convproc._nlevels P ->
           let L := rd Convlevel.new (Convproc._convlev P) k in
           let L' := rd Convlevel.new (Convproc._convlev P') k in
           Convlevel._stat L' = Convlevel._stat L
           /\ Convlevel._ptind L' = 0 /\ Convlevel._opind L' = 0 /\ Convlevel._wait L' = 0
           /\ Convlevel._outsize L' = Convproc._minpart P
           /\ Convlevel._outoffs L'
              = (if Convlevel._parsize L =? Convproc._minpart P then 0
                 else Convlevel._parsize L / 2)).
Proof.
  split.
  - intros Hs. unfold Convproc.reset. rewrite bool_decide_eq_true_2 by exact Hs. reflexivity.
  - intros Hs Hn Hi Ho Hib Hob. cbv zeta. unfold Convproc.reset.
    rewrite bool_decide_eq_false_2 by exact Hs.
    cbn [fst snd Convproc._state Convproc._inpbuff Convproc._outbuff Convproc._convlev].
    destruct (each_level_rd (Convlevel.reset (Convproc._inpsize P) (Convproc._minpart P)) P Hn)
      as (Hl & Hrd).
    unfold Convproc.zero_heads. rewrite Hi, Ho.
    rewrite !clear_rows_all.
    + repeat split; try reflexivity; try exact Hl.
      all: rewrite (Hrd k H);
        destruct (level_reset_fields (Convproc._inpsize P) (Convproc._minpart P)
                    (rd Convlevel.new (Convproc._convlev P) k))
          as (F1 & F2 & F3 & F4 & F5 & F6 & F7 & F8 & F9 & F10); assumption.
    + eapply Forall_impl; [exact Hob|]. cbv beta. intros b Hb.
      unfold calloc_real. rewrite length_replicate. lia.
    + eapply Forall_impl; [exact Hib|]. cbv beta. intros b Hb.
      unfold calloc_real. rewrite length_replicate. lia.
Qed.

Lemma first_worker_cases P : Convproc.first_worker P = 0 \/ Convproc.first_worker P = 1.
Proof. unfold Convproc.first_worker. destruct (_ =? _); auto. Qed.

(** X4.  [start_process] is refused with [BAD_STATE] outside [ST_STOP].
    From [ST_STOP], when every thread can be created, the convolver is in
    [ST_PROC] with the late counter and both offsets at 0, and a level runs
    a worker ([ST_PROC]) exactly when its index is at least [first_worker]:
    the first level has no thread when [_minpart = _quantum].  When a
    thread cannot be created the convolver is cleaned up to [ST_IDLE] and
    the answer is [BAD_STATE]. *)
Theorem start_process_workers `{FFTW} created P :
  Convproc._nlevels P = Z.of_nat (length (Convproc._convlev P)) ->
  Forall (fun L => Convlevel._stat L = Convlevel.ST_IDLE) (Convproc._convlev P) ->
  let r := Convproc.start_process created P in
  let k0 := Convproc.first_worker P in
  (Convproc._state P <> Convproc.ST_STOP -> r = (Convproc.BAD_STATE, P))
  /\ (Convproc._state P = Convproc.ST_STOP ->
      (forall k, k0 <= k < Convproc._nlevels P -> created k = true) ->
      r.1 = Convproc.OK /\ Convproc._state r.2 = Convproc.ST_PROC
      /\ Convproc._latecnt r.2 = 0 /\ Convproc._inpoffs r.2 = 0 /\ Convproc._outoffs r.2 = 0
      /\ Convproc._nlevels r.2 = Convproc._nlevels P
      /\ Convproc.check_started k0 r.2 = true
      /\ forall k, 0 <= k < Convproc._nlevels P ->
           let L := rd Convlevel.new (Convproc._convlev r.2) k in
           Convlevel._stat L = (if k0 <=? k then Convlevel.ST_PROC else Convlevel.ST_IDLE)
           /\ Convlevel._ptind L = 0 /\ Convlevel._opind L = 0 /\ Convlevel._wait L = 0)
  /\ (Convproc._state P = Convproc.ST_STOP ->
      (exists k, k0 <= k < Convproc._nlevels P /\ created k = false) ->
      r.1 = Convproc.BAD_STATE /\ Convproc._state r.2 = Convproc.ST_IDLE
      /\ Convproc._nlevels r.2 = 0 /\ Convproc._convlev r.2 = []).
Proof.
  intros Hn Hidle r k0. subst r.
  unfold Convproc.start_process. split; [|split].
  - intros Hs. rewrite bool_decide_eq_false_2 by exact Hs. reflexivity.
  - intros Hs Hcr. rewrite bool_decide_eq_true_2 by exact Hs. cbn [negb].
    unfold Convproc.restart_process.
    rewrite bool_decide_eq_false_2 by (rewrite Hs; discriminate).
    rewrite bool_decide_eq_false_2 by (rewrite Hs; discriminate).
    set (P1 := Convproc.set_outoffs 0 (Convproc.set_inpoffs 0 (Convproc.set_latecnt 0 P))).
    destruct (reset_fields P1) as (_ & R2 & R3 & R4 & R5 & R6 & R7 & R8 & R9 & R10).
    { subst P1. cbn. rewrite Hs. discriminate. }
    { exact Hn. }
    set (P2 := (Convproc.reset P1).2) in *.
    assert (Hk0 : Convproc.first_worker P2 = k0).
    { subst k0. unfold Convproc.first_worker. rewrite R4, R5. reflexivity. }
    rewrite Hk0. rewrite R3. change (Convproc._nlevels P1) with (Convproc._nlevels P) in *.
    assert (Hall : forallb (fun k => (Convlevel.start (created k)
                                        (rd Convlevel.new (Convproc._convlev P2) k)).1)
                     (seqZ k0 (Convproc._nlevels P - k0)) = true).
    { apply forallb_seqZ. intros k Hk. cbn [Convlevel.start fst]. apply Hcr. lia. }
    rewrite Hall.
    set (levs := for_upto _ _ (Convproc._convlev P2)).
    pose proof (first_worker_cases P) as Hk01. fold k0 in Hk01.
    assert (Hloop : length levs = length (Convproc._convlev P2)
              /\ forall k, 0 <= k < Z.of_nat (length (Convproc._convlev P2)) ->
                   rd Convlevel.new levs k
                   = if (k0 <=? k) && (k <? Convproc._nlevels P)
                     then Convlevel.main_enter (rd Convlevel.new (Convproc._convlev P2) k)
                     else rd Convlevel.new (Convproc._convlev P2) k).
    { destruct (Z.le_gt_cases k0 (Convproc._nlevels P)) as [Hle|Hgt].
      - pose proof (for_upto_wr_rd Convlevel.new Convlevel.main_enter (Convproc._convlev P2)
                      k0 (Z.to_nat (Convproc._nlevels P - k0))) as Hl.
        cbv zeta in Hl. rewrite Z2Nat.id in Hl by lia.
        replace (k0 + (Convproc._nlevels P - k0)) with (Convproc._nlevels P) in Hl by lia.
        exact Hl.
      - subst levs. rewrite for_upto_nonpos by lia. split; [reflexivity|].
        intros k Hk. rewrite R9 in Hk.
        destruct (Z.leb_spec k0 k), (Z.ltb_spec k (Convproc._nlevels P)); try lia; reflexivity. }
    clearbody levs. destruct Hloop as (Hll & Hlrd).
    cbn [fst snd Convproc._state Convproc.set_state Convproc._latecnt Convproc._inpoffs
         Convproc._outoffs Convproc._nlevels Convproc._convlev Convproc.set_convlev].
    rewrite R6, R7, R8, R3.
    assert (Hlev : forall k, 0 <= k < Convproc._nlevels P ->
              Convlevel._stat (rd Convlevel.new levs k)
              = (if k0 <=? k then Convlevel.ST_PROC else Convlevel.ST_IDLE)
              /\ Convlevel._ptind (rd Convlevel.new levs k) = 0
              /\ Convlevel._opind (rd Convlevel.new levs k) = 0
              /\ Convlevel._wait (rd Convlevel.new levs k) = 0).
    { intros k Hk. rewrite Hlrd by (rewrite R9; subst P1; cbn; lia).
      rewrite (R10 k Hk).
      destruct (level_reset_fields (Convproc._inpsize P1) (Convproc._minpart P1)
                  (rd Convlevel.new (Convproc._convlev P1) k))
        as (F1 & _ & _ & F4 & F5 & F6 & _).
      assert (Hst : Convlevel._stat (rd Convlevel.new (Convproc._convlev P) k)
                    = Convlevel.ST_IDLE).
      { replace k with (Z.of_nat (Z.to_nat k)) by lia. rewrite rd_lookup.
        destruct (Convproc._convlev P !! Z.to_nat k) as [L|] eqn:HL.
        - rewrite Forall_forall in Hidle. apply Hidle. eapply list_elem_of_lookup_2. exact HL.
        - reflexivity. }
      destruct (Z.leb_spec k0 k), (Z.ltb_spec k (Convproc._nlevels P)); try lia;
        cbn [andb]; unfold Convlevel.main_enter;
        cbn [Convlevel._stat Convlevel._ptind Convlevel._opind Convlevel._wait
             Convlevel.set_stat];
        rewrite ?F1, ?F4, ?F5, ?F6; repeat split; try reflexivity; exact Hst. }
    repeat split; try reflexivity; try (apply Hlev; assumption).
    unfold Convproc.check_started.
    cbn [Convproc._nlevels Convproc._convlev Convproc.set_state Convproc.set_convlev].
    rewrite R3. change (Convproc._nlevels P1) with (Convproc._nlevels P).
    destruct (Z.eq_dec (Convproc._nlevels P) 0) as [H0|H0].
    + rewrite H0. cbn [Z.eqb]. apply orb_true_r.
    + assert (0 < Convproc._nlevels P) by lia.
      apply orb_true_iff. left. apply andb_true_iff. split; [apply Z.leb_le; lia|].
      apply forallb_seqZ. intros k Hk. apply bool_decide_eq_true_2.
      destruct (Hlev k ltac:(lia)) as (-> & _).
      destruct (Z.leb_spec k0 k); [reflexivity|lia].
  - intros Hs (k & Hk & Hck). rewrite bool_decide_eq_true_2 by exact Hs. cbn [negb].
    unfold Convproc.restart_process.
    rewrite bool_decide_eq_false_2 by (rewrite Hs; discriminate).
    rewrite bool_decide_eq_false_2 by (rewrite Hs; discriminate).
    set (P1 := Convproc.set_outoffs 0 (Convproc.set_inpoffs 0 (Convproc.set_latecnt 0 P))).
    destruct (reset_fields P1) as (_ & R2 & R3 & R4 & R5 & _).
    { subst P1. cbn. rewrite Hs. discriminate. }
    { exact Hn. }
    set (P2 := (Convproc.reset P1).2) in *.
    assert (Hk0 : Convproc.first_worker P2 = k0).
    { subst k0. unfold Convproc.first_worker. rewrite R4, R5. reflexivity. }
    rewrite Hk0. rewrite R3. change (Convproc._nlevels P1) with (Convproc._nlevels P) in *.
    destruct (forallb _ (seqZ k0 (Convproc._nlevels P - k0))) eqn:Hall.
    + exfalso. rewrite forallb_seqZ in Hall. specialize (Hall k ltac:(lia)).
      cbn [Convlevel.start fst] in Hall. congruence.
    + repeat split; reflexivity.
Qed.

Lemma level_stop_fields L :
  Convlevel._stat (Convlevel.stop L)
  = (if decide (Convlevel._stat L = Convlevel.ST_IDLE) then Convlevel.ST_IDLE
     else Convlevel.ST_TERM)
  /\ Convlevel._trig (Convlevel.stop L)
     = (if decide (Convlevel._stat L = Convlevel.ST_IDLE) then Convlevel._trig L
        else Convlevel._trig L + 1)
  /\ Convlevel._ptind (Convlevel.stop L) = Convlevel._ptind L
  /\ Convlevel._opind (Convlevel.stop L) = Convlevel._opind L.
Proof.
  unfold Convlevel.stop. destruct (decide _) as [e|e]; repeat split; try reflexivity.
  exact e.
Qed.

(** X5.  [stop_process] is refused with [BAD_STATE] outside [ST_PROC]
    unless forced.  Otherwise the convolver is in [ST_WAIT]; every level
    that is not idle is told to terminate and its trigger is posted once;
    [process] and [tailonly] then return 0 and change nothing; and once the
    workers have taken their turn every level is idle and [check_stop] puts
    the convolver in [ST_STOP]. *)
Theorem stop_process_winds_down `{ZetaHeader} `{FFTW} force n_samples P :
  Convproc._nlevels P = Z.of_nat (length (Convproc._convlev P)) ->
  let r := Convproc.stop_process force P in
  (Convproc._state P <> Convproc.ST_PROC -> force = false -> r = (Convproc.BAD_STATE, P))
  /\ (Convproc._state P = Convproc.ST_PROC \/ force = true ->
      r.1 = Convproc.OK /\ Convproc._state r.2 = Convproc.ST_WAIT
      /\ (forall k, 0 <= k < Convproc._nlevels P ->
            let L := rd Convlevel.new (Convproc._convlev P) k in
            let L' := rd Convlevel.new (Convproc._convlev r.2) k in
            Convlevel._stat L'
            = (if decide (Convlevel._stat L = Convlevel.ST_IDLE) then Convlevel.ST_IDLE
               else Convlevel.ST_TERM)
            /\ Convlevel._trig L'
               = (if decide (Convlevel._stat L = Convlevel.ST_IDLE) then Convlevel._trig L
                  else Convlevel._trig L + 1))
      /\ Convproc.process r.2 = (0, r.2)
      /\ Convproc.tailonly n_samples r.2 = (0, r.2)
      /\ Convproc._state (Convproc.await_stop r.2) = Convproc.ST_STOP
      /\ forall k, 0 <= k < Convproc._nlevels P ->
           Convlevel._stat (rd Convlevel.new (Convproc._convlev (Convproc.await_stop r.2)) k)
           = Convlevel.ST_IDLE).
Proof.
  intros Hn r. subst r. unfold Convproc.stop_process. split.
  - intros Hs ->. rewrite bool_decide_eq_false_2 by exact Hs. reflexivity.
  - intros Hor.
    assert (Hc : negb (bool_decide (Convproc._state P = Convproc.ST_PROC)) && negb force = false).
    { destruct Hor as [Hs| ->]; [rewrite bool_decide_eq_true_2 by exact Hs; reflexivity|].
      apply andb_false_r. }
    rewrite Hc. cbn [fst snd].
    destruct (each_level_rd Convlevel.stop P Hn) as (Hl & Hrd).
    set (P1 := Convproc.set_state Convproc.ST_WAIT
                 (Convproc.set_convlev (Convproc.each_level Convlevel.stop P) P)).
    assert (Hn1 : Convproc._nlevels P1 = Z.of_nat (length (Convproc._convlev P1))).
    { subst P1. cbn. rewrite Hl. exact Hn. }
    assert (Hst1 : forall k, 0 <= k < Convproc._nlevels P ->
              Convlevel._stat (rd Convlevel.new (Convproc._convlev P1) k)
              = (if decide (Convlevel._stat (rd Convlevel.new (Convproc._convlev P) k)
                            = Convlevel.ST_IDLE)
                 then Convlevel.ST_IDLE else Convlevel.ST_TERM)).
    { intros k Hk. subst P1. cbn [Convproc._convlev Convproc.set_state Convproc.set_convlev].
      rewrite (Hrd k Hk). apply level_stop_fields. }
    split; [reflexivity|]. split; [reflexivity|]. split.
    { intros k Hk. cbv zeta. split; [apply Hst1; exact Hk|].
      subst P1. cbn [Convproc._convlev Convproc.set_state Convproc.set_convlev].
      rewrite (Hrd k Hk). apply level_stop_fields. }
    split; [reflexivity|]. split; [reflexivity|].
    unfold Convproc.await_stop.
    set (leave := fun L => if decide (Convlevel._stat L = Convlevel.ST_TERM)
                           then Convlevel.main_turn (Convproc._inpbuff P1) L else L).
    destruct (each_level_rd leave P1 Hn1) as (Hl2 & Hrd2).
    assert (Hidle : forall k, 0 <= k < Convproc._nlevels P ->
              Convlevel._stat (rd Convlevel.new (Convproc.each_level leave P1) k)
              = Convlevel.ST_IDLE).
    { intros k Hk. rewrite (Hrd2 k) by (subst P1; cbn; lia).
      specialize (Hst1 k Hk). subst leave. cbv beta.
      destruct (decide (Convlevel._stat (rd Convlevel.new (Convproc._convlev P1) k)
                        = Convlevel.ST_TERM)) as [Ht|Ht].
      - unfold Convlevel.main_turn. cbn [Convlevel._stat Convlevel.set_trig].
        destruct (decide (Convlevel._stat (rd Convlevel.new (Convproc._convlev P1) k)
                          = Convlevel.ST_TERM)); [reflexivity|contradiction].
      - destruct (decide _); congruence. }
    unfold Convproc.check_stop.
    cbn [Convproc._convlev Convproc._nlevels Convproc.set_convlev].
    assert (Hall : forallb (fun k => bool_decide
                      (Convlevel._stat (rd Convlevel.new (Convproc.each_level leave P1) k)
                       = Convlevel.ST_IDLE)) (seqZ 0 (Convproc._nlevels P1)) = true).
    { apply forallb_seqZ. intros k Hk. apply bool_decide_eq_true_2. apply Hidle.
      subst P1. cbn in Hk. lia. }
    rewrite Hall. cbn [snd Convproc._state Convproc.set_state Convproc._convlev].
    split; [reflexivity|]. exact Hidle.
Qed.

Lemma reset_clears_witness :
  Convproc._outbuff (Convproc.reset plan_example).2 = [calloc_real 64; calloc_real 64]
  /\ Convlevel._outoffs (rd Convlevel.new (Convproc._convlev (Convproc.reset plan_example).2) 1)
     = 64.
Proof.
  destruct (reset_clears plan_example) as (_ & H2).
  destruct H2 as (_ & _ & _ & Ho & _ & Hl).
  - discriminate.
  - reflexivity.
  - reflexivity.
  - reflexivity.
  - repeat constructor.
  - repeat constructor.
  - split; [exact Ho|]. destruct (Hl 1 ltac:(by_compute)) as (_ & _ & _ & _ & _ & H6).
    exact H6.
Defined.

Lemma start_process_workers_witness :
  Convproc._state (Convproc.start_process (H := fftw_null) (fun _ => true) plan_example).2
  = Convproc.ST_PROC
  /\ Convlevel._stat
       (rd Convlevel.new
          (Convproc._convlev
             (Convproc.start_process (H := fftw_null) (fun _ => true) plan_example).2) 0)
     = Convlevel.ST_IDLE
  /\ Convlevel._stat
       (rd Convlevel.new
          (Convproc._convlev
             (Convproc.start_process (H := fftw_null) (fun _ => true) plan_example).2) 1)
     = Convlevel.ST_PROC.
Proof.
  destruct (start_process_workers (H := fftw_null) (fun _ => true) plan_example)
    as (_ & H2 & _).
  - reflexivity.
  - repeat constructor.
  - destruct H2 as (_ & Hs & _ & _ & _ & _ & _ & Hl); [reflexivity|reflexivity|].
    split; [exact Hs|].
    split; [exact (proj1 (Hl 0 ltac:(by_compute)))|exact (proj1 (Hl 1 ltac:(by_compute)))].
Defined.

Lemma stop_process_winds_down_witness :
  Convproc._state (Convproc.stop_process false running_example).2 = Convproc.ST_WAIT
  /\ Convproc._state
       (Convproc.await_stop (H := fftw_null) (Convproc.stop_process false running_example).2)
     = Convproc.ST_STOP.
Proof.
  destruct (stop_process_winds_down (H := zita4) (H0 := fftw_null) false 16 running_example)
    as (_ & H2).
  - reflexivity.
  - destruct H2 as (_ & H2 & _ & _ & _ & H6 & _); [left; reflexivity|].
    split; [exact H2|exact H6].
Defined.

(** ** The offsets of the audio cycle *)

Lemma level_process_frame `{FFTW} ib L :
  let L' := Convlevel.process ib L in
  Convlevel._stat L' = Convlevel._stat L /\ Convlevel._npar L' = Convlevel._npar L
  /\ Convlevel._parsize L' = Convlevel._parsize L
  /\ Convlevel._inpsize L' = Convlevel._inpsize L
  /\ Convlevel._outsize L' = Convlevel._outsize L
  /\ Convlevel._outoffs L' = Convlevel._outoffs L
  /\ Convlevel._opind L' = Convlevel._opind L
  /\ Convlevel._trig L' = Convlevel._trig L /\ Convlevel._done L' = Convlevel._done L.
Proof.
  cbv zeta. unfold Convlevel.process.
  destruct (Convlevel.fft_inputs _ _ _ _ _ _ _ _) as [inps td].
  destruct (Convlevel.process_outputs _ _ _ _ _ _ _ _) as [outs [td' fd]].
  repeat split; reflexivity.
Qed.

(** X8.  The read position of the per-cycle step in the input buffer:
    [Convlevel::process] moves [_inpoffs] on by one partition, modulo the
    size of the input buffer, and keeps it inside the buffer. *)
Theorem level_process_window `{FFTW} ib L :
  0 <= Convlevel._inpoffs L < Convlevel._inpsize L ->
  0 < Convlevel._parsize L <= Convlevel._inpsize L ->
  Convlevel._inpsize L < 2 ^ 31 ->
  Convlevel._inpoffs (Convlevel.process ib L)
  = (Convlevel._inpoffs L + Convlevel._parsize L) mod Convlevel._inpsize L
  /\ 0 <= Convlevel._inpoffs (Convlevel.process ib L) < Convlevel._inpsize L.
Proof.
  intros Hi Hp Hs.
  assert (Hgoal : Convlevel._inpoffs (Convlevel.process ib L)
                  = (Convlevel._inpoffs L + Convlevel._parsize L) mod Convlevel._inpsize L).
  { unfold Convlevel.process.
    destruct (Convlevel.fft_inputs _ _ _ _ _ _ _ _) as [inps td].
    destruct (Convlevel.process_outputs _ _ _ _ _ _ _ _) as [outs [td' fd]].
    cbn [Convlevel._inpoffs Convlevel.set_ptind Convlevel.set_freq_data
         Convlevel.set_time_data Convlevel.set_out_list Convlevel.set_inp_list
         Convlevel.set_inpoffs].
    assert (2 ^ 31 < 2 ^ 32) by reflexivity.
    rewrite (wrap32_small (Convlevel._inpoffs L + Convlevel._parsize L)) by lia.
    destruct (Z.leb_spec (Convlevel._inpsize L) (Convlevel._inpoffs L + Convlevel._parsize L)).
    - rewrite wrap32_small by lia.
      apply (Z.mod_unique_pos _ _ 1); lia.
    - symmetry. apply Z.mod_small. lia. }
  split; [exact Hgoal|]. rewrite Hgoal. apply Z.mod_pos_bound. lia.
Qed.

Lemma next_opind_mod o : 0 <= o < 3 -> Convlevel.next_opind o = (o + 1) mod 3.
Proof.
  intros Ho. unfold Convlevel.next_opind.
  assert (o = 0 \/ o = 1 \/ o = 2) as [->|[->| ->]] by lia; reflexivity.
Qed.

(** X7.  The read position of a level: [readout] moves [_outoffs] on by
    [_outsize] and wraps at the partition size, where the output buffer
    index [_opind] steps modulo 3; the [_outsize] samples that are mixed
    lie inside the partition and [_opind] stays below 3. *)
Theorem readout_indices `{FFTW} ib ob L j :
  0 < Convlevel._outsize L -> 0 <= j < Convlevel._bits L ->
  Convlevel._parsize L = Convlevel._bits L * Convlevel._outsize L ->
  Convlevel._outoffs L = j * Convlevel._outsize L ->
  Convlevel._parsize L < 2 ^ 32 -> 0 <= Convlevel._opind L < 3 ->
  let L' := (Convlevel.readout ib ob L).1.2 in
  Convlevel._outoffs L' = ((j + 1) mod Convlevel._bits L) * Convlevel._outsize L
  /\ 0 <= Convlevel._outoffs L' /\ Convlevel._outoffs L' + Convlevel._outsize L'
                                   <= Convlevel._parsize L'
  /\ Convlevel._opind L'
     = (if j + 1 =? Convlevel._bits L then (Convlevel._opind L + 1) mod 3
        else Convlevel._opind L)
  /\ 0 <= Convlevel._opind L' < 3
  /\ Convlevel._parsize L' = Convlevel._parsize L
  /\ Convlevel._outsize L' = Convlevel._outsize L.
Proof.
  intros Hos Hj Hps Hoo Hfit Hop.
  assert (Hmain :
    let L' := (Convlevel.readout ib ob L).1.2 in
    Convlevel._outoffs L' = ((j + 1) mod Convlevel._bits L) * Convlevel._outsize L
    /\ Convlevel._opind L'
       = (if j + 1 =? Convlevel._bits L then (Convlevel._opind L + 1) mod 3
          else Convlevel._opind L)
    /\ Convlevel._parsize L' = Convlevel._parsize L
    /\ Convlevel._outsize L' = Convlevel._outsize L).
  { cbv zeta. unfold Convlevel.readout. cbn [fst snd].
    cbn [Convlevel._outoffs Convlevel.set_outoffs Convlevel._parsize Convlevel._stat
         Convlevel._outsize].
    assert (Hw : wrap32 (Convlevel._outoffs L + Convlevel._outsize L)
                 = (j + 1) * Convlevel._outsize L).
    { rewrite wrap32_small; [lia|]. rewrite Hoo. nia. }
    rewrite Hw, Hps.
    destruct (Z.eqb_spec (j + 1) (Convlevel._bits L)) as [He|Hne].
    - rewrite He, Z.eqb_refl, Z.mod_same by lia.
      destruct (decide _).
      + cbn. rewrite next_opind_mod by exact Hop. repeat split; lia.
      + cbn [Convlevel._outoffs Convlevel._opind Convlevel.set_opind Convlevel._parsize
             Convlevel._outsize].
        match goal with |- context [Convlevel.process ib ?L0] =>
          destruct (level_process_frame ib L0) as (_ & _ & F3 & _ & F5 & F6 & F7 & _) end.
        rewrite F3, F5, F6, F7. cbn. rewrite next_opind_mod by exact Hop.
        repeat split; lia.
    - destruct (Z.eqb_spec ((j + 1) * Convlevel._outsize L)
                           (Convlevel._bits L * Convlevel._outsize L)) as [E|E]; [nia|].
      cbn. rewrite Z.mod_small by lia. repeat split; try reflexivity; lia. }
  cbv zeta in *. destruct Hmain as (M1 & M2 & M3 & M4).
  pose proof (Z.mod_pos_bound (j + 1) (Convlevel._bits L) ltac:(lia)) as Hm.
  pose proof (Z.mod_pos_bound (Convlevel._opind L + 1) 3 ltac:(lia)) as Hm3.
  rewrite M1, M2, M3, M4.
  repeat split; try reflexivity; try nia.
  - destruct (_ =? _); lia.
  - destruct (_ =? _); lia.
Qed.

(** [process] between two boundaries of the cycle: only the offsets move. *)
Lemma convproc_process_result `{ZetaHeader} `{FFTW} P :
  let r := Convproc.process P in
  Convproc._inpoffs r.2
  = (if negb (bool_decide (Convproc._state P = Convproc.ST_PROC)) then Convproc._inpoffs P
     else let i := wrap32 (Convproc._inpoffs P + Convproc._quantum P) in
          if i =? Convproc._inpsize P then 0 else i)
  /\ Convproc._outoffs r.2
     = (if negb (bool_decide (Convproc._state P = Convproc.ST_PROC)) then Convproc._outoffs P
        else let o := wrap32 (Convproc._outoffs P + Convproc._quantum P) in
             if o =? Convproc._minpart P then 0 else o)
  /\ Convproc._quantum r.2 = Convproc._quantum P
  /\ Convproc._minpart r.2 = Convproc._minpart P
  /\ Convproc._inpsize r.2 = Convproc._inpsize P
  /\ Convproc._inpbuff r.2 = Convproc._inpbuff P.
Proof.
  cbv zeta. unfold Convproc.process.
  destruct (negb (bool_decide _)); [repeat split; reflexivity|].
  cbn [Convproc._outoffs Convproc.set_outoffs Convproc._quantum Convproc.set_inpoffs
       Convproc._minpart Convproc._inpoffs].
  destruct (wrap32 (Convproc._outoffs P + Convproc._quantum P) =? Convproc._minpart P);
    [|repeat split; reflexivity].
  destruct (Convproc.readouts _) as [[f levs] ob].
  destruct (negb (f =? 0)); [|repeat split; reflexivity].
  cbn [Convproc._latecnt Convproc.set_latecnt].
  destruct (5 <=? _); [|repeat split; reflexivity].
  destruct (negb _); [|repeat split; reflexivity].
  unfold Convproc.stop_process. destruct (_ && _); repeat split; reflexivity.
Qed.

(** X6.  [Convproc::process] in [ST_PROC] moves [_inpoffs] and
    [_outoffs] on by one quantum, modulo the size of the input buffers and
    modulo [_minpart]; a block of one quantum at either offset stays inside
    its buffer.  Between two boundaries of the cycle nothing else changes:
    the flags are 0, and the levels, the output buffers and the late counter
    are as before. *)
Theorem process_offsets `{ZetaHeader} `{FFTW} P i j a b :
  Convproc._state P = Convproc.ST_PROC ->
  0 < Convproc._quantum P ->
  Convproc._inpsize P = b * Convproc._quantum P -> Convproc._inpsize P < 2 ^ 32 ->
  Convproc._minpart P = a * Convproc._quantum P -> Convproc._minpart P < 2 ^ 32 ->
  Convproc._inpoffs P = i * Convproc._quantum P -> 0 <= i < b ->
  Convproc._outoffs P = j * Convproc._quantum P -> 0 <= j < a ->
  let r := Convproc.process P in
  Convproc._inpoffs r.2 = ((i + 1) mod b) * Convproc._quantum P
  /\ Convproc._outoffs r.2 = ((j + 1) mod a) * Convproc._quantum P
  /\ 0 <= Convproc._inpoffs r.2 /\ Convproc._inpoffs r.2 + Convproc._quantum P
                                   <= Convproc._inpsize P
  /\ 0 <= Convproc._outoffs r.2 /\ Convproc._outoffs r.2 + Convproc._quantum P
                                   <= Convproc._minpart P
  /\ (j + 1 <> a ->
      r.1 = 0 /\ Convproc._convlev r.2 = Convproc._convlev P
      /\ Convproc._outbuff r.2 = Convproc._outbuff P
      /\ Convproc._latecnt r.2 = Convproc._latecnt P
      /\ Convproc._state r.2 = Convproc.ST_PROC).
Proof.
  intros Hs Hq Hb Hbf Ha Haf Hi Hib Hj Hja. cbv zeta.
  destruct (convproc_process_result P) as (R1 & R2 & _). cbv zeta in R1, R2.
  rewrite bool_decide_eq_true_2 in R1, R2 by exact Hs. cbn [negb] in R1, R2.
  assert (Hwi : wrap32 (Convproc._inpoffs P + Convproc._quantum P)
                = (i + 1) * Convproc._quantum P).
  { rewrite wrap32_small; [lia|]. rewrite Hi. nia. }
  assert (Hwj : wrap32 (Convproc._outoffs P + Convproc._quantum P)
                = (j + 1) * Convproc._quantum P).
  { rewrite wrap32_small; [lia|]. rewrite Hj. nia. }
  rewrite Hwi, Hb in R1. rewrite Hwj, Ha in R2.
  assert (E1 : Convproc._inpoffs (Convproc.process P).2 = ((i + 1) mod b) * Convproc._quantum P).
  { rewrite R1. destruct (Z.eq_dec (i + 1) b) as [->|Hne].
    - rewrite Z.eqb_refl, Z.mod_same by lia. reflexivity.
    - destruct (Z.eqb_spec ((i + 1) * Convproc._quantum P) (b * Convproc._quantum P)); [nia|].
      rewrite Z.mod_small by lia. reflexivity. }
  assert (E2 : Convproc._outoffs (Convproc.process P).2 = ((j + 1) mod a) * Convproc._quantum P).
  { rewrite R2. destruct (Z.eq_dec (j + 1) a) as [->|Hne].
    - rewrite Z.eqb_refl, Z.mod_same by lia. reflexivity.
    - destruct (Z.eqb_spec ((j + 1) * Convproc._quantum P) (a * Convproc._quantum P)); [nia|].
      rewrite Z.mod_small by lia. reflexivity. }
  pose proof (Z.mod_pos_bound (i + 1) b ltac:(lia)) as Hmi.
  pose proof (Z.mod_pos_bound (j + 1) a ltac:(lia)) as Hmj.
  rewrite E1, E2.
  set (mi := (i + 1) mod b) in *. set (mj := (j + 1) mod a) in *.
  clearbody mi mj.
  split; [reflexivity|]. split; [reflexivity|].
  split; [nia|]. split; [nia|]. split; [nia|]. split; [nia|].
  intros Hne. unfold Convproc.process.
  rewrite bool_decide_eq_true_2 by exact Hs. cbn [negb].
  cbn [Convproc._outoffs Convproc.set_outoffs Convproc._quantum Convproc.set_inpoffs
       Convproc._minpart].
  rewrite Hwj, Ha.
  destruct (Z.eqb_spec ((j + 1) * Convproc._quantum P) (a * Convproc._quantum P)); [nia|].
  repeat split; try reflexivity. cbn. exact Hs.
Qed.

Lemma level_process_window_witness :
  Convlevel._inpoffs
    (Convlevel.process (H := fftw_null) (Convproc._inpbuff running_example)
       (rd Convlevel.new (Convproc._convlev running_example) 1)) = 64.
Proof.
  destruct (level_process_window (H := fftw_null) (Convproc._inpbuff running_example)
              (rd Convlevel.new (Convproc._convlev running_example) 1)) as (H1 & _).
  - by_compute.
  - by_compute.
  - by_compute.
  - rewrite H1. reflexivity.
Defined.

Lemma readout_indices_witness :
  let L := rd Convlevel.new (Convproc._convlev running_example) 1 in
  let L' := (Convlevel.readout (H := fftw_null) (Convproc._inpbuff running_example)
               (Convproc._outbuff running_example) L).1.2 in
  Convlevel._outoffs L' = 0 /\ Convlevel._opind L' = 1.
Proof.
  cbv zeta.
  destruct (readout_indices (H := fftw_null) (Convproc._inpbuff running_example)
              (Convproc._outbuff running_example)
              (rd Convlevel.new (Convproc._convlev running_example) 1) 1)
    as (H1 & _ & _ & H4 & _).
  - by_compute.
  - by_compute.
  - reflexivity.
  - reflexivity.
  - by_compute.
  - by_compute.
  - cbv zeta in H1, H4. split; [rewrite H1|rewrite H4]; reflexivity.
Defined.

Lemma process_offsets_witness :
  Convproc._inpoffs (Convproc.process (H := zita4) (H0 := fftw_null) running_example).2 = 64
  /\ Convproc._outoffs (Convproc.process (H := zita4) (H0 := fftw_null) running_example).2 = 0.
Proof.
  destruct (process_offsets (H := zita4) (H0 := fftw_null) running_example 0 0 1 4)
    as (H1 & H2 & _).
  - reflexivity.
  - by_compute.
  - reflexivity.
  - by_compute.
  - reflexivity.
  - by_compute.
  - reflexivity.
  - lia.
  - reflexivity.
  - lia.
  - cbv zeta in H1, H2. split; [rewrite H1|rewrite H2]; reflexivity.
Defined.

(** ** The MAC nodes of a level *)

Lemma find_alter_first_same {A} (p : A -> bool) (f : A -> A) (l : list A) :
  (forall x, p (f x) = p x) ->
  List.find p (Convlevel.alter_first p f l) = f <$> List.find p l.
Proof.
  intros Hp. induction l as [|x l IH]; [reflexivity|].
  cbn [Convlevel.alter_first List.find]. destruct (p x) eqn:Hx.
  - cbn [List.find]. rewrite Hp, Hx. reflexivity.
  - cbn [List.find]. rewrite Hx. exact IH.
Qed.

Lemma find_alter_first_other {A} (p q : A -> bool) (f : A -> A) (l : list A) :
  (forall x, q (f x) = q x) -> (forall x, q x = true -> p x = false) ->
  List.find q (Convlevel.alter_first p f l) = List.find q l.
Proof.
  intros Hq Hpq. induction l as [|x l IH]; [reflexivity|].
  cbn [Convlevel.alter_first List.find]. destruct (p x) eqn:Hx.
  - cbn [List.find]. rewrite Hq. destruct (q x) eqn:Hqx; [|reflexivity].
    rewrite (Hpq x Hqx) in Hx. discriminate.
  - cbn [List.find]. destruct (q x); [reflexivity|exact IH].
Qed.

Lemma alter_first_id {A} (p : A -> bool) (f : A -> A) (l : list A) y :
  List.find p l = Some y -> f y = y -> Convlevel.alter_first p f l = l.
Proof.
  intros Hf Hy. induction l as [|x l IH]; [reflexivity|].
  cbn [Convlevel.alter_first]. cbn [List.find] in Hf. destruct (p x).
  - injection Hf as ->. rewrite Hy. reflexivity.
  - rewrite (IH Hf). reflexivity.
Qed.

Lemma find_inp_some inp l X : Convlevel.find_inp inp l = Some X -> Inpnode._inp X = inp.
Proof. intros Hf. apply List.find_some in Hf as [_ Hf]. lia. Qed.

Lemma find_out_some out l Y : Convlevel.find_out out l = Some Y -> Outnode._out Y = out.
Proof. intros Hf. apply List.find_some in Hf as [_ Hf]. lia. Qed.

Lemma find_mac_some inpn l M : Convlevel.find_mac inpn l = Some M -> Macnode._inpn M = inpn.
Proof. intros Hf. apply List.find_some in Hf as [_ Hf]. lia. Qed.

Lemma add_mac_out xid Y : Outnode._out (add_mac xid Y) = Outnode._out Y.
Proof. unfold add_mac. destruct (Convlevel.find_mac _ _); reflexivity. Qed.

Lemma add_mac_finds xid Y :
  exists M, Convlevel.find_mac xid (Outnode._list (add_mac xid Y)) = Some M
            /\ Macnode._inpn M = xid.
Proof.
  unfold add_mac. destruct (Convlevel.find_mac xid (Outnode._list Y)) as [M|] eqn:Hm.
  - exists M. split; [exact Hm|]. eapply find_mac_some. exact Hm.
  - exists (Macnode.new xid). cbn [Outnode._list Outnode.set_list].
    unfold Convlevel.find_mac. cbn [List.find Macnode._inpn Macnode.new].
    rewrite Z.eqb_refl. split; reflexivity.
Qed.

Lemma add_mac_other xid inpn Y :
  inpn <> xid ->
  Convlevel.find_mac inpn (Outnode._list (add_mac xid Y))
  = Convlevel.find_mac inpn (Outnode._list Y).
Proof.
  intros Hne. unfold add_mac. destruct (Convlevel.find_mac xid (Outnode._list Y)); [reflexivity|].
  cbn [Outnode._list Outnode.set_list]. unfold Convlevel.find_mac.
  cbn [List.find Macnode._inpn Macnode.new].
  destruct (Z.eqb_spec xid inpn); [congruence|reflexivity].
Qed.

(** The three chains after [findmacnode (inp, out, true)]. *)
Lemma findmacnode_create_lists inp out L :
  0 <= inp < 2 ^ 16 -> 0 <= out < 2 ^ 16 ->
  let L' := Convlevel.findmacnode_create inp out L in
  Convlevel._inp_list L'
  = (match Convlevel.find_inp inp (Convlevel._inp_list L) with
     | Some _ => Convlevel._inp_list L
     | None => Inpnode.alloc_ffta (Convlevel._npar L) (Convlevel._parsize L) (Inpnode.new inp)
               :: Convlevel._inp_list L
     end)
  /\ Convlevel._out_list L'
     = Convlevel.alter_first (fun Y => Outnode._out Y =? out) (add_mac inp)
         (match Convlevel.find_out out (Convlevel._out_list L) with
          | Some _ => Convlevel._out_list L
          | None => Outnode.new out (Convlevel._parsize L) :: Convlevel._out_list L
          end).
Proof.
  intros Hi Ho. cbv zeta. unfold Convlevel.findmacnode_create.
  assert (Hxid : (match Convlevel.find_inp inp (Convlevel._inp_list L) with
                  | Some X => (Convlevel._inp_list L, Inpnode._inp X)
                  | None =>
                      (Inpnode.alloc_ffta (Convlevel._npar L) (Convlevel._parsize L)
                         (Inpnode.new inp) :: Convlevel._inp_list L,
                       Inpnode._inp (Inpnode.alloc_ffta (Convlevel._npar L)
                                       (Convlevel._parsize L) (Inpnode.new inp)))
                  end)
                 = (match Convlevel.find_inp inp (Convlevel._inp_list L) with
                    | Some _ => Convlevel._inp_list L
                    | None => Inpnode.alloc_ffta (Convlevel._npar L) (Convlevel._parsize L)
                                (Inpnode.new inp) :: Convlevel._inp_list L
                    end, inp)).
  { destruct (Convlevel.find_inp inp (Convlevel._inp_list L)) as [X|] eqn:HX.
    - rewrite (find_inp_some _ _ _ HX). reflexivity.
    - cbn. rewrite Z.mod_small by lia. reflexivity. }
  rewrite Hxid. clear Hxid.
  set (outs := match Convlevel.find_out out (Convlevel._out_list L) with
               | Some _ => Convlevel._out_list L
               | None => Outnode.new out (Convlevel._parsize L) :: Convlevel._out_list L
               end).
  assert (Hfo : exists Y, Convlevel.find_out out outs = Some Y).
  { subst outs. destruct (Convlevel.find_out out (Convlevel._out_list L)) as [Y|] eqn:HY.
    - eauto.
    - unfold Convlevel.find_out. cbn [List.find Outnode.new Outnode._out].
      rewrite Z.mod_small by lia. rewrite Z.eqb_refl. eauto. }
  destruct Hfo as (Y & HY). rewrite HY.
  cbn [Convlevel._inp_list Convlevel._out_list Convlevel.set_out_list Convlevel.set_inp_list].
  split; reflexivity.
Qed.

Lemma level_eta L :
  Convlevel.set_out_list (Convlevel._out_list L) (Convlevel.set_inp_list (Convlevel._inp_list L) L)
  = L.
Proof. destruct L; reflexivity. Qed.

Lemma findmacnode_create_shape inp out L :
  Convlevel.findmacnode_create inp out L
  = Convlevel.set_out_list (Convlevel._out_list (Convlevel.findmacnode_create inp out L))
      (Convlevel.set_inp_list (Convlevel._inp_list (Convlevel.findmacnode_create inp out L)) L).
Proof.
  unfold Convlevel.findmacnode_create.
  destruct (Convlevel.find_inp inp (Convlevel._inp_list L));
    destruct (Convlevel.find_out out (Convlevel._out_list L));
    match goal with
    | |- context [match Convlevel.find_out out ?l with _ => _ end] =>
        destruct (Convlevel.find_out out l)
    end; reflexivity.
Qed.

(** X9.  [findmacnode] with [create] set and the lookup without it: after
    the creating call for the input [inp] and the output [out], the lookup
    finds a node for that input; a level that already has the node is left
    as it is; every node that a lookup found before is found unchanged;
    and a second creating call changes nothing. *)
Theorem findmacnode_round_trip inp out L :
  0 <= inp < 2 ^ 16 -> 0 <= out < 2 ^ 16 ->
  let L' := Convlevel.findmacnode_create inp out L in
  (exists M, Convlevel.findmacnode inp out L' = Some M /\ Macnode._inpn M = inp)
  /\ (forall M, Convlevel.findmacnode inp out L = Some M -> L' = L)
  /\ (forall inp' out' M,
        Convlevel.findmacnode inp' out' L = Some M ->
        Convlevel.findmacnode inp' out' L' = Some M)
  /\ Convlevel.findmacnode_create inp out L' = L'.
Proof.
  intros Hi Ho L'.
  destruct (findmacnode_create_lists inp out L Hi Ho) as (Hinp & Hout).
  fold L' in Hinp, Hout.
  set (outs := match Convlevel.find_out out (Convlevel._out_list L) with
               | Some _ => Convlevel._out_list L
               | None => Outnode.new out (Convlevel._parsize L) :: Convlevel._out_list L
               end) in *.
  assert (Hfi : exists X, Convlevel.find_inp inp (Convlevel._inp_list L') = Some X
                          /\ Inpnode._inp X = inp).
  { rewrite Hinp. destruct (Convlevel.find_inp inp (Convlevel._inp_list L)) as [X|] eqn:HX.
    - exists X. split; [exact HX|]. eapply find_inp_some. exact HX.
    - eexists. unfold Convlevel.find_inp. cbn [List.find Inpnode.alloc_ffta Inpnode._inp Inpnode.new].
      rewrite Z.mod_small by lia. rewrite Z.eqb_refl. split; [reflexivity|].
      cbn. apply Z.mod_small. lia. }
  assert (Hfo : exists Y, Convlevel.find_out out outs = Some Y).
  { subst outs. destruct (Convlevel.find_out out (Convlevel._out_list L)) as [Y|] eqn:HY.
    - eauto.
    - unfold Convlevel.find_out. cbn [List.find Outnode.new Outnode._out].
      rewrite Z.mod_small by lia. rewrite Z.eqb_refl. eauto. }
  assert (Hfo' : forall Y, Convlevel.find_out out outs = Some Y ->
                 Convlevel.find_out out (Convlevel._out_list L') = Some (add_mac inp Y)).
  { intros Y HY. rewrite Hout. unfold Convlevel.find_out in *.
    rewrite find_alter_first_same by (intros x; rewrite add_mac_out; reflexivity).
    rewrite HY. reflexivity. }
  assert (Hround : exists M, Convlevel.findmacnode inp out L' = Some M /\ Macnode._inpn M = inp).
  { destruct Hfi as (X & HX & HXi). destruct Hfo as (Y & HY).
    unfold Convlevel.findmacnode. rewrite HX, (Hfo' Y HY). cbn [mbind option_bind].
    rewrite HXi. apply add_mac_finds. }
  assert (Hidem : forall L0 M, Convlevel.findmacnode inp out L0 = Some M ->
                  Convlevel.findmacnode_create inp out L0 = L0).
  { intros L0 M HM.
    destruct (findmacnode_create_lists inp out L0 Hi Ho) as (Hinp0 & Hout0).
    unfold Convlevel.findmacnode in HM.
    destruct (Convlevel.find_inp inp (Convlevel._inp_list L0)) as [X|] eqn:HX;
      [|discriminate]. cbn [mbind option_bind] in HM.
    destruct (Convlevel.find_out out (Convlevel._out_list L0)) as [Y|] eqn:HY;
      [|discriminate]. cbn [mbind option_bind] in HM.
    rewrite (find_inp_some _ _ _ HX) in HM.
    rewrite (alter_first_id _ _ _ Y HY) in Hout0
      by (unfold add_mac; rewrite HM; reflexivity).
    rewrite (findmacnode_create_shape inp out L0), Hinp0, Hout0.
    apply level_eta. }
  split; [exact Hround|]. split; [exact (Hidem L)|]. split.
  - intros inp' out' M HM.
    destruct (decide (inp' = inp /\ out' = out)) as [[-> ->]|Hne].
    { subst L'. rewrite (Hidem L M HM). exact HM. }
    unfold Convlevel.findmacnode in HM |- *.
    destruct (Convlevel.find_inp inp' (Convlevel._inp_list L)) as [X|] eqn:HX;
      [|discriminate]. cbn [mbind option_bind] in HM.
    destruct (Convlevel.find_out out' (Convlevel._out_list L)) as [Y|] eqn:HY;
      [|discriminate]. cbn [mbind option_bind] in HM.
    pose proof (find_inp_some _ _ _ HX) as HXi.
    pose proof (find_out_some _ _ _ HY) as HYo.
    assert (HX' : Convlevel.find_inp inp' (Convlevel._inp_list L') = Some X).
    { rewrite Hinp. destruct (Convlevel.find_inp inp (Convlevel._inp_list L)) as [X0|] eqn:HX0;
        [exact HX|].
      unfold Convlevel.find_inp in *. cbn [List.find Inpnode.alloc_ffta Inpnode._inp Inpnode.new].
      rewrite Z.mod_small by lia.
      destruct (Z.eqb_spec inp inp') as [E|E]; [|exact HX].
      rewrite E in HX0. congruence. }
    rewrite HX'. cbn [mbind option_bind].
    destruct (Z.eq_dec out' out) as [->|Hno].
    + assert (HYs : Convlevel.find_out out outs = Some Y).
      { subst outs. rewrite HY. exact HY. }
      rewrite (Hfo' Y HYs). cbn [mbind option_bind].
      rewrite add_mac_other; [exact HM|]. rewrite HXi. intros ->. apply Hne. split; reflexivity.
    + assert (HY' : Convlevel.find_out out' (Convlevel._out_list L') = Some Y).
      { rewrite Hout. unfold Convlevel.find_out in *.
        rewrite find_alter_first_other.
        - subst outs. destruct (List.find _ (Convlevel._out_list L)) eqn:E0 in |- *; [exact HY|].
          cbn [List.find Outnode.new Outnode._out]. rewrite Z.mod_small by lia.
          destruct (Z.eqb_spec out out'); [lia|exact HY].
        - intros x. rewrite add_mac_out. reflexivity.
        - intros x Hx. apply Z.eqb_eq in Hx. apply Z.eqb_neq. lia. }
      rewrite HY'. cbn [mbind option_bind]. exact HM.
  - destruct Hround as (M & HM & _). exact (Hidem L' M HM).
Qed.

Lemma findmacnode_round_trip_witness :
  (exists M, Convlevel.findmacnode 1 0 (Convlevel.findmacnode_create 1 0 mac_example) = Some M
             /\ Macnode._inpn M = 1)
  /\ Convlevel.findmacnode_create 1 0 (Convlevel.findmacnode_create 1 0 mac_example)
     = Convlevel.findmacnode_create 1 0 mac_example.
Proof.
  destruct (findmacnode_round_trip 1 0 mac_example) as (H1 & _ & _ & H4); [lia|lia|].
  split; [exact H1|exact H4].
Defined.

(** ** The worker thread and the audio thread *)

Lemma load_ir_worker_audio_side {A : AudioLibs} {E : Convolver.Engine} respond ir_path self :
  audio_side (load_ir_worker respond ir_path self).2 = audio_side self.
Proof.
  unfold load_ir_worker. destruct (clv_offline self); [reflexivity|].
  destruct (Convolver.new _ _ _ _ _ _) as [C|w].
  - destruct (Convolver.ready _); cbn [negb]; [destruct respond|]; reflexivity.
  - reflexivity.
Qed.

(** X10.  [work], the function that the host runs in the worker thread,
    leaves alone what the audio thread owns: the audio and control ports,
    the gains, the engine in use, the dirty flag and the schedule queue are
    the same after it, whatever the request and whether or not the load
    succeeds. *)
Theorem work_keeps_audio_side {A : AudioLibs} {E : Convolver.Engine} data self :
  audio_side (work data self).2 = audio_side self.
Proof.
  unfold work. destruct data as [cmd|body].
  - destruct (cmd =? CMD_APPLY); [reflexivity|].
    destruct (cmd =? CMD_FREE); [|reflexivity].
    destruct (negb _); [|reflexivity].
    match goal with |- context [load_ir_worker true ?p ?s] =>
      pose proof (load_ir_worker_audio_side true p s) as Hl;
      destruct (load_ir_worker true p s) as [[st ok] s'] end.
    cbn [snd] in *. rewrite Hl. reflexivity.
  - match goal with |- context [load_ir_worker true ?p ?s] =>
      pose proof (load_ir_worker_audio_side true p s) as Hl;
      destruct (load_ir_worker true p s) as [[st ok] s'] end.
    cbn [snd] in *. rewrite Hl. reflexivity.
Qed.

(** X11.  A complete hot swap, with no construction pending and nothing
    queued: [work] builds the engine for the path, parks it off line and
    responds once; [work_response] puts it on line with the gains of the
    instance, parks the engine that was in use off line, marks the state
    dirty and schedules [CMD_FREE]; [work] for [CMD_FREE] then drops the
    old engine and starts no further construction. *)
Theorem hot_swap_cycle {A : AudioLibs} {M : Libm} {E : Convolver.Engine} self h C :
  clv_offline self = None -> next_queued_file self = "" ->
  Convolver.new h (rate self) (rt_policy self) (rt_priority self) (chn_cfg self)
                Convolver.IRSettings_default = Ok C ->
  Convolver.ready (Convolver.reconfigure (block_size self) C) = true ->
  let s1 := host_run [HostWork (PathAtom h)] self in
  let s2 := host_run [HostResponse] s1 in
  let s3 := host_run [HostWork (Command CMD_FREE)] s2 in
  let built := Convolver.reconfigure (block_size self) C in
  clv_offline s1 = Some built /\ clv_online s1 = clv_online self
  /\ responded s1 = responded self + 1
  /\ clv_online s2
     = Some (Convolver.set_output_gain (db_to_coeff (db_dry self)) (db_to_coeff (db_wet self))
               false built)
  /\ clv_offline s2 = clv_online self
  /\ pset_dirty s2 = true
  /\ scheduled s2 = scheduled self ++ [Command CMD_FREE]
  /\ clv_online s3 = clv_online s2 /\ clv_offline s3 = None
  /\ next_queued_file s3 = "" /\ builds s3 = builds self ++ [h].
Proof.
  intros Ho Hq Hnew Hready s1 s2 s3 built.
  assert (H1 : s1 = set_responded (responded self + 1)
                      (set_clv_offline (Some built)
                         (lv2_log (LogOpening h) (lv2_log (LogRequestLoad h) self)))).
  { subst s1. unfold host_run. cbn [fold_left host_step]. unfold work, load_ir_worker.
    cbn [clv_offline lv2_log set_logged rate rt_policy rt_priority chn_cfg block_size].
    rewrite Ho, Hnew. rewrite Hready. reflexivity. }
  assert (H2 : s2 = schedule_work (Command CMD_FREE)
                      (set_pset_dirty true
                         (inform_ui (pset_dirty self)
                            (set_clv_online
                               (Some (Convolver.set_output_gain (db_to_coeff (db_dry self))
                                        (db_to_coeff (db_wet self)) false built))
                               (set_clv_offline (clv_online self)
                                  (set_clv_online (Some built) s1)))))).
  { subst s2. unfold host_run. cbn [fold_left host_step]. unfold work_response.
    rewrite H1 at 1. cbn [clv_offline set_responded set_clv_offline].
    rewrite H1. reflexivity. }
  match type of H2 with _ = schedule_work _ (set_pset_dirty _ (inform_ui ?d ?s)) =>
    destruct (inform_ui_keeps d s) as (K1 & K2 & K3 & K4 & K5 & K6 & _);
    set (s2' := inform_ui d s) in * end.
  cbv zeta in K1, K2, K3, K4, K5, K6.
  assert (Hon2 : clv_online s2 = Some (Convolver.set_output_gain (db_to_coeff (db_dry self))
                                         (db_to_coeff (db_wet self)) false built)).
  { rewrite H2. cbn. rewrite K1. reflexivity. }
  assert (Hoff2 : clv_offline s2 = clv_online self).
  { rewrite H2. cbn. rewrite K2. rewrite H1. reflexivity. }
  assert (Hq2 : next_queued_file s2 = "").
  { rewrite H2. cbn. rewrite K3. rewrite H1. cbn. exact Hq. }
  assert (Hsc2 : scheduled s2 = scheduled self ++ [Command CMD_FREE]).
  { rewrite H2. cbn. rewrite K4. rewrite H1. reflexivity. }
  assert (Hb2 : builds s2 = builds self ++ [h]).
  { rewrite H2. unfold builds. cbn. rewrite K6. rewrite H1. cbn.
    rewrite !omap_app. cbn. rewrite app_nil_r. reflexivity. }
  assert (H3 : s3 = set_next_queued_file "" (set_clv_offline None s2)).
  { subst s3. unfold host_run. cbn [fold_left host_step]. unfold work.
    cbn [Z.eqb CMD_APPLY CMD_FREE Pos.eqb next_queued_file set_clv_offline].
    rewrite Hq2. reflexivity. }
  split; [rewrite H1; reflexivity|]. split; [rewrite H1; reflexivity|].
  split; [rewrite H1; reflexivity|]. split; [exact Hon2|]. split; [exact Hoff2|].
  split; [rewrite H2; reflexivity|]. split; [exact Hsc2|].
  rewrite H3. repeat split; try reflexivity. exact Hb2.
Qed.

Lemma hot_swap_cycle_witness :
  let s1 := host_run (H := libs_example) (H0 := libm_example) (H1 := engine_example)
              [HostWork (PathAtom "mem:1")] plugin_example in
  let s2 := host_run (H := libs_example) (H0 := libm_example) (H1 := engine_example)
              [HostResponse] s1 in
  let s3 := host_run (H := libs_example) (H0 := libm_example) (H1 := engine_example)
              [HostWork (Command CMD_FREE)] s2 in
  clv_offline s1 = Some (Convolver.reconfigure (Engine := engine_example) 1024 mem_engine)
  /\ clv_offline s2 = clv_online plugin_example
  /\ pset_dirty s2 = true
  /\ clv_online s3 = clv_online s2
  /\ clv_offline s3 = None.
Proof.
  destruct (hot_swap_cycle (A := libs_example) (M := libm_example) (E := engine_example)
              plugin_example "mem:1" mem_engine)
    as (H1 & _ & _ & _ & H5 & H6 & _ & H8 & H9 & _).
  - reflexivity.
  - reflexivity.
  - vm_compute; reflexivity.
  - reflexivity.
  - cbv zeta in H1, H5, H6, H8, H9.
    split; [exact H1|]. split; [exact H5|]. split; [exact H6|]. split; [exact H8|exact H9].
Defined.

(** ** The control port *)

Lemma inform_ui_frame mark_dirty self :
  event_frame (inform_ui mark_dirty self) = event_frame self
  /\ scheduled (inform_ui mark_dirty self) = scheduled self
  /\ (is_Some (notify self) -> is_Some (notify (inform_ui mark_dirty self))).
Proof.
  unfold inform_ui.
  destruct (control self) eqn:Hc; [|repeat split; auto].
  destruct (notify self) eqn:Hn; [|repeat split; auto; intros [? ?]; discriminate].
  destruct (clv_online self) as [C|] eqn:HC; [|repeat split; auto; rewrite Hn; auto].
  destruct (bool_decide _); [repeat split; auto; rewrite Hn; auto|].
  destruct (negb _); [repeat split; auto; rewrite Hn; auto|].
  unfold event_frame. cbn. rewrite HC, Hc. repeat split; try reflexivity. eauto.
Qed.

Lemma handle_event_frame self ev :
  event_frame (handle_event self ev) = event_frame self
  /\ scheduled (handle_event self ev)
     = scheduled self ++ match load_request ev with Some d => [d] | None => [] end
  /\ (is_Some (notify self) -> is_Some (notify (handle_event self ev))).
Proof.
  destruct ev as [| |[p|]]; cbn [handle_event load_request];
    try (rewrite app_nil_r; repeat split; auto; fail).
  - destruct (inform_ui_frame false self) as (F1 & F2 & F3).
    rewrite app_nil_r. repeat split; assumption.
  - destruct (_ || _); [rewrite app_nil_r; repeat split; auto|].
    repeat split; auto.
Qed.

Lemma handle_events_frame evs self :
  event_frame (fold_left handle_event evs self) = event_frame self
  /\ scheduled (fold_left handle_event evs self) = scheduled self ++ omap load_request evs
  /\ (is_Some (notify self) -> is_Some (notify (fold_left handle_event evs self))).
Proof.
  revert self. induction evs as [|ev evs IH]; intros self; cbn [fold_left omap].
  - rewrite app_nil_r. repeat split; auto.
  - destruct (IH (handle_event self ev)) as (I1 & I2 & I3).
    destruct (handle_event_frame self ev) as (E1 & E2 & E3).
    rewrite I1, I2, E1, E2. split; [reflexivity|]. split; [|auto].
    rewrite <- app_assoc. f_equal. cbn [omap list_omap].
    destruct (load_request ev); reflexivity.
Qed.

Lemma run_scheduled `{Convolver.Engine} n_samples self :
  scheduled (run n_samples self) = scheduled self.
Proof.
  unfold run. destruct (clv_online self) as [C|]; [|reflexivity].
  cbn [buffered set_p_latency chn_in chn_out input output].
  destruct (chn_in self =? 2).
  - destruct (Convolver.get_sum_inputs C);
      destruct (if buffered self then _ else _) as [C' [o0 o1]]; reflexivity.
  - destruct (chn_out self =? 2).
    + destruct (if buffered self then _ else _) as [C' [o0 o1]]; reflexivity.
    + destruct (if buffered self then _ else _) as [C' o0]; reflexivity.
Qed.

(** X12.  What [run_cfg] hands to the worker: without a control or a
    notify port it returns at once and changes nothing; otherwise it
    appends to the schedule queue one request for every [patch:Set] event
    of the control port that carries a path of 1 to 1024 bytes, in the
    order of the events, and nothing else. *)
Theorem run_cfg_schedules `{Libm} `{Convolver.Engine} n_samples self :
  ((control self = None \/ notify self = None) -> run_cfg n_samples self = self)
  /\ (forall evs nf, control self = Some evs -> notify self = Some nf ->
        scheduled (run_cfg n_samples self) = scheduled self ++ omap load_request evs).
Proof.
  split.
  - unfold run_cfg. intros [Hc|Hn].
    + rewrite Hc. reflexivity.
    + rewrite Hn. destruct (control self); reflexivity.
  - intros evs nf Hc Hn. unfold run_cfg. rewrite Hc, Hn.
    destruct (handle_events_frame evs (set_notify (Some []) self)) as (F1 & F2 & _).
    set (s1 := fold_left handle_event evs (set_notify (Some []) self)) in *.
    change (scheduled (set_notify (Some []) self)) with (scheduled self) in F2.
    rewrite <- F2. clear F1 F2.
    set (s2 := set_buffered _ s1). cbv zeta.
    change (scheduled s1) with (scheduled s2).
    match goal with
    | |- context [match clv_online ?s3 with Some _ => _ | None => _ end] =>
        assert (H3 : scheduled s3 = scheduled s2);
          [|set (s3' := s3) in *; clearbody s3'; rewrite <- H3]
    end.
    { destruct (_ || _); [|reflexivity].
      cbn [clv_online set_dry_target set_db_wet set_db_dry].
      destruct (clv_online s2); reflexivity. }
    destruct (clv_online s3') as [C|] eqn:HC.
    + pose proof (run_scheduled n_samples s3') as Hr.
      destruct (clv_online (run n_samples s3')); cbn; exact Hr.
    + cbn [set_p_latency input output chn_in chn_out dry_coeff dry_target tc64].
      destruct (f32_eqb (dry_coeff s3') (dry_target s3')).
      * destruct (f32_eqb (dry_coeff s3') f32_one); [reflexivity|].
        destruct (f32_eqb (dry_coeff s3') f32_zero); reflexivity.
      * destruct (interpolate_dry _ _ _ _ _) as [outs cur].
        destruct (f32_ltb (SFabs _) _); reflexivity.
Qed.

Lemma run_cfg_schedules_witness :
  scheduled (run_cfg (H := libm_example) (H0 := engine_example) 64 events_example)
  = [PathAtom "ir.wav"].
Proof.
  destruct (run_cfg_schedules (H := libm_example) (H0 := engine_example) 64 events_example)
    as (_ & H2).
  exact (H2 _ _ eq_refl eq_refl).
Defined.

(** ** Without an engine *)

Lemma blit_length {A} (dst src : list A) off : length (blit dst off src) = length dst.
Proof.
  unfold blit. rewrite length_take, !length_app, length_take, length_drop. lia.
Qed.

(** [memcpy] to the head of an array. *)
Lemma blit_head_rd {A} (d : A) (dst src : list A) i :
  rd d (blit dst 0 src) i
  = if (0 <=? i) && (i <? Z.of_nat (length src)) && (i <? Z.of_nat (length dst))
    then rd d src i else rd d dst i.
Proof.
  unfold blit. change (Z.to_nat 0) with O. rewrite take_0, Nat.add_0_l. cbn [app].
  unfold rd. destruct (Z.ltb_spec i 0) as [Hi|Hi].
  - destruct (Z.leb_spec 0 i); [lia|]. reflexivity.
  - destruct (Z.leb_spec 0 i); [|lia]. cbn [andb].
    destruct (Z.ltb_spec i (Z.of_nat (length dst))) as [Hd|Hd].
    + rewrite lookup_take_lt by lia.
      destruct (Z.ltb_spec i (Z.of_nat (length src))) as [Hs|Hs]; cbn [andb].
      * rewrite lookup_app_l by lia. reflexivity.
      * rewrite lookup_app_r by lia. rewrite lookup_drop. do 2 f_equal. lia.
    + rewrite andb_false_r. rewrite lookup_take_ge by lia.
      rewrite lookup_ge_None_2 by lia. reflexivity.
Qed.

Lemma slice_head_rd {A} (d : A) (a : list A) n i :
  0 <= i < n -> rd d (slice a 0 n) i = rd d a i.
Proof.
  intros Hi. unfold slice, rd. change (Z.to_nat 0) with O. rewrite drop_0.
  destruct (i <? 0); [reflexivity|]. rewrite lookup_take_lt by lia. reflexivity.
Qed.

Lemma slice_head_length {A} (a : list A) n :
  0 <= n <= Z.of_nat (length a) -> Z.of_nat (length (slice a 0 n)) = n.
Proof.
  intros Hn. unfold slice. change (Z.to_nat 0) with O. rewrite drop_0, length_take. lia.
Qed.

(** [copy_no_inplace_buffers] on buffers that hold [n_samples] samples. *)
Lemma copy_rd out inp n i :
  0 <= n <= Z.of_nat (length inp) -> n <= Z.of_nat (length out) ->
  rd f32_zero (copy_no_inplace_buffers out inp n) i
  = if (0 <=? i) && (i <? n) then rd f32_zero inp i else rd f32_zero out i.
Proof.
  intros Hi Ho. unfold copy_no_inplace_buffers. rewrite blit_head_rd.
  rewrite slice_head_length by exact Hi.
  destruct (Z.leb_spec 0 i), (Z.ltb_spec i n), (Z.ltb_spec i (Z.of_nat (length out)));
    cbn [andb]; try lia; try reflexivity.
  apply slice_head_rd. lia.
Qed.

(** The case [out == in]: copying an array onto itself changes nothing. *)
Lemma copy_in_place b n : copy_no_inplace_buffers b b n = b.
Proof.
  unfold copy_no_inplace_buffers, blit, slice. change (Z.to_nat 0) with O.
  rewrite take_0, drop_0, Nat.add_0_l. cbn [app].
  rewrite length_take.
  destruct (Nat.le_gt_cases (Z.to_nat n) (length b)) as [Hle|Hgt].
  - rewrite Nat.min_l by lia. rewrite take_drop. apply take_ge. lia.
  - rewrite Nat.min_r by lia. rewrite (take_ge b (Z.to_nat n)) by lia.
    rewrite (drop_ge b (length b)) by lia. rewrite app_nil_r. apply take_ge. lia.
Qed.

Lemma calloc_real_rd k i : rd f32_zero (calloc_real k) i = f32_zero.
Proof.
  unfold rd, calloc_real. destruct (i <? 0); [reflexivity|].
  destruct (replicate (Z.to_nat k) f32_zero !! Z.to_nat i) as [x|] eqn:Hx; [|reflexivity].
  apply lookup_replicate in Hx as [-> _]. reflexivity.
Qed.

(** [memset] of the heads of the first [cnt] buffers. *)
Lemma zero_heads_rd cnt n bufs c i :
  0 <= cnt <= Z.of_nat (length bufs) -> 0 <= n ->
  length (Convproc.zero_heads cnt n bufs) = length bufs
  /\ length (rd [] (Convproc.zero_heads cnt n bufs) c) = length (rd [] bufs c)
  /\ rd f32_zero (rd [] (Convproc.zero_heads cnt n bufs) c) i
     = if (0 <=? c) && (c <? cnt) && (0 <=? i) && (i <? n) then f32_zero
       else rd f32_zero (rd [] bufs c) i.
Proof.
  intros Hc Hn.
  assert (Hm : exists m, cnt = Z.of_nat m) by (exists (Z.to_nat cnt); lia).
  destruct Hm as [m ->].
  unfold Convproc.zero_heads, Convlevel.clear_rows.
  set (bufs' := for_upto _ _ bufs).
  assert (Hloop : length bufs' = length bufs
                  /\ forall k, 0 <= k < Z.of_nat (length bufs) ->
                       rd [] bufs' k = if (0 <=? k) && (k <? 0 + Z.of_nat m)
                                       then blit (rd [] bufs k) 0 (calloc_real n)
                                       else rd [] bufs k)
    by exact (for_upto_wr_rd [] (fun b => blit b 0 (calloc_real n)) bufs 0 m).
  clearbody bufs'. destruct Hloop as (Hl & Hrd).
  split; [exact Hl|].
  destruct (Z.lt_ge_cases c 0) as [Hneg|Hnn].
  { assert (Hr : forall l : list (list float32), rd [] l c = []).
    { intros l. unfold rd. destruct (Z.ltb_spec c 0); [reflexivity|lia]. }
    rewrite !Hr. destruct (Z.leb_spec 0 c); [lia|]. split; reflexivity. }
  destruct (Z.lt_ge_cases c (Z.of_nat (length bufs))) as [Hin|Hout].
  2:{ rewrite !(rd_out_of_range [] _ c) by lia.
      split; [reflexivity|]. destruct (Z.leb_spec 0 c), (Z.ltb_spec c (Z.of_nat m)); try lia; reflexivity. }
  rewrite Hrd by lia.
  destruct (Z.leb_spec 0 c), (Z.ltb_spec c (0 + Z.of_nat m)), (Z.ltb_spec c (Z.of_nat m));
    try lia; cbn [andb]; [|split; reflexivity].
  split; [apply blit_length|].
  rewrite blit_head_rd.
  assert (Hlen : Z.of_nat (length (calloc_real n)) = n)
    by (unfold calloc_real; rewrite length_replicate; lia).
  rewrite Hlen.
  destruct (Z.leb_spec 0 i), (Z.ltb_spec i n), (Z.ltb_spec i (Z.of_nat (length (rd [] bufs c))));
    cbn [andb]; try reflexivity; try apply calloc_real_rd.
  apply rd_out_of_range. lia.
Qed.

(** X13.  [run] without an engine: the latency port reads 0 and the
    first [n_samples] samples of each of the [chn_out] output buffers are
    zero; the other samples of the output buffers, the other output
    buffers and the lengths are as before, and no engine appears.  Nothing
    is said about the input buffers: a host may connect an input port to
    the array of an output port, and then the [memset] clears it too. *)
Theorem run_without_engine `{Convolver.Engine} n_samples self :
  clv_online self = None ->
  0 <= chn_out self <= Z.of_nat (length (output self)) -> 0 <= n_samples ->
  let s := run n_samples self in
  p_latency s = f32_of_Z 0 /\ clv_online s = None
  /\ length (output s) = length (output self)
  /\ forall c i,
       length (rd [] (output s) c) = length (rd [] (output self) c)
       /\ rd f32_zero (rd [] (output s) c) i
          = if (0 <=? c) && (c <? chn_out self) && (0 <=? i) && (i <? n_samples)
            then f32_zero else rd f32_zero (rd [] (output self) c) i.
Proof.
  intros Hon Hc Hn. cbv zeta. unfold run. rewrite Hon.
  cbn [p_latency clv_online input output set_output set_p_latency].
  split; [reflexivity|]. split; [exact Hon|].
  split; [apply (zero_heads_rd _ _ _ 0 0 Hc Hn)|].
  intros c i. destruct (zero_heads_rd (chn_out self) n_samples (output self) c i Hc Hn)
    as (_ & H2 & H3).
  split; assumption.
Qed.

Lemma run_without_engine_witness :
  p_latency (run (H := engine_example) 64 plugin_example) = f32_of_Z 0
  /\ rd f32_zero (rd [] (output (run (H := engine_example) 64 plugin_example)) 0) 7 = f32_zero.
Proof.
  destruct (run_without_engine (H := engine_example) 64 plugin_example)
    as (H1 & _ & _ & H5).
  - reflexivity.
  - by_compute.
  - lia.
  - split; [exact H1|]. cbv zeta in H5. destruct (H5 0 7) as (_ & H6). exact H6.
Defined.

(** ** The dry path of run_cfg *)

(** A loop that rewrites the cells [o .. o + n - 1] of an array, seen
    from any index. *)
Lemma for_upto_wr_rd_all {A} (d : A) (f : A -> A) (l : list A) (o n : Z) :
  0 <= o ->
  let l' := for_upto n (fun i l => wr l (o + i) (f (rd d l (o + i)))) l in
  length l' = length l
  /\ forall k, rd d l' k = if (o <=? k) && (k <? o + n) && (k <? Z.of_nat (length l))
                           then f (rd d l k) else rd d l k.
Proof.
  intros Ho. cbv zeta.
  destruct (Z.le_gt_cases n 0) as [Hn|Hn].
  { rewrite for_upto_nonpos by lia. split; [reflexivity|]. intros k.
    destruct (Z.leb_spec o k), (Z.ltb_spec k (o + n)); try lia; reflexivity. }
  assert (Hm : exists m, n = Z.of_nat m) by (exists (Z.to_nat n); lia).
  destruct Hm as [m ->].
  destruct (for_upto_wr_rd d f l o m) as (Hl & Hrd). cbv zeta in Hl, Hrd.
  split; [exact Hl|]. intros k.
  destruct (Z.lt_ge_cases k 0) as [Hk|Hk].
  { assert (Hr : forall l0 : list A, rd d l0 k = d).
    { intros l0. unfold rd. destruct (Z.ltb_spec k 0); [reflexivity|lia]. }
    rewrite !Hr. destruct (Z.leb_spec o k); [lia|]. reflexivity. }
  destruct (Z.ltb_spec k (Z.of_nat (length l))) as [Hin|Hout].
  - rewrite andb_true_r. apply Hrd. lia.
  - rewrite andb_false_r. rewrite !rd_out_of_range by lia. reflexivity.
Qed.

(** The loop over the rows of a buffer array. *)
Lemma rows_upto_rd {A} (F : list A -> list A) (bufs : list (list A)) (cnt : Z) :
  let bufs' := for_upto cnt (fun c bufs => wr bufs c (F (rd [] bufs c))) bufs in
  length bufs' = length bufs
  /\ forall c, rd [] bufs' c = if (0 <=? c) && (c <? cnt) && (c <? Z.of_nat (length bufs))
                               then F (rd [] bufs c) else rd [] bufs c.
Proof.
  exact (for_upto_wr_rd_all [] F bufs 0 cnt (Z.le_refl 0)).
Qed.

Lemma scale_block_rd cnt off n gain bufs c i :
  0 <= off ->
  length (scale_block cnt off n gain bufs) = length bufs
  /\ length (rd [] (scale_block cnt off n gain bufs) c) = length (rd [] bufs c)
  /\ rd f32_zero (rd [] (scale_block cnt off n gain bufs) c) i
     = if (0 <=? c) && (c <? cnt) && (off <=? i) && (i <? off + n)
          && (i <? Z.of_nat (length (rd [] bufs c)))
       then f32_mul (rd f32_zero (rd [] bufs c) i) gain
       else rd f32_zero (rd [] bufs c) i.
Proof.
  intros Hoff. unfold scale_block.
  set (F := fun b : list float32 =>
              for_upto n (fun i b => wr b (off + i) (f32_mul (rd f32_zero b (off + i)) gain)) b).
  destruct (rows_upto_rd F bufs cnt) as (Hl & Hrd). cbv zeta in Hl, Hrd.
  change (for_upto cnt _ bufs)
    with (for_upto cnt (fun c bufs => wr bufs c (F (rd [] bufs c))) bufs).
  split; [exact Hl|]. rewrite Hrd.
  destruct (for_upto_wr_rd_all f32_zero (fun x => f32_mul x gain) (rd [] bufs c) off n Hoff)
    as (Hl2 & Hrd2). cbv zeta in Hl2, Hrd2.
  destruct (Z.leb_spec 0 c), (Z.ltb_spec c cnt), (Z.ltb_spec c (Z.of_nat (length bufs)));
    cbn [andb]; try (split; reflexivity).
  - split; [exact Hl2|]. exact (Hrd2 i).
  - rewrite (rd_out_of_range [] bufs c) by lia. cbn [length].
    change (Z.of_nat 0) with 0.
    destruct (Z.leb_spec off i), (Z.ltb_spec i 0); try lia; cbn [andb];
      rewrite ?andb_false_r; split; reflexivity.
Qed.

Lemma dry_ramp_S alpha tgt cur k :
  dry_ramp alpha tgt cur (S k)
  = f32_add (dry_ramp alpha tgt cur k)
      (f32_add (f32_mul alpha (f32_sub tgt (dry_ramp alpha tgt cur k)))
               (binary_normalize 24 128 14411519 (-57) false)).
Proof. reflexivity. Qed.

(** The interpolation after [m] blocks. *)
Lemma interpolate_blocks n alpha tgt bufs cur cnt (m : nat) :
  let body := fun b '(bufs, cur) =>
    let done := 64 * b in
    let ns := Z.min (n - done) 64 in
    let cur := f32_add cur
                 (f32_add (f32_mul alpha (f32_sub tgt cur))
                          (binary_normalize 24 128 14411519 (-57) false)) in
    (scale_block cnt done ns cur bufs, cur) in
  let r := for_upto (Z.of_nat m) body (bufs, cur) in
  r.2 = dry_ramp alpha tgt cur m
  /\ length r.1 = length bufs
  /\ forall c i,
       length (rd [] r.1 c) = length (rd [] bufs c)
       /\ rd f32_zero (rd [] r.1 c) i
          = if (0 <=? c) && (c <? cnt) && (0 <=? i) && (i <? 64 * Z.of_nat m) && (i <? n)
               && (i <? Z.of_nat (length (rd [] bufs c)))
            then f32_mul (rd f32_zero (rd [] bufs c) i)
                         (dry_ramp alpha tgt cur (S (Z.to_nat (i / 64))))
            else rd f32_zero (rd [] bufs c) i.
Proof.
  intros body. induction m as [|m IH]; cbv zeta.
  - rewrite for_upto_nonpos by lia. cbn [fst snd]. split; [reflexivity|].
    split; [reflexivity|]. intros c i. split; [reflexivity|].
    change (64 * Z.of_nat 0) with 0.
    destruct (Z.leb_spec 0 i), (Z.ltb_spec i 0); try lia; rewrite ?andb_false_r;
      cbn [andb]; rewrite ?andb_false_r; reflexivity.
  - rewrite for_upto_S. cbv zeta in IH.
    destruct (for_upto (Z.of_nat m) body (bufs, cur)) as [bm cm].
    cbn [fst snd] in IH. destruct IH as (Hc & Hl & Hrd).
    set (cur' := f32_add cm (f32_add (f32_mul alpha (f32_sub tgt cm))
                               (binary_normalize 24 128 14411519 (-57) false))).
    assert (Hb : body (Z.of_nat m) (bm, cm)
                 = (scale_block cnt (64 * Z.of_nat m) (Z.min (n - 64 * Z.of_nat m) 64) cur' bm,
                    cur')) by reflexivity.
    rewrite Hb. clear Hb. cbn [fst snd].
    rewrite dry_ramp_S, <- Hc. fold cur'.
    split; [reflexivity|].
    assert (H64 : 0 <= 64 * Z.of_nat m) by lia.
    split.
    { destruct (scale_block_rd cnt (64 * Z.of_nat m) (Z.min (n - 64 * Z.of_nat m) 64)
                  cur' bm 0 0 H64) as (H1 & _). rewrite H1. exact Hl. }
    intros c i.
    destruct (scale_block_rd cnt (64 * Z.of_nat m) (Z.min (n - 64 * Z.of_nat m) 64)
                cur' bm c i H64) as (_ & H2 & H3).
    destruct (Hrd c i) as (Hl2 & Hrd2).
    split; [rewrite H2; exact Hl2|].
    rewrite H3, Hl2, Hrd2. clear H2 H3 Hrd2 Hrd.
    assert (Hcur : forall k, k = m -> cur' = dry_ramp alpha tgt cur (S k)).
    { intros k ->. rewrite dry_ramp_S, <- Hc. reflexivity. }
    clearbody cur'.
    destruct (Z.leb_spec 0 c), (Z.ltb_spec c cnt); cbn [andb]; try reflexivity.
    destruct (Z.ltb_spec i (Z.of_nat (length (rd [] bufs c))));
      rewrite ?andb_false_r; try reflexivity.
    rewrite !andb_true_r.
    destruct (Z.leb_spec (64 * Z.of_nat m) i), (Z.ltb_spec i (64 * Z.of_nat m + Z.min (n - 64 * Z.of_nat m) 64)),
             (Z.leb_spec 0 i), (Z.ltb_spec i (64 * Z.of_nat m)),
             (Z.ltb_spec i (64 * Z.of_nat (S m))), (Z.ltb_spec i n);
      cbn [andb]; try lia; try reflexivity.
    f_equal. apply Hcur.
    assert (Z.of_nat m = i / 64) by (apply Z.div_unique with (r := i - 64 * Z.of_nat m); lia).
    lia.
Qed.

Lemma interpolate_dry_rd n alpha tgt bufs cur cnt :
  0 <= n ->
  let r := interpolate_dry n alpha tgt (bufs, cur) cnt in
  r.2 = dry_ramp alpha tgt cur (Z.to_nat ((n + 63) / 64))
  /\ length r.1 = length bufs
  /\ forall c i,
       length (rd [] r.1 c) = length (rd [] bufs c)
       /\ rd f32_zero (rd [] r.1 c) i
          = if (0 <=? c) && (c <? cnt) && (0 <=? i) && (i <? n)
               && (i <? Z.of_nat (length (rd [] bufs c)))
            then f32_mul (rd f32_zero (rd [] bufs c) i)
                         (dry_ramp alpha tgt cur (S (Z.to_nat (i / 64))))
            else rd f32_zero (rd [] bufs c) i.
Proof.
  intros Hn. cbv zeta. unfold interpolate_dry.
  assert (HB : 0 <= (n + 63) / 64) by (apply Z.div_pos; lia).
  assert (HB2 : n <= 64 * ((n + 63) / 64)).
  { pose proof (Z.div_mod (n + 63) 64 ltac:(lia)).
    pose proof (Z.mod_pos_bound (n + 63) 64 ltac:(lia)). lia. }
  destruct (interpolate_blocks n alpha tgt bufs cur cnt (Z.to_nat ((n + 63) / 64)))
    as (H1 & H2 & H3).
  cbv zeta in H1, H2, H3. rewrite Z2Nat.id in H1, H2, H3 by exact HB.
  split; [exact H1|]. split; [exact H2|].
  intros c i. destruct (H3 c i) as (H4 & H5). split; [exact H4|].
  rewrite H5.
  destruct (Z.ltb_spec i (64 * ((n + 63) / 64))), (Z.ltb_spec i n); try lia;
    rewrite ?andb_true_r, ?andb_false_r; cbn [andb]; rewrite ?andb_false_r; reflexivity.
Qed.

Lemma rd_wr {A} (d : A) l i x j :
  rd d (wr l i x) j
  = if (i =? j) && (0 <=? i) && (i <? Z.of_nat (length l)) then x else rd d l j.
Proof.
  destruct (Z.eqb_spec i j) as [<-|Hne]; cbn [andb].
  - destruct (Z.leb_spec 0 i), (Z.ltb_spec i (Z.of_nat (length l))); cbn [andb].
    + apply rd_wr_eq. lia.
    + rewrite wr_out_of_range by lia. reflexivity.
    + unfold wr. destruct (Z.ltb_spec i 0); [reflexivity|lia].
    + unfold wr. destruct (Z.ltb_spec i 0); [reflexivity|lia].
  - apply rd_wr_ne. exact Hne.
Qed.

Lemma copy_length out inp n : length (copy_no_inplace_buffers out inp n) = length out.
Proof. apply blit_length. Qed.

(** X14.  The dry path of [run_cfg], taken when the ports are connected
    and no engine is on line, for one or two channels whose buffers hold
    [n_samples] samples and are distinct arrays: the latency port reads 0,
    the dry target follows the control port, and every output sample
    below [n_samples] is the input sample of its channel (of the only
    input for mono to stereo) with the dry gain applied: left as it is when
    the gain rests at 1, zero when it rests at 0, multiplied by the gain
    when it rests elsewhere, and multiplied by the gain of its block of 64
    samples while the gain moves to its target.  The samples from
    [n_samples] on are not written, and the gain snaps to the target once
    it is within [1e-5] of it. *)
Theorem run_cfg_dry_path `{Libm} `{Convolver.Engine} n_samples self evs nf :
  control self = Some evs -> notify self = Some nf -> clv_online self = None ->
  0 <= n_samples ->
  1 <= chn_in self <= chn_out self -> chn_out self <= 2 ->
  chn_out self <= Z.of_nat (length (output self)) ->
  (forall c, 0 <= c < chn_out self ->
             n_samples <= Z.of_nat (length (rd [] (output self) c))) ->
  (forall c, 0 <= c < chn_in self ->
             n_samples <= Z.of_nat (length (rd [] (input self) c))) ->
  let db_dry' := rd f32_zero (p_ctrl self) 1 in
  let db_wet' := rd f32_zero (p_ctrl self) 2 in
  let tgt := if negb (f32_eqb (db_dry self) db_dry') || negb (f32_eqb (db_wet self) db_wet')
             then db_to_coeff db_dry' else dry_target self in
  let s := run_cfg n_samples self in
  p_latency s = f32_of_Z 0 /\ clv_online s = None /\ input s = input self
  /\ dry_target s = tgt
  /\ (forall c i, 0 <= c < chn_out self -> 0 <= i < n_samples ->
        rd f32_zero (rd [] (output s) c) i
        = dry_gain (tc64 self) tgt (dry_coeff self) i
            (rd f32_zero (rd [] (input self) (if chn_in self =? 2 then c else 0)) i))
  /\ (forall c i, n_samples <= i ->
        rd f32_zero (rd [] (output s) c) i = rd f32_zero (rd [] (output self) c) i)
  /\ dry_coeff s
     = if f32_eqb (dry_coeff self) tgt then dry_coeff self
       else
         let cur := dry_ramp (tc64 self) tgt (dry_coeff self)
                      (Z.to_nat ((n_samples + 63) / 64)) in
         if f32_ltb (SFabs (f32_sub cur tgt)) (binary_normalize 24 128 10995116 (-40) false)
         then tgt else cur.
Proof.
  intros Hc Hn Hon Hns Hch Hch2 Hlo Hout Hinp db_dry' db_wet' tgt s.
  subst s.
  destruct (handle_events_frame evs (set_notify (Some []) self)) as (F1 & _ & _).
  unfold event_frame in F1.
  cbn [set_notify input output p_latency p_ctrl buffered db_dry db_wet dry_coeff dry_target
       control clv_online clv_offline pset_dirty chn_in chn_out tc64 next_queued_file
       responded logged] in F1.
  set (s1 := fold_left handle_event evs (set_notify (Some []) self)) in F1.
  injection F1 as E_in E_out _ E_ctl _ E_dd E_dw E_dc E_dt _ E_on _ _ E_ci E_co E_tc _ _ _.
  unfold run_cfg. rewrite Hc, Hn.
  change (fold_left handle_event evs (set_notify (Some []) self)) with s1.
  clearbody s1. cbv zeta.
  match goal with
  | |- context [match clv_online ?S with Some _ => _ | None => _ end] => set (S3 := S)
  end.
  assert (HS : clv_online S3 = None /\ input S3 = input self /\ output S3 = output self
               /\ dry_coeff S3 = dry_coeff self /\ dry_target S3 = tgt
               /\ chn_in S3 = chn_in self /\ chn_out S3 = chn_out self
               /\ tc64 S3 = tc64 self).
  { subst S3 tgt db_dry' db_wet'.
    cbn [p_ctrl db_dry db_wet set_buffered]. rewrite E_ctl, E_dd, E_dw.
    destruct (negb _ || negb _).
    - cbn [clv_online set_dry_target set_db_wet set_db_dry set_buffered]. rewrite E_on, Hon.
      cbn [clv_online input output dry_coeff dry_target chn_in chn_out tc64
           set_dry_target set_db_wet set_db_dry set_buffered].
      rewrite E_on, E_in, E_out, E_dc, E_ci, E_co, E_tc, Hon. repeat split; reflexivity.
    - cbn [clv_online input output dry_coeff dry_target chn_in chn_out tc64 set_buffered].
      rewrite E_on, E_in, E_out, E_dc, E_dt, E_ci, E_co, E_tc, Hon. repeat split; reflexivity. }
  clearbody S3. destruct HS as (S_on & S_in & S_out & S_dc & S_dt & S_ci & S_co & S_tc).
  rewrite S_on.
  cbn [set_p_latency input output chn_in chn_out dry_coeff dry_target tc64].
  rewrite S_in, S_out, S_dc, S_dt, S_ci, S_co, S_tc.
  clearbody tgt. clear db_dry' db_wet'.
  set (outs0 := wr (output self) 0
                  (copy_no_inplace_buffers (rd [] (output self) 0) (rd [] (input self) 0)
                                           n_samples)).
  set (outs1 := if chn_in self =? 2 then _ else _).
  assert (Hrow : forall c,
            (0 <= c < chn_out self
             /\ rd [] outs1 c
                = copy_no_inplace_buffers (rd [] (output self) c)
                    (rd [] (input self) (if chn_in self =? 2 then c else 0)) n_samples)
            \/ (~ 0 <= c < chn_out self /\ rd [] outs1 c = rd [] (output self) c)).
  { intros c. subst outs1 outs0.
    destruct (Z.eqb_spec (chn_in self) 2) as [E2|E2];
      [|destruct (Z.eqb_spec (chn_out self) 2) as [E3|E3]];
      rewrite !rd_wr, ?wr_length; change (0 =? 1) with false; cbn [andb];
      destruct (Z.eqb_spec 1 c) as [E1|N1]; destruct (Z.eqb_spec 0 c) as [E0|N0];
      cbn [andb]; try lia; try subst c;
      repeat match goal with
             | |- context [?a <=? ?b] => destruct (Z.leb_spec a b); try lia
             | |- context [?a <? ?b] => destruct (Z.ltb_spec a b); try lia
             end; cbn [andb];
      first [left; split; [lia|reflexivity] | right; split; [lia|reflexivity]]. }
  assert (Hl1 : length outs1 = length (output self)).
  { subst outs1 outs0. destruct (chn_in self =? 2); [|destruct (chn_out self =? 2)];
      rewrite ?wr_length; reflexivity. }
  assert (Houts : forall c i,
            length (rd [] outs1 c) = length (rd [] (output self) c)
            /\ (n_samples <= i ->
                rd f32_zero (rd [] outs1 c) i = rd f32_zero (rd [] (output self) c) i)
            /\ (0 <= c < chn_out self -> 0 <= i < n_samples ->
                rd f32_zero (rd [] outs1 c) i
                = rd f32_zero (rd [] (input self) (if chn_in self =? 2 then c else 0)) i)).
  { intros c i. destruct (Hrow c) as [(Hcc & ->)|(Hcc & ->)].
    - assert (Hsrc : 0 <= (if chn_in self =? 2 then c else 0) < chn_in self)
        by (destruct (Z.eqb_spec (chn_in self) 2); lia).
      pose proof (Hout c Hcc) as Ho1. pose proof (Hinp _ Hsrc) as Hi1.
      split; [apply copy_length|].
      rewrite copy_rd by lia.
      split; intros; destruct (Z.leb_spec 0 i), (Z.ltb_spec i n_samples); cbn [andb];
        try lia; reflexivity.
    - split; [reflexivity|]. split; [reflexivity|]. intros; lia. }
  clearbody outs1. clear outs0 Hrow.
  destruct (f32_eqb (dry_coeff self) tgt) eqn:Est.
  - destruct (f32_eqb (dry_coeff self) f32_one) eqn:E1;
      [|destruct (f32_eqb (dry_coeff self) f32_zero) eqn:E0];
      cbn [p_latency clv_online input dry_target output dry_coeff set_output set_p_latency];
      (split; [reflexivity|]); (split; [exact S_on|]); (split; [exact S_in|]);
      (split; [exact S_dt|]); (split; [|split; [|exact S_dc]]).
    + intros c i Hcc Hii. unfold dry_gain. rewrite Est, E1.
      destruct (Houts c i) as (_ & _ & H3). apply H3; assumption.
    + intros c i Hii. destruct (Houts c i) as (_ & H2 & _). apply H2; assumption.
    + intros c i Hcc Hii. unfold dry_gain. rewrite Est, E1, E0.
      destruct (zero_heads_rd (chn_out self) n_samples outs1 c i) as (_ & _ & H3); [lia|lia|].
      rewrite H3.
      destruct (Z.leb_spec 0 c), (Z.ltb_spec c (chn_out self)), (Z.leb_spec 0 i),
               (Z.ltb_spec i n_samples); try lia. reflexivity.
    + intros c i Hii.
      destruct (zero_heads_rd (chn_out self) n_samples outs1 c i) as (_ & _ & H3); [lia|lia|].
      rewrite H3. destruct (Houts c i) as (_ & H2 & _).
      destruct (Z.ltb_spec i n_samples); [lia|]. rewrite !andb_false_r. apply H2; assumption.
    + intros c i Hcc Hii. unfold dry_gain. rewrite Est, E1, E0.
      destruct (scale_block_rd (chn_out self) 0 n_samples (dry_coeff self) outs1 c i)
        as (_ & _ & H3); [lia|].
      rewrite H3. destruct (Houts c i) as (Hlen & _ & H4). rewrite Hlen.
      pose proof (Hout c Hcc).
      destruct (Z.leb_spec 0 c), (Z.ltb_spec c (chn_out self)), (Z.leb_spec 0 i),
               (Z.ltb_spec i (0 + n_samples)),
               (Z.ltb_spec i (Z.of_nat (length (rd [] (output self) c)))); try lia.
      cbn [andb]. rewrite H4 by assumption. reflexivity.
    + intros c i Hii.
      destruct (scale_block_rd (chn_out self) 0 n_samples (dry_coeff self) outs1 c i)
        as (_ & _ & H3); [lia|].
      rewrite H3. destruct (Houts c i) as (_ & H2 & _).
      destruct (Z.ltb_spec i (0 + n_samples)); [lia|]. rewrite !andb_false_r.
      cbn [andb]. rewrite ?andb_false_r. apply H2; assumption.
  - destruct (interpolate_dry_rd n_samples (tc64 self) tgt outs1 (dry_coeff self)
                (chn_out self) Hns) as (I1 & I2 & I3).
    cbv zeta in I1, I2, I3.
    destruct (interpolate_dry n_samples (tc64 self) tgt (outs1, dry_coeff self) (chn_out self))
      as [outs cur].
    cbn [fst snd] in I1, I2, I3.
    cbn [dry_target set_output set_p_latency]. rewrite S_dt. rewrite <- I1.
    cbv zeta.
    destruct (f32_ltb (SFabs (f32_sub cur tgt)) _);
      cbn [p_latency clv_online input dry_target output dry_coeff set_output set_p_latency
           set_dry_coeff];
      (split; [reflexivity|]); (split; [exact S_on|]); (split; [exact S_in|]);
      (split; [exact S_dt|]); (split; [|split; [|reflexivity]]).
    all: try (intros c i Hcc Hii; unfold dry_gain; rewrite Est;
              destruct (I3 c i) as (_ & H3); rewrite H3;
              destruct (Houts c i) as (Hlen & _ & H4); rewrite Hlen;
              pose proof (Hout c Hcc);
              destruct (Z.leb_spec 0 c), (Z.ltb_spec c (chn_out self)), (Z.leb_spec 0 i),
                       (Z.ltb_spec i n_samples),
                       (Z.ltb_spec i (Z.of_nat (length (rd [] (output self) c)))); try lia;
              cbn [andb]; rewrite H4 by assumption; reflexivity).
    all: intros c i Hii; destruct (I3 c i) as (_ & H3); rewrite H3;
         destruct (Houts c i) as (_ & H2 & _);
         destruct (Z.ltb_spec i n_samples); [lia|]; rewrite !andb_false_r;
         cbn [andb]; rewrite ?andb_false_r; apply H2; assumption.
Qed.

Lemma run_cfg_dry_path_witness :
  let s := run_cfg (H := libm_example) (H0 := engine_example) 64 plugin_example in
  p_latency s = f32_of_Z 0 /\ clv_online s = None /\ input s = input plugin_example
  /\ rd f32_zero (rd [] (output s) 0) 5
     = dry_gain (tc64 plugin_example) (dry_target plugin_example) (dry_coeff plugin_example) 5
         (rd f32_zero (rd [] (input plugin_example) 0) 5).
Proof.
  destruct (run_cfg_dry_path (H := libm_example) (H0 := engine_example) 64 plugin_example [] [])
    as (H1 & H2 & H3 & _ & H5 & _).
  - reflexivity.
  - reflexivity.
  - reflexivity.
  - lia.
  - by_compute.
  - by_compute.
  - by_compute.
  - intros c Hc. assert (c = 0) as -> by (change (chn_out plugin_example) with 1 in Hc; lia).
    by_compute.
  - intros c Hc. assert (c = 0) as -> by (change (chn_in plugin_example) with 1 in Hc; lia).
    by_compute.
  - cbv zeta in H1, H2, H3, H5. cbv zeta.
    split; [exact H1|]. split; [exact H2|]. split; [exact H3|].
    exact (H5 0 5 ltac:(by_compute) ltac:(lia)).
Defined.

(** ** The readers of an impulse response *)

Lemma MemSource_buf_tail k : 4 <= k -> rd f32_zero MemSource_buf k = f32_zero.
Proof.
  intros Hk. unfold rd. destruct (Z.ltb_spec k 0); [reflexivity|].
  unfold MemSource_buf. rewrite lookup_app_r by (cbn [length]; lia).
  destruct (replicate 60 f32_zero !! _) as [x|] eqn:Hx; [|reflexivity].
  apply lookup_replicate in Hx as [-> _]. reflexivity.
Qed.

Lemma rd_map_seqZ {A} (d : A) (f : Z -> A) n i :
  0 <= i < n -> rd d (map f (seqZ 0 n)) i = f i.
Proof.
  intros Hi. unfold rd. destruct (Z.ltb_spec i 0); [lia|].
  rewrite list_lookup_fmap, lookup_seqZ_lt by lia. cbn. f_equal. lia.
Qed.

(** The length that a resampling reader reports, in two cases: sixteen
    frames from 44100 Hz to 48000 Hz, and [2^24] frames from 48000 Hz to
    44100 Hz. *)
Lemma src_readable_length_examples :
  src_readable_length 16 44100 48000 = 17
  /\ src_readable_length (2 ^ 24) 48000 44100 = 15414067.
Proof. split; vm_compute; reflexivity. Qed.

(** The reader that [SrcSource] builds reports the length of its source
    scaled by the ratio of the rates, rounded up, less one. *)
Lemma SrcSource_length `{AudioLibs} r target_rate sfs :
  SrcSource r target_rate = Ok sfs ->
  readable_length sfs = src_readable_length (readable_length r) (sample_rate r) target_rate
  /\ sample_rate sfs = target_rate /\ n_channels sfs = 1.
Proof.
  unfold SrcSource. destruct (Z.eqb_spec (n_channels r) 1) as [Hn|Hn]; cbn [negb];
    [|discriminate].
  destruct src_new_ok; cbn [negb]; [|discriminate].
  intros [= <-]. cbn. split; [reflexivity|]. split; [reflexivity|exact Hn].
Qed.

(** X15.  A channel of the built-in impulse response, read through
    [ChanWrap]: the wrapper accepts the channels 0 to 4 of the four that
    [MemSource] has; a read returns no sample for the channel 4 or from
    the frame 16 on, and otherwise [cnt] samples cut at the frame 16; the
    first sample is the cell [pos + chn] of the buffer, so from [pos = 0]
    the coefficient of the channel, and every later sample is zero.  The
    channel argument of the wrapper's [read] plays no part. *)
Theorem mem_channel_read chn W pos cnt channel :
  ChanWrap MemSource chn = Ok W -> 0 <= chn -> 0 <= pos -> 0 <= cnt ->
  pos + cnt < 2 ^ 64 ->
  let out := read W pos cnt channel in
  chn <= 4
  /\ Z.of_nat (length out)
     = (if (4 <=? chn) || (16 <=? pos) then 0 else Z.min cnt (16 - pos))
  /\ forall i, 0 <= i < Z.of_nat (length out) ->
       rd f32_zero out i
       = if (i =? 0) && (pos + chn <? 4) then rd f32_zero MemSource_buf (pos + chn)
         else f32_zero.
Proof.
  intros HW Hchn Hpos Hcnt _. unfold ChanWrap in HW.
  change (n_channels MemSource) with 4 in HW.
  destruct (Z.ltb_spec 4 chn) as [?|Hle]; [discriminate|].
  injection HW as <-. cbn [read MemSource].
  split; [exact Hle|].
  destruct (Z.leb_spec 4 chn) as [H4|H4]; cbn [orb].
  { split; [reflexivity|]. cbn [length]. intros i Hi. lia. }
  destruct (Z.leb_spec 16 pos) as [H16|H16].
  { split; [reflexivity|]. cbn [length]. intros i Hi. lia. }
  set (n := if 16 <? pos + cnt then 16 - pos else cnt).
  assert (Hn : n = Z.min cnt (16 - pos)).
  { subst n. destruct (Z.ltb_spec 16 (pos + cnt)); lia. }
  rewrite length_map, length_seqZ. split; [lia|].
  intros i Hi. rewrite rd_map_seqZ by lia.
  destruct (Z.eqb_spec i 0) as [->|Hi0]; cbn [andb].
  - rewrite Z.mul_0_r, Z.add_0_r.
    destruct (Z.ltb_spec (pos + chn) 4); [reflexivity|]. apply MemSource_buf_tail. lia.
  - apply MemSource_buf_tail. lia.
Qed.

Lemma mem_channel_read_witness :
  exists W, ChanWrap MemSource 1 = Ok W
            /\ Z.of_nat (length (read W 0 16 0)) = 16
            /\ rd f32_zero (read W 0 16 0) 0 = rd f32_zero MemSource_buf 1.
Proof.
  eexists. split; [reflexivity|].
  destruct (mem_channel_read 1 _ 0 16 0 eq_refl) as (_ & H2 & H3); [lia|lia|lia|lia|].
  cbv zeta in H2, H3. split; [exact H2|].
  exact (H3 0 ltac:(vm_compute; split; [intro; discriminate|reflexivity])).
Defined.

Lemma wrap_channels_views `{AudioLibs} fs rate ns readables res :
  Convolver.wrap_channels fs rate ns readables = Ok res ->
  exists rs, res = readables ++ rs /\ Forall2 (channel_view fs rate) ns rs.
Proof.
  revert readables. induction ns as [|n ns IH]; intros readables Hw;
    cbn [Convolver.wrap_channels] in Hw.
  - injection Hw as <-. exists []. rewrite app_nil_r. split; [reflexivity|constructor].
  - destruct (ChanWrap fs n) as [w|?] eqn:Hcw; [|discriminate].
    cbn [result_bind] in Hw.
    assert (Hwf : n_channels w = 1 /\ sample_rate w = sample_rate fs
                  /\ readable_length w = readable_length fs
                  /\ forall pos cnt channel, read w pos cnt channel = read fs pos cnt n).
    { unfold ChanWrap in Hcw. destruct (n_channels fs <? n); [discriminate|].
      injection Hcw as <-. repeat split; reflexivity. }
    destruct Hwf as (W1 & W2 & W3 & W4).
    rewrite W2 in Hw.
    destruct (Z.eqb_spec (sample_rate fs) rate) as [He|Hne]; cbn [negb] in Hw.
    + destruct (IH _ Hw) as (rs & -> & Hrs). exists (w :: rs).
      rewrite <- app_assoc. split; [reflexivity|]. constructor; [|exact Hrs].
      unfold channel_view. rewrite W1, W2, He, Z.eqb_refl. repeat split; assumption.
    + destruct (SrcSource w rate) as [sfs|?] eqn:Hs; [|discriminate].
      cbn [result_bind] in Hw.
      destruct (IH _ Hw) as (rs & -> & Hrs). exists (sfs :: rs).
      rewrite <- app_assoc. split; [reflexivity|]. constructor; [|exact Hrs].
      unfold SrcSource in Hs. rewrite W1 in Hs. cbn [Z.eqb Pos.eqb negb] in Hs.
      destruct src_new_ok; [|discriminate]. cbn [negb] in Hs. injection Hs as <-.
      unfold channel_view. cbn [n_channels sample_rate read readable_length].
      split; [reflexivity|]. split; [reflexivity|].
      destruct (Z.eqb_spec (sample_rate fs) rate) as [?|_]; [contradiction|].
      exists w. split; [exact Hcw|]. split; reflexivity.
Qed.

(** X16.  What a successful constructor of [Convolver] keeps: the
    source of at most [2^24] frames and at least one channel, the path and
    the settings it was given, and one reader for each channel of the
    source, in the order of the channels; the reader [k] has one channel
    and the rate asked for, and it is the channel [k] of the source when
    the source has that rate, the resampler on that channel otherwise. *)
Theorem convolver_new_channel_views `{AudioLibs} path rate sched_policy sched_priority
    irc irs fs C :
  ir_source path = Ok fs ->
  Convolver.new path rate sched_policy sched_priority irc irs = Ok C ->
  Convolver._fs C = fs /\ Convolver._path C = path /\ Convolver._ir_settings C = irs
  /\ 1 <= n_channels fs /\ readable_length fs <= 2 ^ 24
  /\ length (Convolver._readables C) = Z.to_nat (n_channels fs)
  /\ forall (k : nat) r, Convolver._readables C !! k = Some r ->
       channel_view fs rate (Z.of_nat k) r.
Proof.
  intros Hsrc Hnew. unfold Convolver.new in Hnew. unfold ir_source in Hsrc.
  rewrite Hsrc in Hnew. cbn [result_bind] in Hnew.
  destruct (Z.ltb_spec 16777216 (readable_length fs)) as [?|Hlen]; [discriminate|].
  destruct (Convolver.wrap_channels fs rate (seqZ 0 (n_channels fs)) []) as [rs|?] eqn:Hw;
    [|discriminate].
  cbn [result_bind] in Hnew.
  destruct (bool_decide (rs = [])) eqn:Hne; [discriminate|].
  apply bool_decide_eq_false in Hne.
  injection Hnew as <-. cbn [Convolver._fs Convolver._path Convolver._ir_settings
                             Convolver._readables].
  destruct (wrap_channels_views _ _ _ _ _ Hw) as (rs' & -> & Hall). cbn [app] in *.
  pose proof (Forall2_length _ _ _ Hall) as Hl. rewrite length_seqZ in Hl.
  split; [reflexivity|]. split; [reflexivity|]. split; [reflexivity|].
  split; [destruct rs'; [contradiction|]; cbn [length] in Hl; lia|].
  split; [change (2 ^ 24) with 16777216; lia|]. split; [lia|].
  intros k r Hk.
  destruct (Forall2_lookup_r _ _ _ _ _ Hall Hk) as (n & Hn & Hv).
  apply lookup_seqZ in Hn as [-> _]. exact Hv.
Qed.

Lemma convolver_new_channel_views_witness :
  length (Convolver._readables mem_engine) = 4%nat
  /\ forall r, Convolver._readables mem_engine !! 2%nat = Some r ->
       channel_view (H := libs_example) MemSource 44100 2 r.
Proof.
  destruct (convolver_new_channel_views (H := libs_example) "mem:1" 44100 1 50 Convolver.Mono
              Convolver.IRSettings_default MemSource mem_engine)
    as (_ & _ & _ & _ & _ & H6 & H7).
  - reflexivity.
  - vm_compute; reflexivity.
  - split; [exact H6|]. intros r Hr. exact (H7 2%nat r Hr).
Defined.

(** ** instantiate and the constants of an instance *)

Lemma descriptor_channels_range URI chn_in chn_out chn_cfg :
  descriptor_channels URI = Some (chn_in, chn_out, chn_cfg) ->
  1 <= chn_in <= chn_out /\ chn_out <= 2
  /\ chn_cfg = (if chn_in =? 2 then Convolver.Stereo
                else if chn_out =? 2 then Convolver.MonoToStereo else Convolver.Mono).
Proof.
  unfold descriptor_channels.
  repeat (destruct (String.eqb URI _); [intros [= <- <- <-]; repeat split; lia|]).
  discriminate.
Qed.

(** X17.  [instantiate] gives an instance exactly when the features hold
    a URID map, a scheduler and options, the block size asked for (the
    nominal block length, or the maximal one when the nominal one is absent
    or 0) lies in 1 .. 8192, the block can be allocated and the URI is one
    of the six of the plugin.  The instance then has a block size of at
    least 64: a smaller request is raised to 64, a larger one than 8192 is
    refused, not cut.  It has the channels of its URI, is buffered and
    dirty, has the dry gain at -60 dB and at rest at 0, and has no engine,
    no atom port and nothing queued or scheduled. *)
Theorem instantiate_outcomes `{Headers} calloc_ok URI rate features :
  match (instantiate calloc_ok URI rate features).1 with
  | Some self =>
      exists map schedule options,
        feature_map features = Some map /\ feature_schedule features = Some schedule
        /\ feature_options features = Some options /\ calloc_ok = true
        /\ 1 <= requested_block_size map options <= 8192
        /\ block_size self = Z.max 64 (requested_block_size map options)
        /\ 64 <= block_size self <= 8192
        /\ descriptor_channels URI = Some (chn_in self, chn_out self, chn_cfg self)
        /\ 1 <= chn_in self <= chn_out self /\ chn_out self <= 2
        /\ buffered self = true /\ pset_dirty self = true
        /\ db_dry self = f32_of_Z (-60) /\ db_wet self = f32_zero
        /\ dry_coeff self = f32_zero /\ dry_target self = f32_zero
        /\ clv_online self = None /\ clv_offline self = None
        /\ control self = None /\ notify self = None
        /\ next_queued_file self = "" /\ scheduled self = []
  | None =>
      feature_map features = None \/ feature_schedule features = None
      \/ feature_options features = None \/ calloc_ok = false
      \/ descriptor_channels URI = None
      \/ exists map options,
           feature_map features = Some map /\ feature_options features = Some options
           /\ (requested_block_size map options = 0
               \/ 8192 < requested_block_size map options)
  end.
Proof.
  unfold instantiate.
  destruct (feature_map features) as [map|] eqn:Hm; [|cbn; auto].
  destruct (feature_schedule features) as [sched|] eqn:Hs; [|cbn; auto].
  destruct (feature_options features) as [options|] eqn:Ho; [|cbn; auto].
  assert (Hu32 : forall s, let r := scan_options map options s in
                 0 <= s.1.1.1 < 2 ^ 32 -> 0 <= s.1.1.2 < 2 ^ 32 ->
                 0 <= r.1.1.1 < 2 ^ 32 /\ 0 <= r.1.1.2 < 2 ^ 32).
  { clear. induction options as [|o os IH]; intros s; cbn [scan_options]; [auto|].
    destruct (o_key o =? 0); [auto|]. destruct s as [[[b x] p] q]. cbv zeta.
    intros Hb Hx. cbn [fst snd] in Hb, Hx. apply IH; cbn [fst snd].
    - destruct (_ && _ && _); [apply Z.mod_pos_bound; lia|exact Hb].
    - destruct (_ && _ && _); [apply Z.mod_pos_bound; lia|exact Hx]. }
  specialize (Hu32 (0, 0, wrap32 SCHED_FIFO, 0)). cbv zeta in Hu32. cbn [fst snd] in Hu32.
  destruct (scan_options map options (0, 0, wrap32 SCHED_FIFO, 0)) as [[[bs mb] pol] pri]
    eqn:Hscan.
  assert (Hreq : requested_block_size map options = if bs =? 0 then mb else bs).
  { unfold requested_block_size. rewrite Hscan. reflexivity. }
  cbn [fst snd] in Hu32. destruct Hu32 as (Hbs & Hmb); [lia|lia|].
  destruct (Z.eqb_spec bs 0) as [Hb0|Hb0]; cbn [andb].
  - destruct (Z.eqb_spec mb 0) as [Hm0|Hm0].
    { cbn [fst]. do 5 right. exists map, options. rewrite Hreq. auto. }
    destruct (Z.ltb_spec 8192 mb) as [Hhi|Hhi].
    { cbn [fst]. do 5 right. exists map, options. rewrite Hreq. auto. }
    destruct (Z.ltb_spec mb 64) as [Hlo|Hlo];
      destruct (pri =? 0); cbv zeta;
      (destruct calloc_ok; cbn [negb]; [|cbn; auto 6]);
      (destruct (descriptor_channels URI) as [[[ci co] cfg]|] eqn:Hd; [|cbn; auto 6]);
      cbn [fst block_size chn_in chn_out chn_cfg buffered pset_dirty db_dry db_wet dry_coeff
           dry_target clv_online clv_offline control notify next_queued_file scheduled];
      destruct (descriptor_channels_range _ _ _ _ Hd) as (D1 & D2 & _);
      exists map, sched, options; rewrite Hreq;
      repeat split; try reflexivity; lia.
  - destruct (Z.ltb_spec 8192 bs) as [Hhi|Hhi].
    { cbn [fst]. do 5 right. exists map, options. rewrite Hreq. auto. }
    destruct (Z.ltb_spec bs 64) as [Hlo|Hlo];
      destruct (pri =? 0); cbv zeta;
      (destruct calloc_ok; cbn [negb]; [|cbn; auto 6]);
      (destruct (descriptor_channels URI) as [[[ci co] cfg]|] eqn:Hd; [|cbn; auto 6]);
      cbn [fst block_size chn_in chn_out chn_cfg buffered pset_dirty db_dry db_wet dry_coeff
           dry_target clv_online clv_offline control notify next_queued_file scheduled];
      destruct (descriptor_channels_range _ _ _ _ Hd) as (D1 & D2 & _);
      exists map, sched, options; rewrite Hreq;
      repeat split; try reflexivity; lia.
Qed.

Lemma inform_ui_constants mark_dirty self :
  instance_constants (inform_ui mark_dirty self) = instance_constants self
  /\ block_size (inform_ui mark_dirty self) = block_size self.
Proof.
  unfold inform_ui.
  destruct (control self); [|split; reflexivity].
  destruct (notify self); [|split; reflexivity].
  destruct (clv_online self); [|split; reflexivity].
  destruct (bool_decide _); [split; reflexivity|].
  destruct (negb _); split; reflexivity.
Qed.

Lemma handle_events_constants evs self :
  instance_constants (fold_left handle_event evs self) = instance_constants self
  /\ block_size (fold_left handle_event evs self) = block_size self.
Proof.
  revert self. induction evs as [|ev evs IH]; intros self; cbn [fold_left]; [split; reflexivity|].
  destruct (IH (handle_event self ev)) as (-> & ->).
  destruct ev as [| |[p|]]; cbn [handle_event]; try (split; reflexivity).
  - apply inform_ui_constants.
  - destruct (_ || _); split; reflexivity.
Qed.

Lemma run_constants `{Convolver.Engine} n_samples self :
  instance_constants (run n_samples self) = instance_constants self
  /\ block_size (run n_samples self) = block_size self.
Proof.
  unfold run. destruct (clv_online self) as [C|]; [|split; reflexivity].
  cbn [buffered set_p_latency chn_in chn_out input output].
  destruct (chn_in self =? 2).
  - destruct (Convolver.get_sum_inputs C);
      destruct (if buffered self then _ else _) as [C' [o0 o1]]; split; reflexivity.
  - destruct (chn_out self =? 2).
    + destruct (if buffered self then _ else _) as [C' [o0 o1]]; split; reflexivity.
    + destruct (if buffered self then _ else _) as [C' o0]; split; reflexivity.
Qed.

Lemma run_cfg_constants `{Libm} `{Convolver.Engine} n_samples self :
  instance_constants (run_cfg n_samples self) = instance_constants self
  /\ block_size (run_cfg n_samples self) = block_size self.
Proof.
  unfold run_cfg. destruct (control self) as [evs|]; [|split; reflexivity].
  destruct (notify self) as [nf|]; [|split; reflexivity].
  destruct (handle_events_constants evs (set_notify (Some []) self)) as (F1 & F2).
  set (s1 := fold_left handle_event evs (set_notify (Some []) self)) in *.
  change (instance_constants (set_notify (Some []) self)) with (instance_constants self) in F1.
  change (block_size (set_notify (Some []) self)) with (block_size self) in F2.
  rewrite <- F1, <- F2. clear F1 F2. clearbody s1.
  set (s2 := set_buffered _ s1). cbv zeta.
  change (instance_constants s1) with (instance_constants s2).
  change (block_size s1) with (block_size s2).
  match goal with
  | |- context [match clv_online ?s3 with Some _ => _ | None => _ end] =>
      assert (H3 : instance_constants s3 = instance_constants s2
                   /\ block_size s3 = block_size s2);
        [|set (s3' := s3) in *; clearbody s3'; destruct H3 as (<- & <-)]
  end.
  { destruct (_ || _); [|split; reflexivity].
    cbn [clv_online set_dry_target set_db_wet set_db_dry].
    destruct (clv_online s2); split; reflexivity. }
  destruct (clv_online s3') as [C|] eqn:HC.
  - destruct (run_constants n_samples s3') as (R1 & R2).
    destruct (clv_online (run n_samples s3')); cbn; rewrite <- R1, <- R2; split; reflexivity.
  - cbn [set_p_latency input output chn_in chn_out dry_coeff dry_target tc64].
    destruct (f32_eqb (dry_coeff s3') (dry_target s3')).
    + destruct (f32_eqb (dry_coeff s3') f32_one); [split; reflexivity|].
      destruct (f32_eqb (dry_coeff s3') f32_zero); split; reflexivity.
    + destruct (interpolate_dry _ _ _ _ _) as [outs cur].
      destruct (f32_ltb (SFabs _) _); split; reflexivity.
Qed.

Lemma load_ir_worker_constants `{AudioLibs} `{Convolver.Engine} respond ir_path self :
  instance_constants (load_ir_worker respond ir_path self).2 = instance_constants self
  /\ block_size (load_ir_worker respond ir_path self).2 = block_size self.
Proof.
  unfold load_ir_worker. destruct (clv_offline self); [split; reflexivity|].
  destruct (Convolver.new _ _ _ _ _ _) as [C|w].
  - destruct (Convolver.ready _); cbn [negb]; [destruct respond|]; split; reflexivity.
  - split; reflexivity.
Qed.

Lemma work_constants `{AudioLibs} `{Convolver.Engine} data self :
  instance_constants (work data self).2 = instance_constants self
  /\ block_size (work data self).2 = block_size self.
Proof.
  unfold work. destruct data as [cmd|body].
  - destruct (cmd =? CMD_APPLY); [split; reflexivity|].
    destruct (cmd =? CMD_FREE); [|split; reflexivity].
    destruct (negb _); [|split; reflexivity].
    match goal with |- context [load_ir_worker true ?p ?s] =>
      pose proof (load_ir_worker_constants true p s) as Hl;
      destruct (load_ir_worker true p s) as [[st ok] s'] end.
    cbn [snd] in *. exact Hl.
  - match goal with |- context [load_ir_worker true ?p ?s] =>
      pose proof (load_ir_worker_constants true p s) as Hl;
      destruct (load_ir_worker true p s) as [[st ok] s'] end.
    cbn [snd] in *. exact Hl.
Qed.

Lemma work_response_constants `{Libm} self :
  instance_constants (work_response self).2 = instance_constants self
  /\ block_size (work_response self).2 = block_size self.
Proof.
  unfold work_response. destruct (clv_offline self) as [C|].
  - cbv zeta. cbn [snd].
    match goal with |- context [inform_ui ?d ?s] =>
      destruct (inform_ui_constants d s) as (I1 & I2) end.
    split.
    + etransitivity; [|etransitivity; [exact I1|reflexivity]]. reflexivity.
    + etransitivity; [|etransitivity; [exact I2|reflexivity]]. reflexivity.
  - destruct (negb _); split; reflexivity.
Qed.

Lemma activate_constants `{Convolver.Engine} self :
  instance_constants (activate self) = instance_constants self
  /\ block_size (activate self) = block_size self.
Proof. unfold activate. destruct (clv_online self); split; reflexivity. Qed.

Lemma restore_constants `{AudioLibs} `{Convolver.Engine} map schedule retrieve features self :
  instance_constants (restore map schedule retrieve features self).2 = instance_constants self
  /\ block_size (restore map schedule retrieve features self).2 = block_size self.
Proof.
  unfold restore. destruct (feature_map_path features) as [[ab rel]|]; [|split; reflexivity].
  destruct (retrieve (map ZC_ir)) as [v|]; [|split; reflexivity].
  match goal with |- context [load_ir_worker false ?p ?s] =>
    pose proof (load_ir_worker_constants false p s) as Hl;
    destruct (load_ir_worker false p s) as [[st ok] s'] end.
  cbn [snd] in Hl. destruct ok; cbn [negb snd]; exact Hl.
Qed.

Lemma opts_set_constants `{Headers} `{Convolver.Engine} map o self :
  instance_constants (opts_set map o self).2 = instance_constants self
  /\ block_size (opts_set map o self).2
     = if opts_set_accepts map o then wrap32 (o_value o) else block_size self.
Proof.
  unfold opts_set, opts_set_accepts.
  destruct (o_context o =? LV2_OPTIONS_INSTANCE); cbn [negb orb andb]; [|split; reflexivity].
  destruct (o_subject o =? 0); cbn [negb orb andb]; [|split; reflexivity].
  destruct (o_key o =? map BUF_SIZE__nominalBlockLength); cbn [negb orb andb];
    [|split; reflexivity].
  destruct (o_size o =? 4); cbn [negb orb andb]; [|split; reflexivity].
  destruct (o_type o =? map ATOM__Int); cbn [negb orb andb]; [|split; reflexivity].
  cbn [clv_online set_block_size]. destruct (clv_online self); split; reflexivity.
Qed.

(** X18.  Over any sequence of calls of [run], [run_cfg], [work],
    [work_response], [activate], [opts_set] and [restore], the sample
    rate, the channel counts and configuration, the scheduling policy and
    priority and the filter coefficient of an instance stay what they were.
    The block size is the value of the last option that [opts_set]
    accepted, taken as it is, and the initial one if there was none: the
    range that [instantiate] enforces is not checked again. *)
Theorem instance_constants_kept `{Headers} `{AudioLibs} `{Libm} `{Convolver.Engine}
    map schedule calls self :
  let s := fold_left (host_call_exec map schedule) calls self in
  instance_constants s = instance_constants self
  /\ block_size s = block_size_after map calls (block_size self).
Proof.
  cbv zeta. revert self. induction calls as [|c calls IH]; intros self;
    cbn [fold_left]; [split; reflexivity|].
  unfold block_size_after in *. cbn [fold_left].
  destruct (IH (host_call_exec map schedule self c)) as (-> & ->). clear IH.
  assert (Hc : instance_constants (host_call_exec map schedule self c) = instance_constants self
               /\ block_size (host_call_exec map schedule self c)
                  = match c with
                    | CallOptsSet o => if opts_set_accepts map o then wrap32 (o_value o)
                                       else block_size self
                    | _ => block_size self
                    end).
  { destruct c; cbn [host_call_exec].
    - apply run_constants.
    - apply run_cfg_constants.
    - apply work_constants.
    - apply work_response_constants.
    - apply activate_constants.
    - apply opts_set_constants.
    - apply restore_constants. }
  destruct Hc as (-> & ->). split; reflexivity.
Qed.

(** ** Saving and restoring the state *)

Lemma convolver_new_fields `{AudioLibs} path rate sched_policy sched_priority irc irs C :
  Convolver.new path rate sched_policy sched_priority irc irs = Ok C ->
  Convolver._path C = path /\ Convolver._ir_settings C = irs.
Proof.
  unfold Convolver.new.
  destruct (if String.eqb _ _ then _ else _) as [fs|?]; [|discriminate].
  cbn [result_bind]. destruct (_ <? _); [discriminate|].
  destruct (Convolver.wrap_channels _ _ _ _) as [rs|?]; [|discriminate].
  cbn [result_bind]. destruct (bool_decide _); [discriminate|].
  intros [= <-]. split; reflexivity.
Qed.

(** The instance after a [restore] that builds the engine. *)
Lemma restore_builds `{AudioLibs} `{Convolver.Engine} map schedule retrieve features self
    ab rel v path C :
  feature_map_path features = Some (ab, rel) ->
  retrieve (map ZC_ir) = Some v ->
  path = rel (match s_body v with BodyPath p => p | _ => "" end) ->
  clv_offline self = None ->
  Convolver.new path (rate self) (rt_policy self) (rt_priority self) (chn_cfg self)
                Convolver.IRSettings_default = Ok C ->
  Convolver.ready (Convolver.reconfigure (block_size self) C) = true ->
  let r := restore map schedule retrieve features self in
  r.1.1.1 = LV2_STATE_SUCCESS
  /\ r.1.2 = Some (restore_settings map retrieve)
  /\ r.2 = schedule_work (Command CMD_APPLY)
             (set_pset_dirty false
                (set_clv_offline (Some (Convolver.reconfigure (block_size self) C))
                   (lv2_log (LogOpening path) self))).
Proof.
  intros Hf Hv Hp Ho Hnew Hready r. subst r. unfold restore. rewrite Hf, Hv, <- Hp.
  assert (Hw : load_ir_worker false path self
               = (LV2_WORKER_SUCCESS, true,
                  set_clv_offline (Some (Convolver.reconfigure (block_size self) C))
                    (lv2_log (LogOpening path) self))).
  { unfold load_ir_worker. rewrite Ho.
    cbn [rate rt_policy rt_priority chn_cfg block_size lv2_log set_logged].
    rewrite Hnew, Hready. reflexivity. }
  rewrite Hw. cbn [negb fst snd]. repeat split; reflexivity.
Qed.

(** X19.  [restore]: without the map-path feature it returns
    [ERR_NO_FEATURE] and without a stored path [ERR_NO_PROPERTY], and
    leaves the instance as it is.  With a path, made absolute, it calls the
    worker in place: when an engine is pending off line the path is only
    queued and the status is [SUCCESS]; when the engine cannot be built or
    made ready the status is [ERR_NO_PROPERTY] and nothing is scheduled;
    otherwise the engine, built for the path with the default settings, is
    parked off line, the dirty flag is cleared and [CMD_APPLY] is scheduled,
    with no response.  The settings that the store holds are read and not
    used: two stores with the same path give the same status, messages and
    instance. *)
Theorem restore_outcomes `{AudioLibs} `{Convolver.Engine} map schedule retrieve features self :
  let r := restore map schedule retrieve features self in
  (feature_map_path features = None ->
     r.1.1.1 = LV2_STATE_ERR_NO_FEATURE /\ r.2 = self)
  /\ (forall ab rel, feature_map_path features = Some (ab, rel) ->
      (retrieve (map ZC_ir) = None ->
         r.1.1.1 = LV2_STATE_ERR_NO_PROPERTY /\ r.2 = self)
      /\ (forall v path, retrieve (map ZC_ir) = Some v ->
          path = rel (match s_body v with BodyPath p => p | _ => "" end) ->
          (forall E, clv_offline self = Some E ->
             r.1.1.1 = LV2_STATE_SUCCESS
             /\ next_queued_file r.2 = path /\ clv_offline r.2 = Some E
             /\ clv_online r.2 = clv_online self /\ pset_dirty r.2 = pset_dirty self
             /\ scheduled r.2 = scheduled self /\ builds r.2 = builds self)
          /\ (clv_offline self = None ->
              (forall C, Convolver.new path (rate self) (rt_policy self) (rt_priority self)
                           (chn_cfg self) Convolver.IRSettings_default = Ok C ->
                         Convolver.ready (Convolver.reconfigure (block_size self) C) = false) ->
              r.1.1.1 = LV2_STATE_ERR_NO_PROPERTY
              /\ clv_offline r.2 = None /\ clv_online r.2 = clv_online self
              /\ pset_dirty r.2 = pset_dirty self /\ scheduled r.2 = scheduled self
              /\ builds r.2 = builds self ++ [path])
          /\ (forall C, clv_offline self = None ->
              Convolver.new path (rate self) (rt_policy self) (rt_priority self)
                (chn_cfg self) Convolver.IRSettings_default = Ok C ->
              Convolver.ready (Convolver.reconfigure (block_size self) C) = true ->
              r.1.1.1 = LV2_STATE_SUCCESS
              /\ clv_offline r.2 = Some (Convolver.reconfigure (block_size self) C)
              /\ Convolver._path C = path
              /\ Convolver._ir_settings C = Convolver.IRSettings_default
              /\ clv_online r.2 = clv_online self /\ pset_dirty r.2 = false
              /\ scheduled r.2 = scheduled self ++ [Command CMD_APPLY]
              /\ responded r.2 = responded self
              /\ builds r.2 = builds self ++ [path])))
  /\ (forall retrieve', retrieve' (map ZC_ir) = retrieve (map ZC_ir) ->
      let r' := restore map schedule retrieve' features self in
      r'.1.1.1 = r.1.1.1 /\ r'.1.1.2 = r.1.1.2 /\ r'.2 = r.2).
Proof.
  intros r. split; [|split].
  - intros Hf. subst r. unfold restore. rewrite Hf. split; reflexivity.
  - intros ab rel Hf. subst r. unfold restore. rewrite Hf. split.
    { intros Hr. rewrite Hr. split; reflexivity. }
    intros v path Hv Hp. rewrite Hv, <- Hp. split; [|split].
    + intros E HE. rewrite (load_ir_worker_queues false path self E HE).
      cbn [negb fst snd]. repeat split; try reflexivity; try exact HE. solve_builds.
    + intros Ho Hfail.
      destruct (load_ir_worker_fails false path self Ho Hfail)
        as (W1 & W2 & W3 & W4 & W5 & W6 & W7 & W8).
      assert (Wd : pset_dirty (load_ir_worker false path self).2 = pset_dirty self).
      { pose proof (load_ir_worker_audio_side false path self) as Ha.
        unfold audio_side in Ha. injection Ha as _ _ _ _ _ _ _ _ _ _ _ _ Ha _. exact Ha. }
      cbv zeta in *.
      destruct (load_ir_worker false path self) as [[st ok] s']. cbn [fst snd] in *.
      subst st ok. cbn [negb fst snd]. repeat split; assumption.
    + intros C Ho Hnew Hready.
      destruct (convolver_new_fields _ _ _ _ _ _ _ Hnew) as (P1 & P2).
      destruct (restore_builds map schedule retrieve features self ab rel v path C
                  Hf Hv Hp Ho Hnew Hready) as (B1 & _ & B3).
      cbv zeta in B1, B3. unfold restore in B1, B3. rewrite Hf, Hv, <- Hp in B1, B3.
      rewrite B1, B3.
      repeat split; try reflexivity; try assumption.
      unfold builds. cbn [logged schedule_work set_scheduled set_pset_dirty set_clv_offline
                          lv2_log set_logged].
      rewrite omap_app. reflexivity.
  - intros retrieve' Hr r'. subst r r'. unfold restore. rewrite Hr.
    destruct (feature_map_path features) as [[ab rel]|]; [|repeat split; reflexivity].
    destruct (retrieve (map ZC_ir)) as [v|]; [|repeat split; reflexivity].
    destruct (load_ir_worker false _ self) as [[st ok] s'].
    destruct ok; repeat split; reflexivity.
Qed.

Lemma restore_outcomes_witness :
  let r := restore (H := libs_example) (H0 := engine_example) urid_example 0 retrieve_example
             map_path_example plugin_example in
  r.1.1.1 = LV2_STATE_SUCCESS
  /\ clv_offline r.2
     = Some (Convolver.reconfigure (Engine := engine_example) (block_size plugin_example)
               mem_engine)
  /\ pset_dirty r.2 = false
  /\ scheduled r.2 = scheduled plugin_example ++ [Command CMD_APPLY].
Proof.
  destruct (restore_outcomes (H := libs_example) (H0 := engine_example) urid_example 0
              retrieve_example map_path_example plugin_example) as (_ & R & _).
  destruct (R (fun p => p) (fun p => p) eq_refl) as (_ & R2).
  destruct (R2 {| s_body := BodyPath "mem:1"; s_size := 6; s_type := 8 |} "mem:1")
    as (_ & _ & R3).
  - vm_compute; reflexivity.
  - reflexivity.
  - destruct (R3 mem_engine) as (Q1 & Q2 & _ & _ & _ & Q6 & Q7 & _).
    + reflexivity.
    + vm_compute; reflexivity.
    + reflexivity.
    + cbv zeta in Q1, Q2, Q6, Q7. cbv zeta.
      split; [exact Q1|]. split; [exact Q2|]. split; [exact Q6|exact Q7].
Defined.

(** X20.  The state saved and restored.  [save] stores the path of the
    engine in use and its six settings under their seven keys.  On an
    instance with no engine pending, with a host that returns what was
    stored and maps the path back, [restore] reads back the settings that
    were saved, builds the engine for the saved path, and builds it with
    the default settings all the same; it clears the dirty flag and
    schedules [CMD_APPLY].  The worker then responds, and [work_response]
    puts the engine on line with the gains of the instance, parks the old
    one, schedules [CMD_FREE] and sets the dirty flag, without adding a
    state-changed event to the notify port. *)
Theorem save_restore_round_trip `{AudioLibs} `{Libm} `{Convolver.Engine}
    map schedule features retrieve A B C C' ab rel :
  clv_online A = Some C ->
  feature_map_path features = Some (ab, rel) ->
  rel (ab (Convolver.path C)) = Convolver.path C ->
  (forall k v, In (k, v) (save map features A).2 -> retrieve k = Some v) ->
  clv_offline B = None ->
  Convolver.new (Convolver.path C) (rate B) (rt_policy B) (rt_priority B) (chn_cfg B)
                Convolver.IRSettings_default = Ok C' ->
  Convolver.ready (Convolver.reconfigure (block_size B) C') = true ->
  let r := restore map schedule retrieve features B in
  let s2 := (work (Command CMD_APPLY) r.2).2 in
  let s3 := (work_response s2).2 in
  (save map features A).1 = LV2_STATE_SUCCESS
  /\ List.map fst (save map features A).2
     = [map ZC_ir; map ZC_gain; map ZC_predelay; map ZC_latency; map ZC_sum_ins;
        map ZC_chn_gain; map ZC_chn_delay]
  /\ r.1.1.1 = LV2_STATE_SUCCESS
  /\ r.1.2 = Some (Convolver.settings C)
  /\ clv_offline r.2 = Some (Convolver.reconfigure (block_size B) C')
  /\ Convolver._path C' = Convolver.path C
  /\ Convolver._ir_settings C' = Convolver.IRSettings_default
  /\ pset_dirty r.2 = false
  /\ responded s2 = responded B + 1
  /\ clv_online s3
     = Some (Convolver.set_output_gain (db_to_coeff (db_dry B)) (db_to_coeff (db_wet B))
               false (Convolver.reconfigure (block_size B) C'))
  /\ clv_offline s3 = clv_online B
  /\ pset_dirty s3 = true
  /\ scheduled s3 = scheduled B ++ [Command CMD_APPLY; Command CMD_FREE]
  /\ (forall evs, notify s3 = Some evs -> UiStateChanged ∈ evs ->
      exists evs0, notify B = Some evs0 /\ UiStateChanged ∈ evs0).
Proof.
  intros HA Hf Hpath Hret HB Hnew Hready r s2 s3.
  assert (Hsave : save map features A
                  = (LV2_STATE_SUCCESS,
                     [ (map ZC_ir,
                        {| s_body := BodyPath (ab (Convolver.path C));
                           s_size := Z.of_nat (String.length (ab (Convolver.path C))) + 1;
                           s_type := map ATOM__Path |});
                       (map ZC_gain,
                        {| s_body := BodyFloat (Convolver.gain (Convolver.settings C));
                           s_size := 4; s_type := map ATOM__Float |});
                       (map ZC_predelay,
                        {| s_body := BodyInt (Convolver.pre_delay (Convolver.settings C));
                           s_size := 4; s_type := map ATOM__Int |});
                       (map ZC_latency,
                        {| s_body := BodyInt (Convolver.artificial_latency
                                                (Convolver.settings C));
                           s_size := 4; s_type := map ATOM__Int |});
                       (map ZC_sum_ins,
                        {| s_body := BodyInt (if Convolver.sum_inputs (Convolver.settings C)
                                              then 1 else 0);
                           s_size := 4; s_type := map ATOM__Bool |});
                       (map ZC_chn_gain,
                        {| s_body := BodyFloats 4 (map ATOM__Float)
                                       (Convolver.channel_gain (Convolver.settings C));
                           s_size := 24; s_type := map ATOM__Vector |});
                       (map ZC_chn_delay,
                        {| s_body := BodyInts 4 (map ATOM__Int)
                                       (Convolver.channel_delay (Convolver.settings C));
                           s_size := 24; s_type := map ATOM__Vector |}) ])).
  { unfold save. rewrite Hf, HA. reflexivity. }
  rewrite Hsave in Hret |- *. cbn [fst snd List.map].
  split; [reflexivity|]. split; [reflexivity|].
  assert (Hir : retrieve (map ZC_ir)
                = Some {| s_body := BodyPath (ab (Convolver.path C));
                          s_size := Z.of_nat (String.length (ab (Convolver.path C))) + 1;
                          s_type := map ATOM__Path |})
    by (apply Hret; cbn; auto 10).
  assert (Hirs : restore_settings map retrieve = Convolver.settings C).
  { unfold restore_settings.
    rewrite (Hret (map ZC_predelay) _ ltac:(cbn; auto 10)).
    rewrite (Hret (map ZC_latency) _ ltac:(cbn; auto 10)).
    rewrite (Hret (map ZC_gain) _ ltac:(cbn; auto 10)).
    rewrite (Hret (map ZC_chn_delay) _ ltac:(cbn; auto 10)).
    rewrite (Hret (map ZC_sum_ins) _ ltac:(cbn; auto 10)).
    rewrite (Hret (map ZC_chn_gain) _ ltac:(cbn; auto 10)).
    cbn [s_size s_type s_body]. rewrite !Z.eqb_refl. cbn [andb].
    destruct (Convolver.settings C) as [g pd cg cd si al].
    cbn [Convolver.gain Convolver.pre_delay Convolver.channel_gain Convolver.channel_delay
         Convolver.sum_inputs Convolver.artificial_latency].
    destruct si; reflexivity. }
  destruct (convolver_new_fields _ _ _ _ _ _ _ Hnew) as (Q3 & Q4).
  destruct (restore_builds map schedule retrieve features B ab rel _ (Convolver.path C) C'
              Hf Hir ltac:(cbn [s_body]; symmetry; exact Hpath) HB Hnew Hready)
    as (Q1 & Qs & Qr).
  fold r in Q1, Qs, Qr.
  assert (Q2 : clv_offline r.2 = Some (Convolver.reconfigure (block_size B) C'))
    by (rewrite Qr; reflexivity).
  assert (Q5 : clv_online r.2 = clv_online B) by (rewrite Qr; reflexivity).
  assert (Q6 : pset_dirty r.2 = false) by (rewrite Qr; reflexivity).
  assert (Q7 : scheduled r.2 = scheduled B ++ [Command CMD_APPLY]) by (rewrite Qr; reflexivity).
  assert (Q8 : responded r.2 = responded B) by (rewrite Qr; reflexivity).
  split; [exact Q1|].
  split; [rewrite Qs, Hirs; reflexivity|].
  split; [exact Q2|]. split; [exact Q3|]. split; [exact Q4|]. split; [exact Q6|].
  assert (H2 : s2 = set_responded (responded r.2 + 1) r.2) by reflexivity.
  split; [rewrite H2; cbn [responded set_responded]; rewrite Q8; reflexivity|].
  assert (H3 : s3 = schedule_work (Command CMD_FREE)
                      (set_pset_dirty true
                         (inform_ui false
                            (set_clv_online
                               (Some (Convolver.set_output_gain (db_to_coeff (db_dry s2))
                                        (db_to_coeff (db_wet s2)) false
                                        (Convolver.reconfigure (block_size B) C')))
                               (set_clv_offline (clv_online s2)
                                  (set_clv_online
                                     (Some (Convolver.reconfigure (block_size B) C'))
                                     s2)))))).
  { subst s3. unfold work_response. rewrite H2 at 1.
    cbn [clv_offline set_responded]. rewrite Q2.
    cbn [snd pset_dirty set_clv_online set_clv_offline db_dry db_wet].
    replace (pset_dirty s2) with false by (rewrite H2; cbn; symmetry; exact Q6).
    reflexivity. }
  assert (Hdb : db_dry s2 = db_dry B /\ db_wet s2 = db_wet B /\ notify s2 = notify B
                /\ control s2 = control B).
  { rewrite H2. cbn [db_dry db_wet notify control set_responded]. rewrite Qr.
    repeat split; reflexivity. }
  destruct Hdb as (D1 & D2 & D3 & D4).
  match type of H3 with _ = schedule_work _ (set_pset_dirty _ (inform_ui ?d ?s)) =>
    destruct (inform_ui_keeps d s) as (K1 & K2 & _ & K4 & _);
    pose proof (eq_refl (inform_ui d s)) as Kn; unfold inform_ui at 2 in Kn;
    set (s3' := inform_ui d s) in * end.
  cbv zeta in K1, K2, K4.
  cbn [control notify clv_online next_queued_file set_clv_online set_clv_offline] in Kn.
  split; [rewrite H3; cbn; rewrite K1, D1, D2; reflexivity|].
  split; [rewrite H3; cbn; rewrite K2; cbn; exact Q5|].
  split; [rewrite H3; reflexivity|].
  split.
  { rewrite H3. cbn. rewrite K4. cbn. rewrite Q7, <- app_assoc. reflexivity. }
  intros evs Hn Hin. rewrite H3 in Hn.
  cbn [notify schedule_work set_scheduled set_pset_dirty] in Hn.
  rewrite Kn in Hn. rewrite D3, D4 in Hn.
  destruct (control B) as [cs|].
  2:{ cbn [notify set_clv_online set_clv_offline] in Hn. rewrite D3 in Hn.
      exists evs. split; [exact Hn|exact Hin]. }
  destruct (notify B) as [evs0|] eqn:HnB.
  2:{ cbn [notify set_clv_online set_clv_offline] in Hn. rewrite ?D3, ?HnB in Hn.
      discriminate. }
  exists evs0. split; [reflexivity|].
  destruct (bool_decide _).
  { cbn [notify set_clv_online set_clv_offline] in Hn. rewrite ?D3, ?HnB in Hn.
    injection Hn as <-. exact Hin. }
  destruct (negb _).
  { cbn [notify set_clv_online set_clv_offline] in Hn. rewrite ?D3, ?HnB in Hn.
    injection Hn as <-. exact Hin. }
  cbn [notify set_notify] in Hn. injection Hn as <-.
  apply elem_of_app in Hin as [Hin|Hin]; [exact Hin|].
  cbn [app] in Hin. apply list_elem_of_singleton in Hin. discriminate.
Qed.

Lemma save_restore_round_trip_witness :
  let r := restore (H := libs_example) (H0 := engine_example) urid_example 0 retrieve_example
             map_path_example plugin_example in
  (save urid_example map_path_example saved_example).1 = LV2_STATE_SUCCESS
  /\ r.1.1.1 = LV2_STATE_SUCCESS
  /\ r.1.2 = Some (Convolver.settings mem_engine)
  /\ pset_dirty r.2 = false.
Proof.
  destruct (save_restore_round_trip (H := libs_example) (H0 := libm_example)
              (H1 := engine_example) urid_example 0 map_path_example retrieve_example
              saved_example plugin_example mem_engine mem_engine (fun p => p) (fun p => p))
    as (S1 & _ & S3 & S4 & _ & _ & _ & S8 & _).
  - reflexivity.
  - reflexivity.
  - reflexivity.
  - intros k v Hin. vm_compute in Hin.
    repeat (destruct Hin as [Hin|Hin]; [injection Hin as <- <-; vm_compute; reflexivity|]).
    destruct Hin.
  - reflexivity.
  - vm_compute; reflexivity.
  - reflexivity.
  - cbv zeta in S1, S3, S4, S8. cbv zeta.
    split; [exact S1|]. split; [exact S3|]. split; [exact S4|exact S8].
Defined.

(** ** Clearing the delay line *)

Lemma blit_head_short {A} (dst src : list A) :
  (length src <= length dst)%nat -> blit dst 0 src = src ++ drop (length src) dst.
Proof.
  intros Hl. unfold blit. change (Z.to_nat 0) with O. rewrite take_0, Nat.add_0_l. cbn [app].
  apply take_ge. rewrite length_app, length_drop. lia.
Qed.

(** X21.  [DelayLine::clear] on a line that has been written clears
    [_delay] of its [_delay + 1] cells: the last cell of the buffer keeps
    its sample.  Seen from the write position, the line then holds zeros
    and, at the age it had, that one sample; unless it sits at the write
    position it comes out in the output of the next run. *)
Theorem delay_clear_keeps_a_cell d h D :
  Z.of_nat d + 1 < 2 ^ 32 -> delay_holds d h D -> DelayLine._written D = true ->
  let D' := DelayLine.clear D in
  let k := (d - Z.to_nat (DelayLine._pos D))%nat in
  let h' := <[k := default f32_zero (h !! k)]> (replicate (S d) f32_zero) in
  DelayLine._written D' = false
  /\ delay_holds d h' D'
  /\ forall xs, (DelayLine.run xs (Z.of_nat (length xs)) D').2
                = take (length xs) (drop 1 h' ++ xs).
Proof.
  intros Hd (ring & p & Hb & Hl & Hdl & Hp & Hpd & Hh) Hw D' k h'.
  assert (HD' : DelayLine._written D' = false /\ delay_holds d h' D').
  { subst D'. unfold DelayLine.clear. rewrite Hb, Hw. cbn [negb DelayLine._written].
    split; [reflexivity|].
    assert (Hx : exists x, ring !! d = Some x) by (apply lookup_lt_is_Some_2; lia).
    destruct Hx as (x & Hx).
    exists (replicate d f32_zero ++ [x]), p.
    cbn [DelayLine._buf DelayLine._delay DelayLine._pos].
    split.
    { f_equal. rewrite Hdl. unfold calloc_real. rewrite Nat2Z.id.
      rewrite blit_head_short by (rewrite length_replicate; lia).
      rewrite length_replicate. f_equal. rewrite (drop_S _ x d Hx).
      rewrite drop_ge by lia. reflexivity. }
    split; [rewrite length_app, length_replicate; cbn [length]; lia|].
    split; [exact Hdl|]. split; [exact Hp|]. split; [exact Hpd|].
    subst h' k. rewrite Hp, Nat2Z.id.
    assert (Hhk : h !! (d - p)%nat = Some x).
    { rewrite <- Hh. unfold ring_from. rewrite Nat2Z.id.
      rewrite lookup_app_l by (rewrite length_drop; lia).
      rewrite lookup_drop. replace (p + (d - p))%nat with d by lia. exact Hx. }
    rewrite Hhk. cbn [default from_option].
    unfold ring_from. rewrite Nat2Z.id.
    rewrite drop_app_le by (rewrite length_replicate; lia).
    rewrite take_app_le by (rewrite length_replicate; lia).
    rewrite drop_replicate, take_replicate.
    rewrite insert_replicate_lt by lia.
    rewrite <- app_assoc. cbn [app]. do 3 f_equal. lia. }
  destruct HD' as (H1 & H2). split; [exact H1|]. split; [exact H2|].
  intros xs. exact (proj1 (delay_run d h' D' xs Hd H2)).
Qed.

Lemma delay_clear_keeps_a_cell_witness :
  (DelayLine.run [f32_zero; f32_zero] 2
     (DelayLine.clear
        (DelayLine.run [f32_one; f32_half; f32_of_Z 3] 3
           (DelayLine.reset true 2 DelayLine.new)).1)).2
  = [f32_zero; f32_of_Z 3].
Proof.
  destruct (delay_clear_keeps_a_cell 2 [f32_one; f32_half; f32_of_Z 3]
              (DelayLine.run [f32_one; f32_half; f32_of_Z 3] 3
                 (DelayLine.reset true 2 DelayLine.new)).1) as (_ & _ & H3).
  - lia.
  - exists [f32_one; f32_half; f32_of_Z 3], O.
    repeat split; try (vm_compute; reflexivity); lia.
  - reflexivity.
  - exact (H3 [f32_zero; f32_zero]).
Defined.

(** ** The notify port *)








(** ** tailonly: what the accumulators receive *)

(** A loop that rewrites the cells below [n] of an array, each with a
    function of its index. *)
Lemma for_upto_wr_rd_ix {A} (d : A) (f : Z -> A -> A) (l : list A) (n : Z) :
  let l' := for_upto n (fun i l => wr l i (f i (rd d l i))) l in
  length l' = length l
  /\ forall k, rd d l' k = if (0 <=? k) && (k <? n) && (k <? Z.of_nat (length l))
                           then f k (rd d l k) else rd d l k.
Proof.
  cbv zeta.
  destruct (Z.le_gt_cases n 0) as [Hn|Hn].
  { rewrite for_upto_nonpos by lia. split; [reflexivity|]. intros k.
    destruct (Z.leb_spec 0 k), (Z.ltb_spec k n); try lia; reflexivity. }
  assert (Hm : exists m, n = Z.of_nat m) by (exists (Z.to_nat n); lia).
  destruct Hm as [m ->]. clear Hn.
  induction m as [|m IH].
  - rewrite for_upto_nonpos by lia. split; [reflexivity|]. intros k.
    destruct (Z.leb_spec 0 k), (Z.ltb_spec k (Z.of_nat 0)); try lia; reflexivity.
  - rewrite for_upto_S. destruct IH as (Hl & Hrd).
    set (l1 := for_upto (Z.of_nat m) _ l) in *.
    split; [rewrite wr_length; exact Hl|].
    intros k. rewrite rd_wr, Hl, !Hrd.
    destruct (Z.eqb_spec (Z.of_nat m) k) as [<-|Hne]; cbn [andb].
    + destruct (Z.leb_spec 0 (Z.of_nat m)); [|lia]. cbn [andb].
      destruct (Z.ltb_spec (Z.of_nat m) (Z.of_nat m)); [lia|]. cbn [andb].
      destruct (Z.ltb_spec (Z.of_nat m) (Z.of_nat (S m))); [|lia]. cbn [andb].
      destruct (Z.ltb_spec (Z.of_nat m) (Z.of_nat (length l))); reflexivity.
    + destruct (Z.leb_spec 0 k), (Z.ltb_spec k (Z.of_nat m)), (Z.ltb_spec k (Z.of_nat (S m)));
        try lia; reflexivity.
Qed.



Lemma fold_left_app_concat {A B} (f : A -> B -> A) (ls : list (list B)) (a : A) :
  fold_left f (concat ls) a = fold_left (fun a l => fold_left f l a) ls a.
Proof.
  revert a. induction ls as [|l ls IH]; intros a; cbn [concat fold_left]; [reflexivity|].
  rewrite fold_left_app. apply IH.
Qed.







(** ** The per-cycle step: what is accumulated *)

(** The innermost loop of [process], bin by bin. *)
Lemma cmac_rd parsize ffta fftb fd k :
  length (Convlevel.cmac parsize ffta fftb fd) = length fd
  /\ rd c32_zero (Convlevel.cmac parsize ffta fftb fd) k
     = if (0 <=? k) && (k <? parsize + 1) && (k <? Z.of_nat (length fd))
       then cmac_bin (rd c32_zero ffta k) (rd c32_zero fftb k) (rd c32_zero fd k)
       else rd c32_zero fd k.
Proof.
  unfold Convlevel.cmac.
  pose proof (for_upto_wr_rd_ix c32_zero
                (fun k c => cmac_bin (rd c32_zero ffta k) (rd c32_zero fftb k) c)
                fd (parsize + 1)) as (Hl & Hrd).
  split; [exact Hl|]. apply Hrd.
Qed.

(** The partitions of one [Macnode], bin by bin. *)
Lemma mac_by_age_rd npar parsize ptind ffta M fd k :
  length (mac_by_age npar parsize ptind ffta M fd) = length fd
  /\ rd c32_zero (mac_by_age npar parsize ptind ffta M fd) k
     = if (0 <=? k) && (k <? parsize + 1) && (k <? Z.of_nat (length fd))
       then mac_bin_by_age npar ptind ffta M k (rd c32_zero fd k)
       else rd c32_zero fd k.
Proof.
  unfold mac_by_age, mac_bin_by_age. generalize (seqZ 0 npar) as js. intros js. revert fd.
  induction js as [|j js IH]; intros fd; cbn [fold_left].
  - split; [reflexivity|]. destruct (_ && _); reflexivity.
  - destruct (Macnode.partition M j) as [fftb|]; [|apply IH].
    destruct (cmac_rd parsize (rd [] ffta ((ptind - j) mod npar)) fftb fd k) as (C1 & C2).
    destruct (IH (Convlevel.cmac parsize (rd [] ffta ((ptind - j) mod npar)) fftb fd))
      as (I1 & I2).
    rewrite I1, I2, C1, C2. split; [reflexivity|].
    destruct ((0 <=? k) && (k <? parsize + 1) && (k <? Z.of_nat (length fd))); reflexivity.
Qed.

(** The [Macnode]s of one output node, bin by bin. *)
Lemma mac_nodes_rd npar parsize ptind inps Ms fd k :
  0 <= ptind < npar -> npar <= 2 ^ 32 ->
  length (Convlevel.mac_nodes npar parsize ptind inps Ms fd) = length fd
  /\ rd c32_zero (Convlevel.mac_nodes npar parsize ptind inps Ms fd) k
     = if (0 <=? k) && (k <? parsize + 1) && (k <? Z.of_nat (length fd))
       then fold_left
              (fun c M =>
                 mac_bin_by_age npar ptind
                   (default [] (Inpnode._ffta <$> Convlevel.find_inp (Macnode._inpn M) inps))
                   M k c)
              Ms (rd c32_zero fd k)
       else rd c32_zero fd k.
Proof.
  intros Hp Hn. rewrite mac_nodes_by_age by assumption. revert fd.
  induction Ms as [|M Ms IH]; intros fd; cbn [fold_left].
  - split; [reflexivity|]. destruct (_ && _); reflexivity.
  - match goal with |- context [mac_by_age npar parsize ptind ?a M fd] =>
      destruct (mac_by_age_rd npar parsize ptind a M fd k) as (C1 & C2);
      destruct (IH (mac_by_age npar parsize ptind a M fd)) as (I1 & I2)
    end.
    rewrite I1, I2, C1, C2. split; [reflexivity|].
    destruct ((0 <=? k) && (k <? parsize + 1) && (k <? Z.of_nat (length fd))); reflexivity.
Qed.

Lemma calloc_complex_rd n k : rd c32_zero (calloc_complex n) k = c32_zero.
Proof.
  unfold rd, calloc_complex. destruct (k <? 0); [reflexivity|].
  destruct (replicate (Z.to_nat n) c32_zero !! Z.to_nat k) as [x|] eqn:Hx; [|reflexivity].
  apply lookup_replicate in Hx as [-> _]. reflexivity.
Qed.

(** One output node in the second loop of [process]. *)
Lemma process_output_written `{FFTW} npar parsize ptind opind inps Y sc :
  0 <= ptind < npar -> npar <= 2 ^ 32 ->
  let r := Convlevel.process_output npar parsize ptind (wrap32 (opind + 1) mod 3)
             (wrap32 (opind + 2) mod 3) inps Y sc in
  output_written npar parsize ptind opind (length sc.2) (length sc.1) inps Y r.1
  /\ length r.2.2 = length sc.2 /\ length r.2.1 = length sc.1.
Proof.
  intros Hp Hn. cbv zeta. unfold Convlevel.process_output. cbn [fst snd].
  set (fd0 := blit sc.2 0 (calloc_complex (wrap32 (parsize + 1)))).
  assert (Hl0 : length fd0 = length sc.2) by apply blit_length.
  assert (Hfd : forall k, length (Convlevel.mac_nodes npar parsize ptind inps (Outnode._list Y) fd0)
                          = length sc.2
                /\ (0 <= k <= parsize -> k < wrap32 (parsize + 1) ->
                    k < Z.of_nat (length sc.2) ->
                    rd c32_zero (Convlevel.mac_nodes npar parsize ptind inps (Outnode._list Y) fd0) k
                    = accumulated_bin npar ptind inps Y k c32_zero)).
  { intros k.
    destruct (mac_nodes_rd npar parsize ptind inps (Outnode._list Y) fd0 k Hp Hn) as (M1 & M2).
    split; [rewrite M1; exact Hl0|]. intros Hk Hw Hlen. rewrite M2, Hl0.
    destruct (Z.leb_spec 0 k); [|lia]. destruct (Z.ltb_spec k (parsize + 1)); [|lia].
    destruct (Z.ltb_spec k (Z.of_nat (length sc.2))); [|lia]. cbn [andb].
    unfold accumulated_bin. f_equal.
    unfold fd0. rewrite blit_head_rd.
    assert (Hc : Z.of_nat (length (calloc_complex (wrap32 (parsize + 1))))
                 = wrap32 (parsize + 1)).
    { unfold calloc_complex. rewrite length_replicate. unfold wrap32.
      pose proof (Z.mod_pos_bound (parsize + 1) (2 ^ 32) ltac:(lia)). lia. }
    rewrite Hc.
    destruct (Z.leb_spec 0 k); [|lia]. destruct (Z.ltb_spec k (wrap32 (parsize + 1))); [|lia].
    destruct (Z.ltb_spec k (Z.of_nat (length sc.2))); [|lia]. cbn [andb].
    apply calloc_complex_rd. }
  split; [|split].
  - exists (Convlevel.mac_nodes npar parsize ptind inps (Outnode._list Y) fd0), sc.1.
    split; [apply (Hfd 0)|]. split; [reflexivity|]. split; [|reflexivity].
    intros k. apply (Hfd k).
  - apply (Hfd 0).
  - apply blit_length.
Qed.

(** The second loop of [process] over the chain of output nodes. *)
Lemma process_outputs_written `{FFTW} npar parsize ptind opind inps outs sc :
  0 <= ptind < npar -> npar <= 2 ^ 32 ->
  Forall2 (output_written npar parsize ptind opind (length sc.2) (length sc.1) inps) outs
          (Convlevel.process_outputs npar parsize ptind (wrap32 (opind + 1) mod 3)
             (wrap32 (opind + 2) mod 3) inps outs sc).1.
Proof.
  intros Hp Hn. unfold Convlevel.process_outputs.
  match goal with |- context [fold_left ?f _ _] => set (step := f) end.
  set (nb := length sc.2). set (nt := length sc.1).
  assert (G : forall outs done sc0,
             length sc0.2 = nb -> length sc0.1 = nt ->
             exists rest, (fold_left step outs (done, sc0)).1 = done ++ rest
                          /\ Forall2 (output_written npar parsize ptind opind nb nt inps)
                                     outs rest).
  { clear outs. induction outs as [|Y outs IH]; intros done sc0 Hb Ht.
    - exists []. simpl. rewrite app_nil_r. split; [reflexivity|constructor].
    - cbn [fold_left]. unfold step at 2. cbv beta iota zeta.
      pose proof (process_output_written npar parsize ptind opind inps Y sc0 Hp Hn) as W.
      cbv zeta in W. rewrite Hb, Ht in W.
      destruct (Convlevel.process_output npar parsize ptind (wrap32 (opind + 1) mod 3)
                  (wrap32 (opind + 2) mod 3) inps Y sc0) as [Y' sc'].
      cbn [fst snd] in W. destruct W as (W1 & W2 & W3).
      destruct (IH (done ++ [Y']) sc' W2 W3) as (rest & Hr & HF). exists (Y' :: rest).
      split.
      + rewrite Hr, <- app_assoc. reflexivity.
      + constructor; [exact W1|exact HF]. }
  destruct (G outs [] sc eq_refl eq_refl) as (rest & Hr & HF). rewrite Hr. exact HF.
Qed.

(** The first loop of [process] keeps the size of [_time_data]. *)
Lemma fft_inputs_length `{FFTW} parsize ptind i1 n1 n2 ib inps td :
  length (Convlevel.fft_inputs parsize ptind i1 n1 n2 ib inps td).2 = length td.
Proof.
  unfold Convlevel.fft_inputs.
  match goal with |- context [fold_left ?f _ _] => set (step := f) end.
  assert (G : forall inps done td0, length (fold_left step inps (done, td0)).2 = length td0).
  { clear inps td. induction inps as [|X inps IH]; intros done td0; [reflexivity|].
    cbn [fold_left]. unfold step at 2. cbv beta iota zeta.
    rewrite IH. rewrite blit_length.
    destruct (n2 =? 0), (n1 =? 0); rewrite ?blit_length; reflexivity. }
  apply G.
Qed.

(** The chain of output nodes that [process] leaves, with the scratch
    arrays it starts from. *)
Lemma process_out_list_scratch `{FFTW} ib L :
  exists td,
    length td = length (Convlevel._time_data L)
    /\ Convlevel._out_list (Convlevel.process ib L)
       = (Convlevel.process_outputs (Convlevel._npar L) (Convlevel._parsize L)
            (Convlevel._ptind L) (wrap32 (Convlevel._opind L + 1) mod 3)
            (wrap32 (Convlevel._opind L + 2) mod 3)
            (Convlevel._inp_list (Convlevel.process ib L)) (Convlevel._out_list L)
            (td, Convlevel._freq_data L)).1.
Proof.
  unfold Convlevel.process.
  pose proof (fft_inputs_length (Convlevel._parsize L) (Convlevel._ptind L)) as Hlen.
  match goal with |- context [Convlevel.fft_inputs ?a ?b ?c ?d ?e ?f ?g ?h] =>
    specialize (Hlen c d e f g h);
    destruct (Convlevel.fft_inputs a b c d e f g h) as [inps td] end.
  exists td. cbn [snd] in Hlen. split; [exact Hlen|].
  destruct (Convlevel.process_outputs _ _ _ _ _ _ _ _) as [outs [td' fd]] eqn:Ho.
  cbn [Convlevel._out_list Convlevel._inp_list Convlevel.set_ptind Convlevel.set_freq_data
       Convlevel.set_time_data Convlevel.set_out_list Convlevel.set_inp_list
       Convlevel.set_inpoffs].
  rewrite Ho. reflexivity.
Qed.

Lemma Forall2_singleton_l {A B} (R : A -> B -> Prop) a l :
  Forall2 R [a] l -> exists b, l = [b] /\ R a b.
Proof.
  intros HF. inversion HF as [|x y l1 l2 HR HF' E1 E2]. subst.
  inversion HF'. subst. exists y. split; [reflexivity|exact HR].
Qed.

(** Claim C8.  In the per-cycle step of a level whose ring index is in
    range, every input node has the forward transform of this cycle in
    slot [_ptind] of its ring.  The loop over the partitions of a
    [Macnode] adds to every bin [k <= _parsize] of [_freq_data], for
    [j = 0 .. _npar - 1] in this order, the complex product of bin [k] of
    the input spectrum in slot [(_ptind - j) mod _npar] with bin [k] of
    partition [j] of the impulse response: partition 0 meets the newest
    block, partition 1 the one before, and so on; the other bins stay.
    Every output node receives the inverse transform of the accumulation
    over its [Macnode]s, which starts from the cleared bins. *)
Theorem process_mac_order `{FFTW} ib L :
  0 <= Convlevel._ptind L < Convlevel._npar L -> Convlevel._npar L <= 2 ^ 32 ->
  let L' := Convlevel.process ib L in
  let npar := Convlevel._npar L in
  let parsize := Convlevel._parsize L in
  let ptind := Convlevel._ptind L in
  Forall2 (slot_written parsize ptind) (Convlevel._inp_list L) (Convlevel._inp_list L')
  /\ (forall ffta M fd k,
        rd c32_zero (Convlevel.mac_partitions npar parsize ptind ffta M fd).2 k
        = if (0 <=? k) && (k <=? parsize) && (k <? Z.of_nat (length fd))
          then mac_bin_by_age npar ptind ffta M k (rd c32_zero fd k)
          else rd c32_zero fd k)
  /\ Forall2 (output_written npar parsize ptind (Convlevel._opind L)
                (length (Convlevel._freq_data L)) (length (Convlevel._time_data L))
                (Convlevel._inp_list L'))
             (Convlevel._out_list L) (Convlevel._out_list L')
  /\ (exists sc,
        Convlevel._out_list L'
        = (Convlevel.process_outputs npar parsize ptind
             (wrap32 (Convlevel._opind L + 1) mod 3) (wrap32 (Convlevel._opind L + 2) mod 3)
             (Convlevel._inp_list L') (Convlevel._out_list L) sc).1)
  /\ (forall opi1 opi2 Y sc,
        (Convlevel.process_output npar parsize ptind opi1 opi2 (Convlevel._inp_list L') Y sc).2.2
        = fold_left
            (fun fd M =>
               mac_by_age npar parsize ptind
                 (default [] (Inpnode._ffta
                                <$> Convlevel.find_inp (Macnode._inpn M)
                                      (Convlevel._inp_list L'))) M fd)
            (Outnode._list Y)
            (blit sc.2 0 (calloc_complex (wrap32 (parsize + 1))))).
Proof.
  intros Hp Hn L' npar parsize ptind. subst L' npar parsize ptind.
  split; [|split; [|split; [|split]]].
  - destruct (process_inp_list ib L) as (i1 & n1 & n2 & ->). apply fft_inputs_slots.
  - intros ffta M fd k. rewrite mac_partitions_by_age by assumption.
    destruct (mac_by_age_rd (Convlevel._npar L) (Convlevel._parsize L) (Convlevel._ptind L)
                ffta M fd k) as (_ & ->).
    destruct (Z.leb_spec k (Convlevel._parsize L)), (Z.ltb_spec k (Convlevel._parsize L + 1));
      try lia; reflexivity.
  - destruct (process_out_list_scratch ib L) as (td & Htd & ->).
    rewrite <- Htd.
    apply (process_outputs_written (Convlevel._npar L) (Convlevel._parsize L)
             (Convlevel._ptind L) (Convlevel._opind L)
             (Convlevel._inp_list (Convlevel.process ib L)) (Convlevel._out_list L)
             (td, Convlevel._freq_data L) Hp Hn).
  - apply process_out_list.
  - intros opi1 opi2 Y sc. unfold Convlevel.process_output. cbn [fst snd].
    apply mac_nodes_by_age; assumption.
Qed.

Lemma process_mac_order_witness :
  rd f32_zero
     (rd [] (Outnode._buff
               (rd (Outnode.new 0 0)
                   (Convlevel._out_list
                      (Convlevel.process (H := fftw_two) [[f32_of_Z 2; f32_zero]]
                                         mac_example)) 0)) 1) 0
  = f32_of_Z 5.
Proof.
  destruct (process_mac_order (H := fftw_two) [[f32_of_Z 2; f32_zero]] mac_example)
    as (_ & _ & H3 & _).
  - simpl. lia.
  - simpl. lia.
  - cbv zeta in H3.
    pose proof (eq_refl : Convlevel._out_list mac_example
                          = [rd (Outnode.new 0 0) (Convlevel._out_list mac_example) 0]) as E0.
    rewrite E0 in H3. clear E0.
    apply Forall2_singleton_l in H3. destruct H3 as (Y' & E & HW).
    rewrite E. change (rd (Outnode.new 0 0) [Y'] 0) with Y'. clear E.
    destruct HW as (fd & td0 & Hfl & Htl & Hb & HY).
    change (length (Convlevel._freq_data mac_example)) with 2%nat in Hfl, Hb.
    change (length (Convlevel._time_data mac_example)) with 2%nat in Htl.
    destruct fd as [|c0 [|c1 [|c2 fd]]]; try discriminate Hfl.
    destruct td0 as [|a [|b [|c td0]]]; try discriminate Htl.
    pose proof (Hb 0 ltac:(simpl; lia) ltac:(vm_compute; reflexivity) ltac:(simpl; lia)) as B0.
    pose proof (Hb 1 ltac:(simpl; lia) ltac:(vm_compute; reflexivity) ltac:(simpl; lia)) as B1.
    change (rd c32_zero [c0; c1] 0) with c0 in B0.
    change (rd c32_zero [c0; c1] 1) with c1 in B1.
    vm_compute in B0. vm_compute in B1. subst c0 c1 Y'.
    vm_compute. reflexivity.
Defined.

(** ** No cycle is late *)

Lemma wait_rd levs k :
  Forall (fun L => Convlevel._wait L <= 1) levs ->
  Convlevel._wait (rd Convlevel.new levs k) <= 1.
Proof.
  intros HF. unfold rd. destruct (k <? 0); [simpl; lia|].
  destruct (levs !! Z.to_nat k) as [L|] eqn:HL; [|simpl; lia].
  cbn [default]. eapply (proj1 (Forall_lookup _ _) HF). exact HL.
Qed.

Lemma Forall_wr {A} (Q : A -> Prop) l k x : Forall Q l -> Q x -> Forall Q (wr l k x).
Proof.
  intros HF Hx. unfold wr. destruct (k <? 0); [exact HF|]. apply Forall_insert; assumption.
Qed.

(** A loop that rewrites one level per turn keeps a property of all the
    levels that each rewrite keeps. *)
Lemma for_upto_levels_Forall (Q : Convlevel.t -> Prop) (idx : Z -> Z)
    (g : Z -> list Convlevel.t -> Convlevel.t) n levs :
  (forall k l, Forall Q l -> Q (g k l)) ->
  Forall Q levs ->
  Forall Q (for_upto n (fun k l => wr l (idx k) (g k l)) levs).
Proof.
  intros Hg HF.
  destruct (Z.le_gt_cases n 0) as [Hn|Hn]; [rewrite for_upto_nonpos by exact Hn; exact HF|].
  rewrite <- (Z2Nat.id n) by lia. generalize (Z.to_nat n) as m. intros m.
  induction m as [|m IH]; [rewrite for_upto_nonpos by lia; exact HF|].
  rewrite for_upto_S. apply Forall_wr; [exact IH|]. apply Hg, IH.
Qed.

Lemma each_level_wait f P :
  (forall L, Convlevel._wait L <= 1 -> Convlevel._wait (f L) <= 1) ->
  Forall (fun L => Convlevel._wait L <= 1) (Convproc._convlev P) ->
  Forall (fun L => Convlevel._wait L <= 1) (Convproc.each_level f P).
Proof.
  intros Hf HF. unfold Convproc.each_level.
  apply (for_upto_levels_Forall _ (fun k => k) (fun k l => f (rd Convlevel.new l k)));
    [|exact HF].
  intros k l Hl. apply Hf, wait_rd, Hl.
Qed.

Lemma over_levels_wait op P :
  (forall ob L, Convlevel._wait L <= 1 -> Convlevel._wait (op ob L).1.2 <= 1) ->
  Forall (fun L => Convlevel._wait L <= 1) (Convproc._convlev P) ->
  Forall (fun L => Convlevel._wait L <= 1) (Convproc.over_levels op P).1.2.
Proof.
  intros Hop HF. unfold Convproc.over_levels.
  set (body := fun (k : Z) '(f, levs, ob) =>
                 let '(r, L, ob0) := op ob (rd Convlevel.new levs k) in
                 (Z.lor f r, wr levs k L, ob0)).
  assert (G : forall (m : nat),
             Forall (fun L => Convlevel._wait L <= 1)
                    (for_upto (Z.of_nat m) body (0, Convproc._convlev P, Convproc._outbuff P)).1.2).
  { induction m as [|m IH]; [rewrite for_upto_nonpos by lia; exact HF|].
    rewrite for_upto_S.
    destruct (for_upto (Z.of_nat m) body (0, Convproc._convlev P, Convproc._outbuff P))
      as [[f levs] ob]. cbn [fst snd] in IH. unfold body at 1.
    specialize (Hop ob (rd Convlevel.new levs (Z.of_nat m)) (wait_rd levs _ IH)).
    destruct (op ob (rd Convlevel.new levs (Z.of_nat m))) as [[r L] ob0].
    cbn [fst snd] in *. apply Forall_wr; assumption. }
  destruct (Z.le_gt_cases (Convproc._nlevels P) 0) as [Hn|Hn].
  - rewrite for_upto_nonpos by exact Hn. exact HF.
  - rewrite <- (Z2Nat.id (Convproc._nlevels P)) by lia. apply G.
Qed.

Lemma alter_macnode_wait inp out f L :
  Convlevel._wait (Convlevel.alter_macnode inp out f L) = Convlevel._wait L.
Proof. unfold Convlevel.alter_macnode. destruct (Convlevel.find_inp _ _); reflexivity. Qed.

Lemma findmacnode_create_wait inp out L :
  Convlevel._wait (Convlevel.findmacnode_create inp out L) = Convlevel._wait L.
Proof.
  unfold Convlevel.findmacnode_create.
  destruct (Convlevel.find_inp _ _); reflexivity.
Qed.

Lemma impdata_write_wait `{FFTW} inp out step data i0 i1 create L :
  Convlevel._wait (Convlevel.impdata_write inp out step data i0 i1 create L)
  = Convlevel._wait L.
Proof.
  unfold Convlevel.impdata_write.
  destruct (_ || _); [reflexivity|].
  set (L1 := if create then Convlevel.findmacnode_create inp out L else L).
  assert (H1 : Convlevel._wait L1 = Convlevel._wait L).
  { subst L1. destruct create; [apply findmacnode_create_wait|reflexivity]. }
  destruct (Convlevel.findmacnode inp out L1) as [M|]; [|exact H1].
  destruct (Macnode._link M); [exact H1|].
  set (L2 := if _ && _ then _ else L1).
  assert (H2 : Convlevel._wait L2 = Convlevel._wait L).
  { subst L2. destruct (_ && _); [rewrite alter_macnode_wait|]; exact H1. }
  destruct (_ ≫= _) as [fftbs|]; [|exact H2].
  destruct (for_upto _ _ _) as [[[i fs] prep] freq].
  cbn [Convlevel._wait Convlevel.set_freq_data Convlevel.set_prep_data].
  rewrite alter_macnode_wait. exact H2.
Qed.

Lemma impdata_clear_wait inp out L :
  Convlevel._wait (Convlevel.impdata_clear inp out L) = Convlevel._wait L.
Proof.
  unfold Convlevel.impdata_clear.
  destruct (Convlevel.findmacnode inp out L) as [M|]; [|reflexivity].
  destruct (Macnode._link M); [reflexivity|].
  destruct (Macnode._fftb M); [|reflexivity].
  apply alter_macnode_wait.
Qed.

Lemma main_turn_wait `{FFTW} ib L :
  Convlevel._wait (Convlevel.main_turn ib L) = Convlevel._wait L.
Proof.
  unfold Convlevel.main_turn. destruct (decide _); [reflexivity|].
  cbn [Convlevel._wait Convlevel.set_done].
  destruct (process_wait_bits ib (Convlevel.set_trig (Z.max 0 (Convlevel._trig L - 1)) L))
    as [-> _]. reflexivity.
Qed.

(** No operation of a level, and no step of its worker, brings [_wait]
    above 1: the audio thread consumes every pending wait before it hands
    the next cycle to the worker. *)
Lemma level_exec_small_wait `{FFTW} op L :
  Convlevel._wait L <= 1 -> Convlevel._wait (level_exec op L) <= 1.
Proof.
  intros Hw. destruct op; cbn [level_exec].
  - exact Hw.
  - rewrite impdata_write_wait. exact Hw.
  - rewrite impdata_clear_wait. exact Hw.
  - cbn. lia.
  - exact Hw.
  - unfold Convlevel.stop. destruct (decide _); exact Hw.
  - exact Hw.
  - exact Hw.
  - rewrite main_turn_wait. exact Hw.
  - destruct (process_wait_bits inpbuff L) as [-> _]. exact Hw.
  - apply readout_small_wait. exact Hw.
  - unfold Convlevel.readtail. cbn [fst snd]. destruct (_ =? _); [cbn; lia|exact Hw].
Qed.

Lemma plan_levels_wait fuel alloc maxsize maxpart options step cfft cmac :
  forall offs size prio s nmin levs r,
    Forall (fun L => Convlevel._wait L <= 1) levs ->
    Convproc.plan_levels fuel alloc maxsize maxpart options step cfft cmac
                         offs size prio s nmin levs = Some (Some r) ->
    Forall (fun L => Convlevel._wait L <= 1) r.1.
Proof.
  induction fuel as [|fuel IH]; intros offs size prio s nmin levs r HF Hr;
    cbn [Convproc.plan_levels] in Hr.
  - destruct (offs <? maxsize); [discriminate Hr|]. injection Hr as <-. exact HF.
  - destruct (offs <? maxsize); [|injection Hr as <-; exact HF].
    destruct (Convproc.level_ok alloc _); [|discriminate Hr].
    assert (HF' : forall L, Convlevel._wait L = 0 ->
                    Forall (fun L => Convlevel._wait L <= 1) (levs ++ [L])).
    { intros L HL. apply Forall_app. split; [exact HF|]. constructor; [lia|constructor]. }
    destruct (_ <? maxsize); eapply IH; try exact Hr; apply HF'; reflexivity.
Qed.

Lemma on_time_not_late P : on_time P -> ~ late_cycle P.
Proof.
  intros [HF _] (k & _ & Hne). apply Hne, late_flag_small_wait, wait_rd, HF.
Qed.

Lemma reset_on_time P : on_time P -> on_time (Convproc.reset P).2.
Proof.
  intros [HF Hl]. unfold Convproc.reset. destruct (bool_decide _); [split; assumption|].
  split; [|exact Hl]. cbn [snd Convproc._convlev].
  apply each_level_wait; [|exact HF]. intros L _. cbn. lia.
Qed.

Lemma stop_process_on_time force P : on_time P -> on_time (Convproc.stop_process force P).2.
Proof.
  intros [HF Hl]. unfold Convproc.stop_process. destruct (_ && _); [split; assumption|].
  split; [|exact Hl]. cbn [snd Convproc._convlev Convproc.set_state Convproc.set_convlev].
  apply each_level_wait; [|exact HF].
  intros L HL. unfold Convlevel.stop. destruct (decide _); exact HL.
Qed.

Lemma check_stop_on_time P : on_time P -> on_time (Convproc.check_stop P).2.
Proof.
  intros HP. unfold Convproc.check_stop. destruct (forallb _ _); exact HP.
Qed.

Lemma await_stop_on_time `{FFTW} P : on_time P -> on_time (Convproc.await_stop P).
Proof.
  intros [HF Hl]. unfold Convproc.await_stop. apply check_stop_on_time.
  split; [|exact Hl]. cbn [Convproc._convlev Convproc.set_convlev].
  apply each_level_wait; [|exact HF].
  intros L HL. destruct (decide _); [rewrite main_turn_wait|]; exact HL.
Qed.

Lemma cleanup_on_time P : on_time (Convproc.cleanup P).
Proof. split; [constructor|reflexivity]. Qed.

Lemma restart_process_on_time `{FFTW} created P :
  on_time P -> on_time (Convproc.restart_process created P).2.
Proof.
  intros HP. unfold Convproc.restart_process.
  destruct (bool_decide (Convproc._state P = Convproc.ST_IDLE)); [exact HP|].
  set (P1 := if bool_decide _ then _ else P).
  assert (H1 : on_time P1).
  { subst P1. destruct (bool_decide _); [|exact HP].
    apply await_stop_on_time, stop_process_on_time, HP. }
  set (P2 := Convproc.set_outoffs 0 (Convproc.set_inpoffs 0 (Convproc.set_latecnt 0 P1))).
  assert (H2 : on_time P2) by (destruct H1 as [HF _]; split; [exact HF|reflexivity]).
  pose proof (reset_on_time P2 H2) as H3.
  destruct (forallb _ _); cbn [snd].
  - destruct H3 as [HF Hl]. split; [|exact Hl].
    cbn [Convproc._convlev Convproc.set_state Convproc.set_convlev].
    apply (for_upto_levels_Forall _
             (fun i => Convproc.first_worker (Convproc.reset P2).2 + i)
             (fun i l => Convlevel.main_enter
                           (rd Convlevel.new l
                               (Convproc.first_worker (Convproc.reset P2).2 + i))));
      [|exact HF].
    intros k l Hl'. apply (wait_rd l _ Hl').
  - apply cleanup_on_time.
Qed.

Lemma configure_on_time `{ZetaHeader} alloc ninp nout maxsize quantum minpart maxpart density
    P r :
  on_time P ->
  Convproc.configure alloc ninp nout maxsize quantum minpart maxpart density P = Some r ->
  on_time r.2.
Proof.
  intros HP. unfold Convproc.configure.
  destruct (negb _); [intros [= <-]; exact HP|].
  destruct (Convproc.bad_param _ _ _ _ _); [intros [= <-]; exact HP|].
  cbv zeta.
  destruct (Convproc.grow_to_minpart _ _ _ _) as [[prio size]|]; [|discriminate].
  cbn [mbind option_bind].
  destruct (Convproc.plan_levels _ _ _ _ _ _ _ _ _ _ _ _ _ _) as [[[levs sz]|]|] eqn:Hplan;
    cbn [mbind option_bind]; [| |discriminate].
  - pose proof (plan_levels_wait _ _ _ _ _ _ _ _ _ _ _ _ _ _ _ ltac:(constructor) Hplan) as HF.
    cbn [fst] in HF.
    destruct (Convproc.buffers_ok alloc); intros [= <-].
    + split; [exact HF|reflexivity].
    + apply cleanup_on_time.
  - intros [= <-]. apply cleanup_on_time.
Qed.

Lemma process_on_time `{ZetaHeader} `{FFTW} P :
  on_time P ->
  on_time (Convproc.process P).2 /\ (Convproc.process P).1 = 0
  /\ Convproc._state (Convproc.process P).2 = Convproc._state P.
Proof.
  intros HP. unfold Convproc.process.
  destruct (negb _); [split; [exact HP|split; reflexivity]|].
  cbn [Convproc._outoffs Convproc.set_outoffs Convproc.set_inpoffs Convproc._quantum
       Convproc._minpart Convproc._nout Convproc._outbuff Convproc.set_outbuff].
  destruct (_ =? Convproc._minpart P).
  2:{ split; [|split; reflexivity]. destruct HP as [HF Hl]. split; assumption. }
  match goal with |- context [Convproc.readouts ?P0] => set (Q0 := P0) end.
  assert (HQ : on_time Q0) by (destruct HP as [HF Hl]; split; assumption).
  pose proof (proj2 (readouts_flags Q0) (on_time_not_late Q0 HQ)) as Hf.
  pose proof (over_levels_wait (Convlevel.readout (Convproc._inpbuff Q0)) Q0
                (fun ob L => readout_small_wait (Convproc._inpbuff Q0) ob L) (proj1 HQ)) as Hw.
  unfold Convproc.readouts in *.
  destruct (Convproc.over_levels _ Q0) as [[f levs] ob]. cbn [fst snd] in Hf, Hw.
  subst f. cbn [negb Z.eqb fst snd].
  split; [split; [exact Hw|reflexivity]|]. split; reflexivity.
Qed.

Lemma tailonly_on_time n P : on_time P -> on_time (Convproc.tailonly n P).2.
Proof.
  intros HP. unfold Convproc.tailonly.
  destruct (negb _); [exact HP|]. destruct (_ =? _); [|exact HP].
  unfold Convproc.readtails.
  match goal with |- context [Convproc.over_levels _ ?P0] => set (Q0 := P0) end.
  assert (HQ : on_time Q0) by (destruct HP as [HF Hl]; split; assumption).
  pose proof (over_levels_wait (Convlevel.readtail n) Q0) as Hw.
  destruct (Convproc.over_levels _ Q0) as [[f levs] ob]. cbn [fst snd] in *.
  split; [|exact (proj2 HQ)]. apply Hw; [|exact (proj1 HQ)].
  intros ob0 L HL. unfold Convlevel.readtail. cbn [fst snd].
  destruct (_ =? _); [cbn; lia|exact HL].
Qed.

Lemma proc_exec_on_time `{ZetaHeader} `{FFTW} op P : on_time P -> on_time (proc_exec op P).
Proof.
  intros HP. destruct op; cbn [proc_exec].
  - exact HP.
  - destruct (Convproc.configure _ _ _ _ _ _ _ _ P) as [[st P']|] eqn:Hc; [|exact HP].
    apply (configure_on_time _ _ _ _ _ _ _ _ _ _ HP Hc).
  - apply reset_on_time, HP.
  - unfold Convproc.start_process. destruct (negb _); [exact HP|].
    apply restart_process_on_time, HP.
  - apply restart_process_on_time, HP.
  - apply process_on_time, HP.
  - apply tailonly_on_time, HP.
  - apply stop_process_on_time, HP.
  - apply check_stop_on_time, HP.
  - apply cleanup_on_time.
  - destruct HP as [HF Hl]. split; [|exact Hl].
    cbn [Convproc._convlev Convproc.set_convlev].
    apply Forall_wr; [exact HF|]. apply level_exec_small_wait, wait_rd, HF.
Qed.

Lemma proc_run_on_time `{ZetaHeader} `{FFTW} ops : on_time (proc_run ops).
Proof.
  unfold proc_run.
  assert (G : forall P, on_time P -> on_time (fold_left (fun P op => proc_exec op P) ops P)).
  { induction ops as [|op ops IH]; intros P HP; [exact HP|].
    cbn [fold_left]. apply IH, proc_exec_on_time, HP. }
  apply G. split; [constructor|reflexivity].
Qed.

(** Claim C7, amended.  From the construction of the convolver on, under
    any sequence of its operations and of steps of the workers of its
    levels, no level's readout reports lateness: [readout] has consumed
    every pending wait before it hands the next cycle to the worker, so it
    waits for a worker that has not finished instead of counting it.  The
    late counter is 0 and stays 0, [process] returns 0 (with no [FL_LOAD]
    in it) and leaves the state of the convolver as it is: the convolver
    never stops itself for lateness, whatever its options.  A boundary
    cycle in which a worker is behind is such a cycle. *)
Theorem process_never_late `{H : ZetaHeader} `{F : FFTW} ops :
  let P := proc_run ops in
  (forall k, late_flag (rd Convlevel.new (Convproc._convlev P) k) = 0)
  /\ (forall ib ob k,
        (Convlevel.readout ib ob (rd Convlevel.new (Convproc._convlev P) k)).1.1 = 0)
  /\ Convproc._latecnt P = 0
  /\ (Convproc.process P).1 = 0
  /\ Convproc._latecnt (Convproc.process P).2 = 0
  /\ Convproc._state (Convproc.process P).2 = Convproc._state P.
Proof.
  cbv zeta. pose proof (proc_run_on_time ops) as HP.
  destruct (process_on_time (proc_run ops) HP) as ([_ Hl'] & Hf & Hs).
  split; [|split; [|split; [|split; [|split]]]].
  - intros k. apply late_flag_small_wait, wait_rd, HP.
  - intros ib ob k. rewrite readout_flag. apply late_flag_small_wait, wait_rd, HP.
  - apply HP.
  - exact Hf.
  - exact Hl'.
  - exact Hs.
Qed.

(** Claim C7 as stated fails: the convolver of [behind_example] runs, the
    cycle ends a period of level 1, and the worker of level 1 has not
    finished the cycle handed to it; the late counter, at 0, is not
    incremented. *)
Lemma late_policy_as_specified_counterexample :
  ~ late_policy_as_specified (H := zita4) (H0 := fftw_null) behind_example.
Proof.
  intros Hc.
  assert (Hu : unfinished_cycle behind_example).
  { exists 1. split; [vm_compute; split; [intro; discriminate|reflexivity]|].
    cbv zeta. split; [vm_compute; reflexivity|].
    split; [vm_compute; reflexivity|vm_compute; reflexivity]. }
  specialize (Hc eq_refl eq_refl Hu). vm_compute in Hc. discriminate Hc.
Qed.
